(* ===== verification/_CoqProject ===== *)
-Q . S2P
Prelude.v
Kmonad.v
Spinlock.v
Kalloc.v
Cstring.v
Monitor.v
Pipe.v
Proc.v
Block.v
Ide.v
Bio.v
FsLayout.v
Fs.v
FsLogic.v
FsImage.v
FsAlloc.v
FsFile.v
FsInode.v
FsTrunc.v
FsDir.v
Segment.v
File.v
Syscall.v
Process.v
Exec.v
Sysfile.v
Console.v
ConsoleSpec.v
Irq.v
Net.v
Ne.v
NeSpec.v
Trap.v
Machine.v
FileRefs.v
ProcessSpec.v
ExecSpec.v
SysfileSpec.v
TrapSpec.v
User.v
Coreutils.v
Grep.v
Shell.v
ShellSpec.v
ShellPrint.v
ShellRun.v
Mkfs.v
MkfsSpec.v
Umalloc.v
Boot.v
Start.v
StartSpec.v
Usertests.v
System.v
