(* ===== verification/Prelude.v ===== *)
(** * xv6 with an Ethernet driver: a verification development

    The program is the xv6 teaching kernel for the PC, with a driver for NE2000
    Ethernet cards, its user programs, and mkfs, which builds the disk image on
    the host.  Paths below are relative to src/.

    ** How the code is written here

    A kernel function is a computation of [Kmonad]: a function from the state of
    its component to an outcome that returns, panics, runs out of the fuel of a
    loop, or stops at an event (a spin lock, sleep and wakeup, an I/O port, a
    device register, a message to the console, the switch to another process) and
    goes on with the answer and with the state that the rest of the machine has
    left.  C integers are [Z] with the wrap-around of their width written out
    ([u8], [u16], [u32], [i16], [i32]); bytes are [list Z], structs are records,
    pointers into a table are indices, pointers into memory are addresses.  A user
    program is a tree of system calls ([User.prog]).

    ** The parts and where they are

    The kernel from the bottom up.
    - [Spinlock]: spinlock.c.  [Cli] is the interrupt state of a processor, [Smp]
      runs acquire and release on several processors instruction by instruction,
      [Discipline] relates the lock events of [Kmonad] to the code.
    - [Kalloc]: kalloc.c, the page allocator, with its list threaded through the
      free memory.  [Cstring]: string.c.
    - [Monitor]: threads that share a state under one lock; the reasoning that
      [Pipe] (pipe.c) uses for its readers, writers and closers.
    - [Proc]: the process table and the scheduler of proc.c.  [Sys] interleaves
      processes and processors.  [Segment]: mmu.h, ksegment, usegment, tvinit.
    - [Ide]: ide.c against the ports of an ATA disk (class [AtaDisk]).  [Bio]:
      bio.c, the buffer cache.  [Block] is the interface between them and the
      file system: a class of operations with laws, which [Bio] implements and
      which the file system is verified against.
    - [FsLayout], [Fs]: fs.h and fs.c.  [FsLogic] has total-correctness triples
      for file-system code, [FsAlloc] the block allocator, [FsFile] bmap, readi
      and writei, [FsInode] the inode cache, [FsTrunc] itrunc and iput, [FsDir]
      directories and paths; [FsImage] is a small disk for the examples.
    - [File]: file.c and pipealloc.  [Syscall]: the arguments of system calls.
      [Process]: growproc, fork, userinit, exit and sysproc.c.  [Exec]: exec.c.
      [Sysfile]: sysfile.c.  [Trap]: the system call table, trap.c and procdump.
    - [Console]: console.c, uart.c and kbd.c.  [Irq]: lapic.c, ioapic.c,
      picirq.c, timer.c and mp.c.  [Net]: net/net.c.  [Ne]: eth/ne.c and
      eth/eth.c.
    The user programs.
    - [User]: the stubs of usys.S, ulib.c and printf.c.  [Coreutils]: cat, wc,
      echo, ls, mkdir, rm, ln, kill, init, zombie and forktest.  [Grep]: grep.c.
      [Shell]: sh.c.  [Umalloc]: umalloc.c.
    The tools around the kernel.
    - [Mkfs]: mkfs.c.  [Boot]: bootmain.c, the boot loader.  [Start]: main.c with
      all the initialisers it calls, over the state of the whole kernel.
    The whole system.
    - [Usertests]: usertests.c.  [System] runs user programs as processes of the
      kernel of [Trap]: system calls with their arguments in memory, timer
      interrupts, sleeping and waking, down to the ports of the disk.

    ** What the theorems show

    - Memory: kalloc and kfree refine a sorted list of free extents with first fit
      and merging; sbrk moves a process to memory that was free and changes
      nothing else ([ProcessSpec]); a user access reaches exactly the memory of
      its process ([Segment]); the stack that exec builds is the one main expects
      ([ExecSpec]).
    - Concurrency: spin locks exclude each other in every interleaving of their
      instructions; pipes are first in first out and lose no wakeup under every
      schedule of their users; the process table keeps its invariant in every
      state that processors and processes reach.
    - Disk: the cache over the driver over any ATA disk implements [Block].
    - Files: writei changes the bytes it was asked to and nothing else, readi
      gives them back, bmap and balloc take free blocks only, iput frees what a
      file owned, directories find what was linked; all of it for every block
      layer, total, with the panics named.
    - System calls: read through a descriptor, the checks of arguments, the
      reference counts of open files over all system calls ([FileRefs]), the
      return to a process that was killed ([TrapSpec]).
    - Devices: the line editor of the console ([ConsoleSpec]), sending and
      receiving packets on a model of the DP8390 ([NeSpec]), checksums, the MP
      tables and the interrupt controllers.
    - Programs: the parser of the shell ends on every line and is the inverse of a
      printer ([ShellSpec], [ShellPrint]), a command line starts the programs it
      asks for with the right descriptors ([ShellRun]); grep's matcher decides the
      language of the pattern; wc counts and cat copies whatever the sizes of the
      reads; ls stays inside its buffer; malloc
      hands out memory that was free or is new and keeps the ring of free blocks
      in order ([Umalloc]).
    - mkfs: the image it makes satisfies the invariants that the theorems on the
      kernel's file system start from ([MkfsSpec]).
    - The boot loader puts each segment of the kernel where its program header
      says, for any ATA disk ([Boot]).
    - The start: on any machine with an MP table of the kind main.c relies on and
      with ATA disks, main reaches the scheduler, with the invariants that the
      theorems on processes, files, the cache and memory start from, and with the
      other processors started on stacks of their own ([StartSpec]).
    - The whole: twenty tests of usertests.c pass, on the kernel and on the disk
      that mkfs makes, with processes that fork, sleep, are killed and are
      waited for ([System]).
    Some theorems record what goes wrong: a negative count passes argptr, sbrk of
    part of a page panics the kernel, kill(0) marks an unused slot, balloc hands
    out blocks past the end of the disk, a killed writer strands the readers of a
    pipe, grep takes stale bytes for input, 16-bit transfers of the Ethernet card
    overrun their buffer.

    ** Fuel and bounds

    A loop that is not structural takes fuel.  Loops over tables get the size of
    the table; readi, writei and dirlookup get the number of blocks of the largest
    file; parsecmd gets four times the length of the line; the loops of mkfs get
    the length of the data.  That this is enough is part of the theorems, which
    are total.  Loops that wait for a device or for another process (idewait,
    sleep loops, the main loop of the shell) take the fuel as a parameter, and
    theorems about them say how much is enough (for a disk that gets ready after
    [maxpoll] reads of its status, for instance) or hold for all of it.

    ** What is not modelled

    Assembly (bootasm.S, bootother.S, entry of traps, swtch, initcode.S): the
    switch is an event, the trap frame a record, and the processors that
    bootothers starts are a model of their effect ([StartSpec.hardware]).  The
    machine code of user programs: a program is its system calls, so that
    [System] does not go on after an exec that succeeds, and puts into memory
    only what a call refers to; it runs one processor, interrupts a process after
    its system calls only, and collects what is written to descriptor 1 instead
    of calling the console.  Of the tests of usertests.c the theorem leaves out
    exectest, which ends in machine code, twofiles and bigdir, whose evaluation
    is long, and dirtest, which main does not call.  The structs of net.h that no
    code uses, microdelay, which is an empty loop, and memset of ulib.c. *)
From stdpp Require Export prelude gmap strings list.
From stdpp Require Import options.

#[global] Open Scope Z_scope.

(** ** Machine integers

    C integers are [Z]; every arithmetic operation that can leave the width of
    its C type is followed by the wrap-around of that type. *)

Definition u8 (x : Z) : Z := x mod 256.
Definition u16 (x : Z) : Z := x mod 65536.
Definition u32 (x : Z) : Z := x mod 4294967296.
Definition i32 (x : Z) : Z := (x + 2147483648) mod 4294967296 - 2147483648.
Definition i16 (x : Z) : Z := (x + 32768) mod 65536 - 32768.

(** Range predicates of the C types. *)
Definition is_byte (x : Z) : Prop := 0 <= x < 256.
Definition is_u32 (x : Z) : Prop := 0 <= x < 4294967296.

#[global] Instance is_byte_dec x : Decision (is_byte x).
Proof. unfold is_byte. apply _. Defined.

(** ** Byte strings

    A byte string is a [list Z] of values below 256; [byte_at] reads one byte,
    [splice] overwrites a range the way memmove into an array does, and
    [get16]/[get32]/[put16]/[put32] are little-endian field accesses. *)

Abbreviation bytes := (list Z).

Definition byte_at (l : bytes) (i : nat) : Z := nth i l 0.

Definition splice {A} (l : list A) (off : nat) (new : list A) : list A :=
  take off l ++ new ++ drop (off + length new)%nat l.

Definition slice {A} (l : list A) (off n : nat) : list A := take n (drop off l).

Fixpoint le_dec (l : bytes) : Z :=
  match l with
  | [] => 0
  | b :: r => b + 256 * le_dec r
  end.

Fixpoint le_enc (n : nat) (x : Z) : bytes :=
  match n with
  | O => []
  | S m => x mod 256 :: le_enc m (x / 256)
  end.

Definition get16 (l : bytes) (off : nat) : Z := le_dec (slice l off 2).
Definition get32 (l : bytes) (off : nat) : Z := le_dec (slice l off 4).
Definition put16 (l : bytes) (off : nat) (x : Z) : bytes := splice l off (le_enc 2 x).
Definition put32 (l : bytes) (off : nat) (x : Z) : bytes := splice l off (le_enc 4 x).

(** The characters of a string literal. *)
Definition chars (s : string) : bytes :=
  (fun a => Z.of_nat (Ascii.nat_of_ascii a)) <$> String.list_ascii_of_string s.

Definition b2z (b : bool) : Z := if b then 1 else 0.

(** ** Tactics and hint databases *)

(** [xv6] collects the lemmas that close the routine side conditions. *)
Create HintDb xv6.

(** Turn boolean comparisons of the code into propositions. *)
Ltac bool_prop :=
  repeat match goal with
  | H : (_ && _)%bool = true |- _ => apply andb_prop in H; destruct H
  | H : (_ || _)%bool = false |- _ => apply orb_false_elim in H; destruct H
  | H : negb _ = true |- _ => apply negb_true_iff in H
  | H : negb _ = false |- _ => apply negb_false_iff in H
  | H : (_ =? _) = true |- _ => apply Z.eqb_eq in H
  | H : (_ =? _) = false |- _ => apply Z.eqb_neq in H
  | H : (_ <? _) = true |- _ => apply Z.ltb_lt in H
  | H : (_ <? _) = false |- _ => apply Z.ltb_ge in H
  | H : (_ <=? _) = true |- _ => apply Z.leb_le in H
  | H : (_ <=? _) = false |- _ => apply Z.leb_gt in H
  | H : (_ =? _)%nat = true |- _ => apply Nat.eqb_eq in H
  | H : (_ =? _)%nat = false |- _ => apply Nat.eqb_neq in H
  | H : (_ <? _)%nat = true |- _ => apply Nat.ltb_lt in H
  | H : (_ <? _)%nat = false |- _ => apply Nat.ltb_ge in H
  | H : bool_decide _ = true |- _ => apply bool_decide_eq_true in H
  | H : bool_decide _ = false |- _ => apply bool_decide_eq_false in H
  end.

(** Case analysis on the scrutinee of an [if] or [match] of the goal. *)
Ltac casem :=
  match goal with
  | |- context [if ?b then _ else _] =>
      lazymatch type of b with
      | bool => let E := fresh "E" in destruct b eqn:E
      | _ => let E := fresh "E" in destruct b as [E|E]
      end; bool_prop
  end.

(** [lia] with division and remainder by constants. *)
Ltac dlia := Z.to_euclidean_division_equations; lia.

Ltac lens :=
  repeat (rewrite ?length_app, ?length_take, ?length_drop, ?length_insert,
            ?length_replicate, ?length_fmap, ?length_map in *; simpl length in *).

(** ** Integer lemmas *)

Lemma u32_small x : 0 <= x < 4294967296 -> u32 x = x.
Proof. intros. unfold u32. by apply Z.mod_small. Qed.

Lemma u32_range x : 0 <= u32 x < 4294967296.
Proof. unfold u32. by apply Z.mod_pos_bound. Qed.

Lemma u16_range x : 0 <= u16 x < 65536.
Proof. unfold u16. by apply Z.mod_pos_bound. Qed.

Lemma i32_small x : -2147483648 <= x < 2147483648 -> i32 x = x.
Proof. intros. unfold i32. rewrite Z.mod_small; lia. Qed.

Lemma i32_range x : -2147483648 <= i32 x < 2147483648.
Proof.
  unfold i32.
  pose proof (Z.mod_pos_bound (x + 2147483648) 4294967296 ltac:(lia)). lia.
Qed.

Lemma i16_small x : -32768 <= x < 32768 -> i16 x = x.
Proof. intros. unfold i16. rewrite Z.mod_small; lia. Qed.

Lemma u32_add_l x y : u32 (u32 x + y) = u32 (x + y).
Proof. unfold u32. by rewrite Zplus_mod_idemp_l. Qed.

Lemma u32_sub x y : u32 (u32 x - y) = u32 (x - y).
Proof. unfold u32. by rewrite Zminus_mod_idemp_l. Qed.

#[export] Hint Resolve u32_range u16_range i32_range : xv6.

(** A single-bit mask tests one bit. *)
Lemma land_mask_0 x k : 0 <= k -> Z.land x (Z.shiftl 1 k) = 0 <-> Z.testbit x k = false.
Proof.
  intros Hk. rewrite Z.shiftl_1_l. split.
  - intros H. apply (f_equal (fun z => Z.testbit z k)) in H.
    rewrite Z.land_spec, Z.pow2_bits_true, Z.bits_0, andb_true_r in H by lia. done.
  - intros H. apply Z.bits_inj'. intros i Hi.
    rewrite Z.land_spec, Z.bits_0. destruct (decide (k = i)) as [->|].
    + by rewrite H.
    + rewrite Z.pow2_bits_false by lia. apply andb_false_r.
Qed.

Lemma testbit_set x k i :
  0 <= k -> 0 <= i -> Z.testbit (Z.lor x (Z.shiftl 1 k)) i = (Z.testbit x i || (i =? k)).
Proof.
  intros. rewrite Z.lor_spec, Z.shiftl_1_l. f_equal.
  destruct (Z.eqb_spec i k) as [->|]; [apply Z.pow2_bits_true|apply Z.pow2_bits_false]; lia.
Qed.

Lemma testbit_clear x k i :
  0 <= k -> 0 <= i ->
  Z.testbit (Z.land x (Z.lnot (Z.shiftl 1 k))) i = (Z.testbit x i && negb (i =? k)).
Proof.
  intros. rewrite Z.land_spec, Z.lnot_spec, Z.shiftl_1_l by lia. do 2 f_equal.
  destruct (Z.eqb_spec i k) as [->|]; [apply Z.pow2_bits_true|apply Z.pow2_bits_false]; lia.
Qed.

(** A number put above the low [k] bits. *)
Lemma lor_shiftl k a b : 0 < k -> 0 <= b < 2 ^ k -> Z.lor (Z.shiftl a k) b = 2 ^ k * a + b.
Proof.
  intros Hk Hb. assert (Z.land (Z.shiftl a k) b = 0) as H0.
  - apply Z.bits_inj'. intros n Hn. rewrite Z.land_spec, Z.bits_0.
    destruct (decide (n < k)); [by rewrite Z.shiftl_spec_low|].
    rewrite (Z.bits_above_log2 b), andb_false_r; [done|lia|].
    destruct (decide (b = 0)) as [->|]; [simpl; lia|].
    apply Z.log2_lt_pow2; [lia|]. apply Z.lt_le_trans with (2 ^ k); [lia|].
    apply Z.pow_le_mono_r; lia.
  - rewrite <- Z.lxor_lor, <- Z.add_nocarry_lxor, Z.shiftl_mul_pow2 by (done || lia). lia.
Qed.

(** ** Byte-string lemmas *)

Section Splice.
Context {A : Type}.
Implicit Types l new : list A.

Lemma length_splice l off new :
  (off + length new <= length l)%nat -> length (splice l off new) = length l.
Proof. intros. unfold splice. lens. lia. Qed.

Lemma lookup_splice_in l off new i :
  (off + length new <= length l)%nat -> (off <= i < off + length new)%nat ->
  splice l off new !! i = new !! (i - off)%nat.
Proof.
  intros. unfold splice. rewrite lookup_app_r by (lens; lia). lens.
  rewrite lookup_app_l by lia. f_equal. lia.
Qed.

Lemma lookup_splice_out l off new i :
  (off + length new <= length l)%nat -> (i < off \/ off + length new <= i)%nat ->
  splice l off new !! i = l !! i.
Proof.
  intros H [Hi|Hi]; unfold splice.
  - rewrite lookup_app_l by (lens; lia). by rewrite lookup_take_lt.
  - rewrite lookup_app_r by (lens; lia). lens.
    rewrite lookup_app_r by lia. rewrite lookup_drop. f_equal. lia.
Qed.

Lemma length_slice l off n : (off + n <= length l)%nat -> length (slice l off n) = n.
Proof. intros. unfold slice. lens. lia. Qed.

Lemma lookup_slice l off n i :
  (i < n)%nat -> slice l off n !! i = l !! (off + i)%nat.
Proof. intros. unfold slice. rewrite lookup_take_lt by lia. by rewrite lookup_drop. Qed.

Lemma slice_splice_same l off new :
  (off + length new <= length l)%nat -> slice (splice l off new) off (length new) = new.
Proof.
  intros. apply list_eq. intros i. destruct (decide (i < length new)%nat).
  - rewrite lookup_slice by lia. rewrite lookup_splice_in by lia. f_equal. lia.
  - rewrite !lookup_ge_None_2; [done|lia|].
    rewrite length_slice; [lia|rewrite length_splice; lia].
Qed.

Lemma slice_splice_other l off new off' n :
  (off + length new <= length l)%nat ->
  (off' + n <= off \/ off + length new <= off')%nat ->
  slice (splice l off new) off' n = slice l off' n.
Proof.
  intros. apply list_eq. intros i. destruct (decide (i < n)%nat).
  - rewrite !lookup_slice by lia. apply lookup_splice_out; lia.
  - unfold slice. rewrite !lookup_take_ge; [done|lia|lia].
Qed.

Lemma splice_slice_id l off n :
  (off + n <= length l)%nat -> splice l off (slice l off n) = l.
Proof.
  intros. apply list_eq. intros i.
  pose proof (length_slice l off n ltac:(lia)).
  destruct (decide (off <= i < off + n)%nat).
  - rewrite lookup_splice_in by lia. rewrite lookup_slice by lia. f_equal. lia.
  - rewrite lookup_splice_out by lia. done.
Qed.

Lemma splice_splice_same l off new new' :
  length new = length new' -> (off + length new <= length l)%nat ->
  splice (splice l off new) off new' = splice l off new'.
Proof.
  intros E H. apply list_eq. intros i.
  assert (off + length new' <= length (splice l off new))%nat
    by (rewrite length_splice; lia).
  destruct (decide (off <= i < off + length new')%nat).
  - rewrite !lookup_splice_in by lia. done.
  - rewrite !lookup_splice_out by lia. done.
Qed.
End Splice.

Lemma length_le_enc n x : length (le_enc n x) = n.
Proof. revert x. induction n; intros; simpl; auto. Qed.

Lemma le_enc_bytes n x : Forall is_byte (le_enc n x).
Proof.
  revert x. induction n; intros; simpl; constructor; auto.
  apply Z.mod_pos_bound. lia.
Qed.

Lemma le_dec_enc n x : le_dec (le_enc n x) = x mod 256 ^ Z.of_nat n.
Proof.
  revert x. induction n as [|n IH]; intros x; simpl le_enc; simpl le_dec.
  - by rewrite Z.mod_1_r.
  - rewrite IH, Nat2Z.inj_succ, Z.pow_succ_r by lia.
    rewrite Z.rem_mul_r by lia. done.
Qed.

Lemma le_dec_range l : Forall is_byte l -> 0 <= le_dec l < 256 ^ Z.of_nat (length l).
Proof.
  induction 1 as [|b l Hb _ IH]; simpl le_dec; [simpl; lia|].
  simpl length. rewrite Nat2Z.inj_succ, Z.pow_succ_r by lia. unfold is_byte in Hb. nia.
Qed.

Lemma le_enc_dec l : Forall is_byte l -> le_enc (length l) (le_dec l) = l.
Proof.
  induction 1 as [|b l Hb _ IH]; simpl; [done|]. unfold is_byte in Hb.
  rewrite Z.mul_comm, Z.mod_add, Z.mod_small by lia.
  rewrite Z.div_add, Z.div_small, Z.add_0_l by lia. by rewrite IH.
Qed.

Section Fields.
Variable l : bytes.

Lemma get16_put16 off x :
  (off + 2 <= length l)%nat -> get16 (put16 l off x) off = u16 x.
Proof.
  intros. unfold get16, put16.
  pose proof (slice_splice_same l off (le_enc 2 x)) as E.
  rewrite length_le_enc in E. rewrite E by lia. by rewrite le_dec_enc.
Qed.

Lemma get32_put32 off x :
  (off + 4 <= length l)%nat -> get32 (put32 l off x) off = u32 x.
Proof.
  intros. unfold get32, put32.
  pose proof (slice_splice_same l off (le_enc 4 x)) as E.
  rewrite length_le_enc in E. rewrite E by lia. by rewrite le_dec_enc.
Qed.

Lemma length_put16 off x : (off + 2 <= length l)%nat -> length (put16 l off x) = length l.
Proof. intros. apply length_splice. by rewrite length_le_enc. Qed.

Lemma length_put32 off x : (off + 4 <= length l)%nat -> length (put32 l off x) = length l.
Proof. intros. apply length_splice. by rewrite length_le_enc. Qed.

Lemma slice_put16_other off x off' n :
  (off + 2 <= length l)%nat -> (off' + n <= off \/ off + 2 <= off')%nat ->
  slice (put16 l off x) off' n = slice l off' n.
Proof. intros. apply slice_splice_other; rewrite length_le_enc; lia. Qed.

Lemma slice_put32_other off x off' n :
  (off + 4 <= length l)%nat -> (off' + n <= off \/ off + 4 <= off')%nat ->
  slice (put32 l off x) off' n = slice l off' n.
Proof. intros. apply slice_splice_other; rewrite length_le_enc; lia. Qed.
End Fields.

Lemma splice_bytes l off new :
  Forall is_byte l -> Forall is_byte new -> Forall is_byte (splice l off new).
Proof.
  intros. unfold splice. rewrite !Forall_app. auto using Forall_take, Forall_drop.
Qed.

Lemma slice_bytes l off n : Forall is_byte l -> Forall is_byte (slice l off n).
Proof. intros. unfold slice. auto using Forall_take, Forall_drop. Qed.

#[export] Hint Resolve le_enc_bytes splice_bytes slice_bytes : xv6.

Lemma byte_at_lookup l i b : l !! i = Some b -> byte_at l i = b.
Proof. intros H. unfold byte_at. by apply nth_lookup_Some. Qed.

Lemma byte_at_insert_eq l i b : (i < length l)%nat -> byte_at (<[i := b]> l) i = b.
Proof. intros. apply byte_at_lookup. by apply list_lookup_insert_eq. Qed.

Lemma byte_at_insert_ne l i j b : i <> j -> byte_at (<[i := b]> l) j = byte_at l j.
Proof.
  intros H. unfold byte_at. rewrite !nth_lookup. by rewrite list_lookup_insert_ne.
Qed.

Lemma byte_at_range l i : Forall is_byte l -> is_byte (byte_at l i).
Proof.
  intros H. unfold byte_at. destruct (l !! i) as [b|] eqn:E.
  - rewrite (nth_lookup_Some _ _ _ _ E). by eapply Forall_lookup_1.
  - rewrite nth_overflow; [unfold is_byte; lia|]. by apply lookup_ge_None.
Qed.

Lemma filter_ne_notin `{EqDecision A} (x : A) (l : list A) :
  x ∉ l -> filter (.≠ x) l = l.
Proof.
  induction l as [|y l IH]; [done|]. rewrite not_elem_of_cons. intros [Hy Hl].
  rewrite filter_cons_True by done. by rewrite IH.
Qed.
