(* ===== verification/Kmonad.v ===== *)
(** * Kmonad: kernel code as resumable computations

    A kernel function is a function from the state of its component to an
    [outcome]: it returns, it panics, it runs out of the fuel of a loop that
    sleeps, or it reaches an [event] through which it interacts with the rest
    of the machine (a spin lock, [sleep]/[wakeup], a read of [cp->killed], a
    console message, an I/O port, a device register) and waits for the answer and for the state as
    it is when the code resumes.  Other processors and interrupts act at the
    events, so a theorem that quantifies over what the events give back covers
    every interleaving at lock and sleep points.

    Three ways of reasoning about an outcome:
    - [run] interprets the events with a handler, deterministically: the
      sequential semantics, which also evaluates;
    - [wp] is a rely-guarantee weakest precondition, for every environment
      that respects a relation;
    - [locks] is the lock discipline of spinlock.c and of sched(), for every
      environment. *)
From S2P Require Import Prelude.
From stdpp Require Import options.

(** The spin locks of the kernel (a pipe's lock is named by its address). *)
Inductive lockid : Type :=
| Lk_kmem | Lk_ptable | Lk_ftable | Lk_bcache | Lk_icache | Lk_ide
| Lk_cons | Lk_input | Lk_ticks | Lk_pipe (p : Z).

(** The channels kernel code sleeps on: the addresses handed to [sleep]. *)
Inductive chan : Type :=
| Ch_buf (b : nat) | Ch_inode (i : nat) | Ch_proc (p : nat)
| Ch_readp (p : Z) | Ch_writep (p : Z) | Ch_input | Ch_ticks.

#[global] Instance lockid_eq : EqDecision lockid.
Proof. solve_decision. Defined.
#[global] Instance chan_eq : EqDecision chan.
Proof. solve_decision. Defined.

Inductive event : Type :=
| EAcquire (l : lockid)
| ERelease (l : lockid)
| ESleep (c : chan) (l : lockid)
| EWakeup (c : chan)
| EKilled
| ECprintf (msg : string)
| EInb (port : Z)
| EOutb (port v : Z)
| EIns (port width cnt : Z)
| EOuts (port width : Z) (data : bytes)
| EMmr (addr : Z)
| EMmw (addr v : Z)
| ESwtch (to : option nat).

(** The value an event gives back. *)
Definition ans (e : event) : Type :=
  match e with
  | EKilled => bool
  | EInb _ | EMmr _ => Z
  | EIns _ _ _ => bytes
  | _ => unit
  end.

Inductive outcome (S A : Type) : Type :=
| Ret (a : A) (s : S)
| Panic (msg : string)
| Diverge
| Vis (e : event) (s : S) (k : ans e -> S -> outcome S A).
Arguments Ret {S A} a s.
Arguments Panic {S A} msg.
Arguments Diverge {S A}.
Arguments Vis {S A} e s k.

Definition K (S A : Type) : Type := S -> outcome S A.

Fixpoint obind {S A B} (o : outcome S A) (f : A -> K S B) : outcome S B :=
  match o with
  | Ret a s => f a s
  | Panic m => Panic m
  | Diverge => Diverge
  | Vis e s k => Vis e s (fun z s' => obind (k z s') f)
  end.

Definition kret {S A} (a : A) : K S A := fun s => Ret a s.
Definition kbind {S A B} (m : K S A) (f : A -> K S B) : K S B := fun s => obind (m s) f.
Definition panic {S A} (msg : string) : K S A := fun _ => Panic msg.
Definition diverge {S A} : K S A := fun _ => Diverge.
Definition kget {S} : K S S := fun s => Ret s s.
Definition gets {S A} (f : S -> A) : K S A := fun s => Ret (f s) s.
Definition modify {S} (f : S -> S) : K S unit := fun s => Ret tt (f s).
Definition trigger {S} (e : event) : K S (ans e) := fun s => Vis e s (fun z s' => Ret z s').

Definition acquire {S} (l : lockid) : K S unit := trigger (EAcquire l).
Definition release {S} (l : lockid) : K S unit := trigger (ERelease l).
Definition sleep {S} (c : chan) (l : lockid) : K S unit := trigger (ESleep c l).
Definition wakeup {S} (c : chan) : K S unit := trigger (EWakeup c).
Definition cp_killed {S} : K S bool := trigger EKilled.
Definition cprintf {S} (msg : string) : K S unit := trigger (ECprintf msg).
Definition inb {S} (port : Z) : K S Z := trigger (EInb port).
Definition outb {S} (port v : Z) : K S unit := trigger (EOutb port v).
(** A word of a memory-mapped device register. *)
Definition mmr {S} (addr : Z) : K S Z := trigger (EMmr addr).
Definition mmw {S} (addr v : Z) : K S unit := trigger (EMmw addr v).
(** swtch: to the scheduler of this processor ([None]) or to a process. *)
Definition swtch {S} (to : option nat) : K S unit := trigger (ESwtch to).

Declare Scope kern_scope.
Delimit Scope kern_scope with K.
Bind Scope kern_scope with K.
Notation "x <- m ;; k" := (kbind m%K (fun x => k%K))
  (at level 100, m at next level, right associativity) : kern_scope.
Notation "'let*' p <- m ;; k" := (kbind m%K (fun x => match x with p => k%K end))
  (at level 100, p pattern, m at next level, right associativity) : kern_scope.
Notation "m ;; k" := (kbind m%K (fun _ => k%K))
  (at level 100, k at level 200, right associativity) : kern_scope.
#[global] Open Scope kern_scope.

Definition when {S} (b : bool) (m : K S unit) : K S unit := if b then m else kret tt.

(** [for x in l do body x], in order. *)
Fixpoint kforeach {S A} (l : list A) (body : A -> K S unit) : K S unit :=
  match l with
  | [] => kret tt
  | x :: r => body x ;; kforeach r body
  end.

(** A component's code inside a larger state. *)
Fixpoint ozoom {S T A} (get : S -> T) (put : T -> S -> S) (s : S) (o : outcome T A)
  : outcome S A :=
  match o with
  | Ret a t => Ret a (put t s)
  | Panic m => Panic m
  | Diverge => Diverge
  | Vis e t k => Vis e (put t s) (fun z s' => ozoom get put s' (k z (get s')))
  end.

Definition zoom {S T A} (get : S -> T) (put : T -> S -> S) (m : K T A) : K S A :=
  fun s => ozoom get put s (m (get s)).

(** ** Sequential execution *)

Inductive result (W S A : Type) : Type :=
| Done (a : A) (w : W) (s : S)
| Panicked (msg : string)
| Fuel
| Blocked (e : event) (w : W) (s : S).
Arguments Done {W S A} a w s.
Arguments Panicked {W S A} msg.
Arguments Fuel {W S A}.
Arguments Blocked {W S A} e w s.

Definition handler (W S : Type) : Type := forall e : event, W -> S -> option (ans e * W * S).

Fixpoint run {W S A} (h : handler W S) (w : W) (o : outcome S A) : result W S A :=
  match o with
  | Ret a s => Done a w s
  | Panic m => Panicked m
  | Diverge => Fuel
  | Vis e s k =>
      match h e w s with
      | Some (z, w', s') => run h w' (k z s')
      | None => Blocked e w s
      end
  end.

Definition rbind {W S A B} (r : result W S A) (f : A -> W -> S -> result W S B)
  : result W S B :=
  match r with
  | Done a w s => f a w s
  | Panicked m => Panicked m
  | Fuel => Fuel
  | Blocked e w s => Blocked e w s
  end.

(** The handler of uninterrupted execution: locks are free, wakeups find
    nobody in this component, the process is not killed; [sleep] blocks. *)
Definition quiet {S} : handler unit S := fun e w s =>
  match e as e0 return option (ans e0 * unit * S) with
  | EKilled => Some (false, w, s)
  | EAcquire _ | ERelease _ | EWakeup _ | ECprintf _ => Some (tt, w, s)
  | _ => None
  end.

(** Running to completion, with no environment action in between. *)
Definition exec {S A} (m : K S A) (s : S) : result unit S A := run quiet tt (m s).

(** ** Rely-guarantee reasoning *)

Section Wp.
Context {S : Type}.
(** What the code owes the environment at an event, what the environment may
    do before the code resumes, and what holds when a sleeping loop has used
    up its fuel. *)
Variable (guar : event -> S -> Prop).
Variable (rely : forall e : event, S -> ans e -> S -> Prop).
Variable (onfuel : Prop).

Fixpoint wp {A} (o : outcome S A) (Q : A -> S -> Prop) : Prop :=
  match o with
  | Ret a s => Q a s
  | Panic _ => False
  | Diverge => onfuel
  | Vis e s k => guar e s /\ forall z s', rely e s z s' -> wp (k z s') Q
  end.

Lemma wp_bind {A B} (o : outcome S A) (f : A -> K S B) (Q : B -> S -> Prop) :
  wp o (fun a s => wp (f a s) Q) -> wp (obind o f) Q.
Proof.
  induction o as [a s|m| |e s k IH]; simpl; auto.
  intros [Hg Hk]. split; [done|]. intros z s' Hr. by apply IH, Hk.
Qed.

Lemma wp_mono {A} (o : outcome S A) (P Q : A -> S -> Prop) :
  (forall a s, P a s -> Q a s) -> wp o P -> wp o Q.
Proof.
  intros HPQ. induction o as [a s|m| |e s k IH]; simpl; auto.
  intros [Hg Hk]. split; [done|]. intros z s' Hr. by apply IH, Hk.
Qed.
End Wp.

(** ** The lock discipline

    [lock_step e held] is what event [e] does to the set of locks held by this
    processor, [None] where spinlock.c or sched() panics: acquire of a held
    lock, release of a lock not held, and sleep with any lock held but the one
    it is given (sched panics unless c->ncli is 1).  wakeup takes ptable.lock
    and cprintf takes cons.lock, so neither may be held already; swtch is
    reached with ptable.lock alone. *)
Definition lock_step (e : event) (held : list lockid) : option (list lockid) :=
  match e with
  | EAcquire l => if decide (l ∈ held) then None else Some (l :: held)
  | ERelease l => if decide (l ∈ held) then Some (filter (.≠ l) held) else None
  | ESleep _ l => if decide (held = [l]) then Some held else None
  | EWakeup _ => if decide (Lk_ptable ∈ held) then None else Some held
  | ECprintf _ => if decide (Lk_cons ∈ held) then None else Some held
  | ESwtch _ => if decide (held = [Lk_ptable]) then Some held else None
  | _ => Some held
  end.

Fixpoint locks {S A} (held : list lockid) (o : outcome S A)
    (Q : A -> list lockid -> Prop) : Prop :=
  match o with
  | Ret a _ => Q a held
  | Panic _ | Diverge => True
  | Vis e _ k =>
      match lock_step e held with
      | Some held' => forall z s', locks held' (k z s') Q
      | None => False
      end
  end.

(** A function that leaves the set of held locks as it found it. *)
Definition lock_balanced {S A} (held : list lockid) (m : K S A) : Prop :=
  forall s, locks held (m s) (fun _ held' => held' = held).

(** ** Lemmas *)

Lemma run_obind {W S A B} (h : handler W S) (o : outcome S A) (f : A -> K S B) w :
  run h w (obind o f) = rbind (run h w o) (fun a w' s => run h w' (f a s)).
Proof.
  revert w. induction o as [a s|m| |e s k IH]; intros w; simpl; auto.
  destruct (h e w s) as [[[z w'] s']|]; simpl; auto.
Qed.

Lemma run_kbind {W S A B} (h : handler W S) (m : K S A) (f : A -> K S B) w s :
  run h w (kbind m f s) = rbind (run h w (m s)) (fun a w' s' => run h w' (f a s')).
Proof. apply run_obind. Qed.

Lemma run_bind_done {W S A B} (h : handler W S) (m : K S A) (f : A -> K S B) w s a w' s' :
  run h w (m s) = Done a w' s' -> run h w (kbind m f s) = run h w' (f a s').
Proof. intros H. by rewrite run_kbind, H. Qed.

(** Rewrite rules for uninterrupted execution. *)
Section Exec.
Context {S : Type}.
Implicit Types s : S.

Lemma exec_kbind {A B} (m : K S A) (f : A -> K S B) s :
  exec (kbind m f) s = rbind (exec m s) (fun a _ s' => exec (f a) s').
Proof.
  unfold exec. rewrite run_kbind. destruct (run quiet tt (m s)) as [a []| | |]; done.
Qed.

Lemma rbind_done {A B} (a : A) (w : unit) s (f : A -> unit -> S -> result unit S B) :
  rbind (Done a w s) f = f a w s.
Proof. done. Qed.

Lemma rbind_panicked {A B} msg (f : A -> unit -> S -> result unit S B) :
  rbind (Panicked msg) f = Panicked msg.
Proof. done. Qed.

Lemma exec_kret {A} (a : A) s : exec (kret a) s = Done a tt s.
Proof. done. Qed.
Lemma exec_gets {A} (f : S -> A) s : exec (gets f) s = Done (f s) tt s.
Proof. done. Qed.
Lemma exec_modify (f : S -> S) s : exec (modify f) s = Done tt tt (f s).
Proof. done. Qed.
Lemma exec_panic {A} msg s : exec (panic (A := A) msg) s = Panicked msg.
Proof. done. Qed.
Lemma exec_acquire l s : exec (acquire l) s = Done tt tt s.
Proof. done. Qed.
Lemma exec_release l s : exec (release l) s = Done tt tt s.
Proof. done. Qed.
Lemma exec_wakeup c s : exec (wakeup c) s = Done tt tt s.
Proof. done. Qed.
Lemma exec_cprintf m s : exec (cprintf m) s = Done tt tt s.
Proof. done. Qed.
Lemma exec_killed s : exec cp_killed s = Done false tt s.
Proof. done. Qed.

Lemma exec_ret {A} (m : K S A) s a s' : m s = Ret a s' -> exec m s = Done a tt s'.
Proof. unfold exec. by intros ->. Qed.
Lemma exec_Panic {A} (m : K S A) s msg : m s = Panic msg -> exec m s = Panicked msg.
Proof. unfold exec. by intros ->. Qed.
End Exec.

(** Rewrite rules for execution under any handler. *)
Section Run.
Context {W S : Type} (h : handler W S).

Lemma run_done_bind {A B} (a : A) (w : W) (s : S) (f : A -> W -> S -> result W S B) :
  rbind (Done a w s) f = f a w s.
Proof. done. Qed.
Lemma run_kret {A} (a : A) w s : run h w (kret a s) = Done a w s.
Proof. done. Qed.
Lemma run_gets {A} (f : S -> A) w s : run h w (gets f s) = Done (f s) w s.
Proof. done. Qed.
Lemma run_modify (f : S -> S) w s : run h w (modify f s) = Done tt w (f s).
Proof. done. Qed.
Lemma run_panic {A} msg w s : run h w (panic (A := A) msg s) = Panicked msg.
Proof. done. Qed.
Lemma run_trigger e w s :
  run h w (trigger e s) =
  match h e w s with Some (z, w', s') => Done z w' s' | None => Blocked e w s end.
Proof. simpl. by destruct (h e w s) as [[[z w'] s']|]. Qed.
Lemma run_ret {A} (m : K S A) w s a s' : m s = Ret a s' -> run h w (m s) = Done a w s'.
Proof. by intros ->. Qed.
End Run.

#[export] Hint Rewrite @run_kbind @run_done_bind @run_kret @run_gets @run_modify @run_panic : krun.

Ltac krun := repeat (progress (autorewrite with krun; cbv beta)).

(** A component run inside a larger state. *)
Definition rput {W S T A} (put : T -> S -> S) (s : S) (r : result W T A) : result W S A :=
  match r with
  | Done a w t => Done a w (put t s)
  | Panicked m => Panicked m
  | Fuel => Fuel
  | Blocked e w t => Blocked e w (put t s)
  end.

Lemma exec_zoom {S T A} (get : S -> T) (put : T -> S -> S) (m : K T A) s :
  (forall t s, get (put t s) = t) -> (forall t t' s, put t' (put t s) = put t' s) ->
  exec (zoom get put m) s = rput put s (exec m (get s)).
Proof.
  intros Hgp Hpp. unfold exec, zoom. induction (m (get s)) as [a t|msg| |e t k IH]; simpl; auto.
  assert (Hput : forall z, run quiet tt (ozoom get put (put t s) (k z (get (put t s)))) =
            rput put s (run quiet tt (k z t))).
  { intros z. rewrite Hgp, <- (IH z t). generalize (k z t). intros o.
    destruct o; simpl; rewrite ?Hpp; done. }
  destruct e; simpl; try done; apply Hput.
Qed.

Lemma exec_zoom_done {S T A} (get : S -> T) (put : T -> S -> S) (m : K T A) s a t :
  (forall t s, get (put t s) = t) -> (forall t t' s, put t' (put t s) = put t' s) ->
  exec m (get s) = Done a tt t -> exec (zoom get put m) s = Done a tt (put t s).
Proof. intros H1 H2 H. by rewrite exec_zoom, H. Qed.

#[export] Hint Rewrite @exec_kbind @rbind_done @rbind_panicked @exec_kret @exec_gets
  @exec_modify @exec_panic @exec_acquire @exec_release @exec_wakeup @exec_cprintf
  @exec_killed : kexec.

Ltac kexec := repeat (progress (autorewrite with kexec; cbv beta)).

Lemma locks_bind {S A B} held (o : outcome S A) (f : A -> K S B) Q :
  locks held o (fun a held' => forall s, locks held' (f a s) Q) ->
  locks held (obind o f) Q.
Proof.
  revert held. induction o as [a s|m| |e s k IH]; intros held; simpl; auto.
  destruct (lock_step e held) as [held'|]; [|done]. intros Hk z s'. by apply IH.
Qed.

Lemma locks_mono {S A} held (o : outcome S A) (P Q : A -> list lockid -> Prop) :
  (forall a h, P a h -> Q a h) -> locks held o P -> locks held o Q.
Proof.
  intros HPQ. revert held. induction o as [a s|m| |e s k IH]; intros held; simpl; auto.
  destruct (lock_step e held) as [held'|]; [|done]. intros Hk z s'. by apply IH, Hk.
Qed.

(** Binding a balanced function keeps the discipline of the rest. *)
Lemma locks_bind_balanced {S A B} held (m : K S A) (f : A -> K S B) s Q :
  lock_balanced held m ->
  (forall a s', locks held (f a s') Q) -> locks held (kbind m f s) Q.
Proof.
  intros Hm Hf. apply locks_bind. eapply locks_mono; [|apply Hm].
  simpl. intros a h -> s'. apply Hf.
Qed.

Lemma locks_zoom {S T A} (get : S -> T) (put : T -> S -> S) held (o : outcome T A) s Q :
  locks held o Q -> locks held (ozoom get put s o) Q.
Proof.
  revert held s. induction o as [a t|msg| |e t k IH]; intros held s; simpl; auto.
  destruct (lock_step e held); [|done]. intros Hk z s'. apply IH, Hk.
Qed.

Lemma lock_balanced_zoom {S T A} (get : S -> T) (put : T -> S -> S) held (m : K T A) :
  lock_balanced held m -> lock_balanced held (zoom get put m).
Proof. intros H s. apply locks_zoom, H. Qed.

(** Reduce the state operations at the head of a computation. *)
Ltac ksimpl :=
  repeat (progress (unfold kbind, gets, modify, kret, kget, when, panic, trigger; simpl obind; cbv beta)).

(** One rule per operation, for computations in continuation form. *)
Section LockRules.
Context {S A : Type}.
Implicit Types (held : list lockid) (Q : A -> list lockid -> Prop) (s : S).

Lemma locks_acquire held l (f : unit -> K S A) s Q :
  l ∉ held -> (forall s', locks (l :: held) (f tt s') Q) ->
  locks held (kbind (acquire l) f s) Q.
Proof. intros Hl Hf. simpl. rewrite decide_False by done. intros [] s'. apply Hf. Qed.

Lemma locks_release held l (f : unit -> K S A) s Q :
  l ∉ held -> (forall s', locks held (f tt s') Q) ->
  locks (l :: held) (kbind (release l) f s) Q.
Proof.
  intros Hl Hf. simpl. rewrite decide_True by left.
  rewrite filter_cons_False by auto. rewrite filter_ne_notin by done. intros [] s'. apply Hf.
Qed.

Lemma locks_sleep l c (f : unit -> K S A) s Q :
  (forall s', locks [l] (f tt s') Q) -> locks [l] (kbind (sleep c l) f s) Q.
Proof. intros Hf. simpl. rewrite decide_True by done. intros [] s'. apply Hf. Qed.

Lemma locks_wakeup held c (f : unit -> K S A) s Q :
  Lk_ptable ∉ held -> (forall s', locks held (f tt s') Q) ->
  locks held (kbind (wakeup c) f s) Q.
Proof. intros Hl Hf. simpl. rewrite decide_False by done. intros [] s'. apply Hf. Qed.

Lemma locks_cprintf held m (f : unit -> K S A) s Q :
  Lk_cons ∉ held -> (forall s', locks held (f tt s') Q) ->
  locks held (kbind (cprintf m) f s) Q.
Proof. intros Hl Hf. simpl. rewrite decide_False by done. intros [] s'. apply Hf. Qed.

Lemma locks_swtch to (f : unit -> K S A) s Q :
  (forall s', locks [Lk_ptable] (f tt s') Q) -> locks [Lk_ptable] (kbind (swtch to) f s) Q.
Proof. intros Hf. simpl. intros [] s'. apply Hf. Qed.

Lemma locks_killed held (f : bool -> K S A) s Q :
  (forall b s', locks held (f b s') Q) -> locks held (kbind cp_killed f s) Q.
Proof. intros Hf. simpl. intros b s'. apply Hf. Qed.

Lemma locks_gets {B} held (g : S -> B) (f : B -> K S A) s Q :
  locks held (f (g s) s) Q -> locks held (kbind (gets g) f s) Q.
Proof. done. Qed.

Lemma locks_modify held (g : S -> S) (f : unit -> K S A) s Q :
  locks held (f tt (g s)) Q -> locks held (kbind (modify g) f s) Q.
Proof. done. Qed.

Lemma locks_kret held (a : A) s Q : Q a held -> locks held (kret a s) Q.
Proof. done. Qed.

Lemma locks_panic held msg s Q : locks held (panic (S := S) (A := A) msg s) Q.
Proof. done. Qed.

Lemma locks_diverge held s Q : locks held (diverge (S := S) (A := A) s) Q.
Proof. done. Qed.
End LockRules.

Lemma locks_release_last {S} held l (s : S) :
  l ∉ held -> locks (l :: held) (release l s) (fun _ h => h = held).
Proof.
  intros Hl. simpl. rewrite decide_True by left.
  rewrite filter_cons_False by auto. by rewrite filter_ne_notin.
Qed.

(** Proof search for [locks] goals: one rule per operation; calls to other
    functions are discharged with the lemmas of the database [klocks]. *)
Create HintDb klocks.

Ltac lock_step_tac :=
  lazymatch goal with
  | |- lock_balanced _ _ => intros ?
  | |- locks _ (kret _ _) _ => apply locks_kret
  | |- locks _ (panic _ _) _ => apply locks_panic
  | |- locks _ (diverge _) _ => apply locks_diverge
  | |- locks _ (kbind (acquire _) _ _) _ => apply locks_acquire; [|intros]
  | |- locks _ (kbind (release _) _ _) _ => apply locks_release; [|intros]
  | |- locks _ (release _ _) _ => apply locks_release_last
  | |- locks _ (kbind (sleep _ _) _ _) _ => apply locks_sleep; intros
  | |- locks _ (kbind (wakeup _) _ _) _ => apply locks_wakeup; [|intros]
  | |- locks _ (kbind (cprintf _) _ _) _ => apply locks_cprintf; [|intros]
  | |- locks _ (kbind cp_killed _ _) _ => apply locks_killed; intros
  | |- locks _ (kbind (swtch _) _ _) _ => apply locks_swtch; intros
  | |- locks _ (kbind (gets _) _ _) _ => apply locks_gets
  | |- locks _ (kbind (modify _) _ _) _ => apply locks_modify
  | |- locks _ (kbind (kbind _ _) _ _) _ => apply locks_bind
  | |- locks _ (kbind (when ?b _) _ _) _ => unfold when; destruct b
  | |- locks _ (kbind (kret _) _ _) _ => unfold kbind at 1; cbn [obind kret]
  | |- locks _ ((if ?b then _ else _) _) _ => destruct b
  | |- locks _ (match ?b with _ => _ end _) _ => destruct b
  | |- locks _ (kbind _ _ _) _ => apply locks_bind_balanced; [auto with klocks|intros]
  | |- _ ∉ _ => first [done | set_solver]
  | |- _ = _ => reflexivity
  end.

Ltac lock_tac := repeat (lock_step_tac; cbv beta zeta).
