(* ===== verification/Spinlock.v ===== *)
(** * Spinlock: spinlock.c

    The per-CPU interrupt state that pushcli/popcli maintain, the lock record,
    and initlock, acquire, release, holding and getcallerpcs.  [Smp] runs
    acquire/release on several processors with the atomic steps of the code
    interleaved; [Discipline] relates the lock events of [Kmonad] to the code. *)
From S2P Require Import Prelude Kmonad.
From stdpp Require Import options.

Module Spinlock.

Definition FL_IF : Z := 512.

(** struct spinlock (spinlock.h): [locked], [cpu] and the saved call stack;
    lock->name is a debugging string and is left out. *)
Record spinlock : Type := mkspinlock { locked : Z; lcpu : Z; pcs : list Z }.

(** The fields of struct cpu that spinlock.c uses, cpu() and eflags. *)
Record cpu : Type := mkcpu { cpuid : Z; ncli : Z; intena : Z; eflags : Z }.

(** Results of code that can panic or spin. *)
Inductive lres (A : Type) : Type := LOk (a : A) | LPanic (msg : string) | LSpin.
Arguments LOk {A} a.
Arguments LPanic {A} msg.
Arguments LSpin {A}.

Definition initlock (_ : spinlock) : spinlock :=
  {| locked := 0; lcpu := i32 4294967295; pcs := replicate 10 0 |}.

(** The i-th saved frame is at [ebp]: ebp[0] is the caller's %ebp, ebp[1] the
    saved %eip; [word] reads the stack word at an address. *)
Fixpoint callerpcs_loop (word : Z -> Z) (n : nat) (ebp : Z) : list Z :=
  match n with
  | O => []
  | S n' =>
      if (ebp =? 0) || (ebp =? 4294967295) then replicate n 0
      else word (u32 (ebp + 4)) :: callerpcs_loop word n' (word ebp)
  end.

Definition getcallerpcs (word : Z -> Z) (v : Z) : list Z :=
  callerpcs_loop word 10 (u32 (v - 8)).

Definition holding (lk : spinlock) (c : cpu) : bool :=
  negb (locked lk =? 0) && (lcpu lk =? cpuid c + 10).

Definition pushcli (c : cpu) : cpu :=
  let fl := eflags c in
  {| cpuid := cpuid c;
     ncli := i32 (ncli c + 1);
     intena := if ncli c =? 0 then Z.land fl FL_IF else intena c;
     eflags := Z.land fl (Z.lnot FL_IF) |}.

Definition popcli (c : cpu) : lres cpu :=
  if negb (Z.land (eflags c) FL_IF =? 0) then LPanic "popcli - interruptible"
  else
    let n := i32 (ncli c - 1) in
    if n <? 0 then LPanic "popcli"
    else LOk {| cpuid := cpuid c; ncli := n; intena := intena c;
                eflags := if (n =? 0) && negb (intena c =? 0)
                          then Z.lor (eflags c) FL_IF else eflags c |}.

(** acquire: the spin loop exits when xchg finds the lock not held; on one
    processor running alone a lock held elsewhere spins. *)
Definition acquire (word : Z -> Z) (lkaddr : Z) (lk : spinlock) (c : cpu)
  : lres (spinlock * cpu) :=
  let c1 := pushcli c in
  if holding lk c1 then LPanic "acquire"
  else if locked lk =? 1 then LSpin
  else LOk ({| locked := 1; lcpu := cpuid c1 + 10; pcs := getcallerpcs word lkaddr |}, c1).

Definition release (lk : spinlock) (c : cpu) : lres (spinlock * cpu) :=
  if negb (holding lk c) then LPanic "release"
  else
    let lk1 := {| locked := 0; lcpu := i32 4294967295; pcs := <[0%nat := 0]> (pcs lk) |} in
    match popcli c with
    | LOk c1 => LOk (lk1, c1)
    | LPanic m => LPanic m
    | LSpin => LSpin
    end.

End Spinlock.

(** ** Nesting of pushcli and popcli *)

Module Cli.
Import Spinlock.

(** Interrupts are enabled on [c]. *)
Definition if_on (c : cpu) : bool := negb (Z.land (eflags c) FL_IF =? 0).

(** A sequence of pushcli ([true]) and popcli ([false]) calls. *)
Fixpoint cli_seq (ops : list bool) (c : cpu) : lres cpu :=
  match ops with
  | [] => LOk c
  | true :: r => cli_seq r (pushcli c)
  | false :: r =>
      match popcli c with
      | LOk c' => cli_seq r c'
      | LPanic m => LPanic m
      | LSpin => LSpin
      end
  end.

(** The depth after [ops] from depth [d], if no prefix pops below zero. *)
Fixpoint depth (ops : list bool) (d : Z) : option Z :=
  match ops with
  | [] => Some d
  | true :: r => depth r (d + 1)
  | false :: r => if d <=? 0 then None else depth r (d - 1)
  end.

(** Between pushcli and its popcli, interrupts are off, and [intena] remembers
    whether they were on at depth zero. *)
Definition cli_inv (on0 : bool) (d : Z) (c : cpu) : Prop :=
  ncli c = d /\ 0 <= d /\
  (if d =? 0 then if_on c = on0
   else if_on c = false /\ negb (intena c =? 0) = on0).

Lemma if_off_land c : Z.land (Z.land (eflags c) (Z.lnot FL_IF)) FL_IF = 0.
Proof.
  rewrite <- Z.land_assoc, (Z.land_comm (Z.lnot _)), Z.land_lnot_diag. apply Z.land_0_r.
Qed.

Lemma lor_if x : Z.land (Z.lor x FL_IF) FL_IF = FL_IF.
Proof.
  apply Z.bits_inj'. intros n _. rewrite Z.land_spec, Z.lor_spec.
  by destruct (Z.testbit x n), (Z.testbit FL_IF n).
Qed.

Lemma pushcli_inv on0 d c :
  cli_inv on0 d c -> d < 2147483647 -> cli_inv on0 (d + 1) (pushcli c).
Proof.
  intros (Hn & Hd & Hi) Hb. unfold cli_inv, pushcli; simpl.
  rewrite Hn, i32_small by lia. split_and!; [done|lia|].
  assert (d + 1 =? 0 = false) as -> by (apply Z.eqb_neq; lia).
  unfold if_on; simpl. rewrite if_off_land. split; [done|].
  destruct (d =? 0) eqn:E; [exact Hi|apply Hi].
Qed.

Lemma popcli_inv on0 d c :
  cli_inv on0 d c -> 0 < d < 2147483648 ->
  exists c', popcli c = LOk c' /\ cli_inv on0 (d - 1) c' /\ cpuid c' = cpuid c.
Proof.
  intros (Hn & Hd & Hi) Hb. assert (d =? 0 = false) as E by (apply Z.eqb_neq; lia).
  rewrite E in Hi. destruct Hi as [Hoff Hint]. unfold popcli.
  unfold if_on in Hoff. rewrite Hoff, Hn, i32_small by lia.
  assert (d - 1 <? 0 = false) as -> by (apply Z.ltb_ge; lia).
  eexists. split; [done|]. split; [|done]. unfold cli_inv; simpl.
  split_and!; [done|lia|]. destruct (d - 1 =? 0) eqn:E1; simpl.
  - unfold if_on; simpl. rewrite Hint. destruct on0; [by rewrite lor_if|exact Hoff].
  - by unfold if_on.
Qed.

(** pushcli and popcli are matched: a sequence of calls that never pops
    more than it pushed runs without a panic, and when it is balanced it gives
    back the nesting depth and the interrupt flag it started with; inside, when
    the depth is positive, interrupts are off. *)
Theorem pushcli_popcli_matched on0 ops d d' c :
  cli_inv on0 d c -> d + Z.of_nat (length ops) < 2147483648 ->
  depth ops d = Some d' ->
  exists c', cli_seq ops c = LOk c' /\ cli_inv on0 d' c'.
Proof.
  revert d c. induction ops as [|[] ops IH]; intros d c Hinv Hb Hd; simpl in *.
  - simplify_eq. eauto.
  - eapply IH; [|..|done]; [apply pushcli_inv; [done|lia]|lia].
  - destruct (d <=? 0) eqn:E; [done|]. bool_prop.
    destruct (popcli_inv _ _ _ Hinv) as (c1 & -> & Hinv1 & _); [lia|].
    eapply IH; [done|lia|done].
Qed.

(** push, push, pop, push, pop, pop on a CPU with interrupts on. *)
Lemma pushcli_popcli_matched_witness :
  exists c', cli_seq [true; true; false; true; false; false]
               {| cpuid := 0; ncli := 0; intena := 0; eflags := 514 |} = LOk c' /\
             cli_inv true 0 c'.
Proof. eapply (pushcli_popcli_matched true _ 0); [done|simpl; lia|reflexivity]. Defined.

End Cli.

(** ** acquire and release on several processors *)

Module Smp.
Import Spinlock Cli.

(** Where a processor is in a loop acquire(lk); critical section; release(lk).
    [Spin]: in the xchg loop.  [Got]: xchg returned 0, lock->cpu not yet set.
    [Crit]: acquire has returned.  [Rel]: release has passed its check and
    cleared lock->cpu.  [Pop]: the lock word is 0, popcli is still to run. *)
Inductive tpc : Type := Idle | Spin | Got | Crit | Rel | Pop | Dead (msg : string).

#[global] Instance tpc_eq : EqDecision tpc.
Proof. solve_decision. Defined.

Record machine : Type := mkmachine { mlock : spinlock; mthr : list (cpu * tpc) }.

(** The next atomic step of a processor at [pc]; the xchg instructions and the
    plain accesses to the lock are one step each. *)
Definition thr_step (word : Z -> Z) (lkaddr : Z) (lk : spinlock) (c : cpu) (pc : tpc)
  : spinlock * (cpu * tpc) :=
  match pc with
  | Idle =>
      let c1 := pushcli c in
      (lk, (c1, if holding lk c1 then Dead "acquire" else Spin))
  | Spin =>
      ({| locked := 1; lcpu := lcpu lk; pcs := pcs lk |},
       (c, if locked lk =? 1 then Spin else Got))
  | Got =>
      ({| locked := locked lk; lcpu := cpuid c + 10; pcs := getcallerpcs word lkaddr |},
       (c, Crit))
  | Crit =>
      if holding lk c
      then ({| locked := locked lk; lcpu := i32 4294967295; pcs := <[0%nat := 0]> (pcs lk) |},
            (c, Rel))
      else (lk, (c, Dead "release"))
  | Rel => ({| locked := 0; lcpu := lcpu lk; pcs := pcs lk |}, (c, Pop))
  | Pop =>
      match popcli c with
      | LOk c1 => (lk, (c1, Idle))
      | LPanic m => (lk, (c, Dead m))
      | LSpin => (lk, (c, Pop))
      end
  | Dead m => (lk, (c, Dead m))
  end.

Inductive mstep (word : Z -> Z) (lkaddr : Z) : machine -> machine -> Prop :=
| mstep_cpu m i c pc lk' t' :
    mthr m !! i = Some (c, pc) ->
    thr_step word lkaddr (mlock m) c pc = (lk', t') ->
    mstep word lkaddr m {| mlock := lk'; mthr := <[i := t']> (mthr m) |}.

(** All processors idle with no pushcli pending, the lock just initialised. *)
Definition minit (flags : list Z) : machine :=
  {| mlock := initlock (mkspinlock 0 0 []);
     mthr := imap (fun i fl => (mkcpu (Z.of_nat i) 0 0 fl, Idle)) flags |}.

Definition owns (pc : tpc) : bool :=
  match pc with Got | Crit | Rel => true | _ => false end.

(** The invariant of one processor: its cpu number, its interrupt state
    against the flags it started with, and that it has not panicked. *)
Definition thr_inv (fl : Z) (i : nat) (t : cpu * tpc) : Prop :=
  cpuid t.1 = Z.of_nat i /\
  (match t.2 with
   | Idle => cli_inv (negb (Z.land fl FL_IF =? 0)) 0 t.1
   | Dead _ => False
   | _ => cli_inv (negb (Z.land fl FL_IF =? 0)) 1 t.1
   end).

Definition machine_inv (flags : list Z) (m : machine) : Prop :=
  length (mthr m) = length flags /\
  (forall i t fl, mthr m !! i = Some t -> flags !! i = Some fl -> thr_inv fl i t) /\
  (* at most one owner, and exactly one when the lock word is set *)
  (forall i j t u, mthr m !! i = Some t -> mthr m !! j = Some u ->
     owns t.2 = true -> owns u.2 = true -> i = j) /\
  (locked (mlock m) = 0 \/ locked (mlock m) = 1) /\
  (locked (mlock m) = 1 <-> exists i t, mthr m !! i = Some t /\ owns t.2 = true) /\
  (* lock->cpu names a processor only while it is in its critical section *)
  (forall i t, mthr m !! i = Some t ->
     (lcpu (mlock m) = Z.of_nat i + 10 <-> t.2 = Crit)).

(** Replacing processor [i]'s state and the lock keeps the invariant when the
    four facts below relate the new lock word to the new owner. *)
Lemma machine_inv_update flags m i t lk' t' fl :
  machine_inv flags m -> mthr m !! i = Some t -> flags !! i = Some fl ->
  thr_inv fl i t' ->
  (owns t'.2 = true -> owns t.2 = true \/ locked (mlock m) = 0) ->
  locked lk' = (if owns t'.2 then 1 else if owns t.2 then 0 else locked (mlock m)) ->
  (lcpu lk' = if decide (t'.2 = Crit) then Z.of_nat i + 10
              else if decide (t.2 = Crit) then -1 else lcpu (mlock m)) ->
  machine_inv flags {| mlock := lk'; mthr := <[i := t']> (mthr m) |}.
Proof.
  intros (Hlen & Hthr & Hone & Hbit & Hown & Hcpu) Hi Hfl Ht' Hacq Hlk Hlc.
  assert (Hil : (i < length (mthr m))%nat) by eauto using lookup_lt_Some.
  assert (Hother : forall j u, j <> i -> mthr m !! j = Some u ->
            owns t'.2 = true -> owns u.2 = false).
  { intros j u Hne Hj Ho. destruct (owns u.2) eqn:Eu; [|done].
    destruct (Hacq Ho) as [Ht|H0]; [destruct Hne; by eapply Hone|].
    assert (locked (mlock m) = 1) by (apply Hown; eauto). lia. }
  split; [simpl; by rewrite length_insert|]. split; [|split; [|split; [|split]]]; simpl.
  - intros j u fl' Hj Hfl'. apply list_lookup_insert_Some in Hj.
    destruct Hj as [(-> & -> & _)|(Hne & Hj)]; [by simplify_eq|by eapply Hthr].
  - intros j k u v Hj Hk Hu Hv.
    apply list_lookup_insert_Some in Hj, Hk.
    destruct Hj as [(-> & -> & _)|(Hnj & Hj)], Hk as [(-> & -> & _)|(Hnk & Hk)]; auto.
    + by rewrite (Hother k v) in Hv by auto.
    + by rewrite (Hother j u) in Hu by auto.
    + by eapply Hone.
  - rewrite Hlk. destruct (owns t'.2), (owns t.2); auto.
  - rewrite Hlk. split.
    + intros H1. destruct (owns t'.2) eqn:Eo'.
      { exists i, t'. by rewrite list_lookup_insert_eq. }
      destruct (owns t.2) eqn:Eo; [lia|]. apply Hown in H1 as (j & u & Hj & Hu).
      exists j, u. rewrite list_lookup_insert_ne; [done|congruence].
    + intros (j & u & Hj & Hu). apply list_lookup_insert_Some in Hj.
      destruct Hj as [(-> & -> & _)|(Hne & Hj)]; [by rewrite Hu|].
      destruct (owns t'.2) eqn:Eo'; [done|]. destruct (owns t.2) eqn:Eo.
      * destruct Hne. by eapply Hone.
      * apply Hown. eauto.
  - intros j u Hj. apply list_lookup_insert_Some in Hj. rewrite Hlc.
    destruct Hj as [(-> & -> & _)|(Hne & Hj)].
    + case_decide as E'; [done|]. split; [|done].
      case_decide as E; [lia|]. by rewrite (Hcpu _ _ Hi).
    + case_decide as E'.
      * split; [lia|]. intros Hu. assert (owns u.2 = true) by by rewrite Hu.
        rewrite (Hother j u) in *; [done|auto..|by rewrite E'].
      * case_decide as E; [|by apply Hcpu].
        split; [lia|]. intros Hu. destruct Hne.
        eapply Hone; [done|done|by rewrite E|by rewrite Hu].
Qed.

Lemma minit_inv flags : machine_inv flags (minit flags).
Proof.
  unfold minit, machine_inv; simpl. rewrite length_imap.
  assert (Himap : forall i t, imap (fun i fl => (mkcpu (Z.of_nat i) 0 0 fl, Idle)) flags !! i
            = Some t -> exists fl, flags !! i = Some fl /\ t = (mkcpu (Z.of_nat i) 0 0 fl, Idle)).
  { intros i t. rewrite list_lookup_imap, fmap_Some. naive_solver. }
  split_and!; [done|..|naive_solver| |].
  - intros i t fl (fl' & Hfl & ->)%Himap Hfl'. simplify_eq. split; [done|]. simpl.
    by unfold cli_inv, if_on.
  - intros i j t u (? & ? & ->)%Himap; simpl. naive_solver.
  - split; [done|]. intros (i & t & (? & ? & ->)%Himap & ?). done.
  - intros i t (? & ? & ->)%Himap. change (i32 4294967295) with (-1). simpl.
    split; [lia|done].
Qed.

Lemma mstep_inv word lkaddr flags m m' :
  mstep word lkaddr m m' -> machine_inv flags m -> machine_inv flags m'.
Proof.
  intros [m0 i c pc lk' t' Hi Hstep] Hinv.
  pose proof Hinv as (Hlen & Hthr & Hone & Hbit & Hown & Hcpu).
  destruct (flags !! i) as [fl|] eqn:Hfl;
    [|apply lookup_ge_None in Hfl; apply lookup_lt_Some in Hi; lia].
  pose proof (Hthr _ _ _ Hi Hfl) as [Hid Ht]. simpl in Hid, Ht.
  pose proof (Hcpu _ _ Hi) as Hc. simpl in Hc.
  assert (Hholds : owns pc = true -> locked (mlock m0) = 1)
    by (intros; apply Hown; eexists _, (c, pc); eauto).
  change (-1) with (i32 4294967295) in *.
  unfold thr_step in Hstep. destruct pc; try done.
  - (* Idle *)
    assert (holding (mlock m0) (pushcli c) = false) as Hh.
    { unfold holding; simpl. rewrite Hid. destruct (Z.eqb_spec (lcpu (mlock m0)) (Z.of_nat i + 10)).
      - by apply Hc in e.
      - apply andb_false_r. }
    rewrite Hh in Hstep. injection Hstep as <- <-.
    eapply machine_inv_update; eauto. split; [done|]. by apply (pushcli_inv _ 0).
  - (* Spin *)
    injection Hstep as <- <-. eapply machine_inv_update; eauto; simpl.
    + split; [done|]. by destruct (_ =? 1).
    + intros Ho. right. destruct (Z.eqb_spec (locked (mlock m0)) 1); [done|lia].
    + destruct (Z.eqb_spec (locked (mlock m0)) 1); [by simpl|done].
    + by destruct (_ =? 1).
  - (* Got *)
    injection Hstep as <- <-. eapply machine_inv_update; eauto; simpl; [by split|by rewrite Hid].
  - (* Crit *)
    assert (holding (mlock m0) c = true) as Hh.
    { unfold holding. rewrite (Hholds eq_refl), Hid. rewrite (proj2 Hc eq_refl).
      by rewrite Z.eqb_refl. }
    rewrite Hh in Hstep. injection Hstep as <- <-.
    eapply machine_inv_update; eauto; by split.
  - (* Rel *)
    injection Hstep as <- <-. eapply machine_inv_update; eauto; by split.
  - (* Pop *)
    destruct (popcli_inv _ _ _ Ht) as (c1 & Hp & Hinv1 & Hid1); [lia|].
    rewrite Hp in Hstep. injection Hstep as <- <-.
    eapply machine_inv_update; eauto. split; simpl; [congruence|exact Hinv1].
Qed.

(** C20. Mutual exclusion: from initlock with every processor idle, whatever
    the interleaving of the atomic steps of acquire and release, at most one
    processor is between the successful xchg of acquire and the xchg of
    release, and no processor ever panics in acquire, release or popcli. *)
Theorem spinlock_mutual_exclusion word lkaddr flags m :
  rtc (mstep word lkaddr) (minit flags) m ->
  (forall i j t u, mthr m !! i = Some t -> mthr m !! j = Some u ->
     owns t.2 = true -> owns u.2 = true -> i = j) /\
  (forall i t msg, mthr m !! i = Some t -> t.2 <> Dead msg).
Proof.
  intros Hr. assert (machine_inv flags m) as (Hlen & Hthr & Hone & _).
  { revert Hr. generalize (minit_inv flags). generalize (minit flags).
    intros m0 H0. induction 1; eauto using mstep_inv. }
  split; [done|]. intros i t msg Hi Hd.
  destruct (flags !! i) as [fl|] eqn:Hfl;
    [|apply lookup_ge_None in Hfl; apply lookup_lt_Some in Hi; lia].
  destruct (Hthr _ _ _ Hi Hfl) as [_ Ht]. by rewrite Hd in Ht.
Qed.

(** Two processors: the first acquires, the second spins. *)
Lemma spinlock_mutual_exclusion_witness :
  exists m, mthr m !! 0%nat = Some (pushcli (mkcpu 0 0 0 512), Got) /\
    mthr m !! 1%nat = Some (pushcli (mkcpu 1 0 0 512), Spin) /\
    forall i j t u, mthr m !! i = Some t -> mthr m !! j = Some u ->
      owns t.2 = true -> owns u.2 = true -> i = j.
Proof.
  eexists {| mlock := mkspinlock 1 (-1) (replicate 10 0);
             mthr := [(pushcli (mkcpu 0 0 0 512), Got); (pushcli (mkcpu 1 0 0 512), Spin)] |}.
  split; [done|]. split; [done|].
  apply (spinlock_mutual_exclusion (fun _ => 0) 0 [512; 512]).
  eapply rtc_l; [eapply (mstep_cpu _ _ _ 0%nat); reflexivity|].
  eapply rtc_l; [eapply (mstep_cpu _ _ _ 0%nat); reflexivity|].
  eapply rtc_l; [eapply (mstep_cpu _ _ _ 1%nat); reflexivity|].
  eapply rtc_l; [eapply (mstep_cpu _ _ _ 1%nat); reflexivity|].
  apply rtc_refl.
Defined.

End Smp.

(** ** The lock events of [Kmonad] against the code *)

Module Discipline.
Import Spinlock Cli.

(** The kernel's locks and this processor; [held] is the list of locks this
    processor holds, one pushcli per lock. *)
Definition sim (on0 : bool) (held : list lockid) (lks : lockid -> spinlock) (c : cpu)
  : Prop :=
  NoDup held /\ Z.of_nat (length held) < 2147483647 /\
  cli_inv on0 (Z.of_nat (length held)) c /\
  (forall l, l ∈ held <-> holding (lks l) c = true).

Definition upd (lks : lockid -> spinlock) (l : lockid) (lk : spinlock) : lockid -> spinlock :=
  fun l' => if decide (l' = l) then lk else lks l'.

(** acquire and release on the lock named by an event. *)
Definition lock_call (word : Z -> Z) (addr : lockid -> Z) (e : event)
    (lks : lockid -> spinlock) (c : cpu) : lres (spinlock * cpu) :=
  match e with
  | EAcquire l => acquire word (addr l) (lks l) c
  | ERelease l => release (lks l) c
  | _ => LSpin
  end.

Definition lock_of (e : event) : option lockid :=
  match e with EAcquire l | ERelease l => Some l | _ => None end.

Lemma holding_pushcli lk c : holding lk (pushcli c) = holding lk c.
Proof. done. Qed.

Lemma length_filter_ne (l : lockid) (held : list lockid) :
  NoDup held -> l ∈ held -> S (length (filter (.≠ l) held)) = length held.
Proof.
  induction 1 as [|x held Hx Hnd IH]; [by intros ?%not_elem_of_nil|].
  intros Hl. destruct (decide (x = l)) as [->|Hne].
  - rewrite filter_cons_False by auto. by rewrite filter_ne_notin.
  - rewrite filter_cons_True by done. simpl. rewrite IH; [done|]. set_solver.
Qed.



End Discipline.
