(* ===== verification/Kalloc.v ===== *)
(** * Kalloc: kalloc.c, the physical page allocator

    The free list is the linked list of struct run headers that lives at the
    start of the free runs: [runs] gives the header stored at an address, so
    the pointer surgery of kfree and kalloc through [rp] is kept as written.
    [ram] is the rest of memory, which kfree fills with junk.  [free_run] is
    the abstract allocator, a sorted list of disjoint non-adjacent runs; the
    refinement lemmas relate the two. *)
From S2P Require Import Prelude Kmonad.
From stdpp Require Import options.

Module Kalloc.

Definition PAGE : Z := 4096.

Record run : Type := mkrun { rnext : Z; rlen : Z }.

Record kmem : Type := mkkmem { freelist : Z; runs : gmap Z run; ram : Z -> Z }.

(** struct run **rp: the address of kmem.freelist or of a header's next. *)
Inductive rptr : Type := RHead | RNext (a : Z).

Definition run_at (k : kmem) (a : Z) : run := default (mkrun 0 0) (runs k !! a).

Definition deref (rp : rptr) (k : kmem) : Z :=
  match rp with RHead => freelist k | RNext a => rnext (run_at k a) end.

Definition set_run (a : Z) (r : run) (k : kmem) : kmem :=
  {| freelist := freelist k; runs := <[a := r]> (runs k); ram := ram k |}.

Definition set_len (a : Z) (n : Z) (k : kmem) : kmem :=
  set_run a (mkrun (rnext (run_at k a)) n) k.

Definition set_next (a : Z) (v : Z) (k : kmem) : kmem :=
  set_run a (mkrun v (rlen (run_at k a))) k.

Definition store (rp : rptr) (v : Z) (k : kmem) : kmem :=
  match rp with
  | RHead => {| freelist := v; runs := runs k; ram := ram k |}
  | RNext a => set_next a v k
  end.

(** memset(v, 1, len): the bytes of [ram], and any header in the range, whose
    two words become 0x01010101. *)
Definition junk : Z := 16843009.

Definition memset_junk (v len : Z) (k : kmem) : kmem :=
  {| freelist := freelist k;
     runs := map_imap (fun a r => Some (if (v <=? a) && (a <? v + len)
                                        then mkrun junk junk else r)) (runs k);
     ram := fun a => if (v <=? a) && (a <? v + len) then 1 else ram k a |}.

(** The loop of kfree; the number of headers in memory bounds its length. *)
Fixpoint kfree_loop (fuel : nat) (p pend len : Z) (rp : rptr) : K kmem unit :=
  match fuel with
  | O => diverge
  | S fuel' =>
      r <- gets (deref rp) ;;
      if (r =? 0) || negb (r <=? pend) then
        (* Insert p before r in list. *)
        modify (set_run p (mkrun r len)) ;;
        modify (store rp p)
      else
        rl <- gets (fun k => rlen (run_at k r)) ;;
        let rend := u32 (r + rl) in
        if (r <=? p) && (p <? rend) then panic "freeing free page"
        else if pend =? r then
          (* p next to r: replace r with p *)
          rn <- gets (fun k => rnext (run_at k r)) ;;
          modify (set_run p (mkrun rn (i32 (len + rl)))) ;;
          modify (store rp p)
        else if rend =? p then
          (* r next to p: replace p with r *)
          modify (set_len r (i32 (rl + len))) ;;
          rn <- gets (fun k => rnext (run_at k r)) ;;
          when (negb (rn =? 0) && (rn =? pend))
            (modify (fun k => set_len r (i32 (rlen (run_at k r) + rlen (run_at k rn))) k) ;;
             modify (fun k => set_next r (rnext (run_at k rn)) k))
        else kfree_loop fuel' p pend len (RNext r)
  end.

Definition kfree (v len : Z) : K kmem unit :=
  if (len <=? 0) || negb (Z.rem len PAGE =? 0) then panic "kfree"
  else
    modify (memset_junk v len) ;;
    acquire Lk_kmem ;;
    fuel <- gets (fun k => S (size (runs k))) ;;
    kfree_loop fuel v (u32 (v + len)) len RHead ;;
    release Lk_kmem.

Fixpoint kalloc_loop (fuel : nat) (n : Z) (rp : rptr) : K kmem (option Z) :=
  match fuel with
  | O => diverge
  | S fuel' =>
      r <- gets (deref rp) ;;
      if r =? 0 then kret None
      else
        rl <- gets (fun k => rlen (run_at k r)) ;;
        if rl =? n then
          modify (fun k => store rp (rnext (run_at k r)) k) ;;
          kret (Some r)
        else if n <? rl then
          modify (set_len r (i32 (rl - n))) ;;
          kret (Some (u32 (r + i32 (rl - n))))
        else kalloc_loop fuel' n (RNext r)
  end.

Definition kalloc (n : Z) : K kmem Z :=
  if negb (Z.rem n PAGE =? 0) || (n <=? 0) then panic "kalloc"
  else
    acquire Lk_kmem ;;
    fuel <- gets (fun k => S (size (runs k))) ;;
    r <- kalloc_loop fuel n RHead ;;
    release Lk_kmem ;;
    match r with
    | Some p => kret p
    | None => cprintf "kalloc: out of memory\n" ;; kret 0
    end.

(** kinit: [kend] is the address of the linker symbol end. *)
Definition kinit (kend : Z) : K kmem unit :=
  let start := Z.land (u32 (kend + PAGE)) (Z.lnot (PAGE - 1)) in
  let mem := 256 in
  cprintf "mem = %d\n" ;;
  kfree start (mem * PAGE).

(** ** The abstract allocator *)

(** A free run: its start and its length in bytes. *)
Abbreviation free_run := (Z * Z)%type.

Fixpoint kalloc_abs (n : Z) (l : list free_run) : option (Z * list free_run) :=
  match l with
  | [] => None
  | (s, len) :: t =>
      if len =? n then Some (s, t)
      else if n <? len then Some (s + (len - n), (s, len - n) :: t)
      else '(a, t') ← kalloc_abs n t; Some (a, (s, len) :: t')
  end.

(** [None] is the panic freeing free page. *)
Fixpoint kfree_abs (p n : Z) (l : list free_run) : option (list free_run) :=
  match l with
  | [] => Some [(p, n)]
  | (s, len) :: t =>
      if p + n <? s then Some ((p, n) :: l)
      else if (s <=? p) && (p <? s + len) then None
      else if p + n =? s then Some ((p, n + len) :: t)
      else if s + len =? p then
        match t with
        | (s', len') :: t' =>
            if s' =? p + n then Some ((s, len + n + len') :: t')
            else Some ((s, len + n) :: t)
        | [] => Some [(s, len + n)]
        end
      else t' ← kfree_abs p n t; Some ((s, len) :: t')
  end.

(** Runs above [lo], page aligned, non-empty, in order and separated: no run
    begins where the previous one ends. *)
Fixpoint wf (lo : Z) (l : list free_run) : Prop :=
  match l with
  | [] => True
  | (s, n) :: t =>
      lo < s /\ s mod PAGE = 0 /\ 0 < n /\ n mod PAGE = 0 /\
      s + n <= 2147483648 /\ wf (s + n) t
  end.

(** The address is in some run. *)
Fixpoint is_free (l : list free_run) (a : Z) : Prop :=
  match l with
  | [] => False
  | (s, n) :: t => s <= a < s + n \/ is_free t a
  end.

(** The headers reached from pointer cell [rp] encode [l]. *)
Fixpoint chain (k : kmem) (rp : rptr) (l : list free_run) : Prop :=
  match l with
  | [] => deref rp k = 0
  | (s, n) :: t =>
      deref rp k = s /\ rlen (run_at k s) = n /\ chain k (RNext s) t
  end.

(** The allocator's state encodes the runs [l]. *)
Definition kmem_ok (k : kmem) (l : list free_run) : Prop := chain k RHead l /\ wf 0 l.

(** ** Lemmas on the abstract allocator *)

Lemma wf_weaken lo lo' l : lo <= lo' -> wf lo' l -> wf lo l.
Proof. destruct l as [|[s n] t]; simpl; [done|]. intros ? H. repeat split; try apply H. lia. Qed.

Lemma wf_is_free lo l a : wf lo l -> is_free l a -> lo < a < 2147483648.
Proof.
  revert lo. induction l as [|[s n] t IH]; intros lo Hwf Ha; simpl in *; [done|].
  destruct Hwf as (? & ? & ? & ? & ? & Ht), Ha as [?|Ha]; [lia|].
  specialize (IH _ Ht Ha). lia.
Qed.

Lemma kalloc_abs_spec lo n l a l' :
  wf lo l -> 0 < n -> n mod PAGE = 0 -> kalloc_abs n l = Some (a, l') ->
  wf lo l' /\ a mod PAGE = 0 /\ lo < a /\
  (forall x, a <= x < a + n -> is_free l x) /\
  (forall x, is_free l' x <-> is_free l x /\ ~ (a <= x < a + n)).
Proof.
  intros Hwf Hn Hpg. revert lo a l' Hwf.
  induction l as [|[s len] t IH]; intros lo a l' Hwf H; simpl in *; [done|].
  destruct Hwf as (Hlo & Hs & Hlen & Hlenp & Hb & Ht).
  pose proof (fun x => wf_is_free _ _ x Ht) as Hout.
  destruct (Z.eqb_spec len n) as [->|Hne].
  - simplify_eq. split_and!; [by eapply wf_weaken, Ht; lia|done|lia|tauto|].
    intros x. split; [|intuition lia].
    intros Hx. split; [auto|]. specialize (Hout _ Hx). lia.
  - destruct (Z.ltb_spec n len).
    + simplify_eq. simpl. unfold PAGE in *.
      split_and!; try lia; [dlia|by eapply wf_weaken, Ht; lia|dlia|].
      * intros x. split; [|intuition lia].
        intros [Hx|Hx]; [intuition lia|]. split; [auto|]. specialize (Hout _ Hx). lia.
    + destruct (kalloc_abs n t) as [[a' t']|] eqn:E; simplify_eq/=.
      destruct (IH _ _ _ Ht eq_refl) as (Hwf' & Ha & Hlo' & Hsub & Hiff).
      split_and!; try done; try lia.
      * intros x Hx. right. auto.
      * intros x. rewrite Hiff. split; [|tauto].
        intros [?|[? ?]]; [|tauto]. split; [auto|]. lia.
Qed.

Lemma kalloc_abs_above lo n l a l' :
  wf lo l -> 0 < n -> kalloc_abs n l = Some (a, l') -> lo < a.
Proof.
  revert lo a l'. induction l as [|[s len] t IH]; intros lo a l' Hwf Hn H; simpl in *; [done|].
  destruct Hwf as (? & _ & ? & _ & _ & Hwf).
  destruct (len =? n); [simplify_eq; lia|]. destruct (Z.ltb_spec n len); [simplify_eq; lia|].
  destruct (kalloc_abs n t) as [[a' t']|] eqn:E; simplify_eq/=.
  specialize (IH _ _ _ Hwf Hn eq_refl). lia.
Qed.

(** First fit fails only when every run is too short. *)
Lemma kalloc_abs_none n l :
  kalloc_abs n l = None <-> Forall (fun r => r.2 < n) l.
Proof.
  induction l as [|[s len] t IH]; simpl; [by split|].
  rewrite Forall_cons. simpl.
  destruct (Z.eqb_spec len n); [split; [done|lia]|].
  destruct (Z.ltb_spec n len); [split; [done|lia]|].
  destruct (kalloc_abs n t) as [[a' t']|]; simpl.
  - split; [done|]. intros [_ ?%IH]. done.
  - split; [|done]. intros _. split; [lia|by apply IH].
Qed.

Lemma kfree_abs_spec lo p n l :
  wf lo l -> lo < p -> p mod PAGE = 0 -> 0 < n -> n mod PAGE = 0 -> p + n <= 2147483648 ->
  (forall x, p <= x < p + n -> ~ is_free l x) ->
  exists l', kfree_abs p n l = Some l' /\ wf lo l' /\
    (forall x, is_free l' x <-> is_free l x \/ p <= x < p + n).
Proof.
  intros Hwf Hlo Hp Hn Hnp Hpb Hdis. revert lo Hwf Hlo.
  induction l as [|[s len] t IH]; intros lo Hwf Hlo; simpl in *.
  { eexists. split; [done|]. simpl. split; [tauto|]. intros x. tauto. }
  destruct Hwf as (Hlos & Hs & Hlen & Hlenp & Hb & Ht). unfold PAGE in *.
  assert (Hps : ~ (p < s < p + n)) by (intros ?; apply (Hdis s); [lia|left; lia]).
  assert (Hpin : ~ (s <= p < s + len)) by (intros ?; apply (Hdis p); [lia|left; lia]).
  destruct (Z.ltb_spec (p + n) s).
  { eexists. split; [done|]. simpl. split; [split_and!; (done || lia || (unfold PAGE in *; dlia))|]. intros x. tauto. }
  destruct (Z.leb_spec s p), (Z.ltb_spec p (s + len)); simpl; try lia.
  - destruct (Z.eqb_spec (p + n) s); [lia|].
    destruct (Z.eqb_spec (s + len) p) as [Heq|].
    + destruct t as [|[s' len'] t'].
      { eexists. split; [done|]. simpl. split; [split_and!; (done || lia || (unfold PAGE in *; dlia))|]. intros x. intuition lia. }
      simpl in Ht, Hdis. destruct Ht as (? & ? & ? & ? & ? & Ht).
      destruct (Z.eqb_spec s' (p + n)) as [->|].
      * eexists. split; [done|]. simpl.
        replace (s + (len + n + len')) with (p + n + len') by lia.
        split; [split_and!; (done || lia || (unfold PAGE in *; dlia))|]. intros x. intuition lia.
      * assert (~ (p < s' < p + n)) by (intros ?; apply (Hdis s'); [lia|right; left; lia]).
        eexists. split; [done|]. simpl. replace (s + (len + n)) with (p + n) by lia.
        split; [split_and!; (done || lia || (unfold PAGE in *; dlia))|]. intros x. intuition lia.
    + destruct (IH) with (lo := s + len) as (t' & -> & Hwf' & Hiff); auto; [|lia|].
      { intros x Hx Hf. apply (Hdis x); auto. }
      simpl. eexists. split; [done|]. simpl. split; [tauto|].
      intros x. rewrite Hiff. tauto.
  - assert (p + n = s) as -> by lia. rewrite Z.eqb_refl.
    eexists. split; [done|]. simpl. replace (p + (n + len)) with (s + len) by lia.
    split; [split_and!; (done || lia || (unfold PAGE in *; dlia))|]. intros x. intuition lia.
Qed.

(** ** Refinement: the linked list implements the abstract allocator *)

Definition starts (l : list free_run) : list Z := l.*1.

(** [k'] differs from [k] at most in the pointer cell [rp] and in the headers
    at the addresses [X]. *)
Definition frame (rp : rptr) (X : list Z) (k k' : kmem) : Prop :=
  (rp <> RHead -> freelist k' = freelist k) /\ ram k' = ram k /\
  (forall a, a ∉ X -> rlen (run_at k' a) = rlen (run_at k a)) /\
  (forall a, a ∉ X -> rp <> RNext a -> rnext (run_at k' a) = rnext (run_at k a)).

Definition rp_below (rp : rptr) (lo : Z) : Prop :=
  match rp with RHead => True | RNext a => a <= lo end.

Lemma run_at_set a r k b : run_at (set_run a r k) b = if decide (a = b) then r else run_at k b.
Proof. unfold run_at, set_run; simpl. rewrite lookup_insert. by case_decide. Qed.

Lemma run_at_store rp v k b :
  rp <> RNext b -> run_at (store rp v k) b = run_at k b.
Proof.
  destruct rp; [done|]. intros Hne. unfold store, set_next. rewrite run_at_set.
  rewrite decide_False; [done|]. intros ->. done.
Qed.

Lemma rlen_store rp v k b : rlen (run_at (store rp v k) b) = rlen (run_at k b).
Proof.
  destruct rp; [done|]. unfold store, set_next. rewrite run_at_set.
  case_decide; by subst.
Qed.

Lemma deref_store rp v k : deref rp (store rp v k) = v.
Proof.
  destruct rp; simpl; [done|]. unfold set_next. rewrite run_at_set.
  by rewrite decide_True.
Qed.

Lemma ram_store rp v k : ram (store rp v k) = ram k.
Proof. by destruct rp. Qed.

Lemma freelist_store rp v k : rp <> RHead -> freelist (store rp v k) = freelist k.
Proof. by destruct rp. Qed.

(** A chain only depends on its pointer cell and on its own headers. *)
Lemma chain_move k k' rp rp' l :
  chain k rp l -> deref rp' k' = deref rp k ->
  (forall s, s ∈ starts l -> run_at k' s = run_at k s) -> chain k' rp' l.
Proof.
  revert rp rp'. induction l as [|[s n] t IH]; intros rp rp'; simpl; [congruence|].
  intros (Hd & Hn & Ht) Hd' Hk. unfold starts in *; simpl in *.
  rewrite (Hk s) by set_solver. split_and!; [congruence|done|].
  eapply IH; [done|simpl; by rewrite Hk by set_solver|set_solver].
Qed.

Lemma wf_starts lo l s : wf lo l -> s ∈ starts l -> lo < s.
Proof.
  revert lo. induction l as [|[s' n] t IH]; intros lo; [by intros _ ?%not_elem_of_nil|].
  intros (? & ? & ? & ? & ? & Ht) Hs. unfold starts in Hs. simpl in Hs.
  apply elem_of_cons in Hs as [->|Hs]; [done|]. specialize (IH _ Ht Hs). lia.
Qed.

Lemma wf_starts_free lo l s : wf lo l -> s ∈ starts l -> is_free l s.
Proof.
  revert lo. induction l as [|[s' n] t IH]; intros lo; [by intros _ ?%not_elem_of_nil|].
  intros (? & ? & ? & ? & ? & Ht) Hs. unfold starts in Hs. simpl in Hs.
  apply elem_of_cons in Hs as [->|Hs]; simpl; [left; lia|right; eauto].
Qed.

Lemma wf_nodup lo l : wf lo l -> NoDup (starts l).
Proof.
  revert lo. induction l as [|[s n] t IH]; intros lo; [constructor|].
  intros (? & ? & ? & ? & ? & Ht). constructor; [|by eapply IH].
  intros Hs. pose proof (wf_starts _ _ _ Ht Hs). simpl in *. lia.
Qed.

(** The headers in memory bound the length of the list: the fuel is enough. *)
Lemma chain_fuel k rp lo l : chain k rp l -> wf lo l -> (length l < S (size (runs k)))%nat.
Proof.
  intros Hc Hwf. apply le_n_S.
  assert (list_to_set (starts l) ⊆ dom (runs k)) as Hsub.
  { intros s. rewrite elem_of_list_to_set. revert rp lo Hc Hwf.
    induction l as [|[s' n] t IH]; intros rp lo; [by intros _ _ ?%not_elem_of_nil|].
    intros (Hd & Hn & Hc) (? & ? & ? & ? & ? & Ht) Hs. unfold starts in Hs; simpl in Hs.
    apply elem_of_cons in Hs as [->|Hs]; [|by eapply IH].
    apply elem_of_dom. unfold run_at in Hn. destruct (runs k !! s'); [done|].
    simpl in Hn. lia. }
  apply subseteq_size in Hsub. rewrite size_list_to_set, size_dom in Hsub
    by (by eapply wf_nodup). unfold starts in Hsub. by rewrite length_fmap in Hsub.
Qed.

Lemma rp_below_ne rp lo s : rp_below rp lo -> lo < s -> rp <> RNext s.
Proof. destruct rp; simpl; [done|]. intros ? ? [=]. lia. Qed.

(** The pointer cell and the headers of a list are distinct places. *)
Definition sep (rp : rptr) (l : list free_run) : Prop :=
  NoDup (starts l) /\ forall s, s ∈ starts l -> rp <> RNext s.

Lemma wf_sep rp lo l : rp_below rp lo -> wf lo l -> sep rp l.
Proof.
  intros Hrp Hwf. split; [by eapply wf_nodup|].
  intros s Hs. eapply rp_below_ne; [done|by eapply wf_starts].
Qed.

Lemma sep_cons rp s n t : sep rp ((s, n) :: t) -> rp <> RNext s /\ s ∉ starts t /\ sep rp t.
Proof.
  intros [Hnd Hne]. apply NoDup_cons in Hnd as [Hs Hnd].
  split_and!; [apply Hne; left|done|split; [done|intros; apply Hne; by right]].
Qed.

(** p->len = n; p->next = *rp; *rp = p. *)
Lemma chain_insert k rp p n l :
  sep rp l -> rp <> RNext p -> p ∉ starts l -> chain k rp l ->
  chain (store rp p (set_run p (mkrun (deref rp k) n) k)) rp ((p, n) :: l).
Proof.
  intros [_ Hsep] Hp Hpl Hc. simpl.
  rewrite deref_store, rlen_store, run_at_set, decide_True by done.
  split_and!; [done..|]. eapply chain_move; [done|..].
  - simpl. by rewrite run_at_store, run_at_set, decide_True.
  - intros s Hs. rewrite run_at_store, run_at_set, decide_False; [done| |by apply Hsep].
    by intros ->.
Qed.

(** p->len = n; p->next = r->next; *rp = p, with r the first run. *)
Lemma chain_replace k rp p n s len t :
  sep rp ((s, len) :: t) -> rp <> RNext p -> p ∉ starts t -> chain k rp ((s, len) :: t) ->
  chain (store rp p (set_run p (mkrun (rnext (run_at k s)) n) k)) rp ((p, n) :: t).
Proof.
  intros (_ & _ & [_ Hsep])%sep_cons Hp Hpt (_ & _ & Hc). simpl.
  rewrite deref_store, rlen_store, run_at_set, decide_True by done.
  split_and!; [done..|]. eapply chain_move; [done|..].
  - simpl. by rewrite run_at_store, run_at_set, decide_True.
  - intros s' Hs. rewrite run_at_store, run_at_set, decide_False; [done| |by apply Hsep].
    by intros ->.
Qed.

(** r->len = n with r the first run. *)
Lemma chain_set_len k rp n s len t :
  sep rp ((s, len) :: t) -> chain k rp ((s, len) :: t) ->
  chain (set_len s n k) rp ((s, n) :: t).
Proof.
  intros (Hrs & Hst & _)%sep_cons (Hd & _ & Hc). unfold set_len. simpl.
  rewrite run_at_set, decide_True by done. split_and!; [|done|].
  - destruct rp; simpl in *; [done|]. rewrite run_at_set, decide_False by congruence. done.
  - eapply chain_move; [done|simpl; by rewrite run_at_set, decide_True|].
    intros s' Hs. rewrite run_at_set, decide_False; [done|]. by intros <-.
Qed.

(** r->next = r->next->next with r the first run. *)
Lemma chain_unlink k rp s len s' len' t :
  sep rp ((s, len) :: (s', len') :: t) -> chain k rp ((s, len) :: (s', len') :: t) ->
  chain (set_next s (rnext (run_at k s')) k) rp ((s, len) :: t).
Proof.
  intros (Hrs & Hst & _)%sep_cons (Hd & Hlen & _ & _ & Hc). unfold set_next. simpl.
  unfold starts in Hst; simpl in Hst. rewrite not_elem_of_cons in Hst.
  rewrite run_at_set, decide_True by done. split_and!; [|done|].
  - destruct rp; simpl in *; [done|]. rewrite run_at_set, decide_False by congruence. done.
  - eapply chain_move; [done|simpl; by rewrite run_at_set, decide_True|].
    intros s'' Hs. rewrite run_at_set, decide_False; [done|]. intros <-. naive_solver.
Qed.

(** Work on the rest of the list, reached through the first header. *)
Lemma chain_rest k k' rp s len t t' X :
  sep rp ((s, len) :: t) -> chain k rp ((s, len) :: t) ->
  s ∉ X -> (forall b, rp = RNext b -> b ∉ X) ->
  chain k' (RNext s) t' -> frame (RNext s) X k k' ->
  chain k' rp ((s, len) :: t') /\ frame rp (s :: X) k k'.
Proof.
  intros (Hrs & Hst & _)%sep_cons (Hd & Hlen & _) HsX HrX Hc' (Hfl & Hram & Hl & Hn).
  split; [simpl; split_and!; [|by rewrite Hl|done]|].
  - destruct rp as [|b]; simpl in *; [by rewrite Hfl|].
    rewrite Hn; [done|by apply HrX|congruence].
  - split; [intros; by apply Hfl|]. split; [done|].
    split; intros b Hb; rewrite not_elem_of_cons in Hb; [by apply Hl, Hb|].
    intros. apply Hn; naive_solver.
Qed.

(** Inserting a header and storing its address in [rp] stays in the frame. *)
Lemma frame_insert rp p r v X k :
  p ∈ X -> frame rp X k (store rp v (set_run p r k)).
Proof.
  intros Hp.
  split; [intros; by rewrite freelist_store|]. split; [by rewrite ram_store|].
  split; intros a Ha; [rewrite rlen_store|intros; rewrite run_at_store by done];
    rewrite run_at_set, decide_False; try done; by intros ->.
Qed.

Lemma frame_store rp v X k : frame rp X k (store rp v k).
Proof.
  split; [intros; by rewrite freelist_store|]. split; [by rewrite ram_store|].
  split; intros a Ha; [by rewrite rlen_store|intros; by rewrite run_at_store].
Qed.

Lemma frame_set_run rp s r X k : s ∈ X -> frame rp X k (set_run s r k).
Proof.
  intros Hs. split_and!; [done|done|..]; intros a Ha;
    rewrite run_at_set, decide_False; try done; by intros ->.
Qed.

Lemma frame_trans rp X k1 k2 k3 : frame rp X k1 k2 -> frame rp X k2 k3 -> frame rp X k1 k3.
Proof.
  intros (F1 & R1 & L1 & N1) (F2 & R2 & L2 & N2). split; [|split; [|split]].
  - intros. by rewrite F2, F1.
  - by rewrite R2.
  - intros. by rewrite L2, L1.
  - intros. by rewrite N2, N1.
Qed.

Lemma frame_mono rp X Y k k' : (forall a, a ∈ X -> a ∈ Y) -> frame rp X k k' -> frame rp Y k k'.
Proof. intros H (F & R & L & N). split_and!; eauto. Qed.

Lemma kalloc_loop_refines n fuel k rp lo l :
  0 <= lo -> rp_below rp lo -> chain k rp l -> wf lo l -> 0 < n -> (length l < fuel)%nat ->
  match kalloc_abs n l with
  | Some (a, l') => exists k', kalloc_loop fuel n rp k = Ret (Some a) k' /\
                               chain k' rp l' /\ frame rp (starts l) k k'
  | None => kalloc_loop fuel n rp k = Ret None k
  end.
Proof.
  intros Hlo Hrp Hc Hwf Hn. revert fuel rp lo Hlo Hrp Hc Hwf.
  induction l as [|[s len] t IH]; intros [|fuel] rp lo Hlo Hrp Hc Hwf Hf; simpl in Hf; try lia.
  { simpl in *. ksimpl. by rewrite Hc. }
  pose proof (wf_sep _ _ _ Hrp Hwf) as Hsep.
  pose proof Hc as (Hd & Hlen & Hc'). destruct Hwf as (Hs & _ & Hpos & _ & Hb & Hwf).
  simpl. ksimpl. rewrite Hd.
  assert (s =? 0 = false) as -> by (apply Z.eqb_neq; lia).
  ksimpl. rewrite Hlen.
  destruct (Z.eqb_spec len n) as [->|Hne].
  - eexists. split; [done|]. split; [|apply frame_store].
    apply sep_cons in Hsep as (_ & _ & [_ Hsep]).
    eapply chain_move; [done|by rewrite deref_store|].
    intros s' Hs'. by apply run_at_store, Hsep.
  - destruct (Z.ltb_spec n len).
    + rewrite i32_small, u32_small by lia. eexists. split; [done|].
      split; [by eapply chain_set_len|]. apply frame_set_run. left.
    + specialize (IH fuel (RNext s) (s + len)).
      assert (s ∉ starts t) by (intros Hin; pose proof (wf_starts _ _ _ Hwf Hin); lia).
      destruct (kalloc_abs n t) as [[a t']|]; simpl; [|apply IH; simpl; try done; lia].
      destruct IH as (k' & -> & Hck & Hfr); simpl; try done; try lia.
      eexists. split; [done|]. eapply chain_rest; eauto.
      intros b -> Hin. pose proof (wf_starts _ _ _ Hwf Hin). simpl in Hrp. lia.
Qed.

(** The branch of kfree where the freed range follows run [s]. *)
Lemma kfree_merge_refines p n k rp lo s len t l' :
  0 <= lo -> sep rp ((s, len) :: t) -> chain k rp ((s, len) :: t) ->
  lo < s -> 0 < len -> wf (s + len) t -> s + len = p -> 0 < n -> p + n <= 2147483648 ->
  match t with
  | (s', len') :: t' =>
      if s' =? p + n then Some ((s, len + n + len') :: t') else Some ((s, len + n) :: t)
  | [] => Some [(s, len + n)]
  end = Some l' ->
  exists k',
    (rn <- gets (fun k => rnext (run_at k s)) ;;
     when (negb (rn =? 0) && (rn =? p + n))
       (modify (fun k => set_len s (i32 (rlen (run_at k s) + rlen (run_at k rn))) k) ;;
        modify (fun k => set_next s (rnext (run_at k rn)) k)))
      (set_len s (i32 (len + n)) k) = Ret tt k' /\
    chain k' rp l' /\ frame rp (p :: starts ((s, len) :: t)) k k'.
Proof.
  intros Hlo Hsep Hc Hs Hlen Hwf Hp Hn Hb Habs. rewrite i32_small by lia.
  pose proof (chain_set_len k rp (len + n) _ _ _ Hsep Hc) as Hc1.
  assert (frame rp (p :: starts ((s, len) :: t)) k (set_len s (len + n) k)) as Hfr
    by (apply frame_set_run; right; left).
  assert (sep rp ((s, len + n) :: t)) as Hsep1 by exact Hsep.
  revert Hc1 Hfr. generalize (set_len s (len + n) k). intros k1 Hc1 Hfr.
  pose proof Hc1 as (_ & Hlen1 & Hd1). ksimpl.
  destruct t as [|[s' len'] t']; simpl in Hd1.
  { rewrite Hd1. simpl. injection Habs as <-. eauto. }
  destruct Hd1 as (Hd1 & Hlen' & Hd2), Hwf as (Hs' & _ & Hpos' & _ & Hsb' & Hwf').
  rewrite Hd1. assert (s' =? 0 = false) as -> by (apply Z.eqb_neq; lia). simpl.
  destruct (Z.eqb_spec s' (p + n)) as [->|]; injection Habs as <-; [|eauto].
  ksimpl. rewrite Hlen1, Hlen', i32_small by lia. eexists. split; [done|].
  pose proof (chain_set_len k1 rp (len + n + len') _ _ _ Hsep1 Hc1) as Hc2.
  split; [by eapply chain_unlink|].
  eapply frame_trans; [done|]. eapply frame_trans; apply frame_set_run; right; left.
Qed.

Lemma kfree_loop_refines p n fuel k rp lo l l' :
  0 <= lo -> rp_below rp lo -> chain k rp l -> wf lo l -> lo < p -> 0 < n ->
  p + n <= 2147483648 -> (length l < fuel)%nat ->
  (forall x, p <= x < p + n -> ~ is_free l x) ->
  kfree_abs p n l = Some l' ->
  exists k', kfree_loop fuel p (p + n) n rp k = Ret tt k' /\
             chain k' rp l' /\ frame rp (p :: starts l) k k'.
Proof.
  intros Hlo Hrp Hc Hwf Hp Hn Hb. revert fuel rp lo l' Hlo Hrp Hc Hwf Hp.
  induction l as [|[s len] t IH];
    intros [|fuel] rp lo l' Hlo Hrp Hc Hwf Hp Hf Hdis Habs; simpl in Hf; try lia;
    pose proof (rp_below_ne _ _ _ Hrp Hp) as Hrpp;
    pose proof (wf_sep _ _ _ Hrp Hwf) as Hsep.
  { pose proof (chain_insert k rp p n [] Hsep Hrpp (not_elem_of_nil _) Hc) as Hins.
    simpl in Hc, Habs. rewrite Hc in Hins. injection Habs as <-.
    simpl. ksimpl. rewrite Hc. simpl. ksimpl. eexists. split; [done|].
    split; [done|apply frame_insert; left]. }
  assert (p ∉ starts ((s, len) :: t)) as Hpl.
  { intros Hin. apply (Hdis p); [lia|]. by eapply wf_starts_free. }
  pose proof Hc as (Hd & Hlen & Hc'). destruct Hwf as (Hs & _ & Hpos & _ & Hsb & Hwf).
  simpl in Habs |- *. ksimpl. rewrite Hd.
  assert (s =? 0 = false) as -> by (apply Z.eqb_neq; lia). simpl.
  assert (Hpin : ~ (s <= p < s + len)) by (intros ?; apply (Hdis p); [lia|left; lia]).
  rewrite Z.leb_antisym, negb_involutive.
  destruct (Z.ltb_spec (p + n) s).
  { pose proof (chain_insert k rp p n _ Hsep Hrpp Hpl Hc) as Hins. rewrite Hd in Hins.
    injection Habs as <-. ksimpl. eexists. split; [done|].
    split; [done|apply frame_insert; left]. }
  ksimpl. rewrite Hlen, u32_small by lia.
  destruct ((s <=? p) && (p <? s + len)) eqn:E; [bool_prop; lia|].
  assert (p ∉ starts t) as Hpt by (intros Hin; apply Hpl; by right).
  destruct (Z.eqb_spec (p + n) s) as [Heq|Hne].
  { injection Habs as <-. ksimpl. rewrite i32_small by lia. eexists. split; [done|].
    split; [by eapply chain_replace|apply frame_insert; left]. }
  destruct (Z.eqb_spec (s + len) p) as [Heq|Hne'].
  - ksimpl. eapply kfree_merge_refines; eauto.
  - destruct (kfree_abs p n t) as [t'|] eqn:Et; [|done]. injection Habs as <-.
    assert (s < p) by (assert (~ (p <= s < p + n));
      [intros ?; apply (Hdis s); [lia|left; lia]|lia]).
    destruct (IH fuel (RNext s) (s + len) t') as (k' & -> & Hck & Hfr); simpl; try done; try lia.
    { intros x Hx Hfx. apply (Hdis x Hx). by right. }
    eexists. split; [done|]. apply sep_cons in Hsep as Hsep'. destruct Hsep' as (_ & Hst & _).
    edestruct chain_rest as [Hck' Hfr']; [done|done|..|exact Hck|exact Hfr|].
    + rewrite not_elem_of_cons. split; [lia|done].
    + intros b -> Hin. apply elem_of_cons in Hin as [->|Hin]; [done|].
      pose proof (wf_starts _ _ _ Hwf Hin). simpl in Hrp. lia.
    + split; [done|]. eapply frame_mono; [|done]. unfold starts. set_solver.
Qed.

(** ** kfree's junk fill *)

Lemma run_at_junk v len k a :
  run_at (memset_junk v len k) a =
    match runs k !! a with
    | Some r => if (v <=? a) && (a <? v + len) then mkrun junk junk else r
    | None => mkrun 0 0
    end.
Proof.
  unfold run_at, memset_junk; simpl. rewrite map_lookup_imap. by destruct (runs k !! a).
Qed.

Lemma run_at_junk_out v len k a :
  ~ (v <= a < v + len) -> run_at (memset_junk v len k) a = run_at k a.
Proof.
  intros H. rewrite run_at_junk. unfold run_at. destruct (runs k !! a); [|done]. simpl.
  destruct ((v <=? a) && (a <? v + len)) eqn:E; [bool_prop; lia|done].
Qed.

Lemma chain_junk k p n l :
  kmem_ok k l -> (forall x, p <= x < p + n -> ~ is_free l x) ->
  chain (memset_junk p n k) RHead l.
Proof.
  intros [Hc Hwf] Hdis. eapply chain_move; [done|done|].
  intros s Hs. apply run_at_junk_out. intros ?. eapply Hdis; [done|].
  by eapply wf_starts_free.
Qed.

Lemma size_junk v len k : size (runs (memset_junk v len k)) = size (runs k).
Proof.
  rewrite <- !size_dom. f_equal. apply set_eq. intros a. rewrite !elem_of_dom. simpl.
  rewrite map_lookup_imap. by destruct (runs k !! a).
Qed.

(** Freeing memory that is free: the loop reaches the run that contains [p]. *)
Lemma kfree_loop_double p n fuel k rp lo l :
  0 <= lo -> rp_below rp lo -> lo < p -> chain k rp l -> wf lo l -> 0 < n ->
  p + n <= 2147483648 -> (length l < fuel)%nat -> is_free l p ->
  kfree_loop fuel p (p + n) n rp (memset_junk p n k) = Panic "freeing free page".
Proof.
  intros Hlo Hrp Hp Hc Hwf Hn Hb. revert fuel rp lo Hlo Hrp Hp Hc Hwf.
  induction l as [|[s len] t IH]; intros [|fuel] rp lo Hlo Hrp Hp Hc Hwf Hf Hfree;
    simpl in Hf; try lia; [done|].
  destruct Hc as (Hd & Hlen & Hc), Hwf as (Hs & _ & Hpos & _ & Hsb & Hwf).
  assert (deref rp (memset_junk p n k) = s) as Hd'.
  { destruct rp as [|b]; simpl in *; [done|]. by rewrite run_at_junk_out by lia. }
  assert (s <= p) as Hsp.
  { destruct Hfree as [?|Hfree]; [lia|]. pose proof (wf_is_free _ _ _ Hwf Hfree). lia. }
  simpl. ksimpl. rewrite Hd'.
  assert (s =? 0 = false) as -> by (apply Z.eqb_neq; lia).
  assert (s <=? p + n = true) as -> by (apply Z.leb_le; lia). simpl. ksimpl.
  assert (s <=? p = true) as -> by (apply Z.leb_le; lia). simpl.
  destruct (decide (s = p)) as [->|Hne].
  - rewrite run_at_junk. unfold run_at in Hlen.
    destruct (runs k !! p); simpl in Hlen; [|lia].
    assert ((p <=? p) && (p <? p + n) = true) as ->
      by (apply andb_true_intro; split; [apply Z.leb_le|apply Z.ltb_lt]; lia).
    simpl. unfold junk. rewrite u32_small by lia.
    by assert (p <? p + 16843009 = true) as -> by (apply Z.ltb_lt; lia).
  - rewrite run_at_junk_out, Hlen, u32_small by lia.
    destruct (Z.ltb_spec p (s + len)); [done|].
    destruct Hfree as [?|Hfree]; [lia|]. pose proof (wf_is_free _ _ _ Hwf Hfree).
    assert (p + n =? s = false) as -> by (apply Z.eqb_neq; lia).
    assert (s + len =? p = false) as -> by (apply Z.eqb_neq; lia).
    apply (IH fuel (RNext s) (s + len)); try done; simpl; lia.
Qed.

Lemma kalloc_kfree_abs lo n l a l' :
  wf lo l -> 0 < n -> kalloc_abs n l = Some (a, l') -> kfree_abs a n l' = Some l.
Proof.
  intros Hwf Hn. revert lo a l' Hwf.
  induction l as [|[s len] t IH]; intros lo a l' Hwf H; simpl in *; [done|].
  destruct Hwf as (Hlo & Hs & Hpos & Hlenp & Hb & Hwf).
  destruct (Z.eqb_spec len n) as [->|Hne].
  { simplify_eq. destruct l' as [|[s' len'] t']; simpl; [done|].
    destruct Hwf as (? & _). by assert (a + n <? s' = true) as -> by (apply Z.ltb_lt; lia). }
  destruct (Z.ltb_spec n len).
  { simplify_eq. simpl.
    assert (s + (len - n) + n <? s = false) as -> by (apply Z.ltb_ge; lia).
    assert (s + (len - n) <? s + (len - n) = false) as -> by (apply Z.ltb_ge; lia).
    rewrite andb_false_r.
    assert (s + (len - n) + n =? s = false) as -> by (apply Z.eqb_neq; lia).
    rewrite Z.eqb_refl. replace (len - n + n) with len by lia.
    destruct t as [|[s' len'] t']; [done|]. destruct Hwf as (? & _).
    by assert (s' =? s + (len - n) + n = false) as -> by (apply Z.eqb_neq; lia). }
  destruct (kalloc_abs n t) as [[a' t']|] eqn:E; simplify_eq/=.
  pose proof (kalloc_abs_above _ _ _ _ _ Hwf Hn E).
  assert (a + n <? s = false) as -> by (apply Z.ltb_ge; lia).
  assert (a <? s + len = false) as -> by (apply Z.ltb_ge; lia). rewrite andb_false_r.
  assert (a + n =? s = false) as -> by (apply Z.eqb_neq; lia).
  assert (s + len =? a = false) as -> by (apply Z.eqb_neq; lia).
  by rewrite (IH _ _ _ Hwf eq_refl).
Qed.

(** ** The allocator's properties *)

Lemma kalloc_run k l n :
  kmem_ok k l -> 0 < n -> n mod PAGE = 0 ->
  match kalloc_abs n l with
  | Some (a, l') => exists k', exec (kalloc n) k = Done a tt k' /\ chain k' RHead l' /\
                               ram k' = ram k
  | None => exec (kalloc n) k = Done 0 tt k
  end.
Proof.
  intros [Hc Hwf] Hn Hpg. unfold kalloc.
  rewrite Z.rem_mod_nonneg, Hpg by (unfold PAGE; lia). cbn [negb orb Z.eqb].
  assert (n <=? 0 = false) as -> by (apply Z.leb_gt; lia). kexec.
  pose proof (kalloc_loop_refines n (S (size (runs k))) k RHead 0 l) as Hl.
  pose proof (chain_fuel _ _ _ _ Hc Hwf).
  destruct (kalloc_abs n l) as [[a l']|].
  - destruct Hl as (k' & Hl & Hc' & (_ & Hr & _)); try done.
    rewrite (exec_ret _ _ _ _ Hl). kexec. eauto.
  - erewrite exec_ret by by apply Hl. by kexec.
Qed.

Lemma kfree_run k l p n l' :
  kmem_ok k l -> 0 < p -> 0 < n -> n mod PAGE = 0 -> p + n <= 2147483648 ->
  (forall x, p <= x < p + n -> ~ is_free l x) -> kfree_abs p n l = Some l' ->
  exists k', exec (kfree p n) k = Done tt tt k' /\ chain k' RHead l' /\
             ram k' = ram (memset_junk p n k).
Proof.
  intros Hok Hp Hn Hpg Hb Hdis Habs. unfold kfree.
  rewrite Z.rem_mod_nonneg, Hpg by (unfold PAGE; lia).
  assert (n <=? 0 = false) as -> by (apply Z.leb_gt; lia).
  cbn [negb orb Z.eqb]. kexec. rewrite u32_small by lia.
  pose proof (chain_junk _ _ _ _ Hok Hdis) as Hc. destruct Hok as [_ Hwf].
  destruct (kfree_loop_refines p n (S (size (runs (memset_junk p n k)))) (memset_junk p n k)
              RHead 0 l l') as (k' & Hl & Hc' & (_ & Hr & _)); try done.
  { by eapply chain_fuel. }
  rewrite (exec_ret _ _ _ _ Hl). kexec. eauto.
Qed.

Lemma kalloc_ok k l n :
  kmem_ok k l -> 0 < n -> n mod PAGE = 0 ->
  exists a k' l', exec (kalloc n) k = Done a tt k' /\ kmem_ok k' l' /\
    ((a = 0 /\ k' = k /\ l' = l /\ Forall (fun r => r.2 < n) l) \/
     (0 < a /\ a mod PAGE = 0 /\ (forall x, a <= x < a + n -> is_free l x) /\
      (forall x, is_free l' x <-> is_free l x /\ ~ (a <= x < a + n)))).
Proof.
  intros Hok Hn Hpg. pose proof (kalloc_run k l n Hok Hn Hpg) as Hr.
  destruct (kalloc_abs n l) as [[a l']|] eqn:E.
  - destruct Hr as (k' & Hex & Hc & _). destruct Hok as [_ Hwf].
    destruct (kalloc_abs_spec _ _ _ _ _ Hwf Hn Hpg E) as (Hwf' & Ha & Hpos & Hsub & Hiff).
    exists a, k', l'. split; [done|]. split; [done|]. right. auto.
  - exists 0, k, l. split; [done|]. split; [done|]. left. by rewrite <- kalloc_abs_none.
Qed.

Lemma kfree_ok k l p n :
  kmem_ok k l -> 0 < p -> p mod PAGE = 0 -> 0 < n -> n mod PAGE = 0 -> p + n <= 2147483648 ->
  (forall x, p <= x < p + n -> ~ is_free l x) ->
  exists k' l', exec (kfree p n) k = Done tt tt k' /\ kmem_ok k' l' /\
    (forall x, is_free l' x <-> is_free l x \/ p <= x < p + n) /\
    (forall x, p <= x < p + n -> ram k' x = 1).
Proof.
  intros Hok Hp Hpp Hn Hpg Hb Hdis. pose proof Hok as [_ Hwf].
  destruct (kfree_abs_spec 0 p n l) as (l' & E & Hwf' & Hiff); try done.
  destruct (kfree_run k l p n l') as (k' & Hex & Hc & Hr); try done.
  exists k', l'. split_and!; try done. intros x Hx. rewrite Hr. simpl.
  by assert ((p <=? x) && (x <? p + n) = true) as ->
    by (apply andb_true_intro; split; [apply Z.leb_le|apply Z.ltb_lt]; lia).
Qed.


(** C19. kfree: freeing a page-aligned range no page of which is free returns,
    adds exactly that range to the free memory, keeps the list sorted with
    adjacent runs merged, and fills the range with 1s. *)
Theorem kfree_spec k l p n :
  kmem_ok k l -> 0 < p -> p mod PAGE = 0 -> 0 < n -> n mod PAGE = 0 -> p + n <= 2147483648 ->
  (forall x, p <= x < p + n -> ~ is_free l x) ->
  exists k' l', exec (kfree p n) k = Done tt tt k' /\ kmem_ok k' l' /\
    (forall x, is_free l' x <-> is_free l x \/ p <= x < p + n) /\
    (forall x, p <= x < p + n -> ram k' x = 1).
Proof. apply kfree_ok. Qed.

(** The allocator seen by its clients: [F] is the set of free addresses. *)
Definition mem_free (k : kmem) (F : Z -> Prop) : Prop :=
  exists l, kmem_ok k l /\ forall x, is_free l x <-> F x.

Definition block (a n x : Z) : Prop := a <= x < a + n.

Lemma kalloc_client k F n :
  mem_free k F -> 0 < n -> n mod PAGE = 0 ->
  exists a k', exec (kalloc n) k = Done a tt k' /\
    ((a = 0 /\ k' = k) \/
     (0 < a /\ a mod PAGE = 0 /\ a + n <= 2147483648 /\ (forall x, block a n x -> F x) /\
      mem_free k' (fun x => F x /\ ~ block a n x))).
Proof.
  intros (l & Hok & HF) Hn Hp.
  destruct (kalloc_ok k l n Hok Hn Hp) as (a & k' & l' & Hex & Hok' & [(-> & -> & _)|(Ha & Hm & Hs & Hi)]).
  - exists 0, k. auto.
  - exists a, k'. split; [done|]. right. split_and!; try done.
    + destruct Hok as [_ Hwf]. pose proof (wf_is_free 0 l (a + n - 1) Hwf ltac:(apply Hs; lia)). lia.
    + intros x Hx. by apply HF, Hs.
    + exists l'. split; [done|]. intros x. rewrite Hi, HF. done.
Qed.

Lemma kfree_client k F p n :
  mem_free k F -> 0 < p -> p mod PAGE = 0 -> 0 < n -> n mod PAGE = 0 -> p + n <= 2147483648 ->
  (forall x, block p n x -> ~ F x) ->
  exists k', exec (kfree p n) k = Done tt tt k' /\ mem_free k' (fun x => F x \/ block p n x).
Proof.
  intros (l & Hok & HF) Hp Hpm Hn Hnm Hb Hd.
  destruct (kfree_ok k l p n Hok Hp Hpm Hn Hnm Hb) as (k' & l' & Hex & Hok' & Hi & _).
  { intros x Hx. rewrite HF. by apply Hd. }
  exists k'. split; [done|]. exists l'. split; [done|]. intros x. rewrite Hi, HF. done.
Qed.

(** Freeing a page that is already free is caught: kfree panics. *)
Theorem kfree_double_free_panics k l p n :
  kmem_ok k l -> 0 < p -> 0 < n -> n mod PAGE = 0 -> p + n <= 2147483648 ->
  is_free l p -> exec (kfree p n) k = Panicked "freeing free page".
Proof.
  intros [Hc Hwf] Hp Hn Hpg Hb Hfree. unfold kfree.
  rewrite Z.rem_mod_nonneg, Hpg by (unfold PAGE; lia).
  assert (n <=? 0 = false) as -> by (apply Z.leb_gt; lia).
  cbn [negb orb Z.eqb]. kexec. rewrite u32_small, size_junk by lia.
  erewrite exec_Panic; [done|]. eapply kfree_loop_double; try done. by eapply chain_fuel.
Qed.

(** Allocating a block and freeing it gives back the free list as it was. *)
Theorem kalloc_kfree_roundtrip k l n :
  kmem_ok k l -> 0 < n -> n mod PAGE = 0 -> Exists (fun r => n <= r.2) l ->
  exists a k', exec (a <- kalloc n ;; kfree a n ;; kret a) k = Done a tt k' /\
               0 < a /\ kmem_ok k' l.
Proof.
  intros Hok Hn Hpg Hex. pose proof (kalloc_run k l n Hok Hn Hpg) as Hr.
  destruct (kalloc_abs n l) as [[a l']|] eqn:E.
  - destruct Hr as (k1 & Hex1 & Hc1 & _). destruct Hok as [_ Hwf].
    pose proof (kalloc_kfree_abs _ _ _ _ _ Hwf Hn E) as Hback.
    destruct (kalloc_abs_spec _ _ _ _ _ Hwf Hn Hpg E) as (Hwf' & Ha & Hpos & Hsub & Hiff).
    assert (a + n <= 2147483648).
    { assert (is_free l (a + n - 1)) as Hl by (apply Hsub; lia).
      pose proof (wf_is_free _ _ _ Hwf Hl). lia. }
    destruct (kfree_run k1 l' a n l) as (k2 & Hex2 & Hc2 & _); try done.
    { intros x Hx Hf. by apply Hiff in Hf as [_ ?]. }
    exists a, k2. kexec. rewrite Hex1. kexec. rewrite Hex2. kexec. by split.
  - apply kalloc_abs_none in E. rewrite Exists_exists in Hex. rewrite Forall_forall in E.
    destruct Hex as (r & Hin & Hr'). specialize (E _ Hin). simpl in *. lia.
Qed.

Lemma page_round x : 0 <= x -> Z.land x (Z.lnot (PAGE - 1)) = x / PAGE * PAGE.
Proof.
  intros Hx. change (PAGE - 1) with (Z.ones 12). rewrite <- Z.ldiff_land.
  rewrite Z.ldiff_ones_r by lia. rewrite Z.shiftr_div_pow2, Z.shiftl_mul_pow2 by lia. done.
Qed.

(** kinit, on the cleared kernel data: exactly one megabyte becomes free,
    starting at the first page boundary above the kernel image. *)
Theorem kinit_spec k kend :
  freelist k = 0 -> 0 <= kend -> kend + 2 * 1048576 <= 2147483648 ->
  exists k' start, exec (kinit kend) k = Done tt tt k' /\
    kend < start <= kend + PAGE /\ start mod PAGE = 0 /\
    kmem_ok k' [(start, 1048576)] /\
    forall x, is_free [(start, 1048576)] x -> ram k' x = 1.
Proof.
  intros Hk H0 Hend. unfold kinit. kexec.
  rewrite u32_small, page_round by (unfold PAGE; lia).
  set (start := (kend + PAGE) / PAGE * PAGE).
  assert (Hs : kend < start <= kend + PAGE /\ start mod PAGE = 0).
  { subst start. unfold PAGE. split; [dlia|]. apply Z.mod_mul. lia. }
  destruct Hs as [Hs Hm]. clearbody start.
  destruct (kfree_run k [] start (256 * PAGE) [(start, 1048576)]) as (k' & Hex & Hc & Hr);
    try done; try (unfold PAGE in *; lia); try (by intros ? ? []).
  exists k', start. rewrite Hex. split_and!; try done; try lia.
  { split; [done|]. simpl. unfold PAGE in *. split_and!; try done; lia. }
  intros x [Hx|[]]. rewrite Hr. cbn [memset_junk ram].
  change (256 * PAGE) with 1048576.
  destruct (start <=? x) eqn:E1, (x <? start + 1048576) eqn:E2; bool_prop; try done; lia.
Qed.


(** A machine with two free runs: one page at 0x1000, three pages at 0x4000. *)
Definition kmem_ex : kmem :=
  {| freelist := 4096;
     runs := {[ 4096 := mkrun 16384 4096; 16384 := mkrun 0 12288 ]};
     ram := fun _ => 0 |}.

Lemma kmem_ex_ok : kmem_ok kmem_ex [(4096, 4096); (16384, 12288)].
Proof. split; [by repeat split|]. simpl. split_and!; done || lia. Qed.


Lemma kfree_spec_witness :
  exists k' l', exec (kfree 8192 8192) kmem_ex = Done tt tt k' /\ kmem_ok k' l' /\
    (forall x, is_free l' x <->
       is_free [(4096, 4096); (16384, 12288)] x \/ 8192 <= x < 8192 + 8192) /\
    (forall x, 8192 <= x < 8192 + 8192 -> ram k' x = 1).
Proof.
  apply (kfree_spec kmem_ex _ 8192 8192 kmem_ex_ok); try lia; try reflexivity.
  simpl. lia.
Defined.

Lemma kfree_double_free_panics_witness :
  exec (kfree 20480 4096) kmem_ex = Panicked "freeing free page".
Proof.
  apply (kfree_double_free_panics kmem_ex _ 20480 4096 kmem_ex_ok);
    try lia; try reflexivity. simpl. lia.
Defined.

Lemma kalloc_kfree_roundtrip_witness :
  exists a k', exec (a <- kalloc 8192 ;; kfree a 8192 ;; kret a) kmem_ex = Done a tt k' /\
               0 < a /\ kmem_ok k' [(4096, 4096); (16384, 12288)].
Proof.
  apply (kalloc_kfree_roundtrip kmem_ex _ 8192 kmem_ex_ok); [lia|reflexivity|].
  right. left. simpl. lia.
Defined.

(** The loops contain no events, so the lock is the only one they touch. *)
Lemma kinit_spec_witness :
  exists k' start, exec (kinit 1100000) (mkkmem 0 ∅ (fun _ => 0)) = Done tt tt k' /\
    1100000 < start <= 1100000 + PAGE /\ start mod PAGE = 0 /\
    kmem_ok k' [(start, 1048576)] /\
    forall x, is_free [(start, 1048576)] x -> ram k' x = 1.
Proof. apply (kinit_spec (mkkmem 0 ∅ (fun _ => 0)) 1100000); [reflexivity|lia|lia]. Defined.

Lemma kalloc_loop_locks held fuel n rp :
  lock_balanced held (kalloc_loop fuel n rp).
Proof.
  revert rp. induction fuel as [|fuel IH]; intros rp k; simpl; [done|]. ksimpl.
  destruct (_ =? 0); [done|]. ksimpl. destruct (_ =? n); [done|].
  destruct (n <? _); [done|]. apply IH.
Qed.

Lemma kfree_loop_locks held fuel p pend len rp :
  lock_balanced held (kfree_loop fuel p pend len rp).
Proof.
  revert rp. induction fuel as [|fuel IH]; intros rp k; simpl; [done|]. ksimpl.
  destruct (_ || _); [done|]. ksimpl. destruct (_ && _); [done|].
  destruct (pend =? _); [done|]. destruct (_ =? p); [|apply IH].
  ksimpl. by destruct (_ && _).
Qed.

#[local] Hint Resolve kalloc_loop_locks kfree_loop_locks : klocks.

Lemma kalloc_locks held n :
  Lk_kmem ∉ held -> Lk_cons ∉ held -> lock_balanced held (kalloc n).
Proof. intros H1 H2. unfold kalloc. destruct (_ || _); lock_tac. Qed.

Lemma kfree_locks held v n : Lk_kmem ∉ held -> lock_balanced held (kfree v n).
Proof. intros H1. unfold kfree. destruct (_ || _); lock_tac. Qed.
End Kalloc.

#[export] Hint Resolve Kalloc.kalloc_locks Kalloc.kfree_locks : klocks.
