(* ===== verification/Cstring.v ===== *)
(** * Cstring: string.c

    Memory is a function from addresses to bytes and a pointer an address; the
    functions that only read take their arguments as readers [nat -> Z] (the
    byte at an offset), so that they apply to a pointer into memory ([rd]) and
    to an array held as a list ([byte_at]) alike.  Pointer arithmetic is on Z:
    the arrays do not wrap around the address space. *)
From S2P Require Import Prelude.
From stdpp Require Import options.

Module Cstring.

Definition mem : Type := Z -> Z.

Definition upd (m : mem) (a v : Z) : mem := fun x => if x =? a then v else m x.

(** The bytes from pointer [p] on. *)
Definition rd (m : mem) (p : Z) : nat -> Z := fun i => m (p + Z.of_nat i).

(** memset through stosb: [n] bytes of the low byte of [c]. *)
Fixpoint stosb (m : mem) (addr data : Z) (cnt : nat) : mem :=
  match cnt with
  | O => m
  | S cnt' => stosb (upd m addr (u8 data)) (addr + 1) data cnt'
  end.

Definition memset (dst c n : Z) (m : mem) : mem := stosb m dst c (Z.to_nat n).

Fixpoint memcmp_loop (s1 s2 : nat -> Z) (n i : nat) : Z :=
  match n with
  | O => 0
  | S n' => if negb (s1 i =? s2 i) then s1 i - s2 i else memcmp_loop s1 s2 n' (S i)
  end.

Definition memcmp (v1 v2 : nat -> Z) (n : Z) : Z := memcmp_loop v1 v2 (Z.to_nat n) 0.

(** while(n-- > 0) *d++ = *s++ *)
Fixpoint copy_up (m : mem) (d s : Z) (n : nat) : mem :=
  match n with
  | O => m
  | S n' => copy_up (upd m d (m s)) (d + 1) (s + 1) n'
  end.

(** while(n-- > 0) *--d = *--s *)
Fixpoint copy_down (m : mem) (d s : Z) (n : nat) : mem :=
  match n with
  | O => m
  | S n' => copy_down (upd m (d - 1) (m (s - 1))) (d - 1) (s - 1) n'
  end.

Definition memmove (dst src n : Z) (m : mem) : mem :=
  if (src <? dst) && (dst <? src + n)
  then copy_down m (dst + n) (src + n) (Z.to_nat n)
  else copy_up m dst src (Z.to_nat n).

Fixpoint strncmp_loop (p q : nat -> Z) (n i : nat) : Z :=
  match n with
  | O => 0
  | S n' =>
      if negb (p i =? 0) && (p i =? q i) then strncmp_loop p q n' (S i)
      else u8 (p i) - u8 (q i)
  end.

Definition strncmp (p q : nat -> Z) (n : Z) : Z := strncmp_loop p q (Z.to_nat n) 0.

(** while(n-- > 0) *s++ = 0 *)
Fixpoint pad_loop (m : mem) (s : Z) (n : nat) : mem :=
  match n with
  | O => m
  | S n' => pad_loop (upd m s 0) (s + 1) n'
  end.

(** while(n-- > 0 && ( *s++ = *t++) != 0); then the padding loop *)
Fixpoint strncpy_loop (m : mem) (s t : Z) (n : nat) : mem :=
  match n with
  | O => m
  | S n' =>
      let m' := upd m s (m t) in
      if m t =? 0 then pad_loop m' (s + 1) n' else strncpy_loop m' (s + 1) (t + 1) n'
  end.

Definition strncpy (s t n : Z) (m : mem) : mem := strncpy_loop m s t (Z.to_nat n).

(** while(--n > 0 && ( *s++ = *t++) != 0); *s = 0 *)
Fixpoint safestrcpy_loop (m : mem) (s t : Z) (n : nat) : mem :=
  match n with
  | O => upd m s 0
  | S n' =>
      let m' := upd m s (m t) in
      if m t =? 0 then upd m' (s + 1) 0 else safestrcpy_loop m' (s + 1) (t + 1) n'
  end.

Definition safestrcpy (s t n : Z) (m : mem) : mem :=
  if n <=? 0 then m else safestrcpy_loop m s t (Z.to_nat (n - 1)).

(** strlen has no bound: [None] when no NUL is met within the fuel. *)
Fixpoint strlen_loop (fuel : nat) (s : nat -> Z) (n : nat) : option Z :=
  match fuel with
  | O => None
  | S fuel' => if s n =? 0 then Some (Z.of_nat n) else strlen_loop fuel' s (S n)
  end.

Definition strlen (fuel : nat) (s : nat -> Z) : option Z := strlen_loop fuel s 0.

(** ** Specifications *)

(** The C string at [p], cut at [n] bytes: the bytes before the first NUL. *)
Fixpoint cstr (p : nat -> Z) (n i : nat) : bytes :=
  match n with
  | O => []
  | S n' => if p i =? 0 then [] else p i :: cstr p n' (S i)
  end.

(** The [n] bytes strncpy writes: the string, padded with NULs. *)
Definition strncpy_bytes (p : nat -> Z) (n : nat) : bytes :=
  let l := cstr p n 0 in l ++ replicate (n - length l) 0.

Lemma upd_same m a v : upd m a v a = v.
Proof. unfold upd. by rewrite Z.eqb_refl. Qed.

Lemma upd_other m a v x : x <> a -> upd m a v x = m x.
Proof. intros. unfold upd. destruct (Z.eqb_spec x a); [lia|done]. Qed.

(** Case analysis on membership of an address in an interval. *)
Ltac ival :=
  repeat match goal with
  | |- context [(?a <=? ?x) && (?x <? ?b)] =>
      let E := fresh "E" in
      destruct ((a <=? x) && (x <? b)) eqn:E;
      [bool_prop | apply andb_false_iff in E; rewrite Z.leb_gt, Z.ltb_ge in E]
  end; try lia.

Lemma copy_up_spec n m d s x :
  ~ (s < d < s + Z.of_nat n) ->
  copy_up m d s n x = if (d <=? x) && (x <? d + Z.of_nat n) then m (s + (x - d)) else m x.
Proof.
  revert m d s. induction n as [|n IH]; intros m d s H; simpl; [by ival|].
  rewrite IH by lia. ival.
  - rewrite upd_other by lia. f_equal. lia.
  - assert (x = d) as -> by lia. rewrite upd_same. f_equal. lia.
  - apply upd_other. lia.
Qed.

Lemma copy_down_spec n m d s x :
  s < d ->
  copy_down m d s n x = if (d - Z.of_nat n <=? x) && (x <? d) then m (x - d + s) else m x.
Proof.
  revert m d s. induction n as [|n IH]; intros m d s H; simpl; [by ival|].
  rewrite IH by lia. ival.
  - rewrite upd_other by lia. f_equal. lia.
  - assert (x = d - 1) as -> by lia. rewrite upd_same. f_equal. lia.
  - apply upd_other. lia.
Qed.

(** memmove copies correctly however source and destination overlap: the
    destination holds what the source held before the call, and every other
    byte of memory is unchanged. *)
Theorem memmove_spec dst src n m x :
  0 <= n ->
  memmove dst src n m x =
    if (dst <=? x) && (x <? dst + n) then m (src + (x - dst)) else m x.
Proof.
  intros Hn. unfold memmove.
  destruct ((src <? dst) && (dst <? src + n)) eqn:E; bool_prop.
  - rewrite copy_down_spec by lia. rewrite Z2Nat.id by lia.
    replace (dst + n - n) with dst by lia. case_match; [f_equal; lia|done].
  - rewrite copy_up_spec; rewrite Z2Nat.id by lia; [done|].
    intros ?. apply andb_false_iff in E. destruct E; bool_prop; lia.
Qed.

(** Moving four bytes one byte up, with overlap. *)
Lemma memmove_spec_witness :
  memmove 101 100 4 (fun a => a) 103 = 102.
Proof. rewrite (memmove_spec 101 100 4 (fun a => a) 103); [reflexivity|lia]. Defined.

Lemma memset_spec dst c n m x :
  0 <= n ->
  memset dst c n m x = if (dst <=? x) && (x <? dst + n) then u8 c else m x.
Proof.
  intros Hn. unfold memset. rewrite <- (Z2Nat.id n) at 2 by lia.
  generalize (Z.to_nat n). clear n Hn. intros n. revert m dst.
  induction n as [|n IH]; intros m d; simpl; [by ival|].
  rewrite IH. ival.
  - assert (x = d) as -> by lia. apply upd_same.
  - apply upd_other. lia.
Qed.

Lemma length_cstr p n i : (length (cstr p n i) <= n)%nat.
Proof.
  revert i. induction n as [|n IH]; intros i; simpl; [lia|].
  destruct (p i =? 0); simpl; [lia|]. specialize (IH (S i)). lia.
Qed.

(** strncmp compares the two strings up to the bound: it returns 0 exactly
    when the first n bytes, cut at the NUL, are the same. *)
Theorem strncmp_zero p q n :
  (forall i, is_byte (p i)) -> (forall i, is_byte (q i)) ->
  strncmp p q n = 0 <-> cstr p (Z.to_nat n) 0 = cstr q (Z.to_nat n) 0.
Proof.
  intros Hp Hq. unfold strncmp. generalize 0%nat.
  induction (Z.to_nat n) as [|k IH]; intros i; simpl; [done|].
  specialize (Hp i) as Hpi. specialize (Hq i) as Hqi. unfold is_byte in *.
  unfold u8. rewrite !Z.mod_small by lia.
  destruct (Z.eqb_spec (p i) 0) as [E0|E0]; simpl.
  - rewrite E0. destruct (Z.eqb_spec (q i) 0); split; intros; try done; lia.
  - destruct (Z.eqb_spec (p i) (q i)) as [E|E].
    + rewrite IH. rewrite <- E. destruct (Z.eqb_spec (p i) 0); [lia|]. split; congruence.
    + split; [lia|]. destruct (q i =? 0); congruence.
Qed.

(** "ab" and "abc" differ, but agree up to two bytes. *)
Lemma strncmp_zero_witness :
  strncmp (byte_at [97; 98; 0]) (byte_at [97; 98; 99; 0]) 2 = 0.
Proof.
  apply (strncmp_zero (byte_at [97; 98; 0]) (byte_at [97; 98; 99; 0]) 2); [..|reflexivity];
    intros i; apply byte_at_range; repeat constructor; unfold is_byte; lia.
Defined.

(** Equal strings compare equal, whatever follows the NUL. *)
Lemma strncmp_same p q n :
  cstr p (Z.to_nat n) 0 = cstr q (Z.to_nat n) 0 -> strncmp p q n = 0.
Proof.
  unfold strncmp. generalize 0%nat. induction (Z.to_nat n) as [|k IH]; intros i H; simpl in *; [done|].
  destruct (Z.eqb_spec (p i) 0) as [E0|E0], (Z.eqb_spec (q i) 0) as [E1|E1]; simpl; try done.
  - by rewrite E0, E1.
  - injection H as E H. rewrite E, Z.eqb_refl. auto.
Qed.

Lemma cstr_nonzero p n i : Forall (.≠ 0) (cstr p n i).
Proof.
  revert i. induction n as [|n IH]; intros i; simpl; [constructor|].
  destruct (Z.eqb_spec (p i) 0); constructor; auto.
Qed.

Lemma pad_loop_spec n m s x :
  pad_loop m s n x = if (s <=? x) && (x <? s + Z.of_nat n) then 0 else m x.
Proof.
  revert m s. induction n as [|n IH]; intros m s; simpl; [by ival|].
  rewrite IH. ival.
  - assert (x = s) as -> by lia. apply upd_same.
  - apply upd_other. lia.
Qed.

(** Two arrays that do not overlap. *)
Definition disjoint (s : Z) (ns : Z) (t : Z) (nt : Z) : Prop := s + ns <= t \/ t + nt <= s.

Lemma cstr_ext p q n i :
  (forall k, (i <= k < i + n)%nat -> p k = q k) -> cstr p n i = cstr q n i.
Proof.
  revert i. induction n as [|n IH]; intros i H; simpl; [done|].
  rewrite <- H by lia. case_match; [done|]. f_equal. apply IH. intros. apply H. lia.
Qed.

Lemma cstr_shift m t n i : cstr (rd m t) n (S i) = cstr (rd m (t + 1)) n i.
Proof.
  revert i. induction n as [|n IH]; intros i; simpl; [done|]. rewrite IH.
  unfold rd. replace (t + Z.of_nat (S i)) with (t + 1 + Z.of_nat i) by lia. done.
Qed.

Lemma strncpy_bytes_cons m t n :
  strncpy_bytes (rd m t) (S n) =
  m t :: if m t =? 0 then replicate n 0 else strncpy_bytes (rd m (t + 1)) n.
Proof.
  unfold strncpy_bytes. simpl. rewrite cstr_shift. unfold rd at 1 2 3 4. simpl.
  replace (t + Z.of_nat 0) with t by lia.
  destruct (Z.eqb_spec (m t) 0) as [E|E]; simpl; [|done]. by rewrite E.
Qed.

Lemma strncpy_bytes_ext p q n :
  (forall k, (k < n)%nat -> p k = q k) -> strncpy_bytes p n = strncpy_bytes q n.
Proof. intros H. unfold strncpy_bytes. rewrite (cstr_ext p q) by (intros; apply H; lia). done. Qed.

Lemma length_strncpy_bytes p n : length (strncpy_bytes p n) = n.
Proof.
  unfold strncpy_bytes. rewrite length_app, length_replicate.
  pose proof (length_cstr p n 0). lia.
Qed.

Lemma strncpy_loop_spec n m s t x :
  disjoint s (Z.of_nat n) t (Z.of_nat n) ->
  strncpy_loop m s t n x =
    if (s <=? x) && (x <? s + Z.of_nat n)
    then byte_at (strncpy_bytes (rd m t) n) (Z.to_nat (x - s)) else m x.
Proof.
  unfold disjoint. revert m s t. induction n as [|n IH]; intros m s t H; simpl; [by ival|].
  rewrite strncpy_bytes_cons. destruct (Z.eqb_spec (m t) 0) as [E|E].
  - rewrite pad_loop_spec. ival.
    + replace (Z.to_nat (x - s)) with (S (Z.to_nat (x - s - 1))) by lia.
      symmetry. apply byte_at_lookup. simpl. by rewrite lookup_replicate_2 by lia.
    + assert (x = s) as -> by lia. rewrite upd_same, Z.sub_diag. done.
    + apply upd_other. lia.
  - rewrite IH by lia.
    rewrite (strncpy_bytes_ext _ (rd m (t + 1)))
      by (intros k Hk; unfold rd; apply upd_other; lia). ival.
    + replace (Z.to_nat (x - s)) with (S (Z.to_nat (x - (s + 1)))) by lia. done.
    + assert (x = s) as -> by lia. rewrite upd_same, Z.sub_diag. done.
    + apply upd_other. lia.
Qed.

(** strncpy writes exactly n bytes: the source string up to its NUL or to
    n bytes, then NULs; nothing else changes (arrays that do not overlap). *)
Theorem strncpy_spec s t n m x :
  0 <= n -> disjoint s n t n ->
  strncpy s t n m x =
    if (s <=? x) && (x <? s + n)
    then byte_at (strncpy_bytes (rd m t) (Z.to_nat n)) (Z.to_nat (x - s)) else m x.
Proof.
  intros Hn Hd. unfold strncpy. rewrite strncpy_loop_spec; rewrite Z2Nat.id by lia; done.
Qed.

(** The address of each byte serves as its content; address 0 is the NUL. *)
Lemma strncpy_spec_witness :
  strncpy 100 (-2) 4 (fun a => u8 a) 101 = 255 /\ strncpy 100 (-2) 4 (fun a => u8 a) 103 = 0.
Proof.
  split; rewrite (strncpy_spec 100 (-2) 4 (fun a => u8 a));
    first [reflexivity | lia | right; lia].
Defined.

Lemma safestrcpy_loop_spec n m s t :
  disjoint s (Z.of_nat n + 1) t (Z.of_nat n) ->
  let m' := safestrcpy_loop m s t n in
  cstr (rd m' s) (S n) 0 = cstr (rd m t) n 0 /\
  rd m' s (length (cstr (rd m t) n 0)) = 0 /\
  forall x, ~ (s <= x < s + Z.of_nat n + 1) -> m' x = m x.
Proof.
  unfold disjoint. revert m s t. induction n as [|n IH]; intros m s t H.
  - cbn [safestrcpy_loop cstr length]. unfold rd. rewrite Z.add_0_r, upd_same.
    split; [done|]. split; [done|]. intros x Hx. apply upd_other. lia.
  - cbn [safestrcpy_loop]. destruct (Z.eqb_spec (m t) 0) as [E|E].
    + cbn [cstr]. unfold rd. rewrite !Z.add_0_r, E. simpl. rewrite Z.add_0_r, upd_other by lia.
      rewrite upd_same. split; [done|]. split; [done|]. intros x Hx.
      by rewrite !upd_other by lia.
    + destruct (IH (upd m s (m t)) (s + 1) (t + 1)) as (I1 & I2 & I3); [lia|].
      set (m' := safestrcpy_loop _ _ _ n) in *.
      assert (Hs : m' s = m t) by (rewrite I3 by lia; apply upd_same).
      assert (Ht : cstr (rd (upd m s (m t)) (t + 1)) n 0 = cstr (rd m (t + 1)) n 0).
      { apply cstr_ext. intros k Hk. unfold rd. apply upd_other. lia. }
      rewrite Ht in I1, I2.
      assert (Hc : cstr (rd m t) (S n) 0 = m t :: cstr (rd m (t + 1)) n 0).
      { cbn [cstr]. rewrite cstr_shift. unfold rd at 1 2. rewrite Z.add_0_r.
        destruct (Z.eqb_spec (m t) 0); [lia|done]. }
      rewrite Hc. split; [|split].
      * change (cstr (rd m' s) (S (S n)) 0) with
          (if rd m' s 0 =? 0 then [] else rd m' s 0 :: cstr (rd m' s) (S n) 1).
        rewrite cstr_shift, I1. unfold rd at 1 2. rewrite Z.add_0_r, Hs.
        destruct (Z.eqb_spec (m t) 0); [lia|done].
      * rewrite <- I2. unfold rd. simpl length. f_equal. lia.
      * intros x Hx. rewrite I3 by lia. apply upd_other. lia.
Qed.

(** safestrcpy leaves a NUL-terminated string in the n bytes it is given:
    the first n-1 bytes of the source string; nothing outside changes. *)
Theorem safestrcpy_spec s t n m :
  0 < n -> disjoint s n t (n - 1) ->
  let m' := safestrcpy s t n m in
  cstr (rd m' s) (Z.to_nat n) 0 = cstr (rd m t) (Z.to_nat (n - 1)) 0 /\
  rd m' s (length (cstr (rd m t) (Z.to_nat (n - 1)) 0)) = 0 /\
  forall x, ~ (s <= x < s + n) -> m' x = m x.
Proof.
  intros Hn Hd. unfold safestrcpy. destruct (Z.leb_spec n 0); [lia|].
  destruct (safestrcpy_loop_spec (Z.to_nat (n - 1)) m s t) as (A & B & C).
  { rewrite Z2Nat.id by lia. by replace (n - 1 + 1) with n by lia. }
  replace (S (Z.to_nat (n - 1))) with (Z.to_nat n) in A by lia.
  split; [done|]. split; [done|]. intros x Hx. apply C. lia.
Qed.

Lemma safestrcpy_spec_witness :
  cstr (rd (safestrcpy 100 65 4 (fun a => u8 a)) 100) 4 0 = [65; 66; 67].
Proof.
  destruct (safestrcpy_spec 100 65 4 (fun a => u8 a)) as (H & _);
    [lia | right; lia | exact H].
Defined.

(** strlen returns once the fuel reaches the NUL. *)
Lemma strlen_spec fuel s k :
  s k = 0 -> (forall i, (i < k)%nat -> s i <> 0) -> (k < fuel)%nat ->
  strlen fuel s = Some (Z.of_nat k).
Proof.
  intros Hk Hlt. unfold strlen.
  assert (forall j i, (i + j = k)%nat -> (j < fuel)%nat ->
            strlen_loop fuel s i = Some (Z.of_nat k)) as H; [|intros; by apply (H k 0%nat)].
  revert fuel. intros fuel j. revert fuel.
  induction j as [|j IH]; intros [|fuel] i Hi Hf; try lia; simpl.
  - assert (i = k) as -> by lia. by rewrite Hk.
  - destruct (Z.eqb_spec (s i) 0) as [E|E]; [exfalso; apply (Hlt i); [lia|done]|].
    apply IH; lia.
Qed.

Lemma memcmp_zero p q n :
  memcmp p q n = 0 <-> forall i, (i < Z.to_nat n)%nat -> p i = q i.
Proof.
  unfold memcmp.
  assert (forall k i, memcmp_loop p q k i = 0 <-> forall j, (i <= j < i + k)%nat -> p j = q j) as H.
  { induction k as [|k IH]; intros i; simpl; [split; [intros; lia|done]|].
    destruct (Z.eqb_spec (p i) (q i)) as [E|E]; simpl.
    - rewrite IH. split; intros H j Hj; [|apply H; lia].
      destruct (decide (j = i)) as [->|]; [done|]. apply H. lia.
    - split; [lia|]. intros H. specialize (H i). lia. }
  rewrite H. split; intros G i Hi; apply G; lia.
Qed.
End Cstring.
