(* ===== verification/Monitor.v ===== *)
(** * Monitor: threads that share a state under one lock

    Kernel code protects an object with a spin lock and lets threads sleep on
    channels and be woken.  Here several computations of [Kmonad] run
    interleaved: a thread runs from one event to the next, acquire waits for
    the lock, sleep gives it up and waits for a wakeup and then for the lock,
    and the scheduler is arbitrary.  [lsafe] is a condition on each thread
    alone; the theorem [monitor_sound] says that threads that satisfy it behave, in every
    interleaving, like atomic operations on the abstract object, and that no
    wakeup is lost. *)
From S2P Require Import Prelude Kmonad.
From stdpp Require Import options.

Module Monitor.
Section Pool.
Context {S A : Type}.

Inductive thr : Type :=
| TReady (k : K S A)
| TAcq (l : lockid) (k : K S A)
| TSleep (c : chan) (l : lockid) (k : K S A)
| TDone (a : A)
| TPanic (msg : string)
| TFuel.

Record pool : Type := mkpool {
  shared : S;
  owner : lockid -> option nat;
  thrs : list thr
}.

Definition set_owner (l : lockid) (o : option nat) (f : lockid -> option nat)
  : lockid -> option nat := fun l' => if decide (l' = l) then o else f l'.

(** wakeup: every thread asleep on the channel goes on to take its lock. *)
Definition wake (c : chan) (x : thr) : thr :=
  match x with
  | TSleep c' l k => if decide (c' = c) then TAcq l k else x
  | _ => x
  end.

(** Thread [t] has run up to event [e] with continuation [k]. *)
Definition do_event (t : nat) (b : bool) (p : pool) (s : S) (e : event)
    : (ans e -> K S A) -> option pool :=
  match e with
  | EAcquire l => fun k => Some (mkpool s (owner p) (<[t := TAcq l (k tt)]> (thrs p)))
  | ERelease l => fun k =>
      if decide (owner p l = Some t)
      then Some (mkpool s (set_owner l None (owner p)) (<[t := TReady (k tt)]> (thrs p)))
      else None
  | ESleep c l => fun k =>
      if decide (owner p l = Some t)
      then Some (mkpool s (set_owner l None (owner p)) (<[t := TSleep c l (k tt)]> (thrs p)))
      else None
  | EWakeup c => fun k =>
      Some (mkpool s (owner p) (<[t := TReady (k tt)]> (wake c <$> thrs p)))
  | EKilled => fun k => Some (mkpool s (owner p) (<[t := TReady (k b)]> (thrs p)))
  | ECprintf _ => fun k => Some (mkpool s (owner p) (<[t := TReady (k tt)]> (thrs p)))
  | _ => fun _ => None
  end.

(** One step of thread [t]; [b] answers a test of cp->killed. *)
Definition pstep (t : nat) (b : bool) (p : pool) : option pool :=
  match thrs p !! t with
  | Some (TAcq l k) =>
      match owner p l with
      | None => Some (mkpool (shared p) (set_owner l (Some t) (owner p))
                             (<[t := TReady k]> (thrs p)))
      | Some _ => None
      end
  | Some (TReady k) =>
      match k (shared p) with
      | Ret a s => Some (mkpool s (owner p) (<[t := TDone a]> (thrs p)))
      | Panic m => Some (mkpool (shared p) (owner p) (<[t := TPanic m]> (thrs p)))
      | Diverge => Some (mkpool (shared p) (owner p) (<[t := TFuel]> (thrs p)))
      | Vis e s k' => do_event t b p s e k'
      end
  | _ => None
  end.

Fixpoint prun (sched : list (nat * bool)) (p : pool) : option pool :=
  match sched with
  | [] => Some p
  | (t, b) :: r => p' ← pstep t b p; prun r p'
  end.

Definition pinit (s : S) (ks : list (K S A)) : pool :=
  mkpool s (fun _ => None) (TReady <$> ks).
End Pool.
Arguments thr : clear implicits.
Arguments pool : clear implicits.

(** ** The condition on a thread *)

Section Safe.
Context {S abs op : Type}.
(** The lock, the representation invariant, the abstract state of the object,
    its atomic operations, and what a thread asleep on a channel waits for. *)
Variable (l : lockid) (inv : S -> Prop) (absf : S -> abs).
Variable (astep : op -> abs -> option abs) (scond : chan -> S -> Prop).

(** The answers a test of cp->killed may get. *)
Variable (killok : bool -> Prop).

Definition okans (e : event) : ans e -> Prop :=
  match e with EKilled => killok | _ => fun _ => True end.

Fixpoint asteps (h : list op) (a : abs) : option abs :=
  match h with
  | [] => Some a
  | x :: r => a' ← astep x a; asteps r a'
  end.

(** [ops s h s']: the change from [s] to [s'] is the operations [h]. *)
Definition ops (s : S) (h : list op) (s' : S) : Prop := asteps h (absf s) = Some (absf s').

Inductive kind : Type := KAcq (l : lockid) | KRel (l : lockid)
  | KSleep (c : chan) (l : lockid) | KWake (c : chan) | KPlain | KBad.

Definition kind_of (e : event) : kind :=
  match e with
  | EAcquire l => KAcq l
  | ERelease l => KRel l
  | ESleep c l => KSleep c l
  | EWakeup c => KWake c
  | EKilled | ECprintf _ => KPlain
  | _ => KBad
  end.

(** What a critical section that began in [sa] and woke [w] owes the sleepers
    when it gives the lock up in [s]. *)
Definition wakes (sa : S) (w : list chan) (s : S) : Prop :=
  forall c, scond c sa -> scond c s \/ c ∈ w.

(** [own] is the state the lock was taken in and the channels woken since,
    [h] the operations so far, [s0] the state the thread was resumed in. *)
Fixpoint lwp {A} (own : option (S * list chan)) (h : list op) (s0 : S)
    (o : outcome S A) (Q : option (S * list chan) -> list op -> S -> A -> S -> Prop) : Prop :=
  match o with
  | Panic _ => False
  | Diverge => True
  | Ret a s => Q own h s0 a s
  | Vis e s k =>
      match own, kind_of e with
      | None, KAcq l' => l' = l /\ s = s0 /\
          forall z s', inv s' -> lwp (Some (s', [])) h s' (k z s') Q
      | None, (KWake _ | KPlain) => s = s0 /\ forall z s', okans e z -> lwp None h s' (k z s') Q
      | Some (sa, w), KRel l' => l' = l /\ inv s /\ wakes sa w s /\
          exists h', ops s0 h' s /\ forall z s', lwp None (h ++ h') s' (k z s') Q
      | Some (sa, w), KSleep c l' => l' = l /\ inv s /\ wakes sa w s /\ scond c s /\
          exists h', ops s0 h' s /\
            forall z s', inv s' -> lwp (Some (s', [])) (h ++ h') s' (k z s') Q
      | Some (sa, w), KWake c =>
          exists h', ops s0 h' s /\ forall z, okans e z -> lwp (Some (sa, c :: w)) (h ++ h') s (k z s) Q
      | Some (sa, w), KPlain =>
          exists h', ops s0 h' s /\ forall z, okans e z -> lwp (Some (sa, w)) (h ++ h') s (k z s) Q
      | _, _ => False
      end
  end.

(** A call that ends without the lock, its operations and result in [Q]. *)
Definition lsafe {A} (own : option (S * list chan)) (h : list op) (s0 : S)
    (o : outcome S A) (Q : list op -> A -> Prop) : Prop :=
  lwp own h s0 o (fun own' h' s0' a s => own' = None /\ s = s0' /\ Q h' a).

(** A whole call, from before it takes the lock. *)
Definition call_safe {A} (m : K S A) (Q : list op -> A -> Prop) : Prop :=
  forall s, lsafe None [] s (m s) Q.

Lemma lwp_bind {A B} own h s0 (o : outcome S A) (f : A -> K S B) Q :
  lwp own h s0 o (fun own' h' s0' a s => lwp own' h' s0' (f a s) Q) ->
  lwp own h s0 (obind o f) Q.
Proof.
  revert own h s0. induction o as [a s|m| |e s k IH]; intros own h s0; simpl; auto.
  destruct own as [[sa w]|], (kind_of e); try done; intros Hk;
    repeat match goal with
    | H : _ /\ _ |- _ => destruct H
    | H : exists _, _ |- _ => destruct H
    end; split_and?; eauto.
Qed.

Lemma lwp_mono {A} own h s0 (o : outcome S A) Q Q' :
  (forall own' h' s0' a s, Q own' h' s0' a s -> Q' own' h' s0' a s) ->
  lwp own h s0 o Q -> lwp own h s0 o Q'.
Proof.
  intros HQ. revert own h s0. induction o as [a s|m| |e s k IH]; intros own h s0; simpl; auto.
  destruct own as [[sa w]|], (kind_of e); try done; intros Hk;
    repeat match goal with
    | H : _ /\ _ |- _ => destruct H
    | H : exists _, _ |- _ => destruct H
    end; split_and?; eauto.
Qed.

(** Post-processing of a call's result. *)
Lemma call_safe_map {A B} (m : K S A) (g : A -> B) (Q : list op -> A -> Prop) Q' :
  (forall h a, Q h a -> Q' h (g a)) -> call_safe m Q -> call_safe (a <- m ;; kret (g a)) Q'.
Proof.
  intros HQ Hm s. apply lwp_bind. eapply lwp_mono; [|apply Hm].
  simpl. intros own' h' s0' a s1 (-> & -> & Ha). simpl. auto.
Qed.

Lemma asteps_app h1 h2 a : asteps (h1 ++ h2) a = asteps h1 a ≫= asteps h2.
Proof.
  revert a. induction h1 as [|x r IH]; intros a; simpl; [done|].
  destruct (astep x a); simpl; [apply IH|done].
Qed.
End Safe.
Arguments kind : clear implicits.

(** The operations of thread [t] in a history. *)
Fixpoint proj {op} (t : nat) (H : list (nat * op)) : list op :=
  match H with
  | [] => []
  | (u, x) :: r => if (u =? t)%nat then x :: proj t r else proj t r
  end.

Definition tag {op} (t : nat) (h : list op) : list (nat * op) := (fun x => (t, x)) <$> h.

Lemma proj_app {op} t (H H' : list (nat * op)) : proj t (H ++ H') = proj t H ++ proj t H'.
Proof.
  induction H as [|[u x] r IH]; simpl; [done|]. rewrite IH. by destruct (u =? t)%nat.
Qed.

Lemma proj_tag {op} t (H : list (nat * op)) h : proj t (H ++ tag t h) = proj t H ++ h.
Proof.
  rewrite proj_app. f_equal.
  induction h as [|x r IH]; simpl; [done|]. rewrite Nat.eqb_refl. by f_equal.
Qed.

Lemma proj_tag_other {op} t t' (H : list (nat * op)) h :
  t' <> t -> proj t' (H ++ tag t h) = proj t' H.
Proof.
  intros Hne. rewrite proj_app. apply Nat.eqb_neq in Hne. rewrite Nat.eqb_sym in Hne.
  induction h as [|x r IH]; simpl; [apply app_nil_r|]. by rewrite Hne.
Qed.

Lemma snd_tag {op} t (h : list op) : snd <$> tag t h = h.
Proof. unfold tag. rewrite <- list_fmap_compose. by apply list_fmap_id. Qed.

(** ** Soundness *)

Section Sound.
Context {S A abs op : Type}.
Variable (l : lockid) (inv : S -> Prop) (absf : S -> abs).
Variable (astep : op -> abs -> option abs) (scond : chan -> S -> Prop).
Variable (killok : bool -> Prop) (Q : nat -> list op -> A -> Prop).

Abbreviation lsafe := (lsafe l inv absf astep scond killok).

Definition sleeper (p : pool S A) (c : chan) : Prop :=
  exists t l' k, thrs p !! t = Some (TSleep c l' k).

(** What is known of a thread, given the operations [h] it has done. *)
Definition thr_ok (p : pool S A) (h : list op) (t : nat) (x : thr S A) : Prop :=
  match x with
  | TReady k =>
      (owner p l <> Some t /\ forall s, lsafe None h s (k s) (Q t)) \/
      (owner p l = Some t /\ exists sa w,
         lsafe (Some (sa, w)) h (shared p) (k (shared p)) (Q t) /\
         forall c, sleeper p c -> scond c sa /\ c ∉ w)
  | TAcq l' k | TSleep _ l' k =>
      l' = l /\ owner p l <> Some t /\
      forall s, inv s -> lsafe (Some (s, [])) h s (k s) (Q t)
  | TDone a => owner p l <> Some t /\ Q t h a
  | TPanic _ => False
  | TFuel => True
  end.

Definition pool_ok (s0 : S) (H : list (nat * op)) (p : pool S A) : Prop :=
  asteps astep (snd <$> H) (absf s0) = Some (absf (shared p)) /\
  (forall t x, thrs p !! t = Some x -> thr_ok p (proj t H) t x) /\
  (owner p l = None -> inv (shared p) /\ forall c, sleeper p c -> scond c (shared p)).

Lemma set_owner_same o f : set_owner l o f l = o.
Proof. unfold set_owner. by rewrite decide_True. Qed.

Lemma asteps_tag s0 H t h s s' :
  asteps astep (snd <$> H) (absf s0) = Some (absf s) -> ops absf astep s h s' ->
  asteps astep (snd <$> (H ++ tag t h)) (absf s0) = Some (absf s').
Proof. intros H1 H2. rewrite fmap_app, snd_tag, asteps_app, H1. apply H2. Qed.

Lemma lookup_wake (T : list (thr S A)) c t x :
  (wake c <$> T) !! t = Some x -> exists y, T !! t = Some y /\ x = wake c y.
Proof.
  rewrite list_lookup_fmap. destruct (T !! t) as [y|]; simpl; intros [= <-]. by exists y.
Qed.

(** The threads after a step of [t]: [t] itself is [x'], the others are as
    they were or have been woken. *)
Definition threads_after (p : pool S A) (t : nat) (x' : thr S A) (T' : list (thr S A)) : Prop :=
  (exists x, thrs p !! t = Some x) /\
  (T' = <[t := x']> (thrs p) \/ exists c, T' = <[t := x']> (wake c <$> thrs p)).

Lemma threads_after_self p t x' T' : threads_after p t x' T' -> T' !! t = Some x'.
Proof.
  intros [[x Hx] [->|[c ->]]]; apply list_lookup_insert_eq; rewrite ?length_fmap;
    by eapply lookup_lt_Some.
Qed.

Lemma threads_after_other p t x' T' t' x :
  threads_after p t x' T' -> t' <> t -> T' !! t' = Some x ->
  exists y, thrs p !! t' = Some y /\ (x = y \/ exists c, x = wake c y).
Proof.
  intros [_ [->|[c ->]]] Hne; rewrite list_lookup_insert_ne by done; intros Hx.
  - eauto.
  - apply lookup_wake in Hx as (y & ? & ->). eauto.
Qed.

Lemma sleeper_after p t x' T' s' o' c :
  threads_after p t x' T' -> sleeper (mkpool s' o' T') c ->
  sleeper p c \/ exists l' k, x' = TSleep c l' k.
Proof.
  intros HT (t' & l' & k & Hx). simpl in Hx. destruct (decide (t' = t)) as [->|Hne].
  - rewrite (threads_after_self _ _ _ _ HT) in Hx. injection Hx as ->. right. by exists l', k.
  - left. destruct (threads_after_other _ _ _ _ _ _ HT Hne Hx) as (y & Hy & [<-|[c' Hw]]).
    + by exists t', l', k.
    + exists t', l', k. rewrite Hy. f_equal.
      destruct y; simpl in Hw; try done. case_decide; congruence.
Qed.

Lemma thr_ok_wake p h t c y : thr_ok p h t y -> thr_ok p h t (wake c y).
Proof. destruct y; simpl; auto. case_decide; auto. Qed.

(** Only the owner of the lock depends on the shared state. *)
Lemma thr_ok_frame p p' h t x :
  thr_ok p h t x ->
  (owner p l <> Some t -> owner p' l <> Some t) ->
  (owner p l = Some t -> owner p' l = Some t /\ shared p' = shared p /\
     forall c, sleeper p' c -> sleeper p c) ->
  thr_ok p' h t x.
Proof.
  intros Hok Hn Ho. destruct x; simpl in *; try done; try (by destruct Hok as (? & ? & ?); auto);
    try (by destruct Hok as (? & ?); auto).
  destruct Hok as [[? ?]|[Hown (sa & w & Hl & Hs)]]; [left; auto|right].
  destruct (Ho Hown) as (? & -> & Hsl). split; [done|]. exists sa, w. split; [done|]. auto.
Qed.

(** One thread moves: the condition on the others is kept. *)
Lemma pool_ok_update s0 H p t h s' o' x' T' :
  pool_ok s0 H p -> threads_after p t x' T' ->
  ops absf astep (shared p) h s' ->
  owner p l = Some t \/ (s' = shared p /\ forall c l' k, x' <> TSleep c l' k) ->
  o' l = owner p l \/ (owner p l = Some t /\ o' l = None) \/
    (owner p l = None /\ o' l = Some t) ->
  thr_ok (mkpool s' o' T') (proj t H ++ h) t x' ->
  (o' l = None -> inv s' /\ forall c, sleeper (mkpool s' o' T') c -> scond c s') ->
  pool_ok s0 (H ++ tag t h) (mkpool s' o' T').
Proof.
  intros (Hab & Hth & _) HT Hops Hex Hown Hself Hinv. split; [|split]; [|simpl|done].
  - by eapply asteps_tag.
  - intros t' x Hx. destruct (decide (t' = t)) as [->|Hne].
    { rewrite (threads_after_self _ _ _ _ HT) in Hx. simplify_eq. by rewrite proj_tag. }
    rewrite proj_tag_other by done.
    destruct (threads_after_other _ _ _ _ _ _ HT Hne Hx) as (y & Hy & Hxy).
    assert (Hok : thr_ok p (proj t' H) t' x).
    { apply Hth in Hy. destruct Hxy as [->|[c ->]]; [done|]. by apply thr_ok_wake. }
    eapply thr_ok_frame; [done|..]; simpl.
    + intros Hn. destruct Hown as [->|[[? ->]|[? ->]]]; [done..|]. congruence.
    + intros Ho. destruct Hex as [?|[-> Hns]]; [congruence|].
      split; [destruct Hown as [->|[[? ?]|[? ?]]]; [done|congruence..]|]. split; [done|].
      intros c Hc. destruct (sleeper_after _ _ _ _ _ _ _ HT Hc) as [?|(l' & k & ?)]; [done|].
      by destruct (Hns c l' k).
Qed.

Lemma ops_refl s : ops absf astep s [] s.
Proof. done. Qed.

(** A step of a thread that does not hold the lock changes nothing. *)
Lemma pool_ok_idle s0 H p t s' o' x' T' :
  pool_ok s0 H p -> threads_after p t x' T' -> s' = shared p -> o' l = owner p l ->
  owner p l <> Some t -> (forall c l' k, x' <> TSleep c l' k) ->
  thr_ok (mkpool s' o' T') (proj t H) t x' ->
  pool_ok s0 (H ++ tag t []) (mkpool s' o' T').
Proof.
  intros Hok HT -> Ho Hno Hns Hself. eapply pool_ok_update; eauto using ops_refl.
  { by rewrite app_nil_r. }
  intros Hn. destruct Hok as (_ & _ & Hi). destruct Hi as [Hi Hs]; [congruence|]. split; [done|].
  intros c Hc. destruct (sleeper_after _ _ _ _ _ _ _ HT Hc) as [?|(l' & k & ?)]; [auto|].
  by destruct (Hns c l' k).
Qed.

Lemma thr_ready p t k h (Hno : owner p l <> Some t) :
  (forall s, lsafe None h s (k s) (Q t)) -> thr_ok p h t (TReady k).
Proof. simpl. auto. Qed.

Ltac idle_tac :=
  eapply pool_ok_idle; [done | split; eauto | done | done | done | intros; discriminate |].

(** A step of a thread that does not hold the lock, up to its next event. *)
Lemma step_idle s0 H p t b k p' :
  pool_ok s0 H p -> thrs p !! t = Some (TReady k) -> owner p l <> Some t ->
  (forall s, lsafe None (proj t H) s (k s) (Q t)) -> killok b -> pstep t b p = Some p' ->
  pool_ok s0 (H ++ tag t []) p'.
Proof.
  intros Hok Ht Hno Hl Hb. unfold pstep. rewrite Ht. specialize (Hl (shared p)).
  destruct (k (shared p)) as [a s|m| |e s k']; simpl in Hl; [| done |..].
  - destruct Hl as (_ & -> & HQ). intros [= <-]. by idle_tac.
  - intros [= <-]. by idle_tac.
  - destruct e; simpl in Hl |- *; try done; destruct Hl as [Hl1 Hl2].
    + destruct Hl2 as [-> Hl2]. intros [= <-]. idle_tac.
      simpl. split_and!; auto. intros. by apply Hl2.
    + subst s. intros [= <-]. idle_tac.
      apply thr_ready; [done|]. intros. by apply Hl2.
    + subst s. intros [= <-]. idle_tac.
      apply thr_ready; [done|]. intros. by apply Hl2.
    + subst s. intros [= <-]. idle_tac.
      apply thr_ready; [done|]. intros. by apply Hl2.
Qed.

Lemma not_sleeping_after p t x' T' s' o' c :
  threads_after p t x' T' -> (forall c l' k, x' <> TSleep c l' k) ->
  sleeper (mkpool s' o' T') c -> sleeper p c.
Proof.
  intros HT Hns Hc. destruct (sleeper_after _ _ _ _ _ _ _ HT Hc) as [?|(l' & k & ?)]; [done|].
  by destruct (Hns c l' k).
Qed.

Lemma woken_not_sleeping p t k c s' o' :
  ~ sleeper (mkpool s' o' (<[t := TReady k]> (wake c <$> thrs p))) c.
Proof.
  intros (t' & l' & k' & Hx). simpl in Hx. destruct (decide (t' = t)) as [->|Hne].
  - rewrite list_lookup_insert_Some in Hx. destruct Hx as [(_ & ? & _)|[? _]]; done.
  - rewrite list_lookup_insert_ne in Hx by done. apply lookup_wake in Hx as (y & _ & Hy).
    destruct y; simpl in Hy; try done. case_decide; congruence.
Qed.

(** A step of the thread that holds the lock. *)
Lemma step_owner s0 H p t b k p' sa w :
  pool_ok s0 H p -> thrs p !! t = Some (TReady k) -> owner p l = Some t ->
  lsafe (Some (sa, w)) (proj t H) (shared p) (k (shared p)) (Q t) ->
  (forall c, sleeper p c -> scond c sa /\ c ∉ w) -> killok b -> pstep t b p = Some p' ->
  exists h, pool_ok s0 (H ++ tag t h) p'.
Proof.
  intros Hok Ht Ho Hl Hsl Hb. unfold pstep. rewrite Ht.
  assert (HT : forall x', threads_after p t x' (<[t := x']> (thrs p))) by (split; eauto).
  assert (HTw : forall x' c, threads_after p t x' (<[t := x']> (wake c <$> thrs p)))
    by (split; eauto).
  destruct (k (shared p)) as [a s|m| |e s k']; simpl in Hl;
    [by destruct Hl | done | |].
  - intros [= <-]. exists []. eapply pool_ok_update; eauto using ops_refl. simpl. congruence.
  - destruct e as [l'|l'|c l'|c| |m|port|port v|port wd cnt|port wd data|ad|ad v|to]; simpl in Hl |- *; try done.
    + destruct Hl as (-> & Hi & Hw & h & Hops & Hl). rewrite decide_True by done. intros [= <-].
      exists h. eapply pool_ok_update; eauto.
      * right. left. by rewrite set_owner_same.
      * apply thr_ready; [by simpl; rewrite set_owner_same|]. intros. apply Hl.
      * intros _. split; [done|]. intros c Hc.
        apply (not_sleeping_after _ _ _ _ _ _ _ (HT _)) in Hc; [|intros; discriminate].
        destruct (Hsl c Hc) as [Hsc Hnw]. by destruct (Hw c Hsc).
    + destruct Hl as (-> & Hi & Hw & Hc0 & h & Hops & Hl). rewrite decide_True by done.
      intros [= <-]. exists h. eapply pool_ok_update; eauto.
      * right. left. by rewrite set_owner_same.
      * simpl. rewrite set_owner_same. split_and!; auto. intros. by apply Hl.
      * intros _. split; [done|]. intros c' Hc.
        destruct (sleeper_after _ _ _ _ _ _ _ (HT _) Hc) as [Hp|(l' & k2 & Hx)]; [|congruence].
        destruct (Hsl c' Hp) as [Hsc Hnw]. by destruct (Hw c' Hsc).
    + destruct Hl as (h & Hops & Hl). intros [= <-]. exists h.
      eapply pool_ok_update; eauto; [|simpl; congruence].
      right. split; [done|]. exists sa, (c :: w). split; [by apply Hl|]. intros c' Hc.
      assert (Hp : sleeper p c')
        by (eapply not_sleeping_after; [apply HTw | | exact Hc]; intros; discriminate).
      destruct (Hsl c' Hp) as [Hsc Hnw]. split; [done|].
      intros [->|?]%elem_of_cons; [|done]. by apply woken_not_sleeping in Hc.
    + destruct Hl as (h & Hops & Hl). intros [= <-]. exists h.
      eapply pool_ok_update; eauto; [|simpl; congruence].
      right. split; [done|]. exists sa, w. split; [by apply Hl|]. intros c' Hc.
      apply Hsl. eapply not_sleeping_after; [apply HT | | exact Hc]. intros; discriminate.
    + destruct Hl as (h & Hops & Hl). intros [= <-]. exists h.
      eapply pool_ok_update; eauto; [|simpl; congruence].
      right. split; [done|]. exists sa, w. split; [by apply Hl|]. intros c' Hc.
      apply Hsl. eapply not_sleeping_after; [apply HT | | exact Hc]. intros; discriminate.
Qed.

Lemma pstep_ok s0 H p t b p' :
  pool_ok s0 H p -> killok b -> pstep t b p = Some p' -> exists h, pool_ok s0 (H ++ tag t h) p'.
Proof.
  intros Hok Hb Hst. pose proof Hok as (_ & Hth & Hi).
  destruct (thrs p !! t) as [x|] eqn:Ht; [|by unfold pstep in Hst; rewrite Ht in Hst].
  specialize (Hth t x Ht).
  destruct x as [k|l' k|c l' k|a|m|];
    try (by unfold pstep in Hst; rewrite Ht in Hst).
  - destruct Hth as [[Hno Hl]|[Ho (sa & w & Hl & Hs)]].
    + exists []. by eapply step_idle.
    + by eapply step_owner.
  - destruct Hth as (-> & Hno & Hl). unfold pstep in Hst. rewrite Ht in Hst.
    destruct (owner p l) eqn:Ho; [done|]. injection Hst as <-. exists [].
    destruct (Hi eq_refl) as [Hinv Hsl].
    eapply pool_ok_update; [done | split; eauto | apply ops_refl | by right; split; [|intros; discriminate] | |..].
    + rewrite set_owner_same. auto.
    + right. split; [by simpl; rewrite set_owner_same|]. exists (shared p), [].
      rewrite app_nil_r. split; [by apply Hl|]. intros c Hc. split; [|apply not_elem_of_nil].
      apply Hsl. refine (not_sleeping_after _ _ _ _ _ _ _ _ _ Hc); [split; eauto|intros; discriminate].
    + by rewrite set_owner_same.
Qed.

Lemma prun_ok s0 sched H p p' :
  pool_ok s0 H p -> Forall (fun x => killok x.2) sched -> prun sched p = Some p' -> exists H', pool_ok s0 H' p'.
Proof.
  revert H p. induction sched as [|[t b] r IH]; intros H p Hok Hk; simpl.
  - intros [= <-]. eauto.
  - apply Forall_cons in Hk as [Hb Hk]. destruct (pstep t b p) as [q|] eqn:E; [|done]. simpl. intros Hr.
    destruct (pstep_ok _ _ _ _ _ _ Hok Hb E) as [h Hq]. eauto.
Qed.

Lemma pool_ok_init s ks :
  inv s -> (forall t k, ks !! t = Some k -> call_safe l inv absf astep scond killok k (Q t)) ->
  pool_ok s [] (pinit s ks).
Proof.
  intros Hi Hks. split; [done|]. split.
  - intros t x. simpl. rewrite list_lookup_fmap. destruct (ks !! t) as [k|] eqn:E; [|done].
    intros [= <-]. apply thr_ready; [done|]. by apply Hks.
  - intros _. split; [done|]. intros c (t & l' & k & Hx). simpl in Hx.
    rewrite list_lookup_fmap in Hx. by destruct (ks !! t).
Qed.

(** Threads that are each safe behave together like atomic operations on the
    abstract object: there is one history of operations that leads from the
    initial to the current abstract state, of which each finished thread's own
    operations account for its result; no thread panics; and while the lock is
    free every sleeping thread waits for a condition that holds. *)
Lemma monitor_sound s ks sched p :
  inv s -> (forall t k, ks !! t = Some k -> call_safe l inv absf astep scond killok k (Q t)) ->
  Forall (fun x => killok x.2) sched -> prun sched (pinit s ks) = Some p ->
  exists H, asteps astep (snd <$> H) (absf s) = Some (absf (shared p)) /\
    (forall t a, thrs p !! t = Some (TDone a) -> Q t (proj t H) a) /\
    (forall t m, thrs p !! t <> Some (TPanic m)) /\
    (owner p l = None -> inv (shared p) /\ forall c, sleeper p c -> scond c (shared p)).
Proof.
  intros Hi Hks Hk Hr. destruct (prun_ok s sched [] _ _ (pool_ok_init _ _ Hi Hks) Hk Hr) as [H Hok].
  destruct Hok as (Ha & Hth & Hs). exists H. split; [done|]. split; [|split; [|done]].
  - intros t a Ht. by apply (Hth t _ Ht).
  - intros t m Ht. by apply (Hth t _ Ht).
Qed.
End Sound.
End Monitor.
