(* ===== verification/Pipe.v ===== *)
(** * Pipe: pipe.c

    struct pipe and its three operations.  The lock of a pipe is named by the
    pipe's address [p]; the bytes of data are a list of PIPESIZE bytes, and
    writep and readp are the free-running uint indices of the code, so their
    wrap-around is part of the model.  pipealloc, which also needs the file
    table, is in File. *)
From S2P Require Import Prelude Kmonad Monitor Kalloc.
From stdpp Require Import options.

Module Pipe.
Import Monitor.

Definition PIPESIZE : Z := 512.

Record pipe : Type := mkpipe {
  readopen : Z;
  writeopen : Z;
  writep : Z;
  readp : Z;
  pdata : bytes
}.

Definition set_readopen (v : Z) (s : pipe) : pipe :=
  mkpipe v (writeopen s) (writep s) (readp s) (pdata s).
Definition set_writeopen (v : Z) (s : pipe) : pipe :=
  mkpipe (readopen s) v (writep s) (readp s) (pdata s).

(** p->data[p->writep++ % PIPESIZE] = b *)
Definition pipe_put (b : Z) (s : pipe) : pipe :=
  mkpipe (readopen s) (writeopen s) (u32 (writep s + 1)) (readp s)
    (<[Z.to_nat (writep s mod PIPESIZE) := b]> (pdata s)).

(** p->data[p->readp++ % PIPESIZE] *)
Definition pipe_get (s : pipe) : Z * pipe :=
  (byte_at (pdata s) (Z.to_nat (readp s mod PIPESIZE)),
   mkpipe (readopen s) (writeopen s) (writep s) (u32 (readp s + 1)) (pdata s)).

Definition pipe_full (s : pipe) : bool := writep s =? u32 (readp s + PIPESIZE).
Definition pipe_empty (s : pipe) : bool := readp s =? writep s.

Section Ops.
Variable (p : Z).

(** The while loop of pipewrite; [false] when it returned -1. *)
Fixpoint pipewrite_wait (fuel : nat) : K pipe bool :=
  match fuel with
  | O => diverge
  | S fuel' =>
      full <- gets pipe_full ;;
      if full then
        ro <- gets readopen ;;
        stop <- (if ro =? 0 then kret true else cp_killed) ;;
        if stop then release (Lk_pipe p) ;; kret false
        else
          wakeup (Ch_readp p) ;;
          sleep (Ch_writep p) (Lk_pipe p) ;;
          pipewrite_wait fuel'
      else kret true
  end.

(** The for loop, with [n] bytes left to write from offset [i]. *)
Fixpoint pipewrite_loop (fuel : nat) (addr : nat -> Z) (n i : nat) : K pipe Z :=
  match n with
  | O =>
      wakeup (Ch_readp p) ;;
      release (Lk_pipe p) ;;
      kret (Z.of_nat i)
  | S n' =>
      ok <- pipewrite_wait fuel ;;
      if (ok : bool) then
        modify (pipe_put (addr i)) ;;
        pipewrite_loop fuel addr n' (S i)
      else kret (-1)
  end.

Definition pipewrite (fuel : nat) (addr : nat -> Z) (n : Z) : K pipe Z :=
  acquire (Lk_pipe p) ;;
  pipewrite_loop fuel addr (Z.to_nat n) 0.

Fixpoint piperead_wait (fuel : nat) : K pipe bool :=
  match fuel with
  | O => diverge
  | S fuel' =>
      empty <- gets pipe_empty ;;
      wo <- gets writeopen ;;
      if empty && negb (wo =? 0) then
        killed <- cp_killed ;;
        if (killed : bool) then release (Lk_pipe p) ;; kret false
        else
          sleep (Ch_readp p) (Lk_pipe p) ;;
          piperead_wait fuel'
      else kret true
  end.

(** The for loop; the bytes stored through addr are [acc]. *)
Fixpoint piperead_loop (n : nat) (acc : bytes) : K pipe bytes :=
  match n with
  | O => kret acc
  | S n' =>
      empty <- gets pipe_empty ;;
      if (empty : bool) then kret acc
      else
        b <- (fun s => let (b, s') := pipe_get s in Ret b s') ;;
        piperead_loop n' (acc ++ [b])
  end.

(** The result and the bytes stored at addr. *)
Definition piperead (fuel : nat) (n : Z) : K pipe (Z * bytes) :=
  acquire (Lk_pipe p) ;;
  ok <- piperead_wait fuel ;;
  if (ok : bool) then
    out <- piperead_loop (Z.to_nat n) [] ;;
    wakeup (Ch_writep p) ;;
    release (Lk_pipe p) ;;
    kret (Z.of_nat (length out), out)
  else kret (-1, []).

(** pipeclose up to the release of the lock; [true] when both ends are closed
    and the page is to be freed. *)
Definition pipeclose_locked (writable : bool) : K pipe bool :=
  acquire (Lk_pipe p) ;;
  (if writable then
     modify (set_writeopen 0) ;;
     wakeup (Ch_readp p)
   else
     modify (set_readopen 0) ;;
     wakeup (Ch_writep p)) ;;
  ro <- gets readopen ;;
  wo <- gets writeopen ;;
  if (ro =? 0) && (wo =? 0) then
    release (Lk_pipe p) ;; kret true
  else
    release (Lk_pipe p) ;; kret false.
End Ops.

(** The pages that hold pipes, and the page allocator. *)
Record pstate : Type := mkpstate { pkmem : Kalloc.kmem; pipes : gmap Z pipe }.

Definition pipe0 : pipe := mkpipe 0 0 0 0 (replicate 512 0).

Definition get_pipe (p : Z) (s : pstate) : pipe := default pipe0 (pipes s !! p).
Definition put_pipe (p : Z) (x : pipe) (s : pstate) : pstate :=
  mkpstate (pkmem s) (<[p := x]> (pipes s)).
Definition put_kmem (k : Kalloc.kmem) (s : pstate) : pstate := mkpstate k (pipes s).

Definition at_pipe {A} (p : Z) (m : K pipe A) : K pstate A := zoom (get_pipe p) (put_pipe p) m.

Definition pipeclose (p : Z) (writable : bool) : K pstate unit :=
  last <- at_pipe p (pipeclose_locked p writable) ;;
  if (last : bool) then
    zoom pkmem put_kmem (Kalloc.kfree p Kalloc.PAGE) ;;
    modify (fun s => mkpstate (pkmem s) (delete p (pipes s)))
  else kret tt.

(** ** The bounded queue a pipe implements *)

Definition plen (s : pipe) : nat := Z.to_nat (u32 (writep s - readp s)).

(** The bytes in transit, oldest first. *)
Definition queue (s : pipe) : bytes :=
  (fun i => byte_at (pdata s) (Z.to_nat ((readp s + Z.of_nat i) mod PIPESIZE))) <$> seq 0 (plen s).

Definition pipe_ok (s : pipe) : Prop :=
  length (pdata s) = 512%nat /\ is_u32 (writep s) /\ is_u32 (readp s) /\ (plen s <= 512)%nat.

Lemma length_queue s : length (queue s) = plen s.
Proof. unfold queue. by rewrite length_fmap, length_seq. Qed.

Lemma pipe_full_spec s : pipe_ok s -> pipe_full s = true <-> plen s = 512%nat.
Proof.
  unfold pipe_ok, pipe_full, plen, is_u32, PIPESIZE, u32. intros (_ & Hw & Hr & Hl).
  rewrite Z.eqb_eq. split; intros; dlia.
Qed.

Lemma pipe_empty_spec s : pipe_ok s -> pipe_empty s = true <-> plen s = 0%nat.
Proof.
  unfold pipe_ok, pipe_empty, plen, is_u32, u32. intros (_ & Hw & Hr & Hl).
  rewrite Z.eqb_eq. split; intros; dlia.
Qed.

Lemma plen_put b s : pipe_ok s -> (plen s < 512)%nat -> plen (pipe_put b s) = S (plen s).
Proof.
  unfold pipe_ok, plen, is_u32, u32. simpl. unfold u32. intros (_ & Hw & Hr & Hl) H. dlia.
Qed.

Lemma pipe_put_ok b s : pipe_ok s -> (plen s < 512)%nat -> pipe_ok (pipe_put b s).
Proof.
  intros Hok H. pose proof (plen_put b s Hok H) as Hp. destruct Hok as (Hd & Hw & Hr & Hl).
  unfold pipe_ok. rewrite Hp. simpl. rewrite length_insert.
  split; [done|]. split; [apply u32_range|]. split; [done|lia].
Qed.

(** The slot written is none of those in use. *)
Lemma slot_free r w i n :
  is_u32 w -> is_u32 r -> n = Z.to_nat (u32 (w - r)) -> (i < n)%nat -> (n < 512)%nat ->
  Z.to_nat (w mod PIPESIZE) <> Z.to_nat ((r + Z.of_nat i) mod PIPESIZE).
Proof. unfold is_u32, u32, PIPESIZE. intros. dlia. Qed.

Lemma queue_put b s :
  pipe_ok s -> (plen s < 512)%nat -> queue (pipe_put b s) = queue s ++ [b].
Proof.
  intros Hok H. unfold queue. rewrite plen_put by done. rewrite seq_S, fmap_app. simpl.
  destruct Hok as (Hd & Hw & Hr & Hl). f_equal.
  - apply list_fmap_ext. intros i j Hj. apply lookup_seq in Hj as [-> Hj]. simpl.
    by apply byte_at_insert_ne, (slot_free _ _ _ (plen s)).
  - f_equal. replace (Z.to_nat ((readp s + Z.of_nat (plen s)) mod PIPESIZE))
      with (Z.to_nat (writep s mod PIPESIZE)).
    + apply byte_at_insert_eq. unfold PIPESIZE. dlia.
    + unfold plen, u32, PIPESIZE, is_u32 in *. dlia.
Qed.

Lemma pipe_get_spec s :
  pipe_ok s -> (0 < plen s)%nat ->
  pipe_ok (pipe_get s).2 /\ queue s = (pipe_get s).1 :: queue (pipe_get s).2.
Proof.
  intros Hok H. destruct Hok as (Hd & Hw & Hr & Hl).
  assert (Hp : plen s = S (plen (pipe_get s).2)).
  { unfold plen, u32, is_u32 in *. simpl. unfold u32. dlia. }
  split.
  - unfold pipe_ok. split; [done|]. split; [done|]. split; [apply u32_range|lia].
  - unfold queue. rewrite Hp. simpl. f_equal; [by rewrite Z.add_0_r|].
    rewrite <- fmap_S_seq, <- list_fmap_compose. apply list_fmap_ext. intros i j _. simpl.
    f_equal. f_equal. unfold u32, PIPESIZE. dlia.
Qed.

(** The abstract pipe: the queue and the two open flags. *)
Definition apipe : Type := (bytes * Z * Z)%type.

Definition absp (s : pipe) : apipe := (queue s, readopen s, writeopen s).

Inductive pop : Type := OPut (b : Z) | OGet (b : Z) | OCloseR | OCloseW.

Definition pop_step (o : pop) (a : apipe) : option apipe :=
  let '(q, ro, wo) := a in
  match o with
  | OPut b => if (length q <? 512)%nat then Some (q ++ [b], ro, wo) else None
  | OGet b =>
      match q with
      | x :: q' => if x =? b then Some (q', ro, wo) else None
      | [] => None
      end
  | OCloseR => Some (q, 0, wo)
  | OCloseW => Some (q, ro, 0)
  end.

Section Calls.
Variable (p : Z).
(** [strict]: no process is killed, and sleepers are accounted for. *)
Variable (strict : bool).

Definition killok (b : bool) : Prop := strict = true -> b = false.

(** What a thread asleep on a channel of the pipe waits for.  (With the read
    end closed no reader is left.) *)
Definition waiting (c : chan) (s : pipe) : Prop :=
  strict = true ->
  match c with
  | Ch_readp q => q = p /\ (readopen s <> 0 -> plen s = 0%nat /\ writeopen s <> 0)
  | Ch_writep q => q = p /\ plen s = 512%nat /\ readopen s <> 0
  | _ => False
  end.

Abbreviation plwp := (lwp (Lk_pipe p) pipe_ok absp pop_step waiting killok).
Abbreviation pops := (ops absp pop_step).

Lemma pops_trans s1 h1 s2 h2 s3 : pops s1 h1 s2 -> pops s2 h2 s3 -> pops s1 (h1 ++ h2) s3.
Proof. unfold ops. rewrite asteps_app. by intros ->. Qed.

Lemma pops_put b s : pipe_ok s -> (plen s < 512)%nat -> pops s [OPut b] (pipe_put b s).
Proof.
  intros Hok H. unfold ops, absp. simpl. rewrite length_queue, queue_put by done.
  by apply Nat.ltb_lt in H as ->.
Qed.

Lemma pops_get s : pipe_ok s -> (0 < plen s)%nat -> pops s [OGet (pipe_get s).1] (pipe_get s).2.
Proof.
  intros Hok H. destruct (pipe_get_spec s Hok H) as [_ Hq]. unfold ops, absp. rewrite Hq.
  simpl. by rewrite Z.eqb_refl.
Qed.

Lemma wakes_refl s w : wakes waiting s w s.
Proof. intros c Hc. by left. Qed.

Lemma wakes_giveup sa w s :
  (strict = true -> readopen s = 0) -> s = sa \/ (plen sa < 512)%nat -> wakes waiting sa w s.
Proof.
  intros Hro Hsa c Hc. left. intros Hst. specialize (Hc Hst). specialize (Hro Hst).
  destruct c; try done; [by split; [apply Hc|]|].
  destruct Hsa as [->|?]; [done|]. destruct Hc as (_ & ? & _). lia.
Qed.

Lemma wakes_full sa w s :
  plen s = 512%nat -> readopen s <> 0 -> wakes waiting sa (Ch_readp p :: w) s.
Proof.
  intros Hf Hro c Hc. destruct strict eqn:Hst; [|left; congruence].
  specialize (Hc Hst). destruct c; try done.
  - right. destruct Hc as [-> _]. left.
  - left. intros _. split; [apply Hc|done].
Qed.

(** pipewrite's wait loop: it ends with room in the buffer, or gives up having
    released the lock; either way without an operation of its own. *)
Lemma pipewrite_wait_safe fuel sa w h s0 h' s Q :
  pipe_ok s -> pops s0 h' s -> s = sa \/ (plen sa < 512)%nat ->
  (forall sa' w' s0' h1 h2 s', pipe_ok s' -> pops s0' h2 s' -> h1 ++ h2 = h ++ h' ->
     (plen s' < 512)%nat -> (plen sa' < 512)%nat -> Q (Some (sa', w')) h1 s0' true s') ->
  (forall s', Q None (h ++ h') s' false s') ->
  plwp (Some (sa, w)) h s0 (pipewrite_wait p fuel s) Q.
Proof.
  revert sa w h s0 h' s. induction fuel as [|fuel IH]; intros sa w h s0 h' s Hok Hops Hsa HT HF;
    [done|]. cbn [pipewrite_wait]. ksimpl.
  destruct (pipe_full s) eqn:Ef; ksimpl.
  - apply pipe_full_spec in Ef; [|done]. destruct (Z.eqb_spec (readopen s) 0) as [E|E]; ksimpl.
    + split_and!; try done; [by apply wakes_giveup|]. exists h'. split; [done|]. intros _. apply HF.
    + exists h'. split; [done|]. intros [] Hk; simpl in Hk.
      * assert (strict = true -> readopen s = 0) by (intros Hst; by specialize (Hk Hst)).
        split_and!; try done; [by apply wakes_giveup|]. exists []. split; [done|]. intros _.
        rewrite app_nil_r. apply HF.
      * exists []. split; [done|]. intros _ _. rewrite app_nil_r. split_and!; try done.
        { by apply wakes_full. }
        exists []. split; [done|]. intros _ s' Hok'. rewrite app_nil_r.
        apply (IH _ _ _ _ []); try done; rewrite ?app_nil_r; auto.
  - assert (Hlt : (plen s < 512)%nat).
    { destruct (decide (plen s = 512%nat)) as [E|E]; [|destruct Hok as (_ & _ & _ & ?); lia].
      apply pipe_full_spec in E; [congruence|done]. }
    apply (HT sa w s0 h h'); auto. by destruct Hsa as [->|?].
Qed.

(** Releasing after writing: the readers have been woken. *)
Lemma wakes_written sa w s :
  s = sa \/ (plen sa < 512)%nat -> wakes waiting sa (Ch_readp p :: w) s.
Proof.
  intros Hsa c Hc. destruct strict eqn:Hst; [|left; congruence].
  pose proof (Hc Hst) as H. destruct c; try done.
  - right. destruct H as [-> _]. left.
  - left. destruct Hsa as [->|?]; [done|]. destruct H as (_ & ? & _). lia.
Qed.

(** The bytes of the buffer, as operations. *)
Definition puts (addr : nat -> Z) (i n : nat) : list pop := (fun j => OPut (addr j)) <$> seq i n.

Definition write_post (addr : nat -> Z) (n : Z) (h : list pop) (r : Z) : Prop :=
  (r = Z.of_nat (Z.to_nat n) /\ h = puts addr 0 (Z.to_nat n)) \/
  (r = -1 /\ exists k, (k < Z.to_nat n)%nat /\ h = puts addr 0 k).

Lemma pipewrite_loop_safe fuel addr N n i sa w h s0 h' s :
  pipe_ok s -> pops s0 h' s -> s = sa \/ (plen sa < 512)%nat ->
  h ++ h' = puts addr 0 i -> (i + n = Z.to_nat N)%nat ->
  lsafe (Lk_pipe p) pipe_ok absp pop_step waiting killok (Some (sa, w)) h s0
    (pipewrite_loop p fuel addr n i s) (write_post addr N).
Proof.
  revert i sa w h s0 h' s. induction n as [|n IH]; intros i sa w h s0 h' s Hok Hops Hsa Hh Hi;
    cbn [pipewrite_loop]; unfold lsafe.
  - ksimpl. simpl. exists h'. split; [done|]. intros _ _. split_and!; try done.
    { by apply wakes_written. }
    exists []. split; [done|]. intros _ s'. split_and!; try done. left. rewrite app_nil_r, Hh.
    replace (Z.to_nat N) with i by lia. done.
  - apply lwp_bind. eapply pipewrite_wait_safe; try done.
    + intros sa' w' s0' h1 h2 s' Hok' Hops' Heq Hlt Hlt'. ksimpl.
      apply (IH (S i) _ _ _ _ (h2 ++ [OPut (addr i)])); auto using pipe_put_ok.
      * eapply pops_trans; [done|]. by apply pops_put.
      * rewrite app_assoc, Heq, Hh. unfold puts. rewrite seq_S, fmap_app. done.
      * lia.
    + intros s'. ksimpl. simpl. split_and!; try done. right. split; [done|]. exists i.
      split; [lia|done].
Qed.

Lemma pipewrite_safe fuel addr n :
  call_safe (Lk_pipe p) pipe_ok absp pop_step waiting killok
    (pipewrite p fuel addr n) (write_post addr n).
Proof.
  intros s. unfold pipewrite, lsafe. ksimpl. simpl. split_and!; try done. intros _ s' Hok.
  apply (pipewrite_loop_safe _ _ _ _ _ _ _ _ _ []); auto. done.
Qed.

Lemma piperead_wait_safe fuel sa w h Q :
  pipe_ok sa ->
  (forall sa' w', pipe_ok sa' -> pipe_empty sa' && negb (writeopen sa' =? 0) = false ->
     Q (Some (sa', w')) h sa' true sa') ->
  (forall s', Q None h s' false s') ->
  plwp (Some (sa, w)) h sa (piperead_wait p fuel sa) Q.
Proof.
  revert sa w. induction fuel as [|fuel IH]; intros sa w Hok HT HF; [done|].
  cbn [piperead_wait]. ksimpl. destruct (pipe_empty sa && negb (writeopen sa =? 0)) eqn:E; ksimpl.
  - bool_prop. match goal with H : pipe_empty sa = true |- _ => apply pipe_empty_spec in H; [|done] end.
    exists []. split; [done|]. rewrite app_nil_r. intros [] Hk.
    + split_and!; try done; [apply wakes_refl|]. exists []. rewrite app_nil_r. split; [done|].
      intros _. apply HF.
    + split_and!; try done; [apply wakes_refl|]. exists []. rewrite app_nil_r. split; [done|].
      intros _ s' Hok'. by apply IH.
  - by apply HT.
Qed.

Definition gets_of (l : bytes) : list pop := OGet <$> l.

Lemma piperead_loop_safe n acc own h s0 h' s Q :
  pipe_ok s -> pops s0 h' s -> h ++ h' = gets_of acc ->
  (forall acc' h1 s', pipe_ok s' -> readopen s' = readopen s -> pops s0 h1 s' ->
     (length acc' <= length acc + n)%nat -> h ++ h1 = gets_of acc' -> Q own h s0 acc' s') ->
  plwp own h s0 (piperead_loop n acc s) Q.
Proof.
  revert acc h' s. induction n as [|n IH]; intros acc h' s Hok Hops Hh HQ;
    cbn [piperead_loop]; ksimpl.
  - simpl. eapply HQ; eauto. lia.
  - destruct (pipe_empty s) eqn:E; ksimpl; [simpl; eapply HQ; eauto; lia|].
    assert (Hlt : (0 < plen s)%nat).
    { destruct (plen s) eqn:E2; [|lia]. apply pipe_empty_spec in E2; [congruence|done]. }
    destruct (pipe_get_spec s Hok Hlt) as [Hok' _]. pose proof (pops_get s Hok Hlt) as Hg.
    simpl in Hok', Hg. set (b := byte_at _ _) in *.
    apply (IH _ (h' ++ [OGet b])); [done|by eapply pops_trans|..].
    + rewrite app_assoc, Hh. unfold gets_of. by rewrite fmap_app.
    + intros acc' h1 s2 H1 H2. replace (length (acc ++ [b]) + n)%nat with (length acc + S n)%nat.
      * by apply HQ.
      * rewrite length_app. simpl. lia.
Qed.

Definition read_post (n : Z) (h : list pop) (r : Z * bytes) : Prop :=
  h = gets_of r.2 /\ (Z.of_nat (length r.2) <= Z.max 0 n) /\
  (r.1 = Z.of_nat (length r.2) \/ r = (-1, [])).

Lemma piperead_safe fuel n :
  call_safe (Lk_pipe p) pipe_ok absp pop_step waiting killok (piperead p fuel n) (read_post n).
Proof.
  intros s. unfold piperead, lsafe. unfold kbind at 1. simpl. split_and!; try done.
  intros _ s' Hok. apply lwp_bind, piperead_wait_safe; [done|..].
  - intros sa w Hoka Hne. apply lwp_bind, (piperead_loop_safe _ _ _ _ _ []); try done.
    intros out h1 s1 Hok1 Hro Hops Hlen Hh. simpl in Hlen, Hh. ksimpl. simpl.
    exists h1. split; [done|]. intros _ _. split_and!; try done.
    + intros c Hc. destruct strict eqn:Hst; [|left; congruence].
      pose proof (Hc Hst) as H. destruct c; try done.
      * left. intros _. split; [apply H|]. intros Hr. rewrite Hro in Hr.
        destruct H as [_ H]. destruct (H Hr) as [He Hw]. apply pipe_empty_spec in He; [|done].
        rewrite He in Hne. apply Z.eqb_neq in Hw. by rewrite Hw in Hne.
      * right. destruct H as [-> _]. left.
    + exists []. split; [done|]. intros _ s2. rewrite app_nil_r. split_and!; try done.
      unfold read_post. simpl. split_and!; auto. lia.
  - intros s1. ksimpl. simpl. split_and!; try done. unfold read_post. simpl. split_and!; auto. lia.
Qed.

Definition close_post (writable : bool) (h : list pop) : Prop :=
  h = [if writable then OCloseW else OCloseR].

Lemma pipeclose_locked_safe writable :
  call_safe (Lk_pipe p) pipe_ok absp pop_step waiting killok
    (pipeclose_locked p writable) (fun h _ => close_post writable h).
Proof.
  intros s. unfold pipeclose_locked, lsafe. unfold kbind at 1. simpl. split_and!; try done.
  intros _ s' Hok. destruct writable; ksimpl; simpl.
  - exists [OCloseW]. split; [done|]. intros _ _.
    assert (Hw : wakes waiting s' [Ch_readp p] (set_writeopen 0 s')).
    { intros c Hc. destruct strict eqn:Hst; [|left; congruence]. pose proof (Hc Hst) as H.
      destruct c; try done; [right; destruct H as [-> _]; left|by left]. }
    destruct (readopen s' =? 0); simpl; split_and!; try done;
      exists []; split; try done; intros; split_and!; done.
  - exists [OCloseR]. split; [done|]. intros _ _.
    assert (Hw : wakes waiting s' [Ch_writep p] (set_readopen 0 s')).
    { intros c Hc. destruct strict eqn:Hst; [|left; congruence]. pose proof (Hc Hst) as H.
      destruct c; try done; [left; intros _; by split; [apply H|]|].
      right. destruct H as [-> _]. left. }
    destruct (writeopen s' =? 0); simpl; split_and!; try done;
      exists []; split; try done; intros; split_and!; done.
Qed.
End Calls.

(** ** Concurrent calls on one pipe *)

Inductive call : Type :=
| CRead (n : Z)
| CWrite (addr : nat -> Z) (n : Z)
| CClose (writable : bool).

Inductive cres : Type := RRead (r : Z * bytes) | RWrite (r : Z) | RClose (last : bool).

Definition call_code (p : Z) (fuel : nat) (c : call) : K pipe cres :=
  match c with
  | CRead n => r <- piperead p fuel n ;; kret (RRead r)
  | CWrite addr n => r <- pipewrite p fuel addr n ;; kret (RWrite r)
  | CClose w => r <- pipeclose_locked p w ;; kret (RClose r)
  end.

(** A call's result, against the operations it made on the queue. *)
Definition call_post (c : call) (h : list pop) (r : cres) : Prop :=
  match c, r with
  | CRead n, RRead r => read_post n h r
  | CWrite addr n, RWrite r => write_post addr n h r
  | CClose w, RClose _ => close_post w h
  | _, _ => False
  end.

Lemma call_code_safe p strict fuel c :
  call_safe (Lk_pipe p) pipe_ok absp pop_step (waiting p strict) (killok strict)
    (call_code p fuel c) (call_post c).
Proof.
  destruct c; (eapply call_safe_map;
    [|first [apply piperead_safe | apply pipewrite_safe | apply pipeclose_locked_safe]]); done.
Qed.

(** The bytes put in and taken out in a history. *)
Definition bytes_in (h : list pop) : bytes :=
  omap (fun o => match o with OPut b => Some b | _ => None end) h.
Definition bytes_out (h : list pop) : bytes :=
  omap (fun o => match o with OGet b => Some b | _ => None end) h.

Lemma pop_steps_fifo h q ro wo q' ro' wo' :
  asteps pop_step h (q, ro, wo) = Some (q', ro', wo') ->
  q ++ bytes_in h = bytes_out h ++ q'.
Proof.
  revert q ro wo. induction h as [|o h IH]; intros q ro wo; simpl.
  { intros [= <- <- <-]. by rewrite app_nil_r. }
  destruct o as [b|b| |]; simpl.
  - destruct (length q <? 512)%nat; simpl; [|done]. intros H. apply IH in H. simpl in *.
    by rewrite <- H, <- app_assoc.
  - destruct q as [|x q]; [done|]. destruct (Z.eqb_spec x b) as [->|]; simpl; [|done].
    intros H. apply IH in H. simpl in *. by rewrite H.
  - apply IH.
  - apply IH.
Qed.

(** C3. Concurrent reads, writes and closes of a pipe, under every
    interleaving: the pipe behaves as one FIFO queue.  One history of atomic
    byte operations explains the state; the bytes taken out are, in order, the
    first of those in the queue at the start and those put in; a finished read
    returned exactly the bytes it took, a finished write put in its whole
    buffer in order or (returning -1) a proper prefix of it; no call panics;
    and the queue never exceeds PIPESIZE. *)
Theorem pipe_fifo p fuel s calls sched pl :
  pipe_ok s -> prun sched (pinit s (call_code p fuel <$> calls)) = Some pl ->
  exists H : list (nat * pop),
    asteps pop_step (snd <$> H) (absp s) = Some (absp (shared pl)) /\
    queue s ++ bytes_in (snd <$> H) = bytes_out (snd <$> H) ++ queue (shared pl) /\
    (forall t c r, calls !! t = Some c -> thrs pl !! t = Some (TDone r) ->
       call_post c (proj t H) r) /\
    (forall t m, thrs pl !! t <> Some (TPanic m)) /\
    (owner pl (Lk_pipe p) = None -> (length (queue (shared pl)) <= 512)%nat).
Proof.
  intros Hok Hr.
  destruct (monitor_sound (Lk_pipe p) pipe_ok absp pop_step (waiting p false) (killok false)
    (fun t h r => forall c, calls !! t = Some c -> call_post c h r) s (call_code p fuel <$> calls) sched pl Hok)
    as (H & Ha & HQ & Hp & Hi); [..|done|].
  - intros t k. rewrite list_lookup_fmap. destruct (calls !! t) as [c|]; [|done]. intros [= <-].
    intros s'. eapply lwp_mono; [|apply (call_code_safe p false fuel c)].
    simpl. intros ????? (? & ? & ?). split_and!; try done. by intros ? [= <-].
  - apply Forall_true. by intros x.
  - exists H. split_and!; try done.
    + by eapply pop_steps_fifo.
    + intros t c r Hc Ht. by apply (HQ t r Ht).
    + intros Ho. rewrite length_queue. apply Hi in Ho as [(_ & _ & _ & ?) _]. done.
Qed.


(** ** Sequential behaviour: with room, or bytes, the calls return *)

Lemma pipewrite_wait_room p fuel s :
  pipe_ok s -> (plen s < 512)%nat -> pipewrite_wait p (S fuel) s = Ret true s.
Proof.
  intros Hok Hl. cbn [pipewrite_wait]. ksimpl.
  destruct (pipe_full s) eqn:E; [|done]. apply pipe_full_spec in E; [lia|done].
Qed.

Lemma pipewrite_loop_room p fuel addr n i s :
  pipe_ok s -> (plen s + n <= 512)%nat ->
  exists s', exec (pipewrite_loop p (S fuel) addr n i) s = Done (Z.of_nat (i + n)) tt s' /\
    pipe_ok s' /\ queue s' = queue s ++ (addr <$> seq i n) /\ readp s' = readp s.
Proof.
  revert i s. induction n as [|n IH]; intros i s Hok Hl.
  - exists s. cbn [pipewrite_loop seq]. kexec.
    rewrite Nat.add_0_r, app_nil_r. done.
  - cbn [pipewrite_loop]. kexec. rewrite (exec_ret _ _ true s) by (apply pipewrite_wait_room; [done|lia]).
    kexec. pose proof (pipe_put_ok (addr i) s Hok ltac:(lia)) as Hok'.
    destruct (IH (S i) (pipe_put (addr i) s) Hok') as (s' & He & Hs & Hq & Hr).
    { rewrite plen_put by (done || lia). lia. }
    exists s'. rewrite He. split; [f_equal; lia|]. split; [done|]. split; [|done].
    rewrite Hq, queue_put by (done || lia). simpl. by rewrite <- app_assoc.
Qed.

Lemma piperead_loop_avail n acc s :
  pipe_ok s ->
  exists s', piperead_loop n acc s = Ret (acc ++ take n (queue s)) s' /\
    pipe_ok s' /\ queue s' = drop n (queue s).
Proof.
  revert acc s. induction n as [|n IH]; intros acc s Hok; cbn [piperead_loop]; ksimpl.
  { exists s. by rewrite app_nil_r. }
  destruct (pipe_empty s) eqn:E; ksimpl.
  - apply pipe_empty_spec in E; [|done]. rewrite <- length_queue in E.
    apply nil_length_inv in E. exists s. rewrite E. simpl. by rewrite app_nil_r.
  - assert (Hlt : (0 < plen s)%nat).
    { destruct (plen s) eqn:E2; [|lia]. apply pipe_empty_spec in E2; [congruence|done]. }
    destruct (pipe_get_spec s Hok Hlt) as [Hok' Hq]. rewrite Hq. simpl in Hok' |- *.
    destruct (IH (acc ++ [byte_at (pdata s) (Z.to_nat (readp s mod PIPESIZE))]) _ Hok')
      as (s' & He & Hs & Hq').
    exists s'. rewrite He. split; [|done]. by rewrite <- app_assoc.
Qed.

(** Round trip through a pipe: when the bytes fit, pipewrite returns their
    number without sleeping, and a piperead of as many bytes from the pipe that
    was empty before gives back exactly these bytes and leaves it empty. *)
Theorem pipe_roundtrip p addr n s :
  pipe_ok s -> queue s = [] -> 0 < n <= PIPESIZE ->
  exists s1 s2,
    exec (pipewrite p 1 addr n) s = Done n tt s1 /\
    exec (piperead p 1 n) s1 = Done (n, addr <$> seq 0 (Z.to_nat n)) tt s2 /\
    queue s2 = [] /\ pipe_ok s2.
Proof.
  unfold PIPESIZE. intros Hok Hq Hn.
  assert (Hp : plen s = 0%nat) by (rewrite <- length_queue, Hq; done).
  destruct (pipewrite_loop_room p 0 addr (Z.to_nat n) 0 s Hok) as (s1 & He & Hok1 & Hq1 & _); [lia|].
  rewrite Hq in Hq1. simpl in Hq1.
  destruct (piperead_loop_avail (Z.to_nat n) [] s1 Hok1) as (s2 & He2 & Hok2 & Hq2).
  assert (Hlen : length (queue s1) = Z.to_nat n) by (rewrite Hq1; by lens; rewrite length_seq).
  rewrite take_ge in He2 by lia. rewrite drop_ge in Hq2 by lia.
  exists s1, s2. unfold pipewrite, piperead. split; [|split; [|done]].
  - kexec. rewrite He. f_equal. simpl. lia.
  - kexec. rewrite (exec_ret _ s1 true s1).
    + kexec. rewrite (exec_ret _ _ _ _ He2). kexec. simpl. rewrite Hlen, Hq1. f_equal. f_equal. lia.
    + cbn [piperead_wait]. ksimpl. destruct (pipe_empty s1) eqn:E; [|done].
      apply pipe_empty_spec in E; [|done]. rewrite <- length_queue in E. lia.
Qed.

(** A fresh pipe, as pipealloc makes it. *)
Definition pipe_fresh : pipe := mkpipe 1 1 0 0 (replicate 512 0).

Lemma pipe_fresh_ok : pipe_ok pipe_fresh.
Proof. split; [done|]. split; [done|]. split; [done|]. apply Nat.leb_le. done. Qed.

(** A reader that sleeps, then a writer of three bytes that wakes it. *)
Definition sched_ex : list (nat * bool) :=
  [(0, false); (0, false); (0, false); (0, false); (1, false); (1, false); (1, false);
   (1, false); (1, false); (0, false); (0, false); (0, false); (0, false)]%nat.

Definition calls_ex : list call := [CRead 2; CWrite (byte_at [7; 8; 9]) 3].

Definition pool_ex : option (pool pipe cres) :=
  prun sched_ex (pinit pipe_fresh (call_code 4096 3 <$> calls_ex)).

(** Facts of a computed pool, without normalising its threads. *)
Definition pool_done (pl : option (pool pipe cres)) (t : nat) : option cres :=
  match pl ≫= (fun q => thrs q !! t) with Some (TDone r) => Some r | _ => None end.

Definition pool_asleep (pl : option (pool pipe cres)) (t : nat) (c : chan) : bool :=
  match pl ≫= (fun q => thrs q !! t) with
  | Some (TSleep c' _ _) => bool_decide (c' = c)
  | _ => false
  end.

Definition pool_pipe (pl : option (pool pipe cres)) : option (pipe * option nat) :=
  (fun q => (shared q, owner q (Lk_pipe 4096))) <$> pl.

Lemma pool_done_some pl t r :
  pool_done (Some pl) t = Some r -> thrs pl !! t = Some (TDone r).
Proof. unfold pool_done. simpl. destruct (thrs pl !! t) as [[]|]; congruence. Qed.

Lemma pool_asleep_sleeper pl t c : pool_asleep (Some pl) t c = true -> sleeper pl c.
Proof.
  unfold pool_asleep, sleeper. simpl. destruct (thrs pl !! t) as [[]|] eqn:E; try done.
  case_bool_decide; [|done]. subst. eauto.
Qed.

Lemma pipe_fifo_witness :
  exists pl (H : list (nat * pop)), pool_ex = Some pl /\
    thrs pl !! 0%nat = Some (TDone (RRead (2, [7; 8]))) /\
    thrs pl !! 1%nat = Some (TDone (RWrite 3)) /\
    bytes_in (snd <$> H) = bytes_out (snd <$> H) ++ [9].
Proof.
  assert (H0 : pool_done pool_ex 0 = Some (RRead (2, [7; 8]))) by (vm_compute; reflexivity).
  assert (H1 : pool_done pool_ex 1 = Some (RWrite 3)) by (vm_compute; reflexivity).
  assert (H2 : queue ∘ fst <$> pool_pipe pool_ex = Some [9]) by (vm_compute; reflexivity).
  destruct pool_ex as [pl|] eqn:E; [|discriminate].
  destruct (pipe_fifo 4096 3 pipe_fresh calls_ex sched_ex pl pipe_fresh_ok E) as (H & _ & Hq & _).
  injection H2 as H2. rewrite H2 in Hq.
  exists pl, H. split; [reflexivity|]. auto using pool_done_some.
Defined.

Lemma pipe_roundtrip_witness :
  exists s1 s2,
    exec (pipewrite 4096 1 (fun i => Z.of_nat i) 3) pipe_fresh = Done 3 tt s1 /\
    exec (piperead 4096 1 3) s1 = Done (3, [0; 1; 2]) tt s2 /\ queue s2 = [] /\ pipe_ok s2.
Proof.
  apply (pipe_roundtrip 4096 (fun i => Z.of_nat i) 3 pipe_fresh pipe_fresh_ok eq_refl).
  unfold PIPESIZE. lia.
Defined.

Definition sched_sleep : list (nat * bool) := [(0, false); (0, false); (0, false); (0, false)]%nat.


(** A killed writer loses a wakeup.  With a reader asleep on an empty
    pipe, a writer that has filled the buffer and finds cp->killed set returns
    -1 without wakeup(&p->readp): the lock is free, both ends are open, 512
    bytes are in the pipe, and the reader is still asleep. *)
Theorem pipe_killed_writer_strands_reader :
  exists sched pl,
    prun sched (pinit pipe_fresh (call_code 4096 1 <$> [CRead 1; CWrite (fun _ => 65) 513])) =
      Some pl /\
    sleeper pl (Ch_readp 4096) /\ thrs pl !! 1%nat = Some (TDone (RWrite (-1))) /\
    owner pl (Lk_pipe 4096) = None /\ readopen (shared pl) = 1 /\ writeopen (shared pl) = 1 /\
    length (queue (shared pl)) = 512%nat.
Proof.
  set (sched := [(0, false); (0, false); (0, false); (0, false);
                 (1, false); (1, false); (1, true); (1, false); (1, false)]%nat).
  set (o := prun sched (pinit pipe_fresh
              (call_code 4096 1 <$> [CRead 1; CWrite (fun _ => 65) 513]))).
  assert (H0 : pool_asleep o 0 (Ch_readp 4096) = true) by (vm_compute; reflexivity).
  assert (H1 : pool_done o 1 = Some (RWrite (-1))) by (vm_compute; reflexivity).
  assert (H2 : pool_pipe o = Some (mkpipe 1 1 512 0 (replicate 512 65), None))
    by (vm_compute; reflexivity).
  destruct o as [pl|] eqn:E; [|discriminate]. injection H2 as H2 H3.
  exists sched, pl. split; [exact E|]. rewrite H2.
  split; [by eapply pool_asleep_sleeper|]. split; [by apply pool_done_some|].
  split; [exact H3|]. split; [reflexivity|]. split; [reflexivity|]. vm_compute. reflexivity.
Qed.
End Pipe.
