(* ===== verification/Proc.v ===== *)
(** * Proc: the process table of proc.c

    struct proc and ptable, and the operations that work on the table alone or
    on the table and the page allocator: allocproc, scheduler, sched, yield,
    forkret, sleep, wakeup1, wakeup, kill, the locked part of exit and wait.
    Each critical section is a function on the table, used both by
    the operation and by the transition system of [Sys], in which processors
    and processes interleave. fork, userinit, growproc and the rest of exit,
    which need the file layer, are in Process; procdump is in Trap. *)
From S2P Require Import Prelude Kmonad Spinlock Kalloc.
From stdpp Require Import options.

Module Proc.

Definition NPROC : nat := 64.
Definition NOFILE : nat := 16.
Definition KSTACKSIZE : Z := 4096.

Inductive procstate : Type := UNUSED | EMBRYO | SLEEPING | RUNNABLE | RUNNING | ZOMBIE.

#[export] Instance procstate_eq : EqDecision procstate.
Proof. solve_decision. Defined.

(** struct trapframe (x86.h), the paddings left out. *)
Record trapframe : Type := mktf {
  tf_edi : Z; tf_esi : Z; tf_ebp : Z; tf_oesp : Z; tf_ebx : Z; tf_edx : Z; tf_ecx : Z;
  tf_eax : Z; tf_gs : Z; tf_fs : Z; tf_es : Z; tf_ds : Z; tf_trapno : Z; tf_err : Z;
  tf_eip : Z; tf_cs : Z; tf_eflags : Z; tf_esp : Z; tf_ss : Z
}.

Definition tf0 : trapframe := mktf 0 0 0 0 0 0 0 0 0 0 0 0 0 0 0 0 0 0 0.

(** Where a process continues when it is switched to: p->context->eip. *)
Inductive kcontext : Type := Ctx_forkret | Ctx_sched.

(** A pointer to a process is its index in ptable.proc; a pointer to a file
    its index in ftable.file and one to an inode its index in icache. *)
Record proc : Type := mkproc {
  pmem : Z;
  sz : Z;
  kstack : Z;
  state : procstate;
  pid : Z;
  parent : option nat;
  tf : trapframe;
  context : kcontext;
  pchan : option chan;
  killed : Z;
  ofile : list (option nat);
  cwd : option nat;
  name : bytes
}.

Definition proc0 : proc :=
  mkproc 0 0 0 UNUSED 0 None tf0 Ctx_sched None 0 (replicate NOFILE None) None (replicate 16 0).

Definition set_mem (m n : Z) (p : proc) : proc :=
  mkproc m n (kstack p) (state p) (pid p) (parent p) (tf p) (context p) (pchan p) (killed p)
    (ofile p) (cwd p) (name p).
Definition set_kstack (v : Z) (p : proc) : proc :=
  mkproc (pmem p) (sz p) v (state p) (pid p) (parent p) (tf p) (context p) (pchan p) (killed p)
    (ofile p) (cwd p) (name p).
Definition set_state (v : procstate) (p : proc) : proc :=
  mkproc (pmem p) (sz p) (kstack p) v (pid p) (parent p) (tf p) (context p) (pchan p) (killed p)
    (ofile p) (cwd p) (name p).
Definition set_pid (v : Z) (p : proc) : proc :=
  mkproc (pmem p) (sz p) (kstack p) (state p) v (parent p) (tf p) (context p) (pchan p) (killed p)
    (ofile p) (cwd p) (name p).
Definition set_parent (v : option nat) (p : proc) : proc :=
  mkproc (pmem p) (sz p) (kstack p) (state p) (pid p) v (tf p) (context p) (pchan p) (killed p)
    (ofile p) (cwd p) (name p).
Definition set_tf (v : trapframe) (p : proc) : proc :=
  mkproc (pmem p) (sz p) (kstack p) (state p) (pid p) (parent p) v (context p) (pchan p) (killed p)
    (ofile p) (cwd p) (name p).
Definition set_context (v : kcontext) (p : proc) : proc :=
  mkproc (pmem p) (sz p) (kstack p) (state p) (pid p) (parent p) (tf p) v (pchan p) (killed p)
    (ofile p) (cwd p) (name p).
Definition set_chan (v : option chan) (p : proc) : proc :=
  mkproc (pmem p) (sz p) (kstack p) (state p) (pid p) (parent p) (tf p) (context p) v (killed p)
    (ofile p) (cwd p) (name p).
Definition set_killed (v : Z) (p : proc) : proc :=
  mkproc (pmem p) (sz p) (kstack p) (state p) (pid p) (parent p) (tf p) (context p) (pchan p) v
    (ofile p) (cwd p) (name p).
Definition set_files (v : list (option nat)) (d : option nat) (p : proc) : proc :=
  mkproc (pmem p) (sz p) (kstack p) (state p) (pid p) (parent p) (tf p) (context p) (pchan p)
    (killed p) v d (name p).
Definition set_name (v : bytes) (p : proc) : proc :=
  mkproc (pmem p) (sz p) (kstack p) (state p) (pid p) (parent p) (tf p) (context p) (pchan p)
    (killed p) (ofile p) (cwd p) v.

(** ptable, nextpid and initproc. *)
Record ptable : Type := mkptable {
  procs : list proc;
  nextpid : Z;
  initproc : option nat
}.

Definition proc_at (t : ptable) (i : nat) : proc := default proc0 (procs t !! i).

Definition upd (i : nat) (f : proc -> proc) (t : ptable) : ptable :=
  mkptable (alter f i (procs t)) (nextpid t) (initproc t).

Definition in_state (st : procstate) (p : proc) : bool := bool_decide (state p = st).

(** The first process from index [i] on that satisfies [f]. *)
Fixpoint find_from (f : proc -> bool) (i : nat) (l : list proc) : option nat :=
  match l with
  | [] => None
  | p :: r => if f p then Some i else find_from f (S i) r
  end.

(** ** Critical sections *)

(** The loop of allocproc under ptable.lock. *)
Definition alloc_slot (t : ptable) : option nat * ptable :=
  match find_from (in_state UNUSED) 0 (procs t) with
  | Some i =>
      let t' := upd i (fun p => set_pid (nextpid t) (set_state EMBRYO p)) t in
      (Some i, mkptable (procs t') (i32 (nextpid t + 1)) (initproc t))
  | None => (None, t)
  end.

Definition wakeup1_proc (c : chan) (p : proc) : proc :=
  if in_state SLEEPING p && bool_decide (pchan p = Some c) then set_state RUNNABLE p else p.

Definition wakeup1 (c : chan) (t : ptable) : ptable :=
  mkptable (wakeup1_proc c <$> procs t) (nextpid t) (initproc t).

(** The channel of a process pointer; the null pointer is slept on by nobody. *)
Definition wakeup1_parent (q : option nat) (t : ptable) : ptable :=
  match q with Some i => wakeup1 (Ch_proc i) t | None => t end.

Definition kill_section (id : Z) (t : ptable) : Z * ptable :=
  match find_from (fun p => pid p =? id) 0 (procs t) with
  | Some i =>
      (0, upd i (fun p => let p := set_killed 1 p in
                          if in_state SLEEPING p then set_state RUNNABLE p else p) t)
  | None => (-1, t)
  end.

(** exit: pass abandoned children to init, from index [i] on. *)
Fixpoint reparent (n i cp : nat) (t : ptable) : ptable :=
  match n with
  | O => t
  | S n' =>
      let t' :=
        if bool_decide (parent (proc_at t i) = Some cp) then
          let t1 := upd i (set_parent (initproc t)) t in
          if in_state ZOMBIE (proc_at t1 i) then wakeup1_parent (initproc t) t1 else t1
        else t in
      reparent n' (S i) cp t'
  end.

Definition exit_section (cp : nat) (t : ptable) : ptable :=
  let t := wakeup1_parent (parent (proc_at t cp)) t in
  let t := reparent (length (procs t)) 0 cp t in
  upd cp (fun p => set_state ZOMBIE (set_killed 0 p)) t.

(** wait: the scan for a zombie child, from index [i] on. *)
Inductive wait_result : Type := WReap (i : nat) | WNone (havekids : bool).

Fixpoint wait_scan (cp : nat) (i : nat) (havekids : bool) (l : list proc) : wait_result :=
  match l with
  | [] => WNone havekids
  | p :: r =>
      if in_state UNUSED p then wait_scan cp (S i) havekids r
      else if bool_decide (parent p = Some cp) then
        if in_state ZOMBIE p then WReap i else wait_scan cp (S i) true r
      else wait_scan cp (S i) havekids r
  end.

Definition reap (i : nat) (t : ptable) : ptable :=
  upd i (fun p => set_name (<[0%nat := 0]> (name p))
                    (set_parent None (set_pid 0 (set_state UNUSED p)))) t.

(** ** The operations *)

Record pstate : Type := mkpstate { ptab : ptable; pkmem : Kalloc.kmem }.

Definition with_tab (f : ptable -> ptable) (s : pstate) : pstate := mkpstate (f (ptab s)) (pkmem s).
Definition on_kmem {A} (m : K Kalloc.kmem A) : K pstate A :=
  zoom pkmem (fun k s => mkpstate (ptab s) k) m.
Definition my {A} (cp : nat) (f : proc -> A) : K pstate A := gets (fun s => f (proc_at (ptab s) cp)).
Definition upd_proc (i : nat) (f : proc -> proc) : K pstate unit := modify (with_tab (upd i f)).

(** Run a critical section that returns a value. *)
Definition section {A} (f : ptable -> A * ptable) : K pstate A :=
  fun s => let (a, t) := f (ptab s) in Ret a (mkpstate t (pkmem s)).

Definition allocproc : K pstate (option nat) :=
  acquire Lk_ptable ;;
  r <- section alloc_slot ;;
  match r with
  | None => release Lk_ptable ;; kret None
  | Some i =>
      release Lk_ptable ;;
      k <- on_kmem (Kalloc.kalloc KSTACKSIZE) ;;
      upd_proc i (set_kstack k) ;;
      if k =? 0 then upd_proc i (set_state UNUSED) ;; kret None
      else upd_proc i (set_context Ctx_forkret) ;; kret (Some i)
  end.

(** The test of cp->state in sched; the tests of the interrupt flag, of
    ptable.lock and of c->ncli are the lock discipline of [swtch], which
    [Sched] below relates to the code. *)
Definition sched (cp : nat) : K pstate unit :=
  st <- my cp state ;;
  if decide (st = RUNNING) then panic "sched running" else swtch None.

Definition yield (cp : nat) : K pstate unit :=
  acquire Lk_ptable ;;
  upd_proc cp (set_state RUNNABLE) ;;
  sched cp ;;
  release Lk_ptable.

Definition forkret : K pstate unit := release Lk_ptable.

(** sleep(chan, lk) of process [cp], [None] where cp or lk is null. *)
Definition proc_sleep (cp : option nat) (c : chan) (lk : option lockid) : K pstate unit :=
  match cp, lk with
  | None, _ => panic "sleep"
  | Some _, None => panic "sleep without lk"
  | Some p, Some l =>
      (if decide (l = Lk_ptable) then kret tt
       else acquire Lk_ptable ;; release l) ;;
      upd_proc p (set_chan (Some c)) ;;
      upd_proc p (set_state SLEEPING) ;;
      sched p ;;
      upd_proc p (set_chan None) ;;
      (if decide (l = Lk_ptable) then kret tt
       else release Lk_ptable ;; acquire l)
  end.

Definition proc_wakeup (c : chan) : K pstate unit :=
  acquire Lk_ptable ;;
  modify (with_tab (wakeup1 c)) ;;
  release Lk_ptable.

Definition kill (id : Z) : K pstate Z :=
  acquire Lk_ptable ;;
  r <- section (kill_section id) ;;
  release Lk_ptable ;;
  kret r.

(** exit after the files are closed. *)
Definition exit_locked (cp : nat) : K pstate unit :=
  acquire Lk_ptable ;;
  modify (with_tab (exit_section cp)) ;;
  sched cp ;;
  panic "zombie exit".

Fixpoint wait_loop (fuel cp : nat) : K pstate Z :=
  match fuel with
  | O => diverge
  | S fuel' =>
      r <- gets (fun s => wait_scan cp 0 false (procs (ptab s))) ;;
      match r with
      | WReap i =>
          m <- my i pmem ;; n <- my i sz ;;
          on_kmem (Kalloc.kfree m n) ;;
          ks <- my i kstack ;;
          on_kmem (Kalloc.kfree ks KSTACKSIZE) ;;
          id <- my i pid ;;
          modify (with_tab (reap i)) ;;
          release Lk_ptable ;;
          kret id
      | WNone havekids =>
          kd <- my cp killed ;;
          if negb havekids || negb (kd =? 0) then
            release Lk_ptable ;;
            kret (-1)
          else
            proc_sleep (Some cp) (Ch_proc cp) (Some Lk_ptable) ;;
            wait_loop fuel' cp
      end
  end.

Definition wait (fuel cp : nat) : K pstate Z :=
  acquire Lk_ptable ;;
  wait_loop fuel cp.

(** One pass of scheduler's loop over the table; [usegment] and the setting of
    cp and c->context are in [Segment]. *)
Fixpoint scheduler_scan (n i : nat) : K pstate unit :=
  match n with
  | O => kret tt
  | S n' =>
      st <- my i state ;;
      (if decide (st = RUNNABLE) then
         upd_proc i (set_state RUNNING) ;;
         swtch (Some i)
       else kret tt) ;;
      scheduler_scan n' (S i)
  end.

Definition scheduler_pass : K pstate unit :=
  acquire Lk_ptable ;;
  scheduler_scan NPROC 0 ;;
  release Lk_ptable.

(** ** Lemmas on the table *)

Definition same_but_state (p q : proc) : Prop :=
  parent q = parent p /\ pid q = pid p /\ pchan q = pchan p.

Lemma proc_at_upd i f t k :
  proc_at (upd i f t) k = if decide (k = i /\ (i < length (procs t))%nat)
                          then f (proc_at t i) else proc_at t k.
Proof.
  unfold proc_at, upd. simpl. destruct (decide (k = i)) as [->|Hne].
  - rewrite list_lookup_alter_eq. destruct (procs t !! i) eqn:E; simpl.
    + rewrite decide_True; [done|]. split; [done|]. by eapply lookup_lt_Some.
    + rewrite decide_False; [done|]. intros [_ ?]. apply lookup_ge_None in E. lia.
  - rewrite list_lookup_alter_ne by done. rewrite decide_False by naive_solver. done.
Qed.

Lemma proc_at_upd_ne i f t k : k <> i -> proc_at (upd i f t) k = proc_at t k.
Proof. intros. rewrite proc_at_upd. rewrite decide_False by naive_solver. done. Qed.

Lemma proc_at_upd_eq i f t :
  (i < length (procs t))%nat -> proc_at (upd i f t) i = f (proc_at t i).
Proof. intros. rewrite proc_at_upd. by rewrite decide_True. Qed.

Lemma length_upd i f t : length (procs (upd i f t)) = length (procs t).
Proof. unfold upd. simpl. apply length_alter. Qed.

Lemma proc_at_wakeup1 c t k : proc_at (wakeup1 c t) k = wakeup1_proc c (proc_at t k).
Proof. unfold proc_at, wakeup1. simpl. rewrite list_lookup_fmap. by destruct (procs t !! k). Qed.

Lemma in_state_true st p : in_state st p = true <-> state p = st.
Proof. unfold in_state. apply bool_decide_eq_true. Qed.

Lemma in_state_false st p : in_state st p = false <-> state p <> st.
Proof. unfold in_state. apply bool_decide_eq_false. Qed.

(** A process in use is in the table. *)
Lemma used_in_range t i : state (proc_at t i) <> UNUSED -> (i < length (procs t))%nat.
Proof.
  unfold proc_at. destruct (procs t !! i) eqn:E; [intros; by eapply lookup_lt_Some|].
  simpl. done.
Qed.

(** wakeup1 changes nothing but the state of the sleepers on the channel. *)
Lemma wakeup1_proc_spec c p :
  same_but_state p (wakeup1_proc c p) /\
  ((state p = SLEEPING /\ pchan p = Some c /\ state (wakeup1_proc c p) = RUNNABLE) \/
   (~ (state p = SLEEPING /\ pchan p = Some c) /\ wakeup1_proc c p = p)).
Proof.
  unfold wakeup1_proc, same_but_state.
  destruct (in_state SLEEPING p && bool_decide (pchan p = Some c)) eqn:E; simpl.
  - apply andb_prop in E as [E1 E2]. apply in_state_true in E1. apply bool_decide_eq_true in E2.
    split_and!; auto.
  - split; [done|]. right. split; [|done]. intros [H1 H2].
    apply in_state_true in H1. rewrite H1, H2 in E. simpl in E.
    by rewrite bool_decide_eq_true_2 in E.
Qed.

Lemma find_from_spec f i l k :
  find_from f i l = Some k -> exists p, (i <= k)%nat /\ l !! (k - i)%nat = Some p /\ f p = true.
Proof.
  revert i. induction l as [|p r IH]; intros i; simpl; [done|].
  destruct (f p) eqn:E.
  - intros [= <-]. exists p. rewrite Nat.sub_diag. auto.
  - intros H. apply IH in H as (q & Hk & Hl & Hq). exists q. split; [lia|].
    replace (k - i)%nat with (S (k - S i)) by lia. auto.
Qed.

Lemma find_from_none f i l : find_from f i l = None -> forall p, p ∈ l -> f p = false.
Proof.
  revert i. induction l as [|p r IH]; intros i; simpl; [intros _ p H; by apply not_elem_of_nil in H|].
  destruct (f p) eqn:E; [done|]. intros H q [->|Hq]%elem_of_cons; [done|]. by apply (IH (S i)).
Qed.

Definition wk (w : bool) (c : chan) (p : proc) : proc := if w then wakeup1_proc c p else p.

Lemma wk_spec w c p :
  same_but_state p (wk w c p) /\
  ((w = true /\ state p = SLEEPING /\ pchan p = Some c /\ state (wk w c p) = RUNNABLE) \/
   (~ (w = true /\ state p = SLEEPING /\ pchan p = Some c) /\ wk w c p = p)).
Proof.
  destruct w; simpl; [|split; [done|]; right; naive_solver].
  destruct (wakeup1_proc_spec c p) as [H1 [(? & ? & ?)|[? ?]]]; split; auto. right. naive_solver.
Qed.

Lemma wk_set_parent w c v p : wk w c (set_parent v p) = set_parent v (wk w c p).
Proof.
  destruct w; [|done]. unfold wk, wakeup1_proc, in_state. simpl. by destruct (_ && _).
Qed.

Lemma wk_wk w z c p : wk w c (wk z c p) = wk (z || w) c p.
Proof.
  destruct z, w; try done. unfold wk, wakeup1_proc at 1. unfold in_state, wakeup1_proc.
  destruct (in_state SLEEPING p && bool_decide (pchan p = Some c)) eqn:E; simpl; [done|].
  unfold in_state in E. by rewrite E.
Qed.

Lemma parent_wk w c p : parent (wk w c p) = parent p.
Proof. by destruct (wk_spec w c p) as [(? & _) _]. Qed.

(** What the loop of exit does to one process. *)
Definition adopt (q cp : nat) (inrange w : bool) (p : proc) : proc :=
  if inrange && bool_decide (parent p = Some cp)
  then set_parent (Some q) (wk w (Ch_proc q) p) else wk w (Ch_proc q) p.

(** The loop of exit gives the children of [cp] to init, and wakes init if one
    of them is a zombie. *)
Lemma reparent_spec n i cp t q :
  initproc t = Some q ->
  let t' := reparent n i cp t in
  exists w : bool,
    (w = false -> forall k, (i <= k < i + n)%nat -> parent (proc_at t k) = Some cp ->
       state (proc_at t k) <> ZOMBIE) /\
    (forall k, proc_at t' k =
       adopt q cp (bool_decide (i <= k < i + n)%nat) w (proc_at t k)) /\
    nextpid t' = nextpid t /\ initproc t' = Some q /\ length (procs t') = length (procs t).
Proof.
  revert i t. induction n as [|n IH]; intros i t Hq; cbn [reparent].
  { exists false. split; [intros; lia|]. split; [|done]. intros k. unfold adopt.
    by rewrite (bool_decide_eq_false_2 (i <= k < i + 0)%nat) by lia. }
  destruct (bool_decide (parent (proc_at t i) = Some cp)) eqn:Ep.
  - rewrite Hq. set (t1 := upd i (set_parent (Some q)) t).
    assert (Hlt : (i < length (procs t))%nat).
    { apply bool_decide_eq_true in Ep. unfold proc_at in Ep.
      destruct (procs t !! i) eqn:E; [by eapply lookup_lt_Some|done]. }
    set (z := in_state ZOMBIE (proc_at t1 i)).
    assert (Hz : z = in_state ZOMBIE (proc_at t i)) by (subst z t1; by rewrite proc_at_upd_eq).
    set (t2 := if z then wakeup1_parent (Some q) t1 else t1).
    assert (Ht2 : forall k, proc_at t2 k = wk z (Ch_proc q) (proc_at t1 k)).
    { intros k. subst t2. destruct z; [apply proc_at_wakeup1|done]. }
    assert (Hl2 : length (procs t2) = length (procs t) /\ nextpid t2 = nextpid t /\
                  initproc t2 = Some q).
    { subst t2 t1. destruct z; simpl; rewrite ?length_fmap, length_alter; auto. }
    clearbody z t2. destruct Hl2 as (Hl2 & Hn2 & Hi2).
    destruct (IH (S i) t2 Hi2) as (w & Hw & Hk & Hn & Hi & Hlen).
    exists (z || w)%bool. split; [|split; [|split_and!; congruence]].
    + intros [Hzf Hwf]%orb_false_elim k Hk' Hpk. destruct (decide (k = i)) as [->|Hne].
      { apply in_state_false. by rewrite <- Hz. }
      specialize (Hw Hwf k ltac:(lia)). rewrite Ht2, Hzf in Hw. simpl in Hw.
      subst t1. rewrite proc_at_upd_ne in Hw by done. auto.
    + intros k. rewrite Hk, Ht2. subst t1. unfold adopt. rewrite parent_wk.
      destruct (decide (k = i)) as [->|Hne].
      * rewrite proc_at_upd_eq, Ep by done. rewrite (bool_decide_eq_false_2 (S i <= i < _)%nat) by lia.
        rewrite (bool_decide_eq_true_2 (i <= i < i + S n)%nat) by lia. simpl. by rewrite wk_wk, wk_set_parent.
      * rewrite proc_at_upd_ne by done. rewrite wk_wk.
        replace (bool_decide (S i <= k < S i + n)%nat) with (bool_decide (i <= k < i + S n)%nat);
          [done|]. apply bool_decide_ext. lia.
  - destruct (IH (S i) t Hq) as (w & Hw & Hk & Hn & Hi & Hlen).
    exists w. split; [|split; [|done]].
    + intros Hwf k Hk' Hpk. destruct (decide (k = i)) as [->|Hne].
      { by apply bool_decide_eq_false in Ep. }
      apply Hw; [done|lia|done].
    + intros k. rewrite Hk. unfold adopt. destruct (decide (k = i)) as [->|Hne].
      * rewrite Ep, !andb_false_r. done.
      * replace (bool_decide (S i <= k < S i + n)%nat) with (bool_decide (i <= k < i + S n)%nat);
          [done|]. apply bool_decide_ext. lia.
Qed.

(** wait's scan: a zombie child, or none, and whether there is a child. *)
Lemma wait_scan_spec cp i hk l :
  match wait_scan cp i hk l with
  | WReap k => exists p, (i <= k)%nat /\ l !! (k - i)%nat = Some p /\
      parent p = Some cp /\ state p = ZOMBIE
  | WNone b =>
      (forall p, p ∈ l -> parent p = Some cp -> state p <> ZOMBIE) /\
      (b = true <-> hk = true \/ exists p, p ∈ l /\ state p <> UNUSED /\ parent p = Some cp)
  end.
Proof.
  revert i hk. induction l as [|p r IH]; intros i hk; simpl.
  { split; [intros p H; by apply not_elem_of_nil in H|]. split; [auto|].
    intros [?|(p & H & _)]; [done|by apply not_elem_of_nil in H]. }
  assert (Hreap : forall hk' k, wait_scan cp (S i) hk' r = WReap k ->
            exists q, (i <= k)%nat /\ (p :: r) !! (k - i)%nat = Some q /\
              parent q = Some cp /\ state q = ZOMBIE).
  { intros hk' k E. specialize (IH (S i) hk'). rewrite E in IH.
    destruct IH as (q & Hle & Hl & Hq). exists q. split; [lia|].
    replace (k - i)%nat with (S (k - S i)) by lia. done. }
  destruct (in_state UNUSED p) eqn:Eu; [|destruct (bool_decide (parent p = Some cp)) eqn:Ep].
  - specialize (IH (S i) hk). destruct (wait_scan cp (S i) hk r) as [k|b] eqn:E; [by apply (Hreap hk)|].
    apply in_state_true in Eu. destruct IH as [I1 I2]. split.
    + intros q [->|Hq]%elem_of_cons; [congruence|auto].
    + rewrite I2. split; intros [?|(q & Hq & Hu & Hp)]; auto.
      * right. exists q. split; [by right|done].
      * apply elem_of_cons in Hq as [->|Hq]; [done|]. right. eauto.
  - apply bool_decide_eq_true in Ep. apply in_state_false in Eu.
    destruct (in_state ZOMBIE p) eqn:Ez.
    + apply in_state_true in Ez. exists p. rewrite Nat.sub_diag. auto.
    + apply in_state_false in Ez. specialize (IH (S i) true).
      destruct (wait_scan cp (S i) true r) as [k|b] eqn:E; [by apply (Hreap true)|].
      destruct IH as [I1 I2]. split.
      * intros q [->|Hq]%elem_of_cons; auto.
      * rewrite I2. split; intros _; [|by left]. right. exists p. split; [left|done].
  - apply bool_decide_eq_false in Ep. specialize (IH (S i) hk).
    destruct (wait_scan cp (S i) hk r) as [k|b] eqn:E; [by apply (Hreap hk)|].
    destruct IH as [I1 I2]. split.
    + intros q [->|Hq]%elem_of_cons; [congruence|auto].
    + rewrite I2. split; intros [?|(q & Hq & Hu & Hp)]; auto.
      * right. exists q. split; [by right|done].
      * apply elem_of_cons in Hq as [->|Hq]; [done|]. right. eauto.
Qed.
End Proc.

(** ** Processors and processes interleaved *)

Module Sys.
Import Proc.

(** The table and, for each processor, the process it runs. *)
Record sys : Type := mksys { tab : ptable; cur : list (option nat) }.

Definition runs (s : sys) (j i : nat) : Prop := cur s !! j = Some (Some i).

(** One critical section of some processor.  Between two of them a processor
    runs user code or kernel code that does not touch the table. *)
Inductive sstep : sys -> sys -> Prop :=
| st_pick s j i :                       (* scheduler *)
    cur s !! j = Some None -> state (proc_at (tab s) i) = RUNNABLE ->
    sstep s (mksys (upd i (set_state RUNNING) (tab s)) (<[j := Some i]> (cur s)))
| st_yield s j i :
    runs s j i ->
    sstep s (mksys (upd i (set_state RUNNABLE) (tab s)) (<[j := None]> (cur s)))
| st_sleep s j i c :                    (* sleep, other than in wait *)
    runs s j i -> (forall q, c <> Ch_proc q) ->
    sstep s (mksys (upd i (fun p => set_state SLEEPING (set_chan (Some c) p)) (tab s))
                   (<[j := None]> (cur s)))
| st_resume s j i :                     (* sleep, after sched *)
    runs s j i -> sstep s (mksys (upd i (set_chan None) (tab s)) (cur s))
| st_wait_sleep s j i :
    runs s j i -> wait_scan i 0 false (procs (tab s)) = WNone true ->
    killed (proc_at (tab s) i) = 0 ->
    sstep s (mksys (upd i (fun p => set_state SLEEPING (set_chan (Some (Ch_proc i)) p)) (tab s))
                   (<[j := None]> (cur s)))
| st_wait_reap s j i k :
    runs s j i -> wait_scan i 0 false (procs (tab s)) = WReap k ->
    sstep s (mksys (reap k (tab s)) (cur s))
| st_exit s j i :
    runs s j i -> initproc (tab s) <> Some i ->
    sstep s (mksys (exit_section i (tab s)) (<[j := None]> (cur s)))
| st_wakeup s c :
    sstep s (mksys (wakeup1 c (tab s)) (cur s))
| st_kill s id :
    sstep s (mksys (kill_section id (tab s)).2 (cur s))
| st_alloc s k t' :                     (* allocproc, nextpid not at its limit *)
    alloc_slot (tab s) = (Some k, t') -> nextpid (tab s) < 2147483647 ->
    sstep s (mksys t' (cur s))
| st_alloc_fail s k :                   (* no memory for the new process *)
    state (proc_at (tab s) k) = EMBRYO ->
    sstep s (mksys (upd k (set_state UNUSED) (tab s)) (cur s))
| st_fork_parent s j i k :
    runs s j i -> state (proc_at (tab s) k) = EMBRYO ->
    sstep s (mksys (upd k (set_parent (Some i)) (tab s)) (cur s))
| st_fork_run s j i k :
    runs s j i -> state (proc_at (tab s) k) = EMBRYO -> parent (proc_at (tab s) k) = Some i ->
    sstep s (mksys (upd k (set_state RUNNABLE) (tab s)) (cur s)).

Inductive reach (s0 : sys) : sys -> Prop :=
| reach_init : reach s0 s0
| reach_step s s' : reach s0 s -> sstep s s' -> reach s0 s'.

Definition alive (t : ptable) (i : nat) : Prop :=
  state (proc_at t i) = SLEEPING \/ state (proc_at t i) = RUNNABLE \/
  state (proc_at t i) = RUNNING.

(** RUNNING processes and processors correspond one to one. *)
Definition run_inv (s : sys) : Prop :=
  (forall j i, runs s j i -> state (proc_at (tab s) i) = RUNNING) /\
  (forall i, state (proc_at (tab s) i) = RUNNING -> exists j, runs s j i) /\
  (forall j j' i, runs s j i -> runs s j' i -> j = j').

(** init lives, and the parent of every other process that has started lives,
    so that somebody is left to wait for it. *)
Definition parent_inv (t : ptable) : Prop :=
  (exists q, initproc t = Some q /\ alive t q) /\
  forall i, state (proc_at t i) <> UNUSED -> state (proc_at t i) <> EMBRYO ->
    initproc t <> Some i -> exists q, parent (proc_at t i) = Some q /\ alive t q.

(** A process asleep in wait has no zombie child: no exit goes unnoticed. *)
Definition wait_inv (t : ptable) : Prop :=
  forall q i, state (proc_at t q) = SLEEPING -> pchan (proc_at t q) = Some (Ch_proc q) ->
    parent (proc_at t i) = Some q -> state (proc_at t i) <> ZOMBIE.

(** Live processes have distinct positive pids below nextpid. *)
Definition pid_inv (t : ptable) : Prop :=
  0 < nextpid t < 2147483648 /\
  (forall i, state (proc_at t i) <> UNUSED -> 0 < pid (proc_at t i) < nextpid t) /\
  (forall i k, state (proc_at t i) <> UNUSED -> state (proc_at t k) <> UNUSED ->
     pid (proc_at t i) = pid (proc_at t k) -> i = k).

(** No process is its own parent, and init has none. *)
Definition tree_inv (t : ptable) : Prop :=
  forall k v, parent (proc_at t k) = Some v -> v <> k /\ initproc t <> Some k.

Definition sys_inv (s : sys) : Prop :=
  run_inv s /\ parent_inv (tab s) /\ wait_inv (tab s) /\ pid_inv (tab s) /\ tree_inv (tab s).

(** ** Preservation, one invariant at a time

    Most sections change the table in ways that an invariant does not see; the
    [_mono] lemmas say which. *)

Definition started (t : ptable) (i : nat) : Prop :=
  state (proc_at t i) <> UNUSED /\ state (proc_at t i) <> EMBRYO.

Lemma wait_inv_mono t t' :
  wait_inv t ->
  (forall k, state (proc_at t' k) = ZOMBIE ->
     state (proc_at t k) = ZOMBIE /\ parent (proc_at t' k) = parent (proc_at t k)) ->
  (forall k c, state (proc_at t' k) = SLEEPING -> pchan (proc_at t' k) = Some (Ch_proc c) ->
     state (proc_at t k) = SLEEPING /\ pchan (proc_at t k) = Some (Ch_proc c)) ->
  wait_inv t'.
Proof.
  intros H Hz Hs q i H1 H2 H3 H4. destruct (Hs q q H1 H2) as [? ?]. destruct (Hz i H4) as [? Hp].
  rewrite Hp in H3. by eapply H.
Qed.

Lemma parent_inv_mono t t' :
  parent_inv t -> initproc t' = initproc t ->
  (forall k, alive t k -> alive t' k) ->
  (forall k, started t' k -> (started t k /\ parent (proc_at t' k) = parent (proc_at t k)) \/
     exists q, parent (proc_at t' k) = Some q /\ alive t q) ->
  parent_inv t'.
Proof.
  intros [(q & Hq & Ha) H] Hi Hal Hst. split; [exists q; rewrite Hi; auto|].
  intros i Hu He Hn. rewrite Hi in Hn.
  destruct (Hst i (conj Hu He)) as [[[? ?] Hp]|(q' & ? & ?)]; [|eauto].
  rewrite Hp. destruct (H i) as (q' & ? & ?); eauto.
Qed.

Lemma pid_inv_mono t t' :
  pid_inv t -> nextpid t' = nextpid t ->
  (forall k, state (proc_at t' k) <> UNUSED ->
     state (proc_at t k) <> UNUSED /\ pid (proc_at t' k) = pid (proc_at t k)) ->
  pid_inv t'.
Proof.
  intros (Hn & Hr & Hd) Hnp H. unfold pid_inv. rewrite Hnp. split; [done|]. split.
  - intros i Hi. destruct (H i Hi) as [? ->]. auto.
  - intros i k Hi Hk. destruct (H i Hi) as [? ->], (H k Hk) as [? ->]. auto.
Qed.

Lemma tree_inv_mono t t' :
  tree_inv t -> initproc t' = initproc t ->
  (forall k v, parent (proc_at t' k) = Some v ->
     parent (proc_at t k) = Some v \/ v <> k /\ initproc t <> Some k) ->
  tree_inv t'.
Proof. intros H Hi Hp k v Hv. rewrite Hi. destruct (Hp k v Hv) as [?|?]; auto. Qed.

Lemma run_inv_mono s t' :
  run_inv s -> (forall k, state (proc_at t' k) = RUNNING <-> state (proc_at (tab s) k) = RUNNING) ->
  run_inv (mksys t' (cur s)).
Proof.
  intros (H1 & H2 & H3) H. split_and!; simpl.
  - intros j i Hr. apply H. by eapply H1.
  - intros i Hi. apply H in Hi. by apply H2.
  - apply H3.
Qed.

(** The process of processor [j] stops running. *)
Lemma run_inv_leave s t' j i :
  run_inv s -> runs s j i -> state (proc_at t' i) <> RUNNING ->
  (forall k, k <> i -> state (proc_at t' k) = RUNNING <-> state (proc_at (tab s) k) = RUNNING) ->
  run_inv (mksys t' (<[j := None]> (cur s))).
Proof.
  intros (H1 & H2 & H3) Hr Hi H. unfold run_inv, runs in *; simpl.
  assert (Hins : forall j' i', <[j := None]> (cur s) !! j' = Some (Some i') <->
            j' <> j /\ cur s !! j' = Some (Some i')).
  { intros j' i'. rewrite list_lookup_insert_Some. naive_solver. }
  split_and!.
  - intros j' i' [Hj Hc]%Hins. apply H; [intros ->|by eapply H1]. apply Hj. by eapply H3.
  - intros k Hk. assert (k <> i) by congruence. apply H in Hk; [|done].
    destruct (H2 k Hk) as [j' Hj']. exists j'. apply Hins. split; [|done]. intros ->. congruence.
  - intros j1 j2 k [_ Ha]%Hins [_ Hb]%Hins. by eapply H3.
Qed.

Lemma run_inv_enter s j i :
  run_inv s -> cur s !! j = Some None -> state (proc_at (tab s) i) = RUNNABLE ->
  run_inv (mksys (upd i (set_state RUNNING) (tab s)) (<[j := Some i]> (cur s))).
Proof.
  intros (H1 & H2 & H3) Hj Hi. assert (Hlt : (i < length (procs (tab s)))%nat).
  { apply used_in_range. congruence. }
  unfold run_inv, runs in *; simpl.
  assert (Hins : forall j' i', <[j := Some i]> (cur s) !! j' = Some (Some i') <->
            (j' = j /\ i' = i) \/ (j' <> j /\ cur s !! j' = Some (Some i'))).
  { intros j' i'. rewrite list_lookup_insert_Some. apply lookup_lt_Some in Hj. naive_solver. }
  assert (Hno : forall j', cur s !! j' <> Some (Some i)).
  { intros j' Hc. apply H1 in Hc. congruence. }
  split_and!.
  - intros j' i' [[-> ->]|[Hn Hc]]%Hins; [by rewrite proc_at_upd_eq|].
    rewrite proc_at_upd_ne; [by eapply H1|]. intros ->. by eapply Hno.
  - intros k. destruct (decide (k = i)) as [->|Hne].
    + intros _. exists j. apply Hins. auto.
    + rewrite proc_at_upd_ne by done. intros Hk. destruct (H2 k Hk) as [j' Hj'].
      exists j'. apply Hins. right. split; [|done]. intros ->. congruence.
  - intros j1 j2 k [[-> ->]|[? Ha]]%Hins [[-> ?]|[? Hb]]%Hins; try done; subst.
    + by destruct (Hno j2).
    + by destruct (Hno j1).
    + by eapply H3.
Qed.

(** Case split on whether process [k] is the one updated. *)
Ltac upd_case k :=
  rewrite ?(proc_at_upd _ _ _ k);
  let H := fresh "Hd" in destruct (decide _) as [[-> H]|H]; simpl.

(** The running process [i] of processor [j] stops, alive and not in wait. *)
Lemma inv_stop s j i f :
  sys_inv s -> runs s j i ->
  (forall p, parent (f p) = parent p /\ pid (f p) = pid p) ->
  (forall p, state (f p) = RUNNABLE \/
     state (f p) = SLEEPING /\ forall q, pchan (f p) <> Some (Ch_proc q)) ->
  sys_inv (mksys (upd i f (tab s)) (<[j := None]> (cur s))).
Proof.
  intros (Hrun & Hpar & Hwait & Hpid & Htree) Hr Hf Hst.
  pose proof (proj1 Hrun j i Hr) as Hi.
  assert (Hlt : (i < length (procs (tab s)))%nat) by (apply used_in_range; congruence).
  split_and!; simpl.
  - eapply run_inv_leave; [done..|rewrite proc_at_upd_eq by done|].
    + destruct (Hst (proc_at (tab s) i)) as [->|[-> _]]; done.
    + intros k Hk. by rewrite proc_at_upd_ne.
  - eapply parent_inv_mono; [done..| |]; unfold alive, started; intros k; upd_case k; auto.
    + destruct (Hst (proc_at (tab s) i)) as [->|[-> _]]; auto.
    + intros _. left. rewrite Hi. by destruct (Hf (proc_at (tab s) i)) as [-> _].
  - eapply wait_inv_mono; [done|..]; intros k; upd_case k; auto;
      destruct (Hst (proc_at (tab s) i)) as [->|[-> Hc]]; try done.
    intros c _ ?. by destruct (Hc c).
  - eapply pid_inv_mono; [done..|]. intros k. upd_case k; auto.
    intros _. rewrite Hi. by destruct (Hf (proc_at (tab s) i)) as [_ ->].
  - eapply tree_inv_mono; [done..|]. intros k v. upd_case k; auto.
    destruct (Hf (proc_at (tab s) i)) as [-> _]. auto.
Qed.

(** A section that keeps every process alive or not, running or not, and its
    parent, pid and channel. *)
Lemma inv_quiet s t' :
  sys_inv s -> initproc t' = initproc (tab s) -> nextpid t' = nextpid (tab s) ->
  (forall k, let p := proc_at (tab s) k in let p' := proc_at t' k in
     parent p' = parent p /\ pid p' = pid p /\
     (state p' = state p \/ state p = SLEEPING /\ state p' = RUNNABLE) /\
     (pchan p' = pchan p \/ pchan p' = None)) ->
  sys_inv (mksys t' (cur s)).
Proof.
  intros (Hrun & Hpar & Hwait & Hpid & Htree) Hi Hn H. split_and!; simpl.
  - apply run_inv_mono; [done|]. intros k. destruct (H k) as (_ & _ & [->|[-> ->]] & _); done.
  - eapply parent_inv_mono; [done..| |]; unfold alive, started; intros k;
      destruct (H k) as (Hp & _ & [Hs|[Hs Hs']] & _); rewrite ?Hp, ?Hs, ?Hs'; auto.
  - eapply wait_inv_mono; [done|..]; intros k;
      destruct (H k) as (Hp & _ & [Hs|[Hs Hs']] & [Hc|Hc]); rewrite ?Hp, ?Hs, ?Hs', ?Hc; done.
  - eapply pid_inv_mono; [done..|]. intros k.
    destruct (H k) as (_ & Hp & [Hs|[Hs Hs']] & _); rewrite ?Hp, ?Hs, ?Hs'; done.
  - eapply tree_inv_mono; [done..|]. intros k v. destruct (H k) as (-> & _). auto.
Qed.

Lemma inv_pick s j i :
  sys_inv s -> cur s !! j = Some None -> state (proc_at (tab s) i) = RUNNABLE ->
  sys_inv (mksys (upd i (set_state RUNNING) (tab s)) (<[j := Some i]> (cur s))).
Proof.
  intros (Hrun & Hpar & Hwait & Hpid & Htree) Hj Hi. split_and!; simpl.
  - by apply run_inv_enter.
  - eapply parent_inv_mono; [done..| |]; unfold alive, started; intros k; upd_case k; auto.
    intros _. left. by rewrite Hi.
  - eapply wait_inv_mono; [done|..]; intros k; upd_case k; done.
  - eapply pid_inv_mono; [done..|]. intros k. upd_case k; auto. by rewrite Hi.
  - eapply tree_inv_mono; [done..|]. intros k v. upd_case k; auto.
Qed.

Lemma inv_wait_sleep s j i :
  sys_inv s -> runs s j i -> wait_scan i 0 false (procs (tab s)) = WNone true ->
  sys_inv (mksys (upd i (fun p => set_state SLEEPING (set_chan (Some (Ch_proc i)) p)) (tab s))
                 (<[j := None]> (cur s))).
Proof.
  intros (Hrun & Hpar & Hwait & Hpid & Htree) Hr Hscan.
  pose proof (proj1 Hrun j i Hr) as Hi.
  pose proof (wait_scan_spec i 0 false (procs (tab s))) as Hs. rewrite Hscan in Hs.
  destruct Hs as [Hz _]. split_and!; simpl.
  - eapply run_inv_leave; [done..| |].
    + rewrite proc_at_upd_eq; [done|]. apply used_in_range. congruence.
    + intros k Hk. by rewrite proc_at_upd_ne.
  - eapply parent_inv_mono; [done..| |]; unfold alive, started; intros k; upd_case k; auto.
    intros _. left. by rewrite Hi.
  - intros q k. upd_case q; upd_case k; try done.
    + intros _ _ Hp Hzk. apply (Hz (proc_at (tab s) k)); [|done..]. unfold proc_at in *.
      destruct (procs (tab s) !! k) eqn:E; [by eapply list_elem_of_lookup_2|done].
    + by apply Hwait.
  - eapply pid_inv_mono; [done..|]. intros k. upd_case k; auto. by rewrite Hi.
  - eapply tree_inv_mono; [done..|]. intros k v. upd_case k; auto.
Qed.

(** Sections that concern a process that is not alive. *)
Lemma inv_dead s k f :
  sys_inv s -> ~ alive (tab s) k -> state (proc_at (tab s) k) <> UNUSED ->
  (forall p, state p = state (proc_at (tab s) k) -> state (f p) = UNUSED \/
     (state p = EMBRYO /\ pid (f p) = pid p /\ state (f p) = EMBRYO)) ->
  (forall p v, parent (f p) = Some v -> parent p = Some v \/ alive (tab s) v) ->
  sys_inv (mksys (upd k f (tab s)) (cur s)).
Proof.
  intros (Hrun & Hpar & Hwait & Hpid & Htree) Hd Hu Hf Hv.
  specialize (Hf (proc_at (tab s) k) eq_refl). specialize (Hv (proc_at (tab s) k)).
  assert (Hni : initproc (tab s) <> Some k).
  { destruct Hpar as [(q & Hq & Ha) _]. rewrite Hq. by intros [= ->]. }
  assert (Hne : forall v, alive (tab s) v -> v <> k) by (by intros v Ha ->).
  unfold alive in Hd. split_and!; simpl.
  - apply run_inv_mono; [done|]. intros i. upd_case i; [|done].
    split; [|intros; tauto]. destruct Hf as [->|(_ & _ & ->)]; done.
  - eapply parent_inv_mono; [done..| |]; unfold alive, started; intros i; upd_case i; tauto.
  - eapply wait_inv_mono; [done|..]; intros i; upd_case i; auto;
      destruct Hf as [->|(_ & _ & ->)]; done.
  - eapply pid_inv_mono; [done..|]. intros i. upd_case i; auto.
    destruct Hf as [->|(_ & -> & _)]; done.
  - eapply tree_inv_mono; [done..|]. intros i v. upd_case i; auto.
    intros E. destruct (Hv v E); auto.
Qed.

Lemma inv_fork_run s j i k :
  sys_inv s -> runs s j i -> state (proc_at (tab s) k) = EMBRYO ->
  parent (proc_at (tab s) k) = Some i ->
  sys_inv (mksys (upd k (set_state RUNNABLE) (tab s)) (cur s)).
Proof.
  intros (Hrun & Hpar & Hwait & Hpid & Htree) Hr Hk Hp. split_and!; simpl.
  - apply run_inv_mono; [done|]. intros q. upd_case q; [|done]. by rewrite Hk.
  - eapply parent_inv_mono; [done..| |]; unfold started; intros q.
    + unfold alive. upd_case q; auto.
    + upd_case q; auto. intros _. right. exists i. split; [done|]. right. right.
      by apply (proj1 Hrun j).
  - eapply wait_inv_mono; [done|..]; intros q; upd_case q; done.
  - eapply pid_inv_mono; [done..|]. intros q. upd_case q; auto. by rewrite Hk.
  - eapply tree_inv_mono; [done..|]. intros q v. upd_case q; auto.
Qed.

Lemma alloc_slot_spec t k t' :
  alloc_slot t = (Some k, t') ->
  state (proc_at t k) = UNUSED /\ (k < length (procs t))%nat /\
  initproc t' = initproc t /\ nextpid t' = i32 (nextpid t + 1) /\
  length (procs t') = length (procs t) /\
  proc_at t' k = set_pid (nextpid t) (set_state EMBRYO (proc_at t k)) /\
  forall i, i <> k -> proc_at t' i = proc_at t i.
Proof.
  unfold alloc_slot. destruct (find_from _ 0 (procs t)) as [i|] eqn:E; [|done].
  intros [= <- <-]. apply find_from_spec in E as (p & _ & Hl & Hu). rewrite Nat.sub_0_r in Hl.
  apply in_state_true in Hu. pose proof (lookup_lt_Some _ _ _ Hl) as Hlt.
  assert (Hp : proc_at t i = p) by (unfold proc_at; by rewrite Hl).
  split_and!; try done; [congruence|simpl; apply length_alter|..].
  - unfold proc_at. simpl. by rewrite list_lookup_alter_eq, Hl.
  - intros q Hq. unfold proc_at. simpl. by rewrite list_lookup_alter_ne.
Qed.

Lemma inv_alloc s k t' :
  sys_inv s -> alloc_slot (tab s) = (Some k, t') -> nextpid (tab s) < 2147483647 ->
  sys_inv (mksys t' (cur s)).
Proof.
  intros (Hrun & Hpar & Hwait & Hpid & Htree) Ha Hn.
  apply alloc_slot_spec in Ha as (Hu & Hlt & Hi & Hnp & _ & Hk & Ho).
  assert (Hat : forall q, proc_at t' q = if decide (q = k) then
            set_pid (nextpid (tab s)) (set_state EMBRYO (proc_at (tab s) k)) else proc_at (tab s) q).
  { intros q. destruct (decide (q = k)) as [->|]; auto. }
  destruct Hpid as (Hnn & Hr & Hd). rewrite i32_small in Hnp by lia.
  split_and!; simpl.
  - apply run_inv_mono; [done|]. intros q. rewrite Hat. case_decide; [|done]. subst.
    simpl. by rewrite Hu.
  - eapply parent_inv_mono; [done..| |]; unfold alive, started; intros q; rewrite Hat;
      case_decide; subst; simpl; auto; rewrite ?Hu; naive_solver.
  - eapply wait_inv_mono; [done|..]; intros q; rewrite Hat; case_decide; simpl; done.
  - split; [rewrite Hnp; lia|]. split.
    + intros q. rewrite Hat, Hnp. case_decide; simpl; [lia|]. intros Hq. apply Hr in Hq. lia.
    + intros a b. rewrite !Hat. repeat case_decide; simpl; subst; auto.
      * intros _ Hb E. apply Hr in Hb. lia.
      * intros Ha _ E. apply Hr in Ha. lia.
  - eapply tree_inv_mono; [done..|]. intros q v. rewrite Hat. case_decide; subst; auto.
Qed.

Lemma kill_section_spec id t k :
  let p := proc_at t k in let p' := proc_at (kill_section id t).2 k in
  parent p' = parent p /\ pid p' = pid p /\
  (state p' = state p \/ state p = SLEEPING /\ state p' = RUNNABLE) /\ pchan p' = pchan p.
Proof.
  unfold kill_section. destruct (find_from _ 0 (procs t)) as [i|]; simpl; [|auto].
  upd_case k; [|auto]. destruct (in_state SLEEPING _) eqn:E; simpl; [|auto].
  apply in_state_true in E. simpl in E. auto 10.
Qed.

Lemma wk_sleeping w c p :
  state (wk w c p) = SLEEPING -> state p = SLEEPING /\ (w = true -> pchan p <> Some c).
Proof.
  destruct (wk_spec w c p) as [_ [(_ & _ & _ & ->)|[H ->]]]; [done|]. naive_solver.
Qed.

Lemma wk_state w c p :
  state (wk w c p) = state p \/ state p = SLEEPING /\ state (wk w c p) = RUNNABLE.
Proof. destruct (wk_spec w c p) as [_ [(_ & ? & _ & ?)|[_ ->]]]; auto. Qed.

Lemma wakeup1_parent_spec o t :
  exists w c, (forall k, proc_at (wakeup1_parent o t) k = wk w c (proc_at t k)) /\
    (forall a, o = Some a -> w = true /\ c = Ch_proc a) /\
    length (procs (wakeup1_parent o t)) = length (procs t) /\
    initproc (wakeup1_parent o t) = initproc t /\ nextpid (wakeup1_parent o t) = nextpid t.
Proof.
  destruct o as [a|]; simpl.
  - exists true, (Ch_proc a). rewrite length_fmap. split_and!; try done.
    + apply proc_at_wakeup1.
    + by intros ? [= <-].
  - by exists false, (Ch_proc 0).
Qed.

(** What exit does to each process. *)
Lemma exit_section_spec i t q :
  initproc t = Some q -> (i < length (procs t))%nat ->
  let t' := exit_section i t in
  initproc t' = Some q /\ nextpid t' = nextpid t /\
  (forall k, k <> i ->
     pid (proc_at t' k) = pid (proc_at t k) /\
     parent (proc_at t' k) = (if decide (parent (proc_at t k) = Some i) then Some q
                              else parent (proc_at t k)) /\
     (state (proc_at t' k) = state (proc_at t k) \/
      state (proc_at t k) = SLEEPING /\ state (proc_at t' k) = RUNNABLE) /\
     (* whoever still sleeps was asleep; the parent and, where a zombie is
        passed on, init are awake *)
     (state (proc_at t' k) = SLEEPING -> pchan (proc_at t' k) = Some (Ch_proc k) ->
        state (proc_at t k) = SLEEPING /\ pchan (proc_at t k) = Some (Ch_proc k) /\
        parent (proc_at t i) <> Some k /\
        (k = q -> forall z, parent (proc_at t z) = Some i -> state (proc_at t z) <> ZOMBIE))) /\
  state (proc_at t' i) = ZOMBIE /\ pid (proc_at t' i) = pid (proc_at t i) /\
  parent (proc_at t' i) = (if decide (parent (proc_at t i) = Some i) then Some q
                           else parent (proc_at t i)) /\
  killed (proc_at t' i) = 0.
Proof.
  intros Hq Hlt. unfold exit_section.
  destruct (wakeup1_parent_spec (parent (proc_at t i)) t) as (w1 & c1 & H1 & Hc1 & Hl1 & Hq1 & Hn1).
  set (t1 := wakeup1_parent (parent (proc_at t i)) t) in *. clearbody t1. rewrite Hq in Hq1.
  destruct (reparent_spec (length (procs t1)) 0 i t1 q Hq1) as (w & Hw & Hk & Hn & Hi & Hlen).
  set (t2 := reparent _ _ _ _) in *. clearbody t2.
  assert (Hp2 : forall k, parent (proc_at t2 k) = (if decide (parent (proc_at t k) = Some i)
            then Some q else parent (proc_at t k)) /\ pid (proc_at t2 k) = pid (proc_at t k) /\
            pchan (proc_at t2 k) = pchan (proc_at t k) /\
            state (proc_at t2 k) = state (wk w (Ch_proc q) (wk w1 c1 (proc_at t k)))).
  { intros k. rewrite Hk, H1. unfold adopt. rewrite parent_wk.
    destruct (wk_spec w (Ch_proc q) (wk w1 c1 (proc_at t k))) as [(E1 & E2 & E3) _].
    destruct (wk_spec w1 c1 (proc_at t k)) as [(F1 & F2 & F3) _].
    case_decide as Hd.
    - assert (bool_decide (0 <= k < 0 + length (procs t1))%nat = true) as ->.
      { apply bool_decide_eq_true. split; [lia|]. simpl. rewrite Hl1.
        unfold proc_at in Hd. destruct (procs t !! k) eqn:E; [by eapply lookup_lt_Some|done]. }
      rewrite bool_decide_eq_true_2 by done. simpl. split_and!; congruence.
    - rewrite (bool_decide_eq_false_2 _ Hd), andb_false_r. split_and!; congruence. }
  assert (Hlt2 : (i < length (procs t2))%nat) by lia.
  split; [done|]. split; [simpl; congruence|]. split; [|rewrite proc_at_upd_eq by done; simpl].
  - intros k Hne. rewrite proc_at_upd_ne by done.
    destruct (Hp2 k) as (E1 & E2 & E3 & E4). rewrite E1, E2, E3, E4. split_and!; try done.
    + destruct (wk_state w (Ch_proc q) (wk w1 c1 (proc_at t k))) as [->|[Ha ->]];
        [apply wk_state|]. apply wk_sleeping in Ha as [? _]. auto.
    + intros Hs Hc. apply wk_sleeping in Hs as [Hs Hwq].
      destruct (wk_spec w1 c1 (proc_at t k)) as [(F1 & F2 & F3) _]. rewrite F3 in Hwq.
      apply wk_sleeping in Hs as [Hs Hw1]. split_and!; try done.
      * intros [-> ->]%Hc1. by apply Hw1.
      * intros -> z Hz. assert (w = false) as Hwf by (destruct w; [by destruct Hwq|done]).
        intros Hzz. apply (Hw Hwf z).
        -- split; [lia|]. simpl. rewrite Hl1. apply used_in_range. congruence.
        -- rewrite H1. by rewrite parent_wk.
        -- rewrite H1. destruct (wk_state w1 c1 (proc_at t z)) as [->|[? _]]; congruence.
  - destruct (Hp2 i) as (E1 & E2 & _ & _). auto.
Qed.

Lemma inv_exit s j i :
  sys_inv s -> runs s j i -> initproc (tab s) <> Some i ->
  sys_inv (mksys (exit_section i (tab s)) (<[j := None]> (cur s))).
Proof.
  intros (Hrun & Hpar & Hwait & Hpid & Htree) Hr Hni.
  pose proof (proj1 Hrun j i Hr) as Hi.
  destruct Hpar as [(q & Hq & Hqa) Hpar].
  assert (Hqi : q <> i) by congruence.
  destruct (exit_section_spec i (tab s) q Hq) as (Hq' & Hn' & Hk & Hz & Hpid' & Hp' & _).
  { apply used_in_range. congruence. }
  set (t' := exit_section i (tab s)) in *. clearbody t'.
  assert (Hal : forall k, k <> i -> alive (tab s) k -> alive t' k).
  { intros k Hne. destruct (Hk k Hne) as (_ & _ & [E|[_ E]] & _); unfold alive; rewrite E; auto. }
  assert (Hself : parent (proc_at (tab s) i) <> Some i) by (intros E; by destruct (Htree _ _ E)).
  rewrite decide_False in Hp' by done.
  split_and!; simpl.
  - eapply run_inv_leave; [done..|by rewrite Hz|]. intros k Hne.
    destruct (Hk k Hne) as (_ & _ & [->|[-> ->]] & _); done.
  - split; [exists q; split; [done|]; by apply Hal|]. rewrite Hq'. intros k Hu He Hnk.
    destruct (decide (k = i)) as [->|Hne].
    + rewrite Hp'. destruct (Hpar i) as (a & Ha & Haa); [congruence..|].
      exists a. split; [done|]. apply Hal; [|done]. congruence.
    + destruct (Hk k Hne) as (_ & -> & Hst & _). case_decide as Hd; [exists q; split; [done|]; by apply Hal|].
      destruct (Hpar k) as (a & Ha & Haa); [..|congruence|].
      1,2: by destruct Hst as [<-|[-> _]].
      exists a. split; [done|]. apply Hal; [|done]. congruence.
  - intros r k Hs Hc Hp Hzk. destruct (decide (r = i)) as [->|Hri]; [congruence|].
    destruct (Hk r Hri) as (_ & _ & _ & Hr2). destruct (Hr2 Hs Hc) as (Hs' & Hc' & Hpi & Hzq).
    destruct (decide (k = i)) as [->|Hki]; [congruence|].
    destruct (Hk k Hki) as (_ & Hpk & Hst & _). rewrite Hpk in Hp.
    assert (Hzt : state (proc_at (tab s) k) = ZOMBIE) by (destruct Hst as [<-|[_ ?]]; congruence).
    case_decide as Hd; [injection Hp as ->; by apply (Hzq eq_refl k)|].
    by apply (Hwait r k).
  - eapply pid_inv_mono; [done..|]. intros k Hu. destruct (decide (k = i)) as [->|Hki].
    + rewrite Hi, Hpid'. done.
    + destruct (Hk k Hki) as (-> & _ & Hst & _). split; [|done]. by destruct Hst as [<-|[-> _]].
  - eapply tree_inv_mono; [done|congruence|]. intros k v. destruct (decide (k = i)) as [->|Hki].
    + rewrite Hp'. auto.
    + destruct (Hk k Hki) as (_ & -> & _). case_decide as Hd; [|auto]. intros [= <-]. right.
      destruct (Htree _ _ Hd) as [_ Hk0]. split; congruence.
Qed.

Lemma sstep_inv s s' : sys_inv s -> sstep s s' -> sys_inv s'.
Proof.
  intros Hinv Hst. destruct Hst.
  - by apply inv_pick.
  - apply inv_stop; auto.
  - apply inv_stop; auto. intros p. right. split; [done|]. intros q [= ?]. naive_solver.
  - apply inv_quiet; try done. intros k. upd_case k; auto 10.
  - by apply inv_wait_sleep.
  - pose proof (wait_scan_spec i 0 false (procs (tab s))) as Hs. rewrite H0 in Hs.
    destruct Hs as (p & _ & Hl & Hp & Hz). rewrite Nat.sub_0_r in Hl.
    assert (Hk : proc_at (tab s) k = p) by (unfold proc_at; by rewrite Hl).
    unfold reap. apply inv_dead; try done; unfold alive; rewrite ?Hk, ?Hz; try naive_solver.
  - by apply inv_exit.
  - apply inv_quiet; try done. intros k. rewrite proc_at_wakeup1.
    destruct (wakeup1_proc_spec c (proc_at (tab s) k)) as [(? & ? & ?) [(? & _ & ?)|[_ ->]]]; auto 10.
  - apply inv_quiet; try done; try (unfold kill_section; by case_match).
    intros k. destruct (kill_section_spec id (tab s) k) as (? & ? & ? & ?). auto 10.
  - by eapply inv_alloc.
  - apply inv_dead; try done; unfold alive; rewrite ?H; try naive_solver.
  - apply inv_dead; try done; unfold alive; rewrite ?H0; try naive_solver.
    intros p v [= <-]. right. right. right. by eapply (proj1 (proj1 Hinv)).
  - by eapply inv_fork_run.
Qed.

(** The table userinit leaves: init is process 0, ready to run. *)
Definition sys_init (ncpu : nat) : sys :=
  mksys (mkptable (set_pid 1 (set_state RUNNABLE proc0) :: replicate 63 proc0) 2 (Some 0%nat))
        (replicate ncpu None).

Lemma proc_at_first p n q k :
  proc_at (mkptable (p :: replicate 63 proc0) n q) k = if decide (k = 0%nat) then p else proc0.
Proof.
  destruct k as [|k]; [done|]. rewrite decide_False by done. unfold proc_at.
  change (procs (mkptable (p :: replicate 63 proc0) n q) !! S k) with (replicate 63 proc0 !! k).
  destruct (replicate 63 proc0 !! k) eqn:E; [|done].
  by apply lookup_replicate in E as [-> _].
Qed.

(** A table with one process, ready to run, while every processor is idle. *)
Lemma first_proc_inv p n :
  state p = RUNNABLE -> pid p = 1 -> parent p = None ->
  sys_inv (mksys (mkptable (p :: replicate 63 proc0) 2 (Some 0%nat)) (replicate n None)).
Proof.
  intros Hs Hp Hpa. split_and!.
  - split_and!.
    + intros j i Hr. unfold runs in Hr. simpl in Hr. by apply lookup_replicate in Hr as [? _].
    + intros i. cbn [tab]. rewrite proc_at_first. case_decide; [by rewrite Hs|done].
    + intros j j' i Hr. unfold runs in Hr. simpl in Hr. by apply lookup_replicate in Hr as [? _].
  - split; [exists 0%nat; split; [done|]; right; by left|].
    intros i. cbn [tab]. rewrite proc_at_first. case_decide; subst; done.
  - intros q i. cbn [tab]. rewrite !proc_at_first. repeat case_decide; rewrite ?Hs; done.
  - split; [done|]. cbn [tab]. split.
    + intros i. rewrite proc_at_first. case_decide; [by rewrite Hp|done].
    + intros i k. rewrite !proc_at_first. repeat case_decide; simpl; congruence.
  - intros k v. cbn [tab]. rewrite proc_at_first. case_decide; [by rewrite Hpa|done].
Qed.

Lemma sys_init_inv n : sys_inv (sys_init n).
Proof. by apply first_proc_inv. Qed.

(** C4. Whatever the processors do (schedule, yield, sleep, wake, kill, fork,
    exit, wait, in any order): a process runs on at most one processor and is
    RUNNING exactly while it does; init lives and every started process has a
    live parent; a process asleep in wait has no zombie child, so no exit is
    missed; live processes have distinct pids. *)
Theorem process_table_invariant ncpu s : reach (sys_init ncpu) s -> sys_inv s.
Proof. induction 1 as [|s s' _ IH Hst]; [apply sys_init_inv|by eapply sstep_inv]. Qed.

Lemma process_table_invariant_witness :
  sys_inv (mksys (upd 0 (set_state RUNNING) (tab (sys_init 2))) [None; Some 0%nat]).
Proof.
  apply (process_table_invariant 2). apply (reach_step _ (sys_init 2)); [constructor|].
  exact (st_pick (sys_init 2) 1 0 eq_refl eq_refl).
Defined.
End Sys.

(** ** sched's tests and the lock discipline *)

Module Sched.
Import Spinlock Proc.

(** The tests of sched on the processor, ptable.lock and cp->state. *)
Definition sched_checks (c : cpu) (lk : spinlock) (st : procstate) : lres unit :=
  if negb (Z.land (eflags c) FL_IF =? 0) then LPanic "sched interruptible"
  else if in_state RUNNING (set_state st proc0) then LPanic "sched running"
  else if negb (holding lk c) then LPanic "sched ptable.lock"
  else if negb (ncli c =? 1) then LPanic "sched locks"
  else LOk tt.

(** sched panics unless the process is no longer RUNNING and ptable.lock is
    the one lock held: its tests are what the discipline of [swtch] demands. *)
Theorem sched_checks_spec on0 held lks c st :
  Discipline.sim on0 held lks c ->
  sched_checks c (lks Lk_ptable) st = LOk tt <->
  st <> RUNNING /\ lock_step (ESwtch None) held = Some held.
Proof.
  intros (Hnd & _ & (Hn & _ & Hif) & Hh). unfold sched_checks.
  assert (Hrun : in_state RUNNING (set_state st proc0) = bool_decide (st = RUNNING)) by done.
  rewrite Hrun. cbn [lock_step]. destruct (decide (held = [Lk_ptable])) as [Hd|Hd].
  - subst held. simpl in Hn, Hif. destruct Hif as [Hif _]. unfold Cli.if_on in Hif.
    assert (Hp : holding (lks Lk_ptable) c = true) by (apply Hh; left).
    rewrite Hif, Hp, Hn. simpl. case_bool_decide; split; naive_solver.
  - split; [|by intros [_ ?]]. intros H. exfalso.
    destruct (negb (Z.land (eflags c) FL_IF =? 0)); [done|].
    destruct (bool_decide (st = RUNNING)); [done|].
    destruct (holding (lks Lk_ptable) c) eqn:E; [|done]. apply Hh in E. simpl in H.
    destruct (ncli c =? 1) eqn:E1; [|done]. apply Z.eqb_eq in E1. rewrite Hn in E1.
    destruct held as [|x [|y r]]; [by apply not_elem_of_nil in E| |simpl in E1; lia].
    apply list_elem_of_singleton in E. by subst.
Qed.

(** A processor that holds ptable.lock only. *)
Definition cpu_ex : cpu := mkcpu 0 1 FL_IF 0.
Definition lks_ex (l : lockid) : spinlock :=
  if decide (l = Lk_ptable) then mkspinlock 1 10 [] else mkspinlock 0 0 [].

Lemma sim_ex : Discipline.sim true [Lk_ptable] lks_ex cpu_ex.
Proof.
  split; [apply NoDup_singleton|]. split; [done|]. split; [done|].
  intros l. rewrite list_elem_of_singleton. unfold lks_ex. case_decide; split; naive_solver.
Qed.

Lemma sched_checks_spec_witness : sched_checks cpu_ex (lks_ex Lk_ptable) SLEEPING = LOk tt.
Proof. apply (sched_checks_spec true [Lk_ptable] lks_ex cpu_ex SLEEPING sim_ex). done. Defined.
End Sched.

(** ** The operations, uninterrupted *)

Module ProcSpec.
Import Proc.

Lemma exec_on_kmem {A} (m : K Kalloc.kmem A) s a k :
  exec m (pkmem s) = Done a tt k -> exec (on_kmem m) s = Done a tt (mkpstate (ptab s) k).
Proof. intros H. unfold on_kmem. by apply (exec_zoom_done pkmem (fun k s => mkpstate (ptab s) k)). Qed.

Lemma exec_section {A} (f : ptable -> A * ptable) s :
  exec (section f) s = Done (f (ptab s)).1 tt (mkpstate (f (ptab s)).2 (pkmem s)).
Proof. unfold exec, section. by destruct (f (ptab s)). Qed.

(** wait with a zombie child: it returns the child's pid without sleeping,
    frees exactly the child's memory and kernel stack, and the slot is UNUSED
    again with no parent; no other process changes. *)
Theorem wait_reaps_child s cp k F :
  let c := proc_at (ptab s) k in
  wait_scan cp 0 false (procs (ptab s)) = WReap k ->
  Kalloc.mem_free (pkmem s) F ->
  0 < pmem c -> pmem c mod Kalloc.PAGE = 0 -> 0 < sz c -> sz c mod Kalloc.PAGE = 0 ->
  pmem c + sz c <= 2147483648 ->
  0 < kstack c -> kstack c mod Kalloc.PAGE = 0 -> kstack c + KSTACKSIZE <= 2147483648 ->
  (forall x, Kalloc.block (pmem c) (sz c) x -> ~ F x) ->
  (forall x, Kalloc.block (kstack c) KSTACKSIZE x ->
     ~ F x /\ ~ Kalloc.block (pmem c) (sz c) x) ->
  exists k', exec (wait 1 cp) s = Done (pid c) tt (mkpstate (reap k (ptab s)) k') /\
    Kalloc.mem_free k' (fun x => (F x \/ Kalloc.block (pmem c) (sz c) x) \/
                                 Kalloc.block (kstack c) KSTACKSIZE x) /\
    parent c = Some cp /\ state c = ZOMBIE /\
    state (proc_at (reap k (ptab s)) k) = UNUSED /\ parent (proc_at (reap k (ptab s)) k) = None /\
    forall i, i <> k -> proc_at (reap k (ptab s)) i = proc_at (ptab s) i.
Proof.
  intros c Hscan HF Hm Hmp Hn Hnp Hb Hks Hksp Hksb Hd1 Hd2.
  pose proof (wait_scan_spec cp 0 false (procs (ptab s))) as Hs. rewrite Hscan in Hs.
  destruct Hs as (p & _ & Hl & Hpar & Hz). rewrite Nat.sub_0_r in Hl.
  assert (Hc : c = p) by (subst c; unfold proc_at; by rewrite Hl).
  pose proof (lookup_lt_Some _ _ _ Hl) as Hlt.
  destruct (Kalloc.kfree_client (pkmem s) F (pmem c) (sz c)) as (k1 & He1 & HF1); try done.
  destruct (Kalloc.kfree_client k1 _ (kstack c) KSTACKSIZE HF1) as (k2 & He2 & HF2); try done.
  { intros x Hx. destruct (Hd2 x Hx). tauto. }
  exists k2. split; [|rewrite Hc; split_and!; try done].
  - unfold wait. kexec. cbn [wait_loop]. kexec. rewrite Hscan. unfold my. kexec. fold c.
    rewrite (exec_on_kmem _ _ _ _ He1). kexec. cbn [ptab]. fold c.
    rewrite (exec_on_kmem _ (mkpstate (ptab s) k1) tt k2) by done. kexec. cbn [ptab]. by fold c.
  - by rewrite Hc in HF2.
  - unfold reap. by rewrite proc_at_upd_eq.
  - unfold reap. by rewrite proc_at_upd_eq.
  - intros i Hi. unfold reap. by rewrite proc_at_upd_ne.
Qed.

(** A parent at 0 and its zombie child at 1. *)
Definition family : ptable :=
  mkptable [set_pid 1 (set_state RUNNING proc0);
            set_mem 8192 4096 (set_kstack 16384 (set_parent (Some 0%nat)
              (set_pid 7 (set_state ZOMBIE proc0))))] 8 (Some 0%nat).
Definition family_state : pstate := mkpstate family (Kalloc.mkkmem 0 ∅ (fun _ => 0)).

Lemma no_free_memory : Kalloc.mem_free (Kalloc.mkkmem 0 ∅ (fun _ => 0)) (fun _ => False).
Proof. exists []. split; [done|]. intros x. simpl. tauto. Qed.

Lemma wait_reaps_child_witness :
  exists k', exec (wait 1 0) family_state = Done 7 tt (mkpstate (reap 1 family) k').
Proof.
  destruct (wait_reaps_child family_state 0 1 (fun _ => False)) as (k' & H & _);
    try reflexivity; try exact no_free_memory; try (simpl; unfold Kalloc.block; lia);
    try (unfold Kalloc.block, KSTACKSIZE; simpl; intros; lia).
  exists k'. exact H.
Defined.

(** wait of a process that has no child returns -1 at once and changes
    nothing; with children but no zombie it goes to sleep, on its own address
    and holding ptable.lock, unless it has been killed. *)
Theorem wait_without_zombie s cp b :
  wait_scan cp 0 false (procs (ptab s)) = WNone b -> state (proc_at (ptab s) cp) = RUNNING ->
  (b = false \/ killed (proc_at (ptab s) cp) <> 0 -> exec (wait 1 cp) s = Done (-1) tt s) /\
  (b = true -> killed (proc_at (ptab s) cp) = 0 ->
   exists s', exec (wait 1 cp) s = Blocked (ESwtch None) tt s' /\
     state (proc_at (ptab s') cp) = SLEEPING /\ pchan (proc_at (ptab s') cp) = Some (Ch_proc cp)).
Proof.
  intros Hscan Hrun. assert (Hlt : (cp < length (procs (ptab s)))%nat).
  { apply used_in_range. congruence. }
  unfold wait. split.
  - intros H. kexec. cbn [wait_loop]. kexec. rewrite Hscan. unfold my. kexec.
    assert (negb b || negb (killed (proc_at (ptab s) cp) =? 0) = true) as ->.
    { destruct H as [->|H]; [done|]. apply Z.eqb_neq in H. rewrite H. by rewrite orb_true_r. }
    kexec. done.
  - intros -> Hk. kexec. cbn [wait_loop]. kexec. rewrite Hscan. unfold my. kexec. rewrite Hk.
    cbn [negb orb Z.eqb]. kexec. unfold proc_sleep. rewrite decide_True by done.
    unfold upd_proc, sched, my. kexec.
    match goal with |- context [decide (state (proc_at ?t cp) = RUNNING)] =>
      assert (Hst : proc_at t cp = set_state SLEEPING (set_chan (Some (Ch_proc cp))
                (proc_at (ptab s) cp))) end.
    { cbn [ptab with_tab]. rewrite proc_at_upd_eq by (by rewrite length_upd).
      by rewrite proc_at_upd_eq. }
    rewrite decide_False by (by rewrite Hst). unfold exec at 1. simpl.
    eexists. split; [done|]. cbn [ptab with_tab]. simpl in Hst. unfold with_tab in Hst.
    cbn [ptab] in Hst. by rewrite Hst.
Qed.

Lemma wait_without_zombie_witness :
  exec (wait 1 1) (mkpstate (mkptable [proc0; set_pid 1 (set_state RUNNING proc0)] 2 (Some 1%nat))
          (Kalloc.mkkmem 0 ∅ (fun _ => 0))) =
  Done (-1) tt (mkpstate (mkptable [proc0; set_pid 1 (set_state RUNNING proc0)] 2 (Some 1%nat))
          (Kalloc.mkkmem 0 ∅ (fun _ => 0))).
Proof.
  destruct (wait_without_zombie (mkpstate (mkptable [proc0; set_pid 1 (set_state RUNNING proc0)]
    2 (Some 1%nat)) (Kalloc.mkkmem 0 ∅ (fun _ => 0))) 1 false) as [H _]; [reflexivity..|].
  apply H. left. reflexivity.
Defined.

Lemma find_from_first f i l k p :
  l !! k = Some p -> f p = true -> (forall j q, (j < k)%nat -> l !! j = Some q -> f q = false) ->
  find_from f i l = Some (i + k)%nat.
Proof.
  revert i k. induction l as [|x r IH]; intros i k Hk Hf Hlt; [done|]. simpl.
  destruct k as [|k].
  - injection Hk as ->. rewrite Hf. f_equal. lia.
  - rewrite (Hlt 0%nat x) by (done || lia). rewrite (IH (S i) k); [f_equal; lia|done|done|].
    intros j q Hj Hq. apply (Hlt (S j) q); [lia|done].
Qed.



(** ** Lock discipline of the table's operations *)

Lemma sched_locks cp : lock_balanced [Lk_ptable] (sched cp).
Proof. intros s. unfold sched, my. lock_tac. simpl. intros. done. Qed.
#[local] Hint Resolve sched_locks : klocks.

Lemma section_locks {A} held (f : ptable -> A * ptable) : lock_balanced held (section f).
Proof. intros s. unfold section. by destruct (f (ptab s)). Qed.
#[local] Hint Resolve section_locks : klocks.

(** The locks around sleeping: called with lk alone held, for any lock lk
    (ptable.lock included), sleep enters the scheduler with ptable.lock alone
    and returns with lk alone; wakeup, kill and yield take ptable.lock and give
    it back, so none of them may be called with ptable.lock held, and yield
    with no lock held. *)
Theorem sleep_wakeup_locks cp c l id held :
  lock_balanced [l] (proc_sleep (Some cp) c (Some l)) /\
  (Lk_ptable ∉ held -> lock_balanced held (proc_wakeup c) /\ lock_balanced held (kill id)) /\
  lock_balanced [] (yield cp).
Proof.
  split_and!.
  - intros s. unfold proc_sleep, upd_proc. destruct (decide (l = Lk_ptable)) as [->|Hne].
    + unfold kbind at 1. cbn [obind kret]. lock_tac.
    + apply locks_bind. apply locks_acquire; [set_solver|]. intros s1. simpl.
      rewrite decide_True by set_solver. intros [] s2.
      replace (filter (.≠ l) [Lk_ptable; l]) with [Lk_ptable].
      2: { rewrite filter_cons_True by congruence. rewrite filter_cons_False by auto. done. }
      intros s3. lock_tac.
      apply locks_mono with (P := fun _ h => h = [l]); [auto|]. lock_tac. done.
  - intros H. split; unfold proc_wakeup, kill; lock_tac.
  - unfold yield, upd_proc. lock_tac.
Qed.

Lemma sleep_wakeup_locks_witness : lock_balanced [Lk_ide] (proc_sleep (Some 0%nat) Ch_input (Some Lk_ide)) /\
  lock_balanced [Lk_ide] (proc_wakeup Ch_input).
Proof.
  destruct (sleep_wakeup_locks 0 Ch_input Lk_ide 1 [Lk_ide]) as (H1 & H2 & _).
  split; [exact H1|]. apply H2. set_solver.
Defined.
End ProcSpec.
