(* ===== verification/Block.v ===== *)
(** * Block: the interface between the buffer cache and the file system

    What fs.c relies on: bread locks and returns a buffer with the contents of
    a sector, the caller may change the data, bwrite makes the data the
    sector's contents, brelse gives the buffer back.  Bio provides an
    implementation; Fs is written and verified against this class. *)
From S2P Require Import Prelude Kmonad.
From stdpp Require Import options.

(** The sectors a file system may name: drive 0 or 1, 28-bit address. *)
Definition good_sector (v n : Z) : Prop := 0 <= v <= 1 /\ 0 <= n < 268435456.

(** Contents of the sectors, and the buffers held: buffer, drive and sector. *)
Abbreviation contents := (Z -> Z -> bytes).
Abbreviation held_bufs := (list (nat * (Z * Z))).

Definition upd_sector (V : contents) (v n : Z) (x : bytes) : contents :=
  fun v' n' => if (v' =? v) && (n' =? n) then x else V v' n'.

(** How many buffers may be held at a time. *)
Definition MAXHELD : nat := 10.

Class BlockOps (B : Type) := {
  bread : Z -> Z -> K B nat;
  bwrite : nat -> K B unit;
  brelse : nat -> K B unit;
  bdata : nat -> B -> bytes;
  bset : nat -> bytes -> B -> B;
  (** [brep s V H]: the sectors hold [V] and the buffers [H] are held. *)
  brep : B -> contents -> held_bufs -> Prop
}.

(** [b] keeps its data from [s] to [s'], for every held buffer. *)
Definition keeps {B} `{BlockOps B} (H : held_bufs) (s s' : B) : Prop :=
  forall b k, (b, k) ∈ H -> bdata b s' = bdata b s.

Class BlockLayer (B : Type) `{BlockOps B} : Prop := {
  bread_law : forall s V H v n,
    brep s V H -> good_sector v n -> (v, n) ∉ H.*2 -> (length H < MAXHELD)%nat ->
    exists b s', exec (bread v n) s = Done b tt s' /\ brep s' V ((b, (v, n)) :: H) /\
      bdata b s' = V v n /\ keeps H s s' /\ b ∉ H.*1;
  bwrite_law : forall s V H b v n,
    brep s V H -> (b, (v, n)) ∈ H ->
    exists s', exec (bwrite b) s = Done tt tt s' /\
      brep s' (upd_sector V v n (bdata b s)) H /\ keeps H s s';
  brelse_law : forall s V H1 b v n H2,
    brep s V (H1 ++ (b, (v, n)) :: H2) -> bdata b s = V v n ->
    exists s', exec (brelse b) s = Done tt tt s' /\ brep s' V (H1 ++ H2) /\ keeps (H1 ++ H2) s s';
  bset_law : forall s V H b v n x,
    brep s V H -> (b, (v, n)) ∈ H -> length x = 512%nat ->
    brep (bset b x s) V H /\ bdata b (bset b x s) = x /\
    forall b' k, (b', k) ∈ H -> b' <> b -> bdata b' (bset b x s) = bdata b' s;
  brep_ext : forall s V V' H, (forall v n, good_sector v n -> V v n = V' v n) ->
    brep s V H -> brep s V' H;
  blocks_512 : forall s V H v n, brep s V H -> good_sector v n -> length (V v n) = 512%nat;
  held_512 : forall s V H b k, brep s V H -> (b, k) ∈ H -> length (bdata b s) = 512%nat
}.
