(* ===== verification/Ide.v ===== *)
(** * Ide: ide.c and struct buf

    The buffers of bcache, the request queue through qnext, and the driver,
    which talks to the disk through port events.  A pointer to a buffer is its
    index; index NBUF is bcache.head. *)
From S2P Require Import Prelude Kmonad.
From stdpp Require Import options.

Module Ide.

Definition NBUF : nat := 10.
Definition B_BUSY : Z := 1.
Definition B_VALID : Z := 2.
Definition B_DIRTY : Z := 4.

Definition IDE_BSY : Z := 128.
Definition IDE_DRDY : Z := 64.
Definition IDE_DF : Z := 32.
Definition IDE_ERR : Z := 1.
Definition IDE_CMD_READ : Z := 32.
Definition IDE_CMD_WRITE : Z := 48.

Record buf : Type := mkbuf {
  flags : Z;
  bdev : Z;
  sector : Z;
  prev : nat;
  next : nat;
  qnext : option nat;
  data : bytes
}.

Definition buf0 : buf := mkbuf 0 0 0 0 0 None (replicate 512 0).

(** bcache.buf and bcache.head, idequeue and havedisk1. *)
Record bstate : Type := mkbstate {
  bufs : list buf;
  idequeue : option nat;
  havedisk1 : Z
}.

Definition buf_at (s : bstate) (b : nat) : buf := default buf0 (bufs s !! b).

Definition upd_buf (b : nat) (f : buf -> buf) (s : bstate) : bstate :=
  mkbstate (alter f b (bufs s)) (idequeue s) (havedisk1 s).

Definition set_flags (v : Z) (x : buf) : buf :=
  mkbuf v (bdev x) (sector x) (prev x) (next x) (qnext x) (data x).
Definition set_block (d n : Z) (x : buf) : buf :=
  mkbuf (flags x) d n (prev x) (next x) (qnext x) (data x).
Definition set_prev (v : nat) (x : buf) : buf :=
  mkbuf (flags x) (bdev x) (sector x) v (next x) (qnext x) (data x).
Definition set_next (v : nat) (x : buf) : buf :=
  mkbuf (flags x) (bdev x) (sector x) (prev x) v (qnext x) (data x).
Definition set_qnext (v : option nat) (x : buf) : buf :=
  mkbuf (flags x) (bdev x) (sector x) (prev x) (next x) v (data x).
Definition set_data (v : bytes) (x : buf) : buf :=
  mkbuf (flags x) (bdev x) (sector x) (prev x) (next x) (qnext x) v.

Definition set_queue (v : option nat) (s : bstate) : bstate := mkbstate (bufs s) v (havedisk1 s).

Definition has (fl m : Z) : bool := negb (Z.land fl m =? 0).

Definition bufget {A} (b : nat) (f : buf -> A) : K bstate A := gets (fun s => f (buf_at s b)).
Definition bufset (b : nat) (f : buf -> buf) : K bstate unit := modify (upd_buf b f).

Definition outsl (port : Z) (d : bytes) : K bstate unit := trigger (EOuts port 4 d).
Definition insl (port cnt : Z) : K bstate bytes := trigger (EIns port 4 cnt).

(** The polling loop; the fuel bounds the number of status reads. *)
Fixpoint idewait (fuel : nat) (checkerr : bool) : K bstate Z :=
  match fuel with
  | O => diverge
  | S fuel' =>
      r <- inb 503 ;;
      if negb (Z.land r (Z.lor IDE_BSY IDE_DRDY) =? IDE_DRDY) then idewait fuel' checkerr
      else if checkerr && has r (Z.lor IDE_DF IDE_ERR) then kret (-1)
      else kret 0
  end.

Definition idestart (fuel : nat) (b : option nat) : K bstate unit :=
  match b with
  | None => panic "idestart"
  | Some b =>
      idewait fuel false ;;
      outb 1014 0 ;;
      outb 498 1 ;;
      n <- bufget b sector ;;
      outb 499 (Z.land n 255) ;;
      outb 500 (Z.land (Z.shiftr n 8) 255) ;;
      outb 501 (Z.land (Z.shiftr n 16) 255) ;;
      d <- bufget b bdev ;;
      outb 502 (Z.lor (Z.lor 224 (Z.shiftl (Z.land d 1) 4)) (Z.land (Z.shiftr n 24) 15)) ;;
      fl <- bufget b flags ;;
      if has fl B_DIRTY then
        outb 503 IDE_CMD_WRITE ;;
        x <- bufget b data ;;
        outsl 496 x
      else
        outb 503 IDE_CMD_READ
  end.

Definition ideintr (fuel : nat) : K bstate unit :=
  acquire Lk_ide ;;
  q <- gets idequeue ;;
  match q with
  | None =>
      release Lk_ide ;;
      cprintf "Spurious IDE interrupt.\n"
  | Some b =>
      nx <- bufget b qnext ;;
      modify (set_queue nx) ;;
      fl <- bufget b flags ;;
      (if has fl B_DIRTY then kret tt
       else
         r <- idewait fuel true ;;
         if 0 <=? r then
           x <- insl 496 128 ;;
           bufset b (set_data x)
         else kret tt) ;;
      bufset b (fun x => set_flags (Z.lor (flags x) B_VALID) x) ;;
      bufset b (fun x => set_flags (Z.land (flags x) (Z.lnot B_DIRTY)) x) ;;
      wakeup (Ch_buf b) ;;
      q' <- gets idequeue ;;
      (match q' with None => kret tt | Some _ => idestart fuel q' end) ;;
      release Lk_ide
  end.

(** The walk to the end of the queue: [pp] is the cell that points to the
    current element, idequeue itself ([None]) or the qnext of a buffer. *)
Definition qderef (pp : option nat) (s : bstate) : option nat :=
  match pp with None => idequeue s | Some a => qnext (buf_at s a) end.

Definition qstore (pp : option nat) (b : nat) (s : bstate) : bstate :=
  match pp with
  | None => set_queue (Some b) s
  | Some a => upd_buf a (set_qnext (Some b)) s
  end.

Fixpoint queue_walk (fuel : nat) (pp : option nat) (b : nat) : K bstate unit :=
  match fuel with
  | O => diverge
  | S fuel' =>
      c <- gets (qderef pp) ;;
      match c with
      | Some a => queue_walk fuel' (Some a) b
      | None => modify (qstore pp b)
      end
  end.

(** while((b->flags & (B_VALID|B_DIRTY)) != B_VALID) sleep(b, &idelock) *)
Fixpoint iderw_wait (fuel : nat) (b : nat) : K bstate unit :=
  match fuel with
  | O => diverge
  | S fuel' =>
      fl <- bufget b flags ;;
      if negb (Z.land fl (Z.lor B_VALID B_DIRTY) =? B_VALID) then
        sleep (Ch_buf b) Lk_ide ;;
        iderw_wait fuel' b
      else kret tt
  end.

Definition iderw (fuel : nat) (b : nat) : K bstate unit :=
  fl <- bufget b flags ;;
  if negb (has fl B_BUSY) then panic "iderw: buf not busy"
  else if Z.land fl (Z.lor B_VALID B_DIRTY) =? B_VALID then panic "iderw: nothing to do"
  else
    d <- bufget b bdev ;;
    h <- gets havedisk1 ;;
    if negb (d =? 0) && (h =? 0) then panic "idrw: ide disk 1 not present"
    else
      acquire Lk_ide ;;
      bufset b (set_qnext None) ;;
      queue_walk (S (S NBUF)) None b ;;
      q <- gets idequeue ;;
      (if decide (q = Some b) then idestart fuel (Some b) else kret tt) ;;
      iderw_wait fuel b ;;
      release Lk_ide.

(** ** The request queue *)

(** The buffers reached from [q] through qnext. *)
Fixpoint qchain (s : bstate) (q : option nat) (l : list nat) : Prop :=
  match l with
  | [] => q = None
  | b :: r => q = Some b /\ (b < length (bufs s))%nat /\ qchain s (qnext (buf_at s b)) r
  end.

(** The requests in flight, in the order they will be served. *)
Definition ide_queue (s : bstate) (l : list nat) : Prop := qchain s (idequeue s) l /\ NoDup l.

Lemma buf_at_upd b f s x :
  buf_at (upd_buf b f s) x =
    if decide (x = b /\ (b < length (bufs s))%nat) then f (buf_at s b) else buf_at s x.
Proof.
  unfold buf_at, upd_buf. simpl. destruct (decide (x = b)) as [->|Hne].
  - rewrite list_lookup_alter_eq. destruct (bufs s !! b) eqn:E; simpl.
    + rewrite decide_True; [done|]. split; [done|]. by eapply lookup_lt_Some.
    + rewrite decide_False; [done|]. intros [_ ?]. apply lookup_ge_None in E. lia.
  - rewrite list_lookup_alter_ne by done. rewrite decide_False by naive_solver. done.
Qed.

Lemma buf_at_upd_eq b f s : (b < length (bufs s))%nat -> buf_at (upd_buf b f s) b = f (buf_at s b).
Proof. intros. rewrite buf_at_upd. by rewrite decide_True. Qed.

Lemma buf_at_upd_ne b f s x : x <> b -> buf_at (upd_buf b f s) x = buf_at s x.
Proof. intros. rewrite buf_at_upd. rewrite decide_False by naive_solver. done. Qed.

Lemma length_upd_buf b f s : length (bufs (upd_buf b f s)) = length (bufs s).
Proof. apply length_alter. Qed.

Lemma upd_buf_compose b f g s : upd_buf b f (upd_buf b g s) = upd_buf b (fun y => f (g y)) s.
Proof. unfold upd_buf. simpl. by rewrite list_alter_alter_eq. Qed.

Lemma upd_buf_ext b f g s :
  f (buf_at s b) = g (buf_at s b) -> upd_buf b f s = upd_buf b g s.
Proof.
  intros Hfg. unfold upd_buf. f_equal. apply list_alter_ext; [|done].
  intros y Hy. unfold buf_at in Hfg. by rewrite Hy in Hfg.
Qed.

Lemma upd_buf_id b s : upd_buf b (fun y => y) s = s.
Proof. destruct s. unfold upd_buf. simpl. f_equal. by apply list_alter_id. Qed.

(** Changes that keep the links of the queue keep the queue. *)
Lemma qchain_ext s s' q l :
  length (bufs s') = length (bufs s) ->
  (forall x, x ∈ l -> qnext (buf_at s' x) = qnext (buf_at s x)) -> qchain s q l -> qchain s' q l.
Proof.
  intros Hlen. revert q. induction l as [|b r IH]; intros q Hx; simpl; [done|].
  rewrite Hlen, Hx by left. intros (-> & Hb & Hr). split_and!; try done.
  apply IH; [|done]. intros x Hr'. apply Hx. by right.
Qed.

Lemma length_queue_bound s q l : qchain s q l -> NoDup l -> (length l <= length (bufs s))%nat.
Proof.
  intros Hc Hnd. rewrite <- (length_seq (length (bufs s)) 0).
  apply submseteq_length, NoDup_submseteq; [done|]. intros x Hx. apply elem_of_seq.
  clear Hnd. revert q Hc. induction l as [|b r IH]; intros q; [by apply not_elem_of_nil in Hx|].
  simpl. intros (_ & Hb & Hr). apply elem_of_cons in Hx as [->|Hx]; [lia|]. by eapply IH.
Qed.

(** [s'] differs from [s] in links of the queue at most. *)
Definition same_but_links (s s' : bstate) : Prop :=
  length (bufs s') = length (bufs s) /\ havedisk1 s' = havedisk1 s /\
  forall x, set_qnext None (buf_at s' x) = set_qnext None (buf_at s x).

Lemma set_qnext_inv v x y : set_qnext v x = set_qnext v y ->
  flags x = flags y /\ bdev x = bdev y /\ sector x = sector y /\ prev x = prev y /\
  next x = next y /\ data x = data y.
Proof. destruct x, y. unfold set_qnext. simpl. intros [= -> -> -> -> -> ->]. done. Qed.

Lemma queue_walk_spec fuel pp b l s :
  qchain s (qderef pp s) l -> NoDup l -> b ∉ l -> pp <> Some b ->
  (forall a, pp = Some a -> a ∉ l /\ (a < length (bufs s))%nat) ->
  (b < length (bufs s))%nat -> qnext (buf_at s b) = None -> (length l < fuel)%nat ->
  exists s', queue_walk fuel pp b s = Ret tt s' /\ qchain s' (qderef pp s') (l ++ [b]) /\
    same_but_links s s' /\ (is_Some pp -> idequeue s' = idequeue s) /\
    (forall x, x ∉ l -> Some x <> pp -> qnext (buf_at s' x) = qnext (buf_at s x)).
Proof.
  revert pp l. induction fuel as [|fuel IH]; intros pp l Hq Hnd Hbl Hpb Hpp Hb Hbn Hlen; [lia|].
  cbn [queue_walk]. ksimpl. destruct l as [|a r].
  - simpl in Hq. rewrite Hq. exists (qstore pp b s). split; [done|].
    destruct pp as [a|]; cbn [qderef qstore app qchain].
    + destruct (Hpp a eq_refl) as [_ Ha]. rewrite buf_at_upd_eq by done. cbn [qnext set_qnext].
      rewrite length_upd_buf, buf_at_upd_ne by congruence. split_and!; try done.
      * split_and!; [apply length_upd_buf|done|]. intros x. rewrite buf_at_upd.
        case_decide as Hd; [|done]. by destruct Hd as [-> _].
      * intros x _ Hx. rewrite buf_at_upd_ne by congruence. done.
    + split_and!; done.
  - destruct Hq as (Hqa & Ha & Hr). rewrite Hqa. apply NoDup_cons in Hnd as [Har Hnd].
    simpl in Hlen. destruct (IH (Some a) r) as (s' & He & Hc & Hsame & Hidq & Hx); try done; try lia.
    + set_solver.
    + set_solver.
    + intros ? [= <-]. done.
    + exists s'. split; [done|]. split_and!; try done.
      * simpl. destruct Hsame as (Hl & _). rewrite Hl. split_and!; try done.
        destruct pp as [c|]; simpl.
        -- rewrite Hx; [done|..]; destruct (Hpp c eq_refl) as [Hc' _]; set_solver.
        -- rewrite Hidq; [done|]. by eexists.
      * intros _. apply Hidq. by eexists.
      * intros x Hxl Hxp. apply Hx; set_solver.
Qed.
End Ide.

(** ** The driver against a disk *)

Module Driver.
Import Ide.

(** A disk driven through its ports: the effect of reading and writing a port
    and of the string instructions on the data port, the contents of its
    sectors (by drive and address), whether it accepts a command, and a bound
    on the number of status reads until it is ready. *)
Class DiskPorts (D : Type) := {
  d_inb : Z -> D -> Z * D;
  d_outb : Z -> Z -> D -> D;
  d_ins : Z -> Z -> D -> bytes * D;
  d_outs : Z -> bytes -> D -> D;
  dsk : D -> Z -> Z -> bytes;
  idle : D -> Prop;
  maxpoll : nat
}.

Section Device.
Context {D : Type} `{DiskPorts D}.

(** Driver code running by itself: its port events go to the disk. *)
Definition ports : handler D bstate := fun e d s =>
  match e as e0 return option (ans e0 * D * bstate) with
  | EInb p => let (v, d') := d_inb p d in Some (v, d', s)
  | EOutb p v => Some (tt, d_outb p v d, s)
  | EIns p _ cnt => let (x, d') := d_ins p cnt d in Some (x, d', s)
  | EOuts p _ x => Some (tt, d_outs p x d, s)
  | EAcquire _ | ERelease _ | EWakeup _ | ECprintf _ => Some (tt, d, s)
  | EKilled => Some (false, d, s)
  | _ => None
  end.

(** A process asleep on a buffer: the disk interrupts, ideintr runs, and the
    process goes on with the state it leaves. *)
Definition ports_intr (fuel : nat) : handler D bstate := fun e d s =>
  match e as e0 return option (ans e0 * D * bstate) with
  | ESleep _ Lk_ide =>
      match run ports d (ideintr fuel s) with
      | Done _ d' s' => Some (tt, d', s')
      | _ => None
      end
  | e1 => ports e1 d s
  end.

(** The registers of one command: sector count, address, drive, command. *)
Definition issue (drv lba cmd : Z) (d : D) : D :=
  d_outb 503 cmd (d_outb 502 (Z.lor (Z.lor 224 (Z.shiftl drv 4)) (Z.land (Z.shiftr lba 24) 15))
    (d_outb 501 (Z.land (Z.shiftr lba 16) 255) (d_outb 500 (Z.land (Z.shiftr lba 8) 255)
      (d_outb 499 (Z.land lba 255) (d_outb 498 1 (d_outb 1014 0 d)))))).

(** [settles n d r d']: of at most [n] reads of the status port, the last is
    the first that shows the drive ready, with status [r]. *)
Fixpoint settles (n : nat) (d : D) (r : Z) (d' : D) : Prop :=
  match n with
  | O => False
  | S n' =>
      let (v, d1) := d_inb 503 d in
      if Z.land v (Z.lor IDE_BSY IDE_DRDY) =? IDE_DRDY then r = v /\ d' = d1
      else settles n' d1 r d'
  end.
End Device.

(** What the ATA command set documents of PIO transfers of one sector. *)
Class AtaDisk (D : Type) `{DiskPorts D} : Prop := {
  (** An idle drive shows ready, and polling does not change the sectors. *)
  ata_idle : forall d, idle d -> exists r d', settles maxpoll d r d' /\ idle d' /\
    forall v n, dsk d' v n = dsk d v n;
  (** READ SECTORS: after the command the drive becomes ready without error,
      and 128 double words read from the data port are the sector. *)
  ata_read : forall d v n, idle d -> 0 <= v <= 1 -> 0 <= n < 268435456 ->
    exists r d' d'', settles maxpoll (issue v n IDE_CMD_READ d) r d' /\
      has r (Z.lor IDE_DF IDE_ERR) = false /\ d_ins 496 128 d' = (dsk d v n, d'') /\
      idle d'' /\ forall v' n', dsk d'' v' n' = dsk d v' n';
  (** WRITE SECTORS: the 512 bytes sent after the command become the sector. *)
  ata_write : forall d v n x, idle d -> 0 <= v <= 1 -> 0 <= n < 268435456 ->
    length x = 512%nat ->
    let d' := d_outs 496 x (issue v n IDE_CMD_WRITE d) in
    idle d' /\ forall v' n', dsk d' v' n' = if (v' =? v) && (n' =? n) then x else dsk d v' n';
  (** A sector has 512 bytes. *)
  ata_sector : forall d v n, idle d -> length (dsk d v n) = 512%nat
}.

Section Contract.
Context {D : Type} `{AtaDisk D}.

Lemma idewait_settles (h : handler D bstate) n d r d' (chk : bool) s :
  (forall p d0 s0, h (EInb p) d0 s0 = let (v, d1) := d_inb p d0 in Some (v, d1, s0)) ->
  settles n d r d' ->
  run h d (idewait n chk s) =
    Done (if chk && has r (Z.lor IDE_DF IDE_ERR) then -1 else 0) d' s.
Proof.
  intros Hh. revert d. induction n as [|n IH]; intros d; simpl; [done|].
  rewrite Hh. destruct (d_inb 503 d) as [v d1].
  destruct (Z.land v (Z.lor IDE_BSY IDE_DRDY) =? IDE_DRDY) eqn:E; simpl.
  - intros [-> ->]. by destruct (chk && _).
  - apply IH.
Qed.

Lemma settles_mono n m d r d' : (n <= m)%nat -> settles n d r d' -> settles m d r d'.
Proof.
  revert m d. induction n as [|n IH]; intros [|m] d Hle; simpl; try done; try lia.
  destruct (d_inb 503 d) as [v d1]. case_match; [done|]. apply IH. lia.
Qed.

(** A handler that passes port output to the disk. *)
Definition outputs (h : handler D bstate) : Prop :=
  (forall p d0 s0, h (EInb p) d0 s0 = let (v, d1) := d_inb p d0 in Some (v, d1, s0)) /\
  (forall p v d0 s0, h (EOutb p v) d0 s0 = Some (tt, d_outb p v d0, s0)) /\
  (forall p w x d0 s0, h (EOuts p w x) d0 s0 = Some (tt, d_outs p x d0, s0)).

Lemma run_outb h p v d s : outputs h -> run h d (outb p v s) = Done tt (d_outb p v d) s.
Proof. intros (_ & H2 & _). simpl. by rewrite H2. Qed.

Lemma run_outsl h p x d s : outputs h -> run h d (outsl p x s) = Done tt (d_outs p x d) s.
Proof. intros (_ & _ & H3). simpl. by rewrite H3. Qed.

(** idestart leaves the drive with the request of buffer [b] issued. *)
Lemma idestart_spec h fuel d b s :
  (maxpoll <= fuel)%nat -> outputs h -> idle d ->
  exists d1, idle d1 /\ (forall v n, dsk d1 v n = dsk d v n) /\
    let x := buf_at s b in
    run h d (idestart fuel (Some b) s) =
      Done tt (if has (flags x) B_DIRTY
               then d_outs 496 (data x) (issue (Z.land (bdev x) 1) (sector x) IDE_CMD_WRITE d1)
               else issue (Z.land (bdev x) 1) (sector x) IDE_CMD_READ d1) s.
Proof using Type*.
  intros Hfuel Hh Hid. destruct (ata_idle d Hid) as (r & d1 & Hs & Hid1 & Hd).
  apply (settles_mono _ fuel) in Hs; [|done].
  exists d1. split; [done|]. split; [done|]. unfold idestart. krun.
  rewrite (idewait_settles _ _ _ _ _ _ _ (proj1 Hh) Hs). unfold bufget. krun.
  repeat (rewrite run_outb by done; krun).
  destruct (has (flags (buf_at s b)) B_DIRTY); krun; rewrite run_outb by done; krun; [|done].
  by rewrite run_outsl.
Qed.

Lemma ports_outputs : outputs ports.
Proof. done. Qed.

Lemma ports_intr_outputs fuel : outputs (ports_intr fuel).
Proof. done. Qed.

(** The flags ideintr leaves. *)
Definition done_flags (fl : Z) : Z := Z.land (Z.lor fl B_VALID) (Z.lnot B_DIRTY).

Lemma done_flags_valid fl : Z.land (done_flags fl) (Z.lor B_VALID B_DIRTY) = B_VALID.
Proof.
  unfold done_flags, B_VALID, B_DIRTY. apply Z.bits_inj'. intros n Hn.
  rewrite !Z.land_spec, !Z.lor_spec, Z.lnot_spec by done.
  destruct (Z.eqb_spec n 1) as [->|]; [by rewrite orb_true_r|].
  destruct (Z.eqb_spec n 2) as [->|]; [by rewrite !andb_false_r|].
  assert (Z.testbit 2 n = false) as ->.
  { change 2 with (2 ^ 1). apply Z.pow2_bits_false. lia. }
  assert (Z.testbit 4 n = false) as ->.
  { change 4 with (2 ^ 2). apply Z.pow2_bits_false. lia. }
  by rewrite !andb_false_r.
Qed.

(** The transfer of the request at the head of the queue: nothing is left to
    do for a write, and for a read the data is taken. *)
Definition transfer (d : D) (y : buf) (d' : D) (x : bytes) : Prop :=
  if has (flags y) B_DIRTY then d' = d /\ x = data y
  else exists r d1, settles maxpoll d r d1 /\ has r (Z.lor IDE_DF IDE_ERR) = false /\
         d_ins 496 128 d1 = (x, d').

Definition complete (b : nat) (x : bytes) (s : bstate) : bstate :=
  upd_buf b (fun y => set_flags (done_flags (flags y)) (set_data x y))
    (set_queue (qnext (buf_at s b)) s).

(** ideintr completes the request at the head of the queue, then starts the
    next one, if any. *)
Lemma ideintr_spec d b s d' x :
  idequeue s = Some b -> transfer d (buf_at s b) d' x ->
  run ports d (ideintr maxpoll s) =
    match qnext (buf_at s b) with
    | None => Done tt d' (complete b x s)
    | Some c => run ports d' (idestart maxpoll (Some c) (complete b x s))
    end.
Proof.
  intros Hq Hx. unfold ideintr, bufget, bufset. krun.
  change (run ports d (acquire Lk_ide s)) with (Done tt d s : result D bstate unit). krun.
  rewrite Hq. krun. unfold transfer in Hx.
  set (s1 := set_queue (qnext (buf_at s b)) s).
  assert (Hf : buf_at s1 b = buf_at s b) by done. rewrite Hf.
  assert (Hmid : run ports d ((if has (flags (buf_at s b)) B_DIRTY then kret tt
              else r <- idewait maxpoll true ;; if 0 <=? r then x0 <- insl 496 128 ;;
                modify (upd_buf b (set_data x0)) else kret tt) s1) =
            Done tt d' (upd_buf b (set_data x) s1)).
  { destruct (has (flags (buf_at s b)) B_DIRTY).
    - destruct Hx as [-> ->]. krun. f_equal. symmetry.
      rewrite <- (upd_buf_id b s1) at 2. apply upd_buf_ext. rewrite Hf. by destruct (buf_at s b).
    - destruct Hx as (r & d1 & Hs & Hr & Hi). krun.
      rewrite (idewait_settles ports _ _ _ _ true _ (proj1 ports_outputs) Hs), Hr. krun.
      cbn [andb Z.leb Z.compare]. krun. unfold insl, trigger. simpl. by rewrite Hi. }
  rewrite Hmid. krun. rewrite !upd_buf_compose. fold (complete b x s).
  change (upd_buf b _ s1) with (complete b x s).
  change (run ports d' (wakeup (Ch_buf b) (complete b x s))) with
    (Done tt d' (complete b x s) : result D bstate unit). krun.
  change (idequeue (complete b x s)) with (qnext (buf_at s b)).
  destruct (qnext (buf_at s b)) as [c|]; krun; [|done].
  destruct (run ports d' (idestart maxpoll (Some c) (complete b x s))) as [[] ?|?| |]; done.
Qed.

(** The sectors after a request of buffer [y]. *)
Definition dsk_after (d : D) (y : buf) (v n : Z) : bytes :=
  if has (flags y) B_DIRTY && ((v =? Z.land (bdev y) 1) && (n =? sector y)) then data y
  else dsk d v n.

(** iderw starting from an empty queue. *)
Definition synced (y : buf) (x : bytes) : buf :=
  mkbuf (done_flags (flags y)) (bdev y) (sector y) (prev y) (next y) None x.

Lemma iderw_ok fuel d b s :
  (maxpoll <= fuel)%nat -> (2 <= fuel)%nat -> idle d -> idequeue s = None -> (b < length (bufs s))%nat ->
  let y := buf_at s b in
  has (flags y) B_BUSY = true -> Z.land (flags y) (Z.lor B_VALID B_DIRTY) <> B_VALID ->
  bdev y = 0 \/ havedisk1 s <> 0 -> 0 <= sector y < 268435456 -> length (data y) = 512%nat ->
  exists d' x, run (ports_intr maxpoll) d (iderw fuel b s) =
      Done tt d' (upd_buf b (fun y => synced y x) s) /\
    idle d' /\ (forall v n, dsk d' v n = dsk_after d y v n) /\
    x = if has (flags y) B_DIRTY then data y else dsk d (Z.land (bdev y) 1) (sector y).
Proof using Type*.
  intros Hf Hf2 Hid Hq Hb y Hbusy Hnv Hdev Hsec Hlen.
  assert (Hdrv : 0 <= Z.land (bdev y) 1 <= 1).
  { assert (Z.land (bdev y) 1 = bdev y mod 2) as -> by (apply (Z.land_ones _ 1); lia). dlia. }
  set (s2 := set_queue (Some b) (upd_buf b (set_qnext None) s)).
  assert (Hy2 : buf_at s2 b = set_qnext None y).
  { change (buf_at s2 b) with (buf_at (upd_buf b (set_qnext None) s) b). by rewrite buf_at_upd_eq. }
  destruct (idestart_spec (ports_intr maxpoll) fuel d b s2 Hf (ports_intr_outputs _) Hid)
    as (d1 & Hid1 & Hd1 & Hstart).
  cbv zeta in Hstart. rewrite Hy2 in Hstart. cbn [flags bdev sector data set_qnext] in Hstart.
  set (d2 := if has (flags y) B_DIRTY then _ else _) in Hstart.
  assert (Htr : exists d' x, transfer d2 (buf_at s2 b) d' x /\ idle d' /\
            (forall v n, dsk d' v n = dsk_after d y v n) /\
            x = if has (flags y) B_DIRTY then data y else dsk d (Z.land (bdev y) 1) (sector y)).
  { unfold transfer, dsk_after. rewrite Hy2. cbn [flags data set_qnext]. subst d2.
    destruct (has (flags y) B_DIRTY) eqn:Ed.
    - destruct (ata_write d1 (Z.land (bdev y) 1) (sector y) (data y)) as [Hi Hw]; try done.
      eexists _, _. split_and!; try done. intros v n. rewrite Hw, Hd1. done.
    - destruct (ata_read d1 (Z.land (bdev y) 1) (sector y)) as (r & d' & d'' & Hs & Hr & Hi & Hi'' & Hd);
        try done.
      exists d'', (dsk d (Z.land (bdev y) 1) (sector y)). split_and!; try done.
      + exists r, d'. by rewrite <- Hd1.
      + intros v n. rewrite Hd, Hd1. done. }
  destruct Htr as (d' & x & Htr & Hid' & Hd' & Hx). exists d', x. split_and!; try done.
  unfold iderw, bufget, bufset. krun. fold y. rewrite Hbusy. cbn [negb].
  apply Z.eqb_neq in Hnv. rewrite Hnv. krun. fold y.
  assert (negb (bdev y =? 0) && (havedisk1 s =? 0) = false) as ->.
  { destruct Hdev as [->|Hh]; [done|]. apply Z.eqb_neq in Hh. by rewrite Hh, andb_false_r. }
  krun. change (run (ports_intr maxpoll) d (acquire Lk_ide s)) with
    (Done tt d s : result D bstate unit). krun.
  rewrite (run_ret _ (queue_walk _ None b) d (upd_buf b (set_qnext None) s) tt s2).
  2:{ unfold NBUF. cbn [queue_walk]. ksimpl. cbn [qderef upd_buf idequeue]. by rewrite Hq. }
  krun. rewrite decide_True by done. rewrite Hstart. krun.
  destruct fuel as [|[|fuel]]; [lia..|]. cbn [iderw_wait]. unfold bufget at 1. krun.
  rewrite Hy2. cbn [flags set_qnext]. rewrite Hnv. cbn [negb]. krun.
  set (s3 := complete b x s2).
  assert (Hs3 : s3 = upd_buf b (fun y => synced y x) s).
  { subst s3 s2. unfold complete, set_queue, upd_buf. cbn [bufs idequeue havedisk1].
    rewrite list_alter_alter_eq. f_equal. rewrite Hq. unfold buf_at. cbn [bufs].
    rewrite list_lookup_alter_eq. destruct (bufs s !! b); done. }
  assert (Hsl : run (ports_intr maxpoll) d2 (sleep (Ch_buf b) Lk_ide s2) = Done tt d' s3).
  { unfold sleep, trigger. cbn [run ports_intr]. rewrite (ideintr_spec d2 b s2 d' x); try done.
    rewrite Hy2. done. }
  rewrite Hsl. krun. unfold bufget. krun.
  assert (Hfl : flags (buf_at s3 b) = done_flags (flags y)).
  { rewrite Hs3, buf_at_upd_eq by done. done. }
  rewrite Hfl, done_flags_valid, Z.eqb_refl. cbn [negb]. krun. by rewrite Hs3.
Qed.


Lemma ide_queue_upd s l b f :
  ide_queue s l -> (forall y, qnext (f y) = qnext y) -> ide_queue (upd_buf b f s) l.
Proof.
  intros [Hc Hnd] Hf. split; [|done]. eapply qchain_ext; [apply length_upd_buf| |done].
  intros x _. rewrite buf_at_upd. case_decide as Hd; [|done]. destruct Hd as [-> _]. apply Hf.
Qed.

Lemma ide_queue_pop s c r :
  ide_queue s (c :: r) -> ide_queue (set_queue (qnext (buf_at s c)) s) r.
Proof.
  intros [(Hq & Hlt & Hc) Hnd]. apply NoDup_cons in Hnd as [_ Hnd]. split; [|done].
  apply (qchain_ext s); done.
Qed.

(** Requests are served first come, first served: iderw's enqueueing puts
    a buffer at the end of the queue and disturbs nothing else, and ideintr
    takes the request at its head, leaves that buffer valid and clean, and
    keeps the rest in order, having started the next one. *)
Theorem ide_queue_fifo s l b :
  ide_queue s l -> b ∉ l -> (b < length (bufs s))%nat -> (length (bufs s) <= S NBUF)%nat ->
  (exists s', (bufset b (set_qnext None) ;; queue_walk (S (S NBUF)) None b) s = Ret tt s' /\
     ide_queue s' (l ++ [b]) /\ same_but_links s s') /\
  (forall c r d d' x, l = c :: r -> transfer d (buf_at s c) d' x -> idle d' ->
     exists d'' s', run ports d (ideintr maxpoll s) = Done tt d'' s' /\ ide_queue s' r /\
       flags (buf_at s' c) = done_flags (flags (buf_at s c)) /\ data (buf_at s' c) = x).
Proof using Type*.
  intros Hq Hbl Hb Hlen. split.
  - unfold bufset. ksimpl. set (s1 := upd_buf b (set_qnext None) s).
    assert (Hq1 : qchain s1 (idequeue s1) l).
    { eapply qchain_ext; [apply length_upd_buf| |apply Hq]. intros x Hx.
      subst s1. rewrite buf_at_upd_ne; [done|]. by intros ->. }
    assert (Hl1 : length (bufs s1) = length (bufs s)) by apply length_upd_buf.
    destruct Hq as [Hc Hnd].
    destruct (queue_walk_spec (S (S NBUF)) None b l s1) as (s' & He & Hc' & Hs & _); try done.
    + by rewrite Hl1.
    + subst s1. by rewrite buf_at_upd_eq.
    + pose proof (length_queue_bound _ _ _ Hc Hnd). lia.
    + exists s'. split; [done|]. split; [split; [done|]|].
      * apply NoDup_app. split_and!; [done| |apply NoDup_singleton].
        intros x Hx Hxb. apply list_elem_of_singleton in Hxb. by subst.
      * destruct Hs as (H1 & H2 & H3). split_and!; [congruence|done|]. intros x. rewrite H3.
        subst s1. rewrite buf_at_upd. case_decide as Hd; [|done]. by destruct Hd as [-> _].
  - intros c r d d' x -> Htr Hid. pose proof Hq as [(Hqc & Hclt & Hc) Hnd].
    rewrite (ideintr_spec d c s d' x) by done.
    assert (Hq' : ide_queue (complete c x s) r).
    { unfold complete. apply ide_queue_upd; [|done]. by apply ide_queue_pop. }
    assert (Hfl : buf_at (complete c x s) c =
              set_flags (done_flags (flags (buf_at s c))) (set_data x (buf_at s c))).
    { unfold complete. by rewrite buf_at_upd_eq. }
    destruct (qnext (buf_at s c)) as [e|].
    + destruct (idestart_spec ports maxpoll d' e (complete c x s)) as (d1 & _ & _ & He); try done.
      cbv zeta in He. eexists _, _. split; [exact He|]. rewrite Hfl. done.
    + eexists _, _. split; [done|]. rewrite Hfl. done.
Qed.
End Contract.

(** A read that the disk reports as failed is not reported: ideintr marks
    the buffer valid although its data is what it was before, so bread hands
    out stale contents for the sector. *)
Theorem ideintr_read_error_marks_valid {D} `{DiskPorts D} d b s r d1 :
  idequeue s = Some b -> qnext (buf_at s b) = None -> (b < length (bufs s))%nat ->
  has (flags (buf_at s b)) B_DIRTY = false -> settles maxpoll d r d1 ->
  has r (Z.lor IDE_DF IDE_ERR) = true ->
  exists s', run ports d (ideintr maxpoll s) = Done tt d1 s' /\
    data (buf_at s' b) = data (buf_at s b) /\
    Z.land (flags (buf_at s' b)) (Z.lor B_VALID B_DIRTY) = B_VALID.
Proof.
  intros Hq Hn Hb Hnd Hs Hr. unfold ideintr, bufget, bufset. krun.
  change (run ports d (acquire Lk_ide s)) with (Done tt d s : result D bstate unit). krun.
  rewrite Hq. krun. rewrite Hn. change (buf_at (set_queue None s) b) with (buf_at s b).
  rewrite Hnd. krun. rewrite (idewait_settles ports _ _ _ _ true _ (proj1 ports_outputs) Hs), Hr.
  krun. cbn [andb Z.leb Z.compare]. krun. rewrite upd_buf_compose.
  set (s' := upd_buf b _ (set_queue None s)).
  change (run ports d1 (wakeup (Ch_buf b) s')) with (Done tt d1 s' : result D bstate unit). krun.
  change (idequeue s') with (@None nat). krun.
  exists s'. split; [done|]. subst s'. rewrite buf_at_upd_eq by done. split; [done|].
  apply done_flags_valid.
Qed.
End Driver.

(** A disk that satisfies these laws: task-file registers and sectors, always
    ready. *)
Module RamDisk.
Import Ide Driver.

Record ramdisk : Type := mkrd { rd_sec : Z -> Z -> bytes; rd_r3 : Z; rd_r4 : Z; rd_r5 : Z; rd_r6 : Z }.

Definition rd_outb (p v : Z) (d : ramdisk) : ramdisk :=
  if p =? 499 then mkrd (rd_sec d) v (rd_r4 d) (rd_r5 d) (rd_r6 d)
  else if p =? 500 then mkrd (rd_sec d) (rd_r3 d) v (rd_r5 d) (rd_r6 d)
  else if p =? 501 then mkrd (rd_sec d) (rd_r3 d) (rd_r4 d) v (rd_r6 d)
  else if p =? 502 then mkrd (rd_sec d) (rd_r3 d) (rd_r4 d) (rd_r5 d) v
  else d.

Definition rd_lba (d : ramdisk) : Z :=
  rd_r3 d + 256 * rd_r4 d + 65536 * rd_r5 d + 16777216 * Z.land (rd_r6 d) 15.
Definition rd_drv (d : ramdisk) : Z := Z.land (Z.shiftr (rd_r6 d) 4) 1.

Definition rd_outs (p : Z) (x : bytes) (d : ramdisk) : ramdisk :=
  mkrd (fun v n => if (v =? rd_drv d) && (n =? rd_lba d) then x else rd_sec d v n)
    (rd_r3 d) (rd_r4 d) (rd_r5 d) (rd_r6 d).

#[export] Instance ramdisk_ports : DiskPorts ramdisk := {|
  d_inb := fun _ d => (64, d);
  d_outb := rd_outb;
  d_ins := fun _ _ d => (rd_sec d (rd_drv d) (rd_lba d), d);
  d_outs := rd_outs;
  dsk := rd_sec;
  idle := fun d => forall v n, length (rd_sec d v n) = 512%nat;
  maxpoll := 1
|}.

(** The drive/head register gives back the drive and the top address bits. *)
Lemma head_register v x :
  0 <= v <= 1 -> 0 <= x < 16 ->
  let r := Z.lor (Z.lor 224 (Z.shiftl v 4)) x in
  Z.land (Z.shiftr r 4) 1 = v /\ Z.land r 15 = x.
Proof.
  intros Hv Hx. assert (v = 0 \/ v = 1) as [->| ->] by lia;
    assert (x = 0 \/ x = 1 \/ x = 2 \/ x = 3 \/ x = 4 \/ x = 5 \/ x = 6 \/ x = 7 \/ x = 8 \/
            x = 9 \/ x = 10 \/ x = 11 \/ x = 12 \/ x = 13 \/ x = 14 \/ x = 15) as Hc by lia;
    repeat (destruct Hc as [->|Hc]; [by split|]); subst; by split.
Qed.

Lemma rd_outb_proj p v d :
  rd_r3 (rd_outb p v d) = (if p =? 499 then v else rd_r3 d) /\
  rd_r4 (rd_outb p v d) = (if p =? 500 then v else rd_r4 d) /\
  rd_r5 (rd_outb p v d) = (if p =? 501 then v else rd_r5 d) /\
  rd_r6 (rd_outb p v d) = (if p =? 502 then v else rd_r6 d) /\
  rd_sec (rd_outb p v d) = rd_sec d.
Proof.
  unfold rd_outb. destruct (Z.eqb_spec p 499) as [->|]; [done|].
  destruct (Z.eqb_spec p 500) as [->|]; [done|].
  destruct (Z.eqb_spec p 501) as [->|]; [done|]. by destruct (p =? 502).
Qed.

Lemma issue_ramdisk v n cmd d :
  0 <= v <= 1 -> 0 <= n < 268435456 ->
  let d' := issue v n cmd d in
  rd_drv d' = v /\ rd_lba d' = n /\ rd_sec d' = rd_sec d.
Proof.
  intros Hv Hn.
  assert (H8 : Z.land n 255 = n mod 256) by (apply (Z.land_ones n 8); lia).
  assert (H16 : Z.land (Z.shiftr n 8) 255 = (n / 256) mod 256).
  { rewrite Z.shiftr_div_pow2 by lia. apply (Z.land_ones _ 8). lia. }
  assert (H24 : Z.land (Z.shiftr n 16) 255 = (n / 65536) mod 256).
  { rewrite Z.shiftr_div_pow2 by lia. apply (Z.land_ones _ 8). lia. }
  assert (H28 : Z.land (Z.shiftr n 24) 15 = (n / 16777216) mod 16).
  { rewrite Z.shiftr_div_pow2 by lia. apply (Z.land_ones _ 4). lia. }
  assert (Hsum : n mod 256 + 256 * ((n / 256) mod 256) + 65536 * ((n / 65536) mod 256) +
                 16777216 * ((n / 16777216) mod 16) = n).
  { assert (H2 : n / 65536 = n / 256 / 256) by (rewrite Z.div_div by lia; done).
    assert (H3 : n / 16777216 = n / 65536 / 256) by (rewrite Z.div_div by lia; done).
    pose proof (Z.div_mod n 256 ltac:(lia)).
    pose proof (Z.div_mod (n / 256) 256 ltac:(lia)).
    pose proof (Z.div_mod (n / 65536) 256 ltac:(lia)).
    rewrite (Z.mod_small (n / 16777216) 16); [lia|].
    split; [apply Z.div_pos; lia|apply Z.div_lt_upper_bound; lia]. }
  destruct (head_register v ((n / 16777216) mod 16)) as [Hd Hx];
    [done|apply Z.mod_pos_bound; lia|].
  unfold rd_drv, rd_lba, issue. cbn [d_outb ramdisk_ports].
  repeat match goal with |- context [?f (rd_outb ?p ?x ?d0)] =>
    destruct (rd_outb_proj p x d0) as (E3 & E4 & E5 & E6 & E7);
    rewrite ?E3, ?E4, ?E5, ?E6, ?E7; clear E3 E4 E5 E6 E7; cbn [Z.eqb Pos.eqb]
  end. rewrite H8, H16, H24, H28, Hd, Hx. done.
Qed.

#[export] Instance ramdisk_ata : AtaDisk ramdisk.
Proof.
  split.
  - intros d Hd. exists 64, d. done.
  - intros d v n Hd Hv Hn. destruct (issue_ramdisk v n IDE_CMD_READ d Hv Hn) as (H1 & H2 & H3).
    eexists 64, _, _. split; [done|]. split; [done|]. cbn [d_ins dsk ramdisk_ports idle].
    rewrite H1, H2, H3. done.
  - intros d v n x Hd Hv Hn Hx. destruct (issue_ramdisk v n IDE_CMD_WRITE d Hv Hn) as (H1 & H2 & H3).
    cbn [d_outs dsk idle ramdisk_ports]. unfold rd_outs. cbn [rd_sec]. rewrite H1, H2, H3.
    split; [|done]. intros v' n'. by case_match.
  - intros d v n Hd. apply Hd.
Qed.

(** Buffer 0 locked for sector 5, to be read. *)
Definition read_req : bstate :=
  mkbstate [mkbuf B_BUSY 0 5 0 0 None (replicate 512 0)] None 0.
Definition disk_ex : ramdisk := mkrd (fun v n => replicate 512 (u8 (n + v))) 0 0 0 0.


(** Two requests in flight, one more to come. *)
Definition two_reqs : bstate :=
  mkbstate [mkbuf B_BUSY 0 5 0 0 (Some 1%nat) (replicate 512 0);
            mkbuf B_BUSY 0 6 0 0 None (replicate 512 0);
            mkbuf B_BUSY 0 7 0 0 None (replicate 512 0)] (Some 0%nat) 0.

Lemma ide_queue_fifo_witness :
  (exists s', (bufset 2 (set_qnext None) ;; queue_walk (S (S NBUF)) None 2) two_reqs = Ret tt s' /\
     ide_queue s' [0; 1; 2]%nat) /\
  (exists d'' s', run ports disk_ex (ideintr maxpoll two_reqs) = Done tt d'' s' /\
     ide_queue s' [1]%nat).
Proof.
  destruct (ide_queue_fifo two_reqs [0; 1]%nat 2) as [(s' & H1 & H2 & _) H3].
  - split; [simpl; repeat split; lia|]. apply (bool_decide_unpack _). reflexivity.
  - apply (bool_decide_unpack _). reflexivity.
  - simpl. lia.
  - simpl. unfold NBUF. lia.
  - split; [exists s'; split; [exact H1|exact H2]|].
    destruct (H3 0%nat [1%nat] disk_ex disk_ex (replicate 512 0)) as (d'' & s2 & H4 & H5 & _).
    + reflexivity.
    + unfold transfer. simpl. exists 64, disk_ex. split; [split; reflexivity|].
      split; reflexivity.
    + intros v n. apply length_replicate.
    + exists d'', s2. split; [exact H4|exact H5].
Defined.

(** A disk that answers every status read with DRDY and ERR. *)
Inductive baddisk : Type := Bad.
#[local] Instance baddisk_ports : DiskPorts baddisk := {|
  d_inb := fun _ d => (65, d);
  d_outb := fun _ _ d => d;
  d_ins := fun _ _ d => ([], d);
  d_outs := fun _ _ d => d;
  dsk := fun _ _ _ => [];
  idle := fun _ => True;
  maxpoll := 1
|}.

Lemma ideintr_read_error_marks_valid_witness :
  exists s', run ports Bad (ideintr maxpoll (set_queue (Some 0%nat) read_req)) = Done tt Bad s' /\
    data (buf_at s' 0) = replicate 512 0 /\
    Z.land (flags (buf_at s' 0)) (Z.lor B_VALID B_DIRTY) = B_VALID.
Proof.
  apply (ideintr_read_error_marks_valid Bad 0 (set_queue (Some 0%nat) read_req) 65 Bad);
    try reflexivity; [simpl; lia | split; reflexivity].
Defined.
End RamDisk.
