(* ===== verification/Bio.v ===== *)
(** * Bio: bio.c, the buffer cache

    The doubly linked LRU list of the buffers is kept as the prev and next
    pointers of the code; [lru] relates it to the list of buffers from most to
    least recently used.  [BlockLayer] is the interface the file system uses;
    the last part shows that this cache, over a disk, implements it. *)
From S2P Require Import Prelude Kmonad Block Ide.
From stdpp Require Import options.

Module Bio.
Import Ide.

(** The list head, bcache.head. *)
Definition head : nat := NBUF.

(** b->next = head.next; b->prev = &head; head.next->prev = b; head.next = b *)
Definition push_front (b : nat) (s : bstate) : bstate :=
  let s := upd_buf b (set_next (next (buf_at s head))) s in
  let s := upd_buf b (set_prev head) s in
  let s := upd_buf (next (buf_at s head)) (set_prev b) s in
  upd_buf head (set_next b) s.

(** b->next->prev = b->prev; b->prev->next = b->next *)
Definition unlink (b : nat) (s : bstate) : bstate :=
  let s := upd_buf (next (buf_at s b)) (set_prev (prev (buf_at s b))) s in
  upd_buf (prev (buf_at s b)) (set_next (next (buf_at s b))) s.

(** The loop of binit, from buffer [b] on. *)
Fixpoint binit_loop (n b : nat) (s : bstate) : bstate :=
  match n with
  | O => s
  | S n' =>
      let s := upd_buf b (fun x => set_block 4294967295 (sector x) x) s in
      binit_loop n' (S b) (push_front b s)
  end.

Definition binit (s : bstate) : bstate :=
  let s := upd_buf head (set_prev head) s in
  let s := upd_buf head (set_next head) s in
  binit_loop NBUF 0 s.

(** A walk over the list from [b] along [step] up to the first buffer that
    passes [test]: [Some None] if the head is reached, [None] without fuel. *)
Fixpoint scan (fuel : nat) (step : buf -> nat) (test : buf -> bool) (b : nat) (s : bstate)
  : option (option nat) :=
  match fuel with
  | O => None
  | S fuel' =>
      if (b =? head)%nat then Some None
      else if test (buf_at s b) then Some (Some b)
      else scan fuel' step test (step (buf_at s b)) s
  end.

Definition is_block (dev sec : Z) (x : buf) : bool := (bdev x =? dev) && (sector x =? sec).
Definition not_busy (x : buf) : bool := negb (has (flags x) B_BUSY).

(** bget; the fuel bounds the rounds of its loop, one per sleep. *)
Fixpoint bget_loop (fuel : nat) (dev sec : Z) : K bstate nat :=
  match fuel with
  | O => diverge
  | S fuel' =>
      r <- gets (fun s => scan (S NBUF) next (is_block dev sec) (next (buf_at s head)) s) ;;
      match r with
      | None => diverge
      | Some (Some b) =>
          free <- bufget b not_busy ;;
          if (free : bool) then
            bufset b (fun x => set_flags (Z.lor (flags x) B_BUSY) x) ;;
            release Lk_bcache ;;
            kret b
          else
            sleep (Ch_buf b) Lk_bcache ;;
            bget_loop fuel' dev sec
      | Some None =>
          r <- gets (fun s => scan (S NBUF) prev not_busy (prev (buf_at s head)) s) ;;
          match r with
          | None => diverge
          | Some (Some b) =>
              bufset b (set_block dev sec) ;;
              bufset b (set_flags B_BUSY) ;;
              release Lk_bcache ;;
              kret b
          | Some None => panic "bget: no buffers"
          end
      end
  end.

Definition bget (fuel : nat) (dev sec : Z) : K bstate nat :=
  acquire Lk_bcache ;;
  bget_loop fuel dev sec.

Definition bread (fuel : nat) (dev sec : Z) : K bstate nat :=
  b <- bget fuel dev sec ;;
  fl <- bufget b flags ;;
  (if negb (has fl B_VALID) then iderw fuel b else kret tt) ;;
  kret b.

Definition bwrite (fuel : nat) (b : nat) : K bstate unit :=
  fl <- bufget b flags ;;
  if negb (has fl B_BUSY) then panic "bwrite"
  else
    bufset b (fun x => set_flags (Z.lor (flags x) B_DIRTY) x) ;;
    iderw fuel b.

Definition brelse (b : nat) : K bstate unit :=
  fl <- bufget b flags ;;
  if negb (has fl B_BUSY) then panic "brelse"
  else
    acquire Lk_bcache ;;
    modify (unlink b) ;;
    modify (push_front b) ;;
    bufset b (fun x => set_flags (Z.land (flags x) (Z.lnot B_BUSY)) x) ;;
    wakeup (Ch_buf b) ;;
    release Lk_bcache.

(** ** The LRU list *)

Definition pairs (xs : list nat) : list (nat * nat) := zip xs (tail xs).

(** Neighbours in [xs] are linked both ways. *)
Definition linked (s : bstate) (xs : list nat) : Prop :=
  forall x y, (x, y) ∈ pairs xs -> next (buf_at s x) = y /\ prev (buf_at s y) = x.

(** The list holds the buffers [l], most recently used first. *)
Definition lru (s : bstate) (l : list nat) : Prop :=
  length (bufs s) = S NBUF /\ linked s (head :: l ++ [head]) /\ NoDup l /\
  Forall (fun b => (b < NBUF)%nat) l.

Lemma pairs_cons x y xs : pairs (x :: y :: xs) = (x, y) :: pairs (y :: xs).
Proof. done. Qed.

Lemma pairs_app xs x ys : pairs (xs ++ x :: ys) = pairs (xs ++ [x]) ++ pairs (x :: ys).
Proof.
  induction xs as [|a xs IH]; [done|]. destruct xs as [|b xs]; [done|].
  simpl app in *. rewrite !pairs_cons. simpl. f_equal. apply IH.
Qed.

Lemma elem_of_pairs x y xs : (x, y) ∈ pairs xs -> x ∈ xs /\ y ∈ tail xs.
Proof. intros H. unfold pairs in H. split; [by eapply elem_of_zip_l|by eapply elem_of_zip_r]. Qed.

Lemma pairs_left x y xs z : (x, y) ∈ pairs (xs ++ [z]) -> x ∈ xs.
Proof.
  induction xs as [|a xs IH]; [by intros ?%not_elem_of_nil|].
  destruct xs as [|c xs]; simpl app.
  - rewrite pairs_cons. intros [[= -> _]|H]%elem_of_cons; [left|by apply not_elem_of_nil in H].
  - rewrite pairs_cons. intros [[= -> _]|H]%elem_of_cons; [left|]. right. by apply IH.
Qed.

Lemma pairs_right x y z xs : (x, y) ∈ pairs (z :: xs) -> y ∈ xs.
Proof. intros H. by apply elem_of_pairs in H as [_ H]. Qed.

Lemma linked_app s xs x ys :
  linked s (xs ++ x :: ys) <-> linked s (xs ++ [x]) /\ linked s (x :: ys).
Proof.
  unfold linked. rewrite pairs_app. setoid_rewrite elem_of_app. naive_solver.
Qed.

Lemma linked_cons s x y xs :
  linked s (x :: y :: xs) <->
  (next (buf_at s x) = y /\ prev (buf_at s y) = x) /\ linked s (y :: xs).
Proof.
  unfold linked. rewrite pairs_cons. setoid_rewrite elem_of_cons. split.
  - intros H. split; [apply H; by left|]. auto.
  - intros [H1 H2] u v [[= -> ->]|H]; auto.
Qed.

Lemma linked_ext s s' xs :
  (forall x y, (x, y) ∈ pairs xs ->
     next (buf_at s' x) = next (buf_at s x) /\ prev (buf_at s' y) = prev (buf_at s y)) ->
  linked s xs -> linked s' xs.
Proof. intros He H x y Hxy. destruct (He x y Hxy) as [-> ->]. by apply H. Qed.

(** Relinking [x] and [y], the neighbours of what is taken out or put in. *)
Lemma relink_next s x y k :
  (x < length (bufs s))%nat -> (y < length (bufs s))%nat ->
  let s' := upd_buf x (set_next y) (upd_buf y (set_prev x) s) in
  next (buf_at s' k) = (if decide (k = x) then y else next (buf_at s k)) /\
  prev (buf_at s' k) = (if decide (k = y) then x else prev (buf_at s k)) /\
  length (bufs s') = length (bufs s).
Proof.
  intros Hx Hy s'. subst s'. rewrite !length_upd_buf, !buf_at_upd, !length_upd_buf. split_and!; [..|done].
  - destruct (decide (k = x)) as [->|Hk]; [by rewrite decide_True|].
    rewrite decide_False by naive_solver. case_decide as Hd; [destruct Hd; by subst|done].
  - destruct (decide (k = x /\ _)) as [[-> _]|Hk]; simpl; rewrite ?buf_at_upd;
      destruct (decide (_ = y)) as [->|Hky]; rewrite ?decide_True, ?decide_False by naive_solver; done.
Qed.

Lemma app_cons_last (a : nat) (l : list nat) : exists A x, a :: l = A ++ [x].
Proof.
  destruct (exists_last (l := a :: l)) as (A & x & H); [done|]. eauto.
Qed.

Lemma app_snoc_first (l : list nat) (a : nat) : exists y B, l ++ [a] = y :: B.
Proof. destruct l; eauto. Qed.

(** [s'] differs from [s] in the links of the LRU list at most. *)
Definition same_but_lru (s s' : bstate) : Prop :=
  idequeue s' = idequeue s /\ havedisk1 s' = havedisk1 s /\ length (bufs s') = length (bufs s) /\
  forall k, flags (buf_at s' k) = flags (buf_at s k) /\ bdev (buf_at s' k) = bdev (buf_at s k) /\
    sector (buf_at s' k) = sector (buf_at s k) /\ data (buf_at s' k) = data (buf_at s k) /\
    qnext (buf_at s' k) = qnext (buf_at s k).

Lemma same_but_lru_trans s1 s2 s3 : same_but_lru s1 s2 -> same_but_lru s2 s3 -> same_but_lru s1 s3.
Proof.
  intros (A1 & A2 & A3 & A4) (B1 & B2 & B3 & B4). split_and!; try congruence.
  intros k. destruct (A4 k) as (? & ? & ? & ? & ?), (B4 k) as (? & ? & ? & ? & ?).
  split_and!; congruence.
Qed.

Lemma same_but_lru_link b (f : buf -> buf) s :
  (forall x, flags (f x) = flags x /\ bdev (f x) = bdev x /\ sector (f x) = sector x /\
     data (f x) = data x /\ qnext (f x) = qnext x) ->
  same_but_lru s (upd_buf b f s).
Proof.
  intros Hf. split_and!; try done; [apply length_upd_buf|]. intros k. rewrite buf_at_upd.
  case_decide as Hd; [|done]. destruct Hd as [-> _]. apply Hf.
Qed.

Lemma elem_of_ring s l x : lru s l -> x ∈ head :: l -> (x < length (bufs s))%nat.
Proof.
  intros (Hlen & _ & _ & Hr). rewrite Hlen. intros [->|Hx]%elem_of_cons; [unfold head; lia|].
  rewrite Forall_forall in Hr. apply Hr in Hx. lia.
Qed.

Lemma head_notin s l : lru s l -> head ∉ l.
Proof.
  intros (_ & _ & _ & Hr) H. rewrite Forall_forall in Hr. apply Hr in H. unfold head in H. lia.
Qed.

(** Taking a buffer out of the list. *)
Lemma unlink_spec s l1 b l2 :
  lru s (l1 ++ b :: l2) -> lru (unlink b s) (l1 ++ l2) /\ same_but_lru s (unlink b s).
Proof.
  intros Hlru. pose proof Hlru as (Hlen & Hlk & Hnd & Hr).
  pose proof (head_notin _ _ Hlru) as Hh.
  destruct (app_cons_last head l1) as (A & x & HA). destruct (app_snoc_first l2 head) as (y & B & HB).
  assert (Hx : x ∈ head :: l1) by (rewrite HA; set_solver).
  assert (Hy : y ∈ l2 ++ [head]) by (rewrite HB; left).
  replace (head :: (l1 ++ b :: l2) ++ [head]) with (A ++ x :: b :: y :: B) in Hlk.
  2:{ change (A ++ x :: b :: y :: B) with (A ++ [x] ++ b :: y :: B). rewrite app_assoc, <- HA, <- HB.
      simpl. by rewrite <- app_assoc. }
  apply linked_app in Hlk as [HlA Hlk]. rewrite !linked_cons in Hlk.
  destruct Hlk as ((Hnx & Hpb) & (Hnb & Hpy) & HlB).
  apply NoDup_app in Hnd as (Hnd1 & Hdis & Hnd2). apply NoDup_cons in Hnd2 as [Hb2 Hnd2].
  assert (Hxr : (x < length (bufs s))%nat) by (eapply elem_of_ring; [done|set_solver]).
  assert (Hyr : (y < length (bufs s))%nat) by (eapply elem_of_ring; [done|set_solver]).
  assert (Hyb : y <> b) by (intros ->; clear - Hy Hh Hb2; set_solver).
  assert (Hun : unlink b s = upd_buf x (set_next y) (upd_buf y (set_prev x) s)).
  { unfold unlink. rewrite Hnb, Hpb. rewrite buf_at_upd_ne by done. by rewrite Hnb, Hpb. }
  rewrite Hun. split.
  2:{ eapply same_but_lru_trans; apply same_but_lru_link; done. }
  split_and!; [by rewrite !length_upd_buf| | |].
  - replace (head :: (l1 ++ l2) ++ [head]) with (A ++ x :: y :: B).
    2:{ change (A ++ x :: y :: B) with (A ++ [x] ++ y :: B). rewrite app_assoc, <- HA, <- HB.
        simpl. by rewrite <- app_assoc. }
    apply linked_app. split; [|apply linked_cons; split].
    + eapply linked_ext; [|done]. intros u v Huv.
      destruct (relink_next s x y u Hxr Hyr) as (-> & _). destruct (relink_next s x y v Hxr Hyr) as (_ & -> & _).
      assert (u ∈ A) by (by eapply pairs_left).
      assert (v ∈ l1) by (rewrite <- HA in Huv; by eapply pairs_right).
      assert (NoDup (A ++ [x])) as HnA by (rewrite <- HA; apply NoDup_cons; set_solver).
      apply NoDup_app in HnA as (_ & HnA & _).
      rewrite !decide_False; [done|intros ->..].
      * clear - Hdis Hh Hy H0. set_solver.
      * clear - HnA H. set_solver.
    + destruct (relink_next s x y x Hxr Hyr) as (-> & _). destruct (relink_next s x y y Hxr Hyr) as (_ & -> & _).
      by rewrite !decide_True.
    + eapply linked_ext; [|done]. intros u v Huv.
      destruct (relink_next s x y u Hxr Hyr) as (-> & _). destruct (relink_next s x y v Hxr Hyr) as (_ & -> & _).
      assert (v ∈ B) by (by eapply pairs_right).
      assert (u ∈ l2) by (rewrite <- HB in Huv; by eapply pairs_left).
      assert (NoDup (y :: B)) as HnB.
      { rewrite <- HB. apply NoDup_app. split_and!; [done|set_solver|apply NoDup_singleton]. }
      apply NoDup_cons in HnB as [HnB _].
      rewrite !decide_False; [done|by intros ->|intros ->].
      clear - Hdis Hh Hx H0. set_solver.
  - apply NoDup_app. split_and!; [done|set_solver|done].
  - rewrite Forall_app, Forall_cons in Hr. rewrite Forall_app. naive_solver.
Qed.

(** Putting a buffer at its front. *)
Lemma push_front_spec s b l :
  lru s l -> b ∉ l -> (b < NBUF)%nat ->
  lru (push_front b s) (b :: l) /\ same_but_lru s (push_front b s).
Proof.
  intros Hlru Hb Hlt. pose proof Hlru as (Hlen & Hlk & Hnd & Hr).
  pose proof (head_notin _ _ Hlru) as Hh.
  destruct (app_snoc_first l head) as (y & B & HB). rewrite HB in Hlk.
  apply linked_cons in Hlk as ((Hny & Hpy) & HlB).
  assert (Hy : y ∈ l ++ [head]) by (rewrite HB; left).
  assert (Hyr : (y < length (bufs s))%nat) by (eapply elem_of_ring; [done|set_solver]).
  assert (Hbh : b <> head) by (unfold head; lia).
  assert (Hyb : y <> b) by (intros ->; clear - Hy Hb Hbh; set_solver).
  set (s1 := upd_buf b (set_prev head) (upd_buf b (set_next y) s)).
  assert (Hs1 : forall k, k <> b -> buf_at s1 k = buf_at s k).
  { intros k Hk. subst s1. by rewrite !buf_at_upd_ne. }
  assert (Hs1b : next (buf_at s1 b) = y /\ prev (buf_at s1 b) = head).
  { subst s1. rewrite buf_at_upd_eq by (rewrite length_upd_buf; lia).
    rewrite buf_at_upd_eq by lia. done. }
  assert (Hl1 : length (bufs s1) = length (bufs s)) by (subst s1; by rewrite !length_upd_buf).
  assert (Hpf : push_front b s = upd_buf head (set_next b) (upd_buf y (set_prev b) s1)).
  { unfold push_front. rewrite Hny. fold s1. cbv zeta. rewrite Hs1 by done. by rewrite Hny. }
  assert (Hnext : forall k, next (buf_at (push_front b s) k) =
            if decide (k = head) then b else next (buf_at s1 k)).
  { intros k. rewrite Hpf, buf_at_upd, length_upd_buf. destruct (decide (k = head)) as [->|Hk].
    - rewrite decide_True; [done|]. unfold head. lia.
    - rewrite decide_False by naive_solver. rewrite buf_at_upd. case_decide as Hd; [|done].
      by destruct Hd as [-> _]. }
  assert (Hprev : forall k, prev (buf_at (push_front b s) k) =
            if decide (k = y) then b else prev (buf_at s1 k)).
  { intros k. rewrite Hpf. assert (forall z, prev (buf_at (upd_buf head (set_next b) z) k) =
      prev (buf_at z k)) as ->.
    { intros z. rewrite buf_at_upd. case_decide as Hd; [|done]. by destruct Hd as [-> _]. }
    rewrite buf_at_upd, Hl1. destruct (decide (k = y)) as [->|Hk].
    - by rewrite decide_True.
    - by rewrite decide_False by naive_solver. }
  split.
  - split_and!.
    + rewrite Hpf, !length_upd_buf. by rewrite Hl1.
    + simpl app. rewrite HB. apply linked_cons. split; [|apply linked_cons; split].
      * rewrite Hnext, Hprev, decide_True by done. rewrite decide_False by congruence.
        by destruct Hs1b as [_ ->].
      * rewrite Hnext, Hprev, decide_False by done. rewrite decide_True by done.
        by destruct Hs1b as [-> _].
      * eapply linked_ext; [|done]. intros u v Huv. rewrite Hnext, Hprev.
        assert (v ∈ B) by (by eapply pairs_right).
        assert (u ∈ l) by (rewrite <- HB in Huv; by eapply pairs_left).
        assert (NoDup (y :: B)) as HnB.
        { rewrite <- HB. apply NoDup_app. split_and!; [done|set_solver|apply NoDup_singleton]. }
        apply NoDup_cons in HnB as [HnB _].
        assert (v ∈ l ++ [head]) by (rewrite HB; by right).
        rewrite !decide_False; [rewrite !Hs1; [done|intros ->..]|by intros ->|intros ->].
        -- clear - Hb Hbh H1. set_solver.
        -- done.
        -- done.
    + apply NoDup_cons. done.
    + apply Forall_cons. done.
  - rewrite Hpf. subst s1. repeat (eapply same_but_lru_trans; [|by apply same_but_lru_link]). done.
Qed.

Lemma lru_ext s s' l :
  length (bufs s') = length (bufs s) ->
  (forall k, next (buf_at s' k) = next (buf_at s k) /\ prev (buf_at s' k) = prev (buf_at s k)) ->
  lru s l -> lru s' l.
Proof.
  intros Hlen Hk (H1 & H2 & H3 & H4). split_and!; try done; [congruence|].
  eapply linked_ext; [|done]. intros x y _. split; apply Hk.
Qed.

Lemma lru_upd s b f l :
  (forall x, next (f x) = next x /\ prev (f x) = prev x) -> lru s l -> lru (upd_buf b f s) l.
Proof.
  intros Hf. apply lru_ext; [apply length_upd_buf|]. intros k. rewrite buf_at_upd.
  case_decide as Hd; [|done]. destruct Hd as [-> _]. apply Hf.
Qed.

Lemma binit_loop_spec n b s l :
  lru s l -> (forall x, x ∈ l -> (x < b)%nat) -> (b + n <= NBUF)%nat ->
  lru (binit_loop n b s) (rev (seq b n) ++ l).
Proof.
  revert b s l. induction n as [|n IH]; intros b s l Hl Hx Hb; [done|].
  cbn [binit_loop]. destruct (push_front_spec (upd_buf b (fun x => set_block 4294967295 (sector x) x) s)
    b l) as [Hp _].
  - by apply lru_upd.
  - intros H. apply Hx in H. lia.
  - lia.
  - cbn [seq rev]. rewrite <- app_assoc. apply IH; [done| |lia].
    intros x [->|H]%elem_of_cons; [lia|]. apply Hx in H. lia.
Qed.

Lemma binit_ok s :
  length (bufs s) = S NBUF -> lru (binit s) [9; 8; 7; 6; 5; 4; 3; 2; 1; 0]%nat.
Proof.
  intros Hlen. unfold binit.
  set (s0 := upd_buf head (set_next head) (upd_buf head (set_prev head) s)).
  assert (H0 : lru s0 []).
  { split_and!; [by subst s0; rewrite !length_upd_buf| |constructor|constructor].
    intros x y H. simpl in H. apply list_elem_of_singleton in H as [= -> ->].
    subst s0. rewrite buf_at_upd_eq by (rewrite length_upd_buf, Hlen; unfold head; lia).
    rewrite buf_at_upd_eq by (rewrite Hlen; unfold head; lia). done. }
  apply (binit_loop_spec NBUF 0 s0 []); [done| |done].
  intros x H. by apply not_elem_of_nil in H.
Qed.

(** binit makes the list of all ten buffers: each is linked in once, in
    both directions, whatever the memory held before. *)
Theorem binit_lru s :
  length (bufs s) = S NBUF -> lru (binit s) [9; 8; 7; 6; 5; 4; 3; 2; 1; 0]%nat.
Proof. apply binit_ok. Qed.

Lemma binit_lru_witness :
  lru (binit (mkbstate (replicate 11 buf0) None 0)) [9; 8; 7; 6; 5; 4; 3; 2; 1; 0]%nat.
Proof. apply (binit_lru (mkbstate (replicate 11 buf0) None 0)). reflexivity. Defined.

(** ** Walks over the list *)

Fixpoint walk (s : bstate) (step : buf -> nat) (x : nat) (l : list nat) : Prop :=
  match l with
  | [] => x = head
  | b :: r => x = b /\ b <> head /\ walk s step (step (buf_at s b)) r
  end.

(** The first buffer of [l] that passes the test. *)
Fixpoint first_buf (test : buf -> bool) (s : bstate) (l : list nat) : option nat :=
  match l with
  | [] => None
  | b :: r => if test (buf_at s b) then Some b else first_buf test s r
  end.

Lemma scan_walk fuel step test x l s :
  walk s step x l -> (length l < fuel)%nat -> scan fuel step test x s = Some (first_buf test s l).
Proof.
  revert x l. induction fuel as [|fuel IH]; intros x l Hw Hl; [lia|].
  destruct l as [|b r]; simpl in *; [by rewrite Hw|].
  destruct Hw as (-> & Hb & Hw). apply Nat.eqb_neq in Hb. rewrite Hb.
  case_match; [done|]. apply IH; [done|lia].
Qed.

Lemma walk_next s x l : linked s (x :: l ++ [head]) -> head ∉ l -> walk s next (next (buf_at s x)) l.
Proof.
  revert x. induction l as [|b r IH]; intros x Hl Hh; simpl.
  - apply linked_cons in Hl as [[H _] _]. done.
  - simpl in Hl. apply linked_cons in Hl as [[H _] Hl]. split_and!; [done|set_solver|].
    apply IH; [done|set_solver].
Qed.

Lemma walk_prev s x l : linked s (head :: l ++ [x]) -> head ∉ l -> walk s prev (prev (buf_at s x)) (rev l).
Proof.
  revert x. induction l as [|b r IH] using rev_ind; intros x Hl Hh; simpl.
  - apply linked_cons in Hl as [[_ H] _]. done.
  - rewrite rev_app_distr. simpl.
    assert (Hx : prev (buf_at s x) = b).
    { change (head :: (r ++ [b]) ++ [x]) with ((head :: r ++ [b]) ++ [x]) in Hl.
      replace ((head :: r ++ [b]) ++ [x]) with ((head :: r) ++ b :: [x]) in Hl
        by (simpl; by rewrite <- app_assoc).
      apply linked_app in Hl as [_ Hl]. apply linked_cons in Hl as [[_ ?] _]. done. }
    split_and!; [done|set_solver|]. apply IH; [|set_solver].
    change (head :: (r ++ [b]) ++ [x]) with ((head :: r ++ [b]) ++ [x]) in Hl.
    replace ((head :: r ++ [b]) ++ [x]) with ((head :: r) ++ b :: [x]) in Hl
      by (simpl; by rewrite <- app_assoc).
    by apply linked_app in Hl as [Hl _].
Qed.

Lemma length_lru s l : lru s l -> (length l <= NBUF)%nat.
Proof.
  intros (_ & _ & Hnd & Hr). rewrite <- (length_seq NBUF 0).
  apply submseteq_length, NoDup_submseteq; [done|]. intros x Hx. apply elem_of_seq.
  rewrite Forall_forall in Hr. apply Hr in Hx. lia.
Qed.

Lemma scan_next_lru s l test :
  lru s l -> scan (S NBUF) next test (next (buf_at s head)) s = Some (first_buf test s l).
Proof.
  intros Hl. pose proof (length_lru _ _ Hl). apply scan_walk; [|lia].
  apply walk_next; [apply Hl|by eapply head_notin].
Qed.

Lemma scan_prev_lru s l test :
  lru s l -> scan (S NBUF) prev test (prev (buf_at s head)) s = Some (first_buf test s (rev l)).
Proof.
  intros Hl. pose proof (length_lru _ _ Hl). apply scan_walk; [|rewrite length_rev; lia].
  apply walk_prev; [apply Hl|by eapply head_notin].
Qed.

(** ** bget *)

(** All ten buffers are in the list, and no block is cached twice. *)
Definition cache_ok (s : bstate) (l : list nat) : Prop :=
  lru s l /\ length l = NBUF /\
  forall a b, (a < NBUF)%nat -> (b < NBUF)%nat -> bdev (buf_at s a) = bdev (buf_at s b) ->
    sector (buf_at s a) = sector (buf_at s b) -> bdev (buf_at s a) = 4294967295 \/ a = b.

Lemma cache_ok_all s l b : cache_ok s l -> (b < NBUF)%nat -> b ∈ l.
Proof.
  intros [(_ & _ & Hnd & Hr) [Hlen _]] Hb.
  assert (Hp : l ≡ₚ seq 0 NBUF).
  { apply submseteq_length_Permutation; [|by rewrite length_seq, Hlen].
    apply NoDup_submseteq; [done|]. intros x Hx. apply elem_of_seq.
    rewrite Forall_forall in Hr. apply Hr in Hx. lia. }
  rewrite Hp. apply elem_of_seq. lia.
Qed.

Lemma first_buf_some test s l b : first_buf test s l = Some b -> b ∈ l /\ test (buf_at s b) = true.
Proof.
  induction l as [|a r IH]; simpl; [done|]. case_match eqn:E.
  - intros [= ->]. split; [left|done].
  - intros H. destruct (IH H). split; [by right|done].
Qed.

Lemma first_buf_none test s l b : first_buf test s l = None -> b ∈ l -> test (buf_at s b) = false.
Proof.
  induction l as [|a r IH]; simpl; [by intros _ ?%not_elem_of_nil|]. case_match eqn:E; [done|].
  intros H [->|Hb]%elem_of_cons; auto.
Qed.

(** A handler under which locks are free and wakeups have no effect here. *)
Definition passive {W} (h : handler W bstate) : Prop :=
  forall w s, (forall l, h (EAcquire l) w s = Some (tt, w, s)) /\
    (forall l, h (ERelease l) w s = Some (tt, w, s)) /\
    (forall c, h (EWakeup c) w s = Some (tt, w, s)).

Lemma run_acquire {W} (h : handler W bstate) l w s :
  passive h -> run h w (acquire l s) = Done tt w s.
Proof. intros Hp. simpl. by rewrite (proj1 (Hp w s)). Qed.

Lemma run_release {W} (h : handler W bstate) l w s :
  passive h -> run h w (release l s) = Done tt w s.
Proof. intros Hp. simpl. by rewrite (proj1 (proj2 (Hp w s))). Qed.

Lemma run_wakeup {W} (h : handler W bstate) c w s :
  passive h -> run h w (wakeup c s) = Done tt w s.
Proof. intros Hp. simpl. by rewrite (proj2 (proj2 (Hp w s))). Qed.

(** Locking buffer [b] for the block it holds, or for a new block. *)
Definition lock_cached (b : nat) : bstate -> bstate :=
  upd_buf b (fun x => set_flags (Z.lor (flags x) B_BUSY) x).
Definition lock_fresh (b : nat) (dev sec : Z) : bstate -> bstate :=
  upd_buf b (fun x => set_flags B_BUSY (set_block dev sec x)).

Lemma bget_run {W} (h : handler W bstate) fuel s l dev sec w :
  passive h -> lru s l ->
  run h w (bget (S fuel) dev sec s) =
    match first_buf (is_block dev sec) s l with
    | Some b =>
        if not_busy (buf_at s b) then Done b w (lock_cached b s)
        else run h w ((sleep (Ch_buf b) Lk_bcache ;; bget_loop fuel dev sec) s)
    | None =>
        match first_buf not_busy s (rev l) with
        | Some b => Done b w (lock_fresh b dev sec s)
        | None => Panicked "bget: no buffers"
        end
    end.
Proof.
  intros Hp Hl. unfold bget. krun. rewrite run_acquire by done. krun. cbn [bget_loop]. krun.
  rewrite (scan_next_lru s l) by done.
  destruct (first_buf (is_block dev sec) s l) as [b|].
  - unfold bufget, bufset. krun. destruct (not_busy (buf_at s b)); krun; [|done].
    rewrite run_release by done. by krun.
  - krun. rewrite (scan_prev_lru s l) by done.
    destruct (first_buf not_busy s (rev l)) as [b|]; krun; [|done].
    unfold bufset. krun. rewrite run_release by done. krun. f_equal.
    unfold lock_fresh. by rewrite upd_buf_compose.
Qed.

Lemma cache_ok_lock_cached s l b : cache_ok s l -> cache_ok (lock_cached b s) l.
Proof.
  intros (Hl & Hlen & Hu). split; [by apply lru_upd|]. split; [done|].
  assert (Hk : forall k, bdev (buf_at (lock_cached b s) k) = bdev (buf_at s k) /\
            sector (buf_at (lock_cached b s) k) = sector (buf_at s k)).
  { intros k. unfold lock_cached. rewrite buf_at_upd. case_decide as Hd; [|done].
    by destruct Hd as [-> _]. }
  intros x y Hx Hy. destruct (Hk x) as [-> ->], (Hk y) as [-> ->]. by apply Hu.
Qed.

Lemma cache_ok_lock_fresh s l b dev sec :
  cache_ok s l -> (b < NBUF)%nat -> first_buf (is_block dev sec) s l = None ->
  cache_ok (lock_fresh b dev sec s) l.
Proof.
  intros Hok Hb Hnone. pose proof Hok as (Hl & Hlen & Hu).
  split; [by apply lru_upd|]. split; [done|].
  assert (Hrange : (b < length (bufs s))%nat) by (destruct Hl as [-> _]; lia).
  assert (Hk : forall k, (k < NBUF)%nat -> k <> b ->
            bdev (buf_at s k) <> dev \/ sector (buf_at s k) <> sec).
  { intros k Hk _. pose proof (first_buf_none _ _ _ k Hnone (cache_ok_all _ _ _ Hok Hk)) as Hn.
    apply andb_false_iff in Hn. rewrite !Z.eqb_neq in Hn. done. }
  intros x y Hx Hy. unfold lock_fresh. rewrite !buf_at_upd.
  destruct (decide (x = b /\ _)) as [[-> _]|Hxb], (decide (y = b /\ _)) as [[-> _]|Hyb]; simpl; auto.
  - intros E1 E2. destruct (Hk y); [done|naive_solver|congruence..].
  - intros E1 E2. destruct (Hk x); [done|naive_solver|congruence..].
Qed.

(** bget, on every branch: a cached block that is free is locked; a cached
    block that is locked makes the caller sleep on it; a block not in the cache
    gets the least recently used of the free buffers, which is locked and marked
    neither valid nor dirty; with every buffer locked it panics.  No block is
    ever cached twice and the list stays well formed. *)
Theorem bget_spec s l dev sec :
  cache_ok s l ->
  match first_buf (is_block dev sec) s l with
  | Some b =>
      if not_busy (buf_at s b)
      then exec (bget 1 dev sec) s = Done b tt (lock_cached b s) /\ cache_ok (lock_cached b s) l
      else exec (bget 1 dev sec) s = Blocked (ESleep (Ch_buf b) Lk_bcache) tt s
  | None =>
      match first_buf not_busy s (rev l) with
      | Some b => exec (bget 1 dev sec) s = Done b tt (lock_fresh b dev sec s) /\
                  cache_ok (lock_fresh b dev sec s) l
      | None => exec (bget 1 dev sec) s = Panicked "bget: no buffers"
      end
  end.
Proof.
  intros Hok. pose proof (bget_run quiet 0 s l dev sec tt ltac:(done) (proj1 Hok)) as Hrun.
  unfold exec. destruct (first_buf (is_block dev sec) s l) as [b|] eqn:E1.
  - destruct (not_busy (buf_at s b)); [split; [done|]|done]. by apply cache_ok_lock_cached.
  - destruct (first_buf not_busy s (rev l)) as [b|] eqn:E2; [split; [done|]|done].
    apply cache_ok_lock_fresh; try done. apply first_buf_some in E2 as [Hb _].
    apply list_elem_of_In, in_rev, list_elem_of_In in Hb. destruct Hok as [(_ & _ & _ & Hr) _].
    rewrite Forall_forall in Hr. by apply Hr.
Qed.

(** The cache as binit leaves it. *)
Definition cache0 : bstate := binit (mkbstate (replicate 11 buf0) None 1).

Lemma cache0_ok : cache_ok cache0 [9; 8; 7; 6; 5; 4; 3; 2; 1; 0]%nat.
Proof.
  split; [by apply binit_ok|]. split; [done|]. intros a b Ha _ _ _. left.
  do 10 (destruct a as [|a]; [vm_compute; reflexivity|]). unfold NBUF in Ha. lia.
Qed.

(** A block that is not cached: buffer 0, the least recently used, is taken. *)
Lemma bget_spec_witness :
  exec (bget 1 1 7) cache0 = Done 0%nat tt (lock_fresh 0 1 7 cache0).
Proof. pose proof (bget_spec cache0 _ 1 7 cache0_ok) as H. vm_compute in H. apply H. Defined.
End Bio.

(** ** The cache over a disk implements the block layer *)

Module Cache.
Import Ide Driver Bio.

Section Cache.
Context {D : Type} `{HP : DiskPorts D} `{HA : !AtaDisk D}.

(** Fuel for the driver's loops: polling, and two rounds of sleeping. *)
Definition fuel : nat := S (S maxpoll).

(** Cache code with the disk: port events go to the disk, and a process asleep
    in iderw is woken by its interrupt. *)
Definition sync {A} (m : K bstate A) : K (bstate * D) A := fun s =>
  match run (ports_intr maxpoll) s.2 (m s.1) with
  | Done a d' s' => Ret a (s', d')
  | Panicked msg => Panic msg
  | _ => Diverge
  end.

(** A held buffer is locked, valid and clean; the data of a buffer that is not
    held and valid is the sector's; the sectors are those of the disk. *)
Definition crep (s : bstate * D) (V : contents) (H : held_bufs) : Prop :=
  exists l, cache_ok s.1 l /\ idle s.2 /\ idequeue s.1 = None /\ havedisk1 s.1 <> 0 /\
  (forall v n, good_sector v n -> V v n = dsk s.2 v n) /\ NoDup H.*1 /\
  (forall b v n, (b, (v, n)) ∈ H -> (b < NBUF)%nat /\ good_sector v n /\
     flags (buf_at s.1 b) = 3 /\ bdev (buf_at s.1 b) = v /\ sector (buf_at s.1 b) = n) /\
  (forall b, (b < NBUF)%nat -> length (data (buf_at s.1 b)) = 512%nat /\
     (b ∉ H.*1 -> flags (buf_at s.1 b) = 0 \/
        flags (buf_at s.1 b) = 2 /\
        (good_sector (bdev (buf_at s.1 b)) (sector (buf_at s.1 b)) ->
         data (buf_at s.1 b) = V (bdev (buf_at s.1 b)) (sector (buf_at s.1 b))))).

#[global] Instance cache_ops : BlockOps (bstate * D) := {|
  Block.bread := fun v n => sync (Bio.bread fuel v n);
  Block.bwrite := fun b => sync (Bio.bwrite fuel b);
  Block.brelse := fun b => sync (Bio.brelse b);
  bdata := fun b s => data (buf_at s.1 b);
  bset := fun b x s => (upd_buf b (set_data x) s.1, s.2);
  brep := crep
|}.

Lemma exec_sync {A} (m : K bstate A) s a d' s' :
  run (ports_intr maxpoll) s.2 (m s.1) = Done a d' s' -> exec (sync m) s = Done a tt (s', d').
Proof. intros H. unfold exec, sync. by rewrite H. Qed.

Lemma ports_passive : passive (ports_intr maxpoll).
Proof. done. Qed.

Lemma cache_ok_upd c l b f :
  (forall y, next (f y) = next y /\ prev (f y) = prev y /\ bdev (f y) = bdev y /\
     sector (f y) = sector y) -> cache_ok c l -> cache_ok (upd_buf b f c) l.
Proof.
  intros Hf (Hl & Hlen & Hu). split; [|split; [done|]].
  - apply lru_upd; [|done]. intros y. destruct (Hf y) as (? & ? & _). done.
  - assert (He : forall k, bdev (buf_at (upd_buf b f c) k) = bdev (buf_at c k) /\
              sector (buf_at (upd_buf b f c) k) = sector (buf_at c k)).
    { intros k. rewrite buf_at_upd. case_decide as Hd; [destruct Hd as [-> _]; split; apply Hf|done]. }
    intros x y Hx Hy. destruct (He x) as [-> ->], (He y) as [-> ->]. by apply Hu.
Qed.

Definition same_fields (x y : buf) : Prop :=
  flags x = flags y /\ bdev x = bdev y /\ sector x = sector y /\ data x = data y.

Lemma land_drive v : 0 <= v <= 1 -> Z.land v 1 = v.
Proof. intros. assert (v = 0 \/ v = 1) as [->| ->] by lia; done. Qed.

Lemma cache_ok_same c c' l l' :
  lru c' l' -> length l' = NBUF -> (forall k, same_fields (buf_at c' k) (buf_at c k)) ->
  cache_ok c l -> cache_ok c' l'.
Proof.
  intros Hl Hlen Hk (_ & _ & Hu). split_and!; try done. intros x y Hx Hy.
  destruct (Hk x) as (_ & -> & -> & _), (Hk y) as (_ & -> & -> & _). by apply Hu.
Qed.

(** Holding one more buffer: [b] is locked for a block and has its contents,
    nothing else has changed. *)
Lemma crep_hold c d V H l c' d' b v n :
  crep (c, d) V H -> cache_ok c' l -> idle d' -> idequeue c' = None ->
  havedisk1 c' = havedisk1 c -> (forall v' n', dsk d' v' n' = dsk d v' n') ->
  good_sector v n -> (b < NBUF)%nat -> b ∉ H.*1 ->
  flags (buf_at c' b) = 3 -> bdev (buf_at c' b) = v -> sector (buf_at c' b) = n ->
  length (data (buf_at c' b)) = 512%nat ->
  (forall k, k <> b -> same_fields (buf_at c' k) (buf_at c k)) ->
  crep (c', d') V ((b, (v, n)) :: H).
Proof.
  intros (l0 & _ & _ & _ & Hh & HV & Hnd & Hheld & Hrest) Hok Hid Hq Hhd Hd Hg Hb Hbn Hf Hv Hn Hx Hk.
  simpl in *. exists l. simpl. split_and!; try done.
  - congruence.
  - intros v' n' Hg'. rewrite HV by done. by rewrite Hd.
  - by apply NoDup_cons.
  - intros k v' n' [[= -> -> ->]|Hin]%elem_of_cons; [done|].
    destruct (Hheld k v' n' Hin) as (H1 & H2 & H3 & H4 & H5).
    assert (k <> b) by (intros ->; apply Hbn; apply list_elem_of_fmap; by exists (b, (v', n'))).
    destruct (Hk k) as (-> & -> & -> & _); done.
  - intros k Hkb. destruct (decide (k = b)) as [->|Hne].
    + split; [done|]. intros Hc. exfalso. apply Hc. left.
    + destruct (Hk k Hne) as (-> & -> & -> & ->). destruct (Hrest k Hkb) as [H1 H2].
      split; [done|]. intros Hc. apply H2. intros Hin. apply Hc. by right.
Qed.

(** The read of a locked buffer that is not valid. *)
Lemma iderw_read c d b :
  idle d -> idequeue c = None -> (b < length (bufs c))%nat -> havedisk1 c <> 0 ->
  flags (buf_at c b) = 1 -> good_sector (bdev (buf_at c b)) (sector (buf_at c b)) ->
  length (data (buf_at c b)) = 512%nat ->
  exists d', run (ports_intr maxpoll) d (iderw fuel b c) =
      Done tt d' (upd_buf b (fun y => synced y (dsk d (bdev y) (sector y))) c) /\
    idle d' /\ forall v n, dsk d' v n = dsk d v n.
Proof using HA.
  intros Hid Hq Hb Hh Hf [Hv Hn] Hx.
  destruct (iderw_ok fuel d b c) as (d' & x & Hrun & Hid' & Hd & Hxx); try done.
  - unfold fuel. lia.
  - unfold fuel. lia.
  - by rewrite Hf.
  - by rewrite Hf.
  - by right.
  - exists d'. split; [|split; [done|]].
    + rewrite Hrun. f_equal. apply upd_buf_ext. rewrite Hxx, Hf. simpl. by rewrite land_drive.
    + intros v n. rewrite Hd. unfold dsk_after. by rewrite Hf.
Qed.

(** bread once bget has locked the buffer. *)
Lemma bread_locked c d V H l b v n c1 :
  crep (c, d) V H -> (b < NBUF)%nat -> b ∉ H.*1 -> good_sector v n -> cache_ok c1 l ->
  idequeue c1 = None -> havedisk1 c1 = havedisk1 c -> bdev (buf_at c1 b) = v ->
  sector (buf_at c1 b) = n -> data (buf_at c1 b) = data (buf_at c b) ->
  (flags (buf_at c1 b) = 1 \/ flags (buf_at c1 b) = 3 /\ data (buf_at c1 b) = V v n) ->
  (forall k, k <> b -> buf_at c1 k = buf_at c k) ->
  exists s', run (ports_intr maxpoll) d ((fl <- bufget b flags ;;
      (if negb (has fl B_VALID) then iderw fuel b else kret tt) ;; kret b) c1) = Done b s'.2 s'.1 /\
    crep s' V ((b, (v, n)) :: H) /\ data (buf_at s'.1 b) = V v n /\
    (forall k, k <> b -> data (buf_at s'.1 k) = data (buf_at c k)).
Proof using HA.
  intros Hrep Hb Hbn Hg Hok Hq Hh Hv Hn Hdat Hfl Hk.
  pose proof Hrep as (l0 & Hok0 & Hid & _ & Hhd & HV & _ & _ & Hrest). simpl in *.
  destruct (Hrest b Hb) as [Hlen _]. rewrite <- Hdat in Hlen.
  assert (Hr : (b < length (bufs c1))%nat).
  { destruct Hok as ((-> & _) & _). lia. }
  unfold bufget. krun. destruct Hfl as [Hf|[Hf Hx]]; rewrite Hf.
  - change (negb (has 1 B_VALID)) with true. cbv iota.
    destruct (iderw_read c1 d b) as (d' & Hrun & Hid' & Hd); try done; [congruence|by rewrite Hv, Hn|].
    rewrite Hrun. krun.
    exists (upd_buf b (fun y => synced y (dsk d (bdev y) (sector y))) c1, d').
    split; [done|]. cbn [fst snd].
    assert (Hat : buf_at (upd_buf b (fun y => synced y (dsk d (bdev y) (sector y))) c1) b =
              synced (buf_at c1 b) (dsk d v n)) by (rewrite buf_at_upd_eq, Hv, Hn by done; done).
    rewrite Hat. cbn [data synced]. rewrite HV by done. split; [|split; [done|]].
    + eapply (crep_hold c d V H l); try done; rewrite ?Hat; cbn [flags bdev sector data synced];
        try done; try (by rewrite Hf).
      * apply (cache_ok_upd c1 l); done.
      * by apply ata_sector.
      * intros k Hne. rewrite buf_at_upd_ne, Hk by done. done.
    + intros k Hne. by rewrite buf_at_upd_ne, Hk.
  - change (negb (has 3 B_VALID)) with false. krun. exists (c1, d). split; [done|]. cbn [fst snd]. split; [|split; [done|]].
    + eapply (crep_hold c d V H l); try done. intros k Hne. by rewrite Hk.
    + intros k Hne. by rewrite Hk.
Qed.

(** A buffer that is not held is not busy, and the other way round. *)
Lemma crep_not_busy c d V H b :
  crep (c, d) V H -> (b < NBUF)%nat -> not_busy (buf_at c b) = true <-> b ∉ H.*1.
Proof.
  intros (l & _ & _ & _ & _ & _ & _ & Hheld & Hrest) Hb. simpl in *. split.
  - intros Hn Hin. apply list_elem_of_fmap in Hin as ([b' [v n]] & -> & Hin).
    destruct (Hheld _ _ _ Hin) as (_ & _ & Hf & _). unfold not_busy in Hn. simpl in Hn.
    by rewrite Hf in Hn.
  - intros Hn. destruct (Hrest b Hb) as [_ Hr]. unfold not_busy.
    destruct (Hr Hn) as [->|[-> _]]; done.
Qed.

Lemma pigeonhole (l : list nat) (H : list nat) :
  NoDup l -> (length H < length l)%nat -> exists b, b ∈ l /\ b ∉ H.
Proof.
  intros Hnd Hlt. destruct (decide (Forall (fun b => b ∈ H) l)) as [Hall|Hn].
  - exfalso. assert (l ⊆+ H) as Hs.
    { apply NoDup_submseteq; [done|]. by rewrite Forall_forall in Hall. }
    apply submseteq_length in Hs. lia.
  - apply not_Forall_Exists in Hn; [|tc_solve]. apply Exists_exists in Hn as (b & ? & ?). eauto.
Qed.

Lemma cache_bread_law c d V H v n :
  crep (c, d) V H -> good_sector v n -> (v, n) ∉ H.*2 -> (length H < MAXHELD)%nat ->
  exists b s', exec (Block.bread v n) (c, d) = Done b tt s' /\ crep s' V ((b, (v, n)) :: H) /\
    data (buf_at s'.1 b) = V v n /\ (forall k, k <> b -> data (buf_at s'.1 k) = data (buf_at c k)) /\
    b ∉ H.*1.
Proof using HA.
  intros Hrep Hg Hnot Hlen. pose proof Hrep as (l & Hok & Hid & Hq & Hh & HV & Hnd & Hheld & Hrest).
  simpl in *. pose proof Hok as (Hlru & Hll & Hu).
  assert (Hlt : forall b, b ∈ l -> (b < NBUF)%nat).
  { destruct Hlru as (_ & _ & _ & Hr). by rewrite Forall_forall in Hr. }
  assert (Hrange : forall b, (b < NBUF)%nat -> (b < length (bufs c))%nat).
  { destruct Hlru as [-> _]. lia. }
  assert (Hfin : forall b c1, (b < NBUF)%nat -> b ∉ H.*1 ->
            run (ports_intr maxpoll) d (bget fuel v n c) = Done b d c1 ->
            cache_ok c1 l -> idequeue c1 = None -> havedisk1 c1 = havedisk1 c ->
            bdev (buf_at c1 b) = v -> sector (buf_at c1 b) = n ->
            data (buf_at c1 b) = data (buf_at c b) ->
            (flags (buf_at c1 b) = 1 \/ flags (buf_at c1 b) = 3 /\ data (buf_at c1 b) = V v n) ->
            (forall k, k <> b -> buf_at c1 k = buf_at c k) ->
            exists b s', exec (sync (Bio.bread fuel v n)) (c, d) = Done b tt s' /\
              crep s' V ((b, (v, n)) :: H) /\ data (buf_at s'.1 b) = V v n /\
              (forall k, k <> b -> data (buf_at s'.1 k) = data (buf_at c k)) /\ b ∉ H.*1).
  { intros b c1 Hb Hbn Hget Hok1 Hq1 Hh1 Hv1 Hn1 Hd1 Hf1 Hk1.
    destruct (bread_locked c d V H l b v n c1) as ([c2 d2] & Hrun & Hrep2 & Hdat & Hoth); try done.
    exists b, (c2, d2). split_and!; try done. apply exec_sync. unfold Bio.bread. cbn [fst snd].
    rewrite run_kbind, Hget. exact Hrun. }
  pose proof (bget_run (ports_intr maxpoll) (S maxpoll) c l v n d ports_passive Hlru) as Hget.
  fold fuel in Hget. destruct (first_buf (is_block v n) c l) as [b|] eqn:E1.
  - apply first_buf_some in E1 as [Hbl Hblk]. apply andb_prop in Hblk as [Hv%Z.eqb_eq Hn%Z.eqb_eq].
    assert (Hbn : b ∉ H.*1).
    { intros Hin. apply list_elem_of_fmap in Hin as ([b' [v' n']] & -> & Hin). simpl in *.
      destruct (Hheld _ _ _ Hin) as (_ & _ & _ & Hv' & Hn'). apply Hnot.
      apply list_elem_of_fmap. exists (b', (v', n')). split; [simpl; congruence|done]. }
    rewrite (proj2 (crep_not_busy c d V H b Hrep (Hlt b Hbl)) Hbn) in Hget.
    assert (Hat : buf_at (lock_cached b c) b = set_flags (Z.lor (flags (buf_at c b)) 1) (buf_at c b)).
    { unfold lock_cached. rewrite buf_at_upd_eq; [done|]. auto. }
    apply (Hfin b (lock_cached b c)); try done; try (by rewrite Hat); auto using cache_ok_lock_cached.
    + rewrite Hat. cbn [flags data set_flags]. destruct (Hrest b (Hlt b Hbl)) as [_ Hr].
      destruct (Hr Hbn) as [->|[-> Hdat]]; [by left|right]. split; [done|].
      rewrite Hv, Hn in Hdat. auto.
    + intros k Hk. unfold lock_cached. by rewrite buf_at_upd_ne.
  - destruct (first_buf not_busy c (rev l)) as [b|] eqn:E2.
    + apply first_buf_some in E2 as [Hbl Hnb].
      apply list_elem_of_In, in_rev, list_elem_of_In in Hbl.
      assert (Hat : buf_at (lock_fresh b v n c) b = set_flags 1 (set_block v n (buf_at c b))).
      { unfold lock_fresh. rewrite buf_at_upd_eq; [done|]. auto. }
      apply (Hfin b (lock_fresh b v n c)); try done; try (by rewrite Hat); auto using cache_ok_lock_fresh.
      * by apply (crep_not_busy c d V H b Hrep (Hlt b Hbl)).
      * rewrite Hat. by left.
      * intros k Hk. unfold lock_fresh. by rewrite buf_at_upd_ne.
    + exfalso. destruct (pigeonhole l H.*1) as (b & Hbl & Hbn).
      { apply Hlru. } { rewrite length_fmap, Hll. unfold MAXHELD in Hlen. unfold NBUF. lia. }
      apply (crep_not_busy c d V H b Hrep (Hlt b Hbl)) in Hbn.
      rewrite (first_buf_none not_busy c (rev l) b) in Hbn; [done..|].
      by apply list_elem_of_In, in_rev; rewrite rev_involutive; apply list_elem_of_In.
Qed.

Lemma held_not_other c d V H b v n k :
  crep (c, d) V H -> (b, (v, n)) ∈ H -> (k < NBUF)%nat -> k <> b ->
  ~ (bdev (buf_at c k) = v /\ sector (buf_at c k) = n).
Proof.
  intros (l & (_ & _ & Hu) & _ & _ & _ & _ & _ & Hheld & _) Hin Hk Hne [Hv Hn]. simpl in *.
  destruct (Hheld _ _ _ Hin) as (Hb & [[? ?] _] & _ & Hv' & Hn').
  destruct (Hu k b Hk Hb) as [E|E]; [congruence|congruence| |done]. lia.
Qed.

Lemma cache_bwrite_law c d V H b v n :
  crep (c, d) V H -> (b, (v, n)) ∈ H ->
  exists s', exec (Block.bwrite b) (c, d) = Done tt tt s' /\
    crep s' (upd_sector V v n (data (buf_at c b))) H /\
    forall k, data (buf_at s'.1 k) = data (buf_at c k).
Proof using HA.
  intros Hrep Hin. pose proof Hrep as (l & Hok & Hid & Hq & Hh & HV & Hnd & Hheld & Hrest).
  simpl in *. destruct (Hheld _ _ _ Hin) as (Hb & Hg & Hf & Hv & Hn).
  destruct (Hrest b Hb) as [Hlen _].
  assert (Hr : (b < length (bufs c))%nat) by (destruct Hok as ((-> & _) & _); lia).
  set (c1 := upd_buf b (fun x => set_flags (Z.lor (flags x) B_DIRTY) x) c).
  assert (Hc1 : buf_at c1 b = set_flags 7 (buf_at c b)).
  { subst c1. rewrite buf_at_upd_eq by done. by rewrite Hf. }
  destruct (iderw_ok fuel d b c1) as (d' & x & Hrun & Hid' & Hd & Hx); rewrite ?Hc1; try done.
  - unfold fuel. lia.
  - unfold fuel. lia.
  - subst c1. by rewrite length_upd_buf.
  - by right.
  - simpl. rewrite Hn. apply Hg.
  - rewrite Hc1 in Hx. simpl in Hx. subst x.
    set (c2 := upd_buf b (fun y => synced y (data (buf_at c b))) c1) in *.
    assert (Hc2 : forall k, same_fields (buf_at c2 k) (buf_at c k)).
    { intros k. subst c2 c1. rewrite upd_buf_compose, buf_at_upd. case_decide as Hdc; [|done].
      destruct Hdc as [-> _]. unfold same_fields. simpl. by rewrite Hf. }
    exists (c2, d'). split; [|split; [|intros k; apply Hc2]].
    + apply exec_sync. unfold Bio.bwrite, bufget, bufset. cbn [fst snd]. krun. rewrite Hf.
      change (negb (has 3 B_BUSY)) with false. cbv iota. krun. exact Hrun.
    + exists l. cbn [fst snd]. split_and!; try done.
      * apply (cache_ok_same c c2 l l); [| |done|done]; [|apply Hok].
        subst c2 c1. apply lru_upd; [done|]. apply lru_upd; [done|]. apply Hok.
      * intros v' n' Hg'. rewrite Hd. unfold dsk_after, upd_sector. rewrite Hc1.
        cbn [flags bdev sector data set_flags]. rewrite Hv, Hn, land_drive by apply Hg.
        change (has 7 B_DIRTY) with true. cbn [andb]. case_match; [done|]. by apply HV.
      * intros k v' n' Hk. destruct (Hc2 k) as (-> & -> & -> & _). by apply Hheld.
      * intros k Hk. destruct (Hc2 k) as (-> & -> & -> & ->). destruct (Hrest k Hk) as [H1 H2].
        split; [done|]. intros Hkn. destruct (H2 Hkn) as [?|[? Hdat]]; [by left|right].
        split; [done|]. intros Hgk. rewrite Hdat by done. unfold upd_sector.
        assert (Hkb : k <> b).
        { intros ->. apply Hkn, list_elem_of_fmap. by exists (b, (v, n)). }
        destruct (Z.eqb_spec (bdev (buf_at c k)) v), (Z.eqb_spec (sector (buf_at c k)) n); try done.
        by destruct (held_not_other c d V H b v n k Hrep Hin Hk Hkb).
Qed.

Lemma cache_brelse_law c d V H1 b v n H2 :
  crep (c, d) V (H1 ++ (b, (v, n)) :: H2) -> data (buf_at c b) = V v n ->
  exists s', exec (Block.brelse b) (c, d) = Done tt tt s' /\ crep s' V (H1 ++ H2) /\
    forall k, data (buf_at s'.1 k) = data (buf_at c k).
Proof using HA.
  intros Hrep Hdat. pose proof Hrep as (l & Hok & Hid & Hq & Hh & HV & Hnd & Hheld & Hrest).
  simpl in *. destruct (Hheld b v n ltac:(set_solver)) as (Hb & Hg & Hf & Hv & Hn).
  destruct (list_elem_of_split l b (cache_ok_all _ _ _ Hok Hb)) as (l1 & l2 & ->).
  pose proof Hok as (Hlru & Hll & Hu). pose proof Hlru as (_ & _ & Hndl & _).
  destruct (unlink_spec c l1 b l2 Hlru) as [Hlru1 Hs1].
  destruct (push_front_spec (unlink b c) b (l1 ++ l2)) as [Hlru2 Hs2]; try done.
  { apply NoDup_app in Hndl as (_ & Hd1 & Hd2). apply NoDup_cons in Hd2 as [Hd2 _].
    intros [Hx|Hx]%elem_of_app; [by apply (Hd1 b); [|left]|done]. }
  pose proof (same_but_lru_trans _ _ _ Hs1 Hs2) as (Hsq & Hsh & Hsl & Hsk).
  set (c1 := push_front b (unlink b c)) in *.
  set (c2 := upd_buf b (fun x => set_flags (Z.land (flags x) (Z.lnot B_BUSY)) x) c1).
  assert (Hc2 : forall k, bdev (buf_at c2 k) = bdev (buf_at c k) /\
            sector (buf_at c2 k) = sector (buf_at c k) /\ data (buf_at c2 k) = data (buf_at c k) /\
            flags (buf_at c2 k) = if decide (k = b) then 2 else flags (buf_at c k)).
  { intros k. destruct (Hsk k) as (E1 & E2 & E3 & E4 & _). subst c2. rewrite buf_at_upd.
    destruct (decide (k = b)) as [->|Hne].
    - rewrite decide_True by (split; [done|]; destruct Hlru2 as [-> _]; lia). simpl.
      by rewrite E1, Hf.
    - rewrite decide_False by naive_solver. done. }
  exists (c2, d). split; [|split; [|intros k; apply Hc2]].
  - apply exec_sync. unfold Bio.brelse, bufget, bufset. cbn [fst snd]. krun. rewrite Hf.
    change (negb (has 3 B_BUSY)) with false. cbv iota. krun.
    rewrite run_acquire by apply ports_passive. krun.
    rewrite run_wakeup by apply ports_passive. krun.
    by rewrite run_release by apply ports_passive.
  - assert (Hin2 : forall k, (k < NBUF)%nat -> k ∉ (H1 ++ H2).*1 -> k <> b ->
              k ∉ (H1 ++ (b, (v, n)) :: H2).*1).
    { intros k _. rewrite !fmap_app, fmap_cons. set_solver. }
    rewrite fmap_app, fmap_cons in Hnd. apply NoDup_app in Hnd as (N1 & N2 & N3).
    apply NoDup_cons in N3 as [N3 N4].
    exists (b :: l1 ++ l2). cbn [fst snd]. split_and!; try done.
    + split; [by apply lru_upd|]. split.
      * rewrite length_app in Hll. simpl in Hll |- *. rewrite length_app. lia.
      * intros x y Hx Hy. destruct (Hc2 x) as (-> & -> & _), (Hc2 y) as (-> & -> & _). by apply Hu.
    + rewrite fmap_app. apply NoDup_app. split_and!; try done. intros x Hx Hx2.
      apply (N2 x Hx). by right.
    + intros k v' n' Hk. assert (k <> b).
      { intros ->. apply elem_of_app in Hk as [Hk|Hk].
        - apply (N2 b); [|left]. apply list_elem_of_fmap. by exists (b, (v', n')).
        - apply N3. apply list_elem_of_fmap. by exists (b, (v', n')). }
      destruct (Hc2 k) as (-> & -> & _ & ->). rewrite decide_False by done. apply Hheld. set_solver.
    + intros k Hk. destruct (Hc2 k) as (-> & -> & -> & ->). destruct (Hrest k Hk) as [R1 R2].
      split; [done|]. intros Hkn. case_decide as Hd; [subst|by apply R2, Hin2].
      right. split; [done|]. intros _. congruence.
Qed.

Lemma cache_bset_law c d V H b v n x :
  crep (c, d) V H -> (b, (v, n)) ∈ H -> length x = 512%nat ->
  crep (upd_buf b (set_data x) c, d) V H /\ data (buf_at (upd_buf b (set_data x) c) b) = x /\
  forall k, k <> b -> data (buf_at (upd_buf b (set_data x) c) k) = data (buf_at c k).
Proof.
  intros (l & Hok & Hid & Hq & Hh & HV & Hnd & Hheld & Hrest) Hin Hx. simpl in *.
  destruct (Hheld _ _ _ Hin) as (Hb & _).
  assert (Hr : (b < length (bufs c))%nat) by (destruct Hok as ((-> & _) & _); lia).
  assert (Hk : forall k, buf_at (upd_buf b (set_data x) c) k =
            if decide (k = b) then set_data x (buf_at c b) else buf_at c k).
  { intros k. rewrite buf_at_upd. destruct (decide (k = b)) as [->|Hne].
    - by rewrite decide_True.
    - by rewrite decide_False by naive_solver. }
  split; [|split].
  - exists l. cbn [fst snd]. split_and!; try done.
    + by apply cache_ok_upd.
    + intros k v' n' Hkn. rewrite Hk. case_decide as Hd; [subst; simpl|]; by apply Hheld.
    + intros k Hkb. rewrite Hk. case_decide as Hd; [subst; simpl|by apply Hrest].
      split; [done|]. intros Hc. exfalso. apply Hc, list_elem_of_fmap. by exists (b, (v, n)).
  - rewrite Hk. by rewrite decide_True.
  - intros k Hne. rewrite Hk. by rewrite decide_False.
Qed.

#[global] Instance cache_block_layer : BlockLayer (bstate * D).
Proof using HA.
  split.
  - intros [c d] V H v n Hr Hg Hn Hl.
    destruct (cache_bread_law c d V H v n Hr Hg Hn Hl) as (b & s' & He & Hr' & Hd & Hk & Hb).
    exists b, s'. split_and!; try done. intros k kk Hin. apply Hk. intros ->. apply Hb.
    apply list_elem_of_fmap. by exists (b, kk).
  - intros [c d] V H b v n Hr Hin.
    destruct (cache_bwrite_law c d V H b v n Hr Hin) as (s' & He & Hr' & Hk).
    exists s'. split_and!; try done. intros k kk _. apply Hk.
  - intros [c d] V H1 b v n H2 Hr Hd.
    destruct (cache_brelse_law c d V H1 b v n H2 Hr Hd) as (s' & He & Hr' & Hk).
    exists s'. split_and!; try done. intros k kk _. apply Hk.
  - intros [c d] V H b v n x Hr Hin Hx.
    destruct (cache_bset_law c d V H b v n x Hr Hin Hx) as (H1 & H2 & H3).
    split_and!; try done. intros b' k _ Hne. by apply H3.
  - intros [c d] V V' H HV (l & Hok & Hid & Hq & Hh & HVd & Hnd & Hheld & Hrest).
    exists l. split_and!; try done.
    + intros v n Hg. rewrite <- HV by done. by apply HVd.
    + intros b Hb. destruct (Hrest b Hb) as [H1 H2]. split; [done|]. intros Hn.
      destruct (H2 Hn) as [?|[? Hdat]]; [by left|right]. split; [done|]. intros Hg.
      rewrite <- HV by done. auto.
  - intros [c d] V H v n (l & _ & Hid & _ & _ & HV & _) Hg. rewrite HV by done. by apply ata_sector.
  - intros [c d] V H b [v n] (l & _ & _ & _ & _ & _ & _ & Hheld & Hrest) Hin.
    destruct (Hheld _ _ _ Hin) as (Hb & _). by apply (Hrest b Hb).
Qed.

(** C2. The buffer cache over a disk implements the block layer that the file
    system relies on: bread returns a locked buffer with the contents of the
    sector, bwrite makes the buffer's data the contents of its sector and of no
    other, brelse gives the buffer back, and the data of the other buffers in
    use is left alone. *)
Theorem cache_implements_block_layer : @BlockLayer (bstate * D) cache_ops.
Proof using HA. apply cache_block_layer. Qed.

(** The cache binit makes over an idle disk represents the disk's sectors. *)
Lemma crep_boot d : idle d -> crep (cache0, d) (dsk d) [].
Proof.
  intros Hid. exists [9; 8; 7; 6; 5; 4; 3; 2; 1; 0]%nat. split; [apply cache0_ok|].
  split_and!; try done.
  - constructor.
  - intros b v n H. by apply not_elem_of_nil in H.
  - intros b Hb. do 10 (destruct b as [|b]; [split; [by vm_compute|left; by vm_compute]|]).
    unfold NBUF in Hb. lia.
Qed.
End Cache.

Import RamDisk.
Lemma cache_implements_block_layer_witness : @BlockLayer (bstate * RamDisk.ramdisk) cache_ops.
Proof. exact (cache_implements_block_layer (D := RamDisk.ramdisk)). Defined.
End Cache.
