(* ===== verification/FsLayout.v ===== *)
(** * FsLayout: fs.h, the on-disk format

    The super block, inode and directory entry structures as little-endian byte
    strings, and the macros that say where they are. *)
From S2P Require Import Prelude.
From stdpp Require Import options.

Module FsLayout.

Definition ROOTDEV : Z := 1.
Definition ROOTINO : Z := 1.
Definition BSIZE : Z := 512.
Definition NDIRECT : Z := 12.
Definition NINDIRECT : Z := BSIZE / 4.
Definition MAXFILE : Z := NDIRECT + NINDIRECT.
Definition IPB : Z := BSIZE / 64.
Definition IBLOCK (i : Z) : Z := i / IPB + 2.
Definition BPB : Z := BSIZE * 8.
Definition BBLOCK (b ninodes : Z) : Z := b / BPB + ninodes / IPB + 3.
Definition DIRSIZ : Z := 14.

Definition T_DIR : Z := 1.
Definition T_FILE : Z := 2.
Definition T_DEV : Z := 3.

Record superblock : Type := mksb { sb_size : Z; sb_nblocks : Z; sb_ninodes : Z }.

Definition dec_sb (d : bytes) : superblock := mksb (get32 d 0) (get32 d 4) (get32 d 8).

Record dinode : Type := mkdinode {
  di_type : Z; di_major : Z; di_minor : Z; di_nlink : Z; di_size : Z; di_addrs : list Z
}.

Definition dec_dinode (l : bytes) : dinode :=
  mkdinode (i16 (get16 l 0)) (i16 (get16 l 2)) (i16 (get16 l 4)) (i16 (get16 l 6)) (get32 l 8)
    ((fun i => get32 l (12 + 4 * i)%nat) <$> seq 0 13).

Definition enc_dinode (x : dinode) : bytes :=
  le_enc 2 (di_type x) ++ le_enc 2 (di_major x) ++ le_enc 2 (di_minor x) ++
  le_enc 2 (di_nlink x) ++ le_enc 4 (di_size x) ++ mjoin (le_enc 4 <$> di_addrs x).

(** (struct dinode * )bp->data + inum % IPB *)
Definition dinode_off (inum : Z) : nat := Z.to_nat (64 * (inum mod IPB)).
Definition get_dinode (d : bytes) (inum : Z) : dinode := dec_dinode (slice d (dinode_off inum) 64).
Definition put_dinode (d : bytes) (inum : Z) (x : dinode) : bytes :=
  splice d (dinode_off inum) (enc_dinode x).

Record dirent : Type := mkdirent { de_inum : Z; de_name : bytes }.

Definition dec_dirent (l : bytes) : dirent := mkdirent (get16 l 0) (slice l 2 14).
Definition enc_dirent (x : dirent) : bytes := le_enc 2 (de_inum x) ++ de_name x.

(** ** Round trips *)

Definition is_i16 (x : Z) : Prop := -32768 <= x < 32768.

Definition dinode_ok (x : dinode) : Prop :=
  is_i16 (di_type x) /\ is_i16 (di_major x) /\ is_i16 (di_minor x) /\ is_i16 (di_nlink x) /\
  is_u32 (di_size x) /\ Forall is_u32 (di_addrs x) /\ length (di_addrs x) = 13%nat.

Lemma slice_app_l {A} (a b : list A) n : length a = n -> slice (a ++ b) 0 n = a.
Proof. intros <-. unfold slice. rewrite drop_0. apply take_app_length. Qed.

Lemma slice_app_r {A} (a b : list A) k o n : length a = k -> slice (a ++ b) (k + o) n = slice b o n.
Proof. intros <-. unfold slice. by rewrite drop_app_add. Qed.

Lemma i16_le_dec x : is_i16 x -> i16 (le_dec (le_enc 2 x)) = x.
Proof. unfold is_i16. intros. rewrite le_dec_enc. unfold i16. simpl. dlia. Qed.

Lemma u32_le_dec x : is_u32 x -> le_dec (le_enc 4 x) = x.
Proof. unfold is_u32. intros. rewrite le_dec_enc. by rewrite Z.mod_small. Qed.

Lemma mjoin_le_cons x (l : list Z) :
  mjoin (le_enc 4 <$> x :: l) = le_enc 4 x ++ mjoin (le_enc 4 <$> l).
Proof. done. Qed.

Lemma length_mjoin_le (l : list Z) : length (mjoin (le_enc 4 <$> l)) = (4 * length l)%nat.
Proof.
  induction l as [|x r IH]; [done|]. rewrite mjoin_le_cons, length_app, IH, length_le_enc. simpl. lia.
Qed.

Lemma addrs_dec (l : list Z) :
  Forall is_u32 l ->
  (fun i => get32 (mjoin (le_enc 4 <$> l)) (4 * i)) <$> seq 0 (length l) = l.
Proof.
  induction 1 as [|x r Hx Hr IH]; [done|]. rewrite mjoin_le_cons. cbn [length seq fmap list_fmap].
  f_equal.
  - unfold get32. rewrite slice_app_l by apply length_le_enc. by apply u32_le_dec.
  - rewrite <- fmap_S_seq, <- list_fmap_compose. transitivity ((fun i => get32 (mjoin (le_enc 4 <$> r)) (4 * i)) <$> seq 0 (length r)); [|done]. apply list_fmap_ext.
    intros i y _. unfold get32, compose.
    replace (4 * S y)%nat with (4 + 4 * y)%nat by lia.
    by rewrite slice_app_r by apply length_le_enc.
Qed.

Lemma length_enc_dinode x : length (di_addrs x) = 13%nat -> length (enc_dinode x) = 64%nat.
Proof.
  intros H. unfold enc_dinode. rewrite !length_app, !length_le_enc, length_mjoin_le, H. done.
Qed.

(** A field that lies behind [k] bytes of others. *)
Lemma skip_field {A} (a b : list A) k n o :
  length a = k -> (k <= o)%nat -> slice (a ++ b) o n = slice b (o - k) n.
Proof. intros H1 H2. replace o with (k + (o - k))%nat at 1 by lia. by apply slice_app_r. Qed.

Ltac skip k := rewrite (skip_field (le_enc k _) _ k) by (rewrite ?length_le_enc; lia); simpl Nat.sub.

Lemma dec_enc_dinode x : dinode_ok x -> dec_dinode (enc_dinode x) = x.
Proof.
  intros (H1 & H2 & H3 & H4 & H5 & H6 & H7). unfold dec_dinode.
  assert (E : forall i, get32 (enc_dinode x) (12 + 4 * i) = get32 (mjoin (le_enc 4 <$> di_addrs x)) (4 * i)).
  { intros i. unfold get32, enc_dinode.
    do 4 rewrite (skip_field (le_enc 2 _) _ 2) by (rewrite ?length_le_enc; lia).
    rewrite (skip_field (le_enc 4 _) _ 4) by (rewrite ?length_le_enc; lia). f_equal. f_equal. lia. }
  rewrite (list_fmap_ext _ (fun i => get32 (mjoin (le_enc 4 <$> di_addrs x)) (4 * i))) by (intros; apply E).
  rewrite <- H7, addrs_dec by done. destruct x as [ty ma mi nl sz ad]. cbn in H1, H2, H3, H4, H5.
  unfold enc_dinode, get16, get32. cbn [di_type di_major di_minor di_nlink di_size di_addrs].
  f_equal.
  - rewrite slice_app_l by apply length_le_enc. by apply i16_le_dec.
  - skip 2%nat. rewrite slice_app_l by apply length_le_enc. by apply i16_le_dec.
  - do 2 skip 2%nat. rewrite slice_app_l by apply length_le_enc. by apply i16_le_dec.
  - do 3 skip 2%nat. rewrite slice_app_l by apply length_le_enc. by apply i16_le_dec.
  - do 4 skip 2%nat. rewrite slice_app_l by apply length_le_enc. by apply u32_le_dec.
Qed.

Lemma dinode_off_bound inum : (dinode_off inum + 64 <= 512)%nat.
Proof. unfold dinode_off, IPB, BSIZE. change (512 / 64) with 8. dlia. Qed.

(** Writing inode [i] and reading it back; a different inode of the same block
    is not touched. *)
Lemma get_put_dinode d i x :
  length d = 512%nat -> dinode_ok x -> get_dinode (put_dinode d i x) i = x.
Proof.
  intros Hd Hx. unfold get_dinode, put_dinode. pose proof (dinode_off_bound i).
  assert (length (enc_dinode x) = 64%nat) as E by (apply length_enc_dinode, Hx).
  rewrite <- E, slice_splice_same by lia. by apply dec_enc_dinode.
Qed.

Lemma get_put_dinode_other d i j x :
  length d = 512%nat -> length (di_addrs x) = 13%nat -> 0 <= i -> 0 <= j -> i mod IPB <> j mod IPB ->
  get_dinode (put_dinode d i x) j = get_dinode d j.
Proof.
  intros Hd Hx Hi Hj Hne. unfold get_dinode, put_dinode.
  pose proof (dinode_off_bound i). pose proof (dinode_off_bound j).
  rewrite slice_splice_other; [done|rewrite length_enc_dinode by done; lia|].
  rewrite length_enc_dinode by done. revert Hne. unfold dinode_off, IPB, BSIZE.
  change (512 / 64) with 8. dlia.
Qed.

Lemma length_put_dinode d i x :
  length d = 512%nat -> length (di_addrs x) = 13%nat -> length (put_dinode d i x) = 512%nat.
Proof.
  intros. unfold put_dinode. pose proof (dinode_off_bound i).
  rewrite length_splice; rewrite ?length_enc_dinode; try done; lia.
Qed.

Lemma dec_enc_dirent e :
  0 <= de_inum e < 65536 -> length (de_name e) = 14%nat -> dec_dirent (enc_dirent e) = e.
Proof.
  intros H1 H2. destruct e as [i n]. cbn in H1, H2.
  unfold dec_dirent, enc_dirent, get16. cbn [de_inum de_name]. f_equal.
  - rewrite slice_app_l by apply length_le_enc. rewrite le_dec_enc. by rewrite Z.mod_small.
  - skip 2%nat. unfold slice. rewrite drop_0. rewrite take_ge; [done|lia].
Qed.

Lemma length_enc_dirent e : length (de_name e) = 14%nat -> length (enc_dirent e) = 16%nat.
Proof. intros H. unfold enc_dirent. rewrite length_app, length_le_enc, H. done. Qed.

End FsLayout.
