(* ===== verification/Fs.v ===== *)
(** * Fs: fs.c, the file system

    The block allocator works on the block layer alone, the inode, directory
    and path layers on the block layer and the inode cache.  The code is
    parametric in the block layer (class [BlockOps], which Bio implements) and
    in the device switch.  A pointer into icache.inode[] is an index. *)
From S2P Require Import Prelude Kmonad Cstring Block FsLayout.
From stdpp Require Import options.

Module Fs.
Export FsLayout.
Import Cstring.

Definition NINODE : nat := 50.
Definition NDEV : Z := 10.

Definition I_BUSY : Z := 1.
Definition I_VALID : Z := 2.

Record inode : Type := mkinode {
  idev : Z; inum : Z; iref : Z; iflags : Z;
  itype : Z; imajor : Z; iminor : Z; inlink : Z; isize : Z; iaddrs : list Z
}.

Definition set_ref r ip := mkinode (idev ip) (inum ip) r (iflags ip) (itype ip) (imajor ip)
  (iminor ip) (inlink ip) (isize ip) (iaddrs ip).
Definition set_iflags f ip := mkinode (idev ip) (inum ip) (iref ip) f (itype ip) (imajor ip)
  (iminor ip) (inlink ip) (isize ip) (iaddrs ip).
Definition set_type t ip := mkinode (idev ip) (inum ip) (iref ip) (iflags ip) t (imajor ip)
  (iminor ip) (inlink ip) (isize ip) (iaddrs ip).
Definition set_nlink n ip := mkinode (idev ip) (inum ip) (iref ip) (iflags ip) (itype ip) (imajor ip)
  (iminor ip) n (isize ip) (iaddrs ip).
Definition set_size n ip := mkinode (idev ip) (inum ip) (iref ip) (iflags ip) (itype ip) (imajor ip)
  (iminor ip) (inlink ip) n (iaddrs ip).
Definition set_addr (k : nat) a ip := mkinode (idev ip) (inum ip) (iref ip) (iflags ip) (itype ip)
  (imajor ip) (iminor ip) (inlink ip) (isize ip) (<[k := a]> (iaddrs ip)).
Definition set_devs ma mi ip := mkinode (idev ip) (inum ip) (iref ip) (iflags ip) (itype ip)
  ma mi (inlink ip) (isize ip) (iaddrs ip).

Definition inode0 : inode := mkinode 0 0 0 0 0 0 0 0 0 (replicate 13 0).

Definition addr (ip : inode) (k : nat) : Z := nth k (iaddrs ip) 0.

(** ip->flags & f *)
Definition flag (x : inode) (f : Z) : bool := negb (Z.land (iflags x) f =? 0).

Record statv6 : Type := mkstat { st_dev : Z; st_ino : Z; st_type : Z; st_nlink : Z; st_size : Z }.

(** ** Blocks *)
Section Blocks.
Context {B : Type} `{BlockOps B}.

Definition readsb (dev : Z) : K B superblock :=
  bp <- bread dev 1 ;;
  d <- gets (bdata bp) ;;
  brelse bp ;;
  kret (dec_sb d).

Definition bzero (dev bno : Z) : K B unit :=
  bp <- bread dev bno ;;
  modify (bset bp (replicate 512 0)) ;;
  bwrite bp ;;
  brelse bp.

(** The inner loop of balloc: the first [bi] whose bit is clear. *)
Fixpoint free_bit (d : bytes) (cnt : nat) (bi : Z) : option Z :=
  match cnt with
  | O => None
  | S cnt' =>
      let m := Z.shiftl 1 (bi mod 8) in
      if Z.land (byte_at d (Z.to_nat (bi / 8))) m =? 0 then Some bi
      else free_bit d cnt' (bi + 1)
  end.

Definition set_bit (d : bytes) (bi : Z) : bytes :=
  let i := Z.to_nat (bi / 8) in <[i := Z.lor (byte_at d i) (Z.shiftl 1 (bi mod 8))]> d.
Definition clear_bit (d : bytes) (bi : Z) : bytes :=
  let i := Z.to_nat (bi / 8) in
  <[i := Z.land (byte_at d i) (Z.lnot (Z.shiftl 1 (bi mod 8)))]> d.

(** for(b = 0; b < sb.size; b += BPB), one round per bitmap block. *)
Fixpoint balloc_loop (fuel : nat) (dev : Z) (sb : superblock) (b : Z) : K B Z :=
  match fuel with
  | O => diverge
  | S fuel' =>
      if b <? sb_size sb then
        bp <- bread dev (BBLOCK b (sb_ninodes sb)) ;;
        d <- gets (bdata bp) ;;
        match free_bit d (Z.to_nat BPB) 0 with
        | Some bi =>
            modify (bset bp (set_bit d bi)) ;;
            bwrite bp ;;
            brelse bp ;;
            kret (b + bi)
        | None =>
            brelse bp ;;
            balloc_loop fuel' dev sb (b + BPB)
        end
      else panic "balloc: out of blocks"
  end.

Definition balloc (dev : Z) : K B Z :=
  sb <- readsb dev ;;
  balloc_loop (Z.to_nat (sb_size sb / BPB + 2)) dev sb 0.

Definition bfree (dev b : Z) : K B unit :=
  bzero dev b ;;
  sb <- readsb dev ;;
  bp <- bread dev (BBLOCK b (sb_ninodes sb)) ;;
  let bi := b mod BPB in
  let m := Z.shiftl 1 (bi mod 8) in
  d <- gets (bdata bp) ;;
  if Z.land (byte_at d (Z.to_nat (bi / 8))) m =? 0 then panic "freeing free block"
  else
    modify (bset bp (clear_bit d bi)) ;;
    bwrite bp ;;
    brelse bp.

(** The entry [bn] of the indirect block [ind], in bmap: allocated if it is 0. *)
Definition bmap_entry (dev ind bn : Z) : K B Z :=
  bp <- bread dev ind ;;
  d <- gets (bdata bp) ;;
  let a := get32 d (Z.to_nat (4 * bn)) in
  if a =? 0 then
    a <- balloc dev ;;
    modify (fun t => bset bp (put32 (bdata bp t) (Z.to_nat (4 * bn)) a) t) ;;
    bwrite bp ;;
    brelse bp ;;
    kret a
  else
    brelse bp ;;
    kret a.

End Blocks.

(** ** Inodes *)

Record fstate (B : Type) : Type := mkfs { blk : B; icache : list inode }.
Arguments mkfs {B} blk icache.
Arguments blk {B} f.
Arguments icache {B} f.

Section Inodes.
Context {B : Type} `{BlockOps B}.
(** How often a process waits for an inode before it finds it unlocked. *)
Variable (fuel : nat).
(** devsw[]: the read and write functions of the device drivers. *)
Variable (dev_read : Z -> option (nat -> Z -> K (fstate B) (Z * bytes))).
Variable (dev_write : Z -> option (nat -> bytes -> Z -> K (fstate B) Z)).

Definition ino (s : fstate B) (ip : nat) : inode := nth ip (icache s) inode0.
Definition upd_ino (ip : nat) (f : inode -> inode) (s : fstate B) : fstate B :=
  mkfs (blk s) (alter f ip (icache s)).
Definition with_blk (t : B) (s : fstate B) : fstate B := mkfs t (icache s).

Definition onblk {A} (m : K B A) : K (fstate B) A := zoom blk with_blk m.
Definition iget_ {A} (ip : nat) (f : inode -> A) : K (fstate B) A := gets (fun s => f (ino s ip)).
Definition iset (ip : nat) (f : inode -> inode) : K (fstate B) unit := modify (upd_ino ip f).

(** The scan of iget over icache.inode[]: a cached entry, or the first empty slot. *)
Fixpoint iget_scan (dev num : Z) (l : list inode) (k : nat) (empty : option nat)
  : nat + option nat :=
  match l with
  | [] => inr empty
  | ip :: r =>
      if (0 <? iref ip) && (idev ip =? dev) && (inum ip =? num) then inl k
      else iget_scan dev num r (S k)
             (match empty with None => if iref ip =? 0 then Some k else None | _ => empty end)
  end.

Definition iget (dev num : Z) : K (fstate B) nat :=
  acquire Lk_icache ;;
  r <- gets (fun s => iget_scan dev num (icache s) 0 None) ;;
  match r with
  | inl ip =>
      iset ip (fun x => set_ref (iref x + 1) x) ;;
      release Lk_icache ;;
      kret ip
  | inr None => panic "iget: no inodes"
  | inr (Some ip) =>
      iset ip (fun x => mkinode dev num 1 0 (itype x) (imajor x) (iminor x) (inlink x)
                          (isize x) (iaddrs x)) ;;
      release Lk_icache ;;
      kret ip
  end.

Definition idup (ip : nat) : K (fstate B) nat :=
  acquire Lk_icache ;;
  iset ip (fun x => set_ref (iref x + 1) x) ;;
  release Lk_icache ;;
  kret ip.

(** while(ip->flags & I_BUSY) sleep(ip, &icache.lock) *)
Fixpoint ilock_wait (n : nat) (ip : nat) : K (fstate B) unit :=
  match n with
  | O => diverge
  | S n' =>
      busy <- iget_ ip (fun x => flag x I_BUSY) ;;
      if (busy : bool) then
        sleep (Ch_inode ip) Lk_icache ;;
        ilock_wait n' ip
      else kret tt
  end.

Definition load_dinode (x : dinode) (ip : inode) : inode :=
  mkinode (idev ip) (inum ip) (iref ip) (iflags ip) (di_type x) (di_major x) (di_minor x)
    (di_nlink x) (di_size x) (di_addrs x).

Definition to_dinode (ip : inode) : dinode :=
  mkdinode (itype ip) (imajor ip) (iminor ip) (inlink ip) (isize ip) (iaddrs ip).

Definition ilock (ip : nat) : K (fstate B) unit :=
  r <- iget_ ip iref ;;
  if r <? 1 then panic "ilock"
  else
    acquire Lk_icache ;;
    ilock_wait fuel ip ;;
    iset ip (fun x => set_iflags (Z.lor (iflags x) I_BUSY) x) ;;
    release Lk_icache ;;
    valid <- iget_ ip (fun x => flag x I_VALID) ;;
    if (valid : bool) then kret tt
    else
      x <- iget_ ip (fun x => x) ;;
      bp <- onblk (bread (idev x) (IBLOCK (inum x))) ;;
      d <- onblk (gets (bdata bp)) ;;
      iset ip (load_dinode (get_dinode d (inum x))) ;;
      onblk (brelse bp) ;;
      iset ip (fun x => set_iflags (Z.lor (iflags x) I_VALID) x) ;;
      t <- iget_ ip itype ;;
      if t =? 0 then panic "ilock: no type" else kret tt.

Definition iunlock (ip : nat) : K (fstate B) unit :=
  x <- iget_ ip (fun x => x) ;;
  if negb (flag x I_BUSY) || (iref x <? 1) then panic "iunlock"
  else
    acquire Lk_icache ;;
    iset ip (fun x => set_iflags (Z.land (iflags x) (Z.lnot I_BUSY)) x) ;;
    wakeup (Ch_inode ip) ;;
    release Lk_icache.

Definition iupdate (ip : nat) : K (fstate B) unit :=
  x <- iget_ ip (fun x => x) ;;
  bp <- onblk (bread (idev x) (IBLOCK (inum x))) ;;
  d <- onblk (gets (bdata bp)) ;;
  onblk (modify (bset bp (put_dinode d (inum x) (to_dinode x)))) ;;
  onblk (bwrite bp) ;;
  onblk (brelse bp).

Definition bmap (ip : nat) (bn : Z) : K (fstate B) Z :=
  dev <- iget_ ip idev ;;
  if bn <? NDIRECT then
    a <- iget_ ip (fun x => addr x (Z.to_nat bn)) ;;
    if a =? 0 then
      a <- onblk (balloc dev) ;;
      iset ip (set_addr (Z.to_nat bn) a) ;;
      kret a
    else kret a
  else
    let bn := bn - NDIRECT in
    if bn <? NINDIRECT then
      a <- iget_ ip (fun x => addr x 12) ;;
      ind <- (if a =? 0 then
                a <- onblk (balloc dev) ;;
                iset ip (set_addr 12 a) ;;
                kret a
              else kret a) ;;
      onblk (bmap_entry dev ind bn)
    else panic "bmap: out of range".

(** itrunc; its first loop runs over the direct blocks, the second over the
    entries of the indirect block. *)
Fixpoint itrunc_direct (n : nat) (ip i : nat) : K (fstate B) unit :=
  match n with
  | O => kret tt
  | S n' =>
      x <- iget_ ip (fun x => x) ;;
      (if negb (addr x i =? 0) then
         onblk (bfree (idev x) (addr x i)) ;;
         iset ip (set_addr i 0)
       else kret tt) ;;
      itrunc_direct n' ip (S i)
  end.

Fixpoint itrunc_indirect (n : nat) (dev : Z) (bp j : nat) : K B unit :=
  match n with
  | O => kret tt
  | S n' =>
      a <- gets (fun t => get32 (bdata bp t) (4 * j)) ;;
      (if negb (a =? 0) then bfree dev a else kret tt) ;;
      itrunc_indirect n' dev bp (S j)
  end.

Definition itrunc (ip : nat) : K (fstate B) unit :=
  itrunc_direct 12 ip 0 ;;
  x <- iget_ ip (fun x => x) ;;
  (if negb (addr x 12 =? 0) then
     bp <- onblk (bread (idev x) (addr x 12)) ;;
     onblk (itrunc_indirect 128 (idev x) bp 0) ;;
     onblk (brelse bp) ;;
     onblk (bfree (idev x) (addr x 12)) ;;
     iset ip (set_addr 12 0)
   else kret tt) ;;
  iset ip (set_size 0) ;;
  iupdate ip.

Definition iput (ip : nat) : K (fstate B) unit :=
  acquire Lk_icache ;;
  x <- iget_ ip (fun x => x) ;;
  (if (iref x =? 1) && flag x I_VALID && (inlink x =? 0) then
     if flag x I_BUSY then panic "iput busy"
     else
       iset ip (fun x => set_iflags (Z.lor (iflags x) I_BUSY) x) ;;
       release Lk_icache ;;
       itrunc ip ;;
       iset ip (set_type 0) ;;
       iupdate ip ;;
       acquire Lk_icache ;;
       iset ip (set_iflags 0) ;;
       wakeup (Ch_inode ip)
   else kret tt) ;;
  iset ip (fun x => set_ref (iref x - 1) x) ;;
  release Lk_icache.

Definition iunlockput (ip : nat) : K (fstate B) unit :=
  iunlock ip ;;
  iput ip.

(** for(inum = 1; inum < sb.ninodes; inum++) *)
Fixpoint ialloc_loop (n : nat) (dev type : Z) (sb : superblock) (num : Z) : K (fstate B) nat :=
  match n with
  | O => diverge
  | S n' =>
      if num <? sb_ninodes sb then
        bp <- onblk (bread dev (IBLOCK num)) ;;
        d <- onblk (gets (bdata bp)) ;;
        if di_type (get_dinode d num) =? 0 then
          onblk (modify (bset bp (put_dinode d num (mkdinode type 0 0 0 0 (replicate 13 0))))) ;;
          onblk (bwrite bp) ;;
          onblk (brelse bp) ;;
          iget dev num
        else
          onblk (brelse bp) ;;
          ialloc_loop n' dev type sb (num + 1)
      else panic "ialloc: no inodes"
  end.

Definition ialloc (dev type : Z) : K (fstate B) nat :=
  sb <- onblk (readsb dev) ;;
  ialloc_loop (Z.to_nat (sb_ninodes sb) + 1) dev type sb 1.

Definition stati (x : inode) : statv6 :=
  mkstat (i32 (idev x)) (inum x) (itype x) (inlink x) (isize x).

(** ** File contents *)

(** Every round of the loops of readi, writei and dirlookup starts in a later
    block, and bmap panics at block MAXFILE. *)
Definition NBLK : nat := Z.to_nat (MAXFILE + 1).

Fixpoint readi_loop (k : nat) (ip : nat) (off n tot : Z) (dst : bytes) : K (fstate B) bytes :=
  match k with
  | O => diverge
  | S k' =>
      if tot <? n then
        dev <- iget_ ip idev ;;
        a <- bmap ip (off / BSIZE) ;;
        bp <- onblk (bread dev a) ;;
        let m := Z.min (n - tot) (BSIZE - off mod BSIZE) in
        d <- onblk (gets (bdata bp)) ;;
        onblk (brelse bp) ;;
        readi_loop k' ip (off + m) n (tot + m)
          (dst ++ slice d (Z.to_nat (off mod BSIZE)) (Z.to_nat m))
      else kret dst
  end.

(** readi: the return value and the bytes stored at dst. *)
Definition readi (ip : nat) (off n : Z) : K (fstate B) (Z * bytes) :=
  x <- iget_ ip (fun x => x) ;;
  if itype x =? T_DEV then
    if (imajor x <? 0) || (NDEV <=? imajor x) then kret (-1, [])
    else match dev_read (imajor x) with
         | None => kret (-1, [])
         | Some f => f ip (i32 n)
         end
  else if (isize x <? off) || (u32 (off + n) <? off) then kret (-1, [])
  else
    let n := if isize x <? u32 (off + n) then isize x - off else n in
    dst <- readi_loop NBLK ip off n 0 [] ;;
    kret (n, dst).

Fixpoint writei_loop (k : nat) (ip : nat) (src : bytes) (off n tot : Z) : K (fstate B) Z :=
  match k with
  | O => diverge
  | S k' =>
      if tot <? n then
        dev <- iget_ ip idev ;;
        a <- bmap ip (off / BSIZE) ;;
        bp <- onblk (bread dev a) ;;
        let m := Z.min (n - tot) (BSIZE - off mod BSIZE) in
        onblk (modify (fun t =>
          bset bp (splice (bdata bp t) (Z.to_nat (off mod BSIZE))
                     (slice src (Z.to_nat tot) (Z.to_nat m))) t)) ;;
        onblk (bwrite bp) ;;
        onblk (brelse bp) ;;
        writei_loop k' ip src (off + m) n (tot + m)
      else kret off
  end.

Definition writei (ip : nat) (src : bytes) (off n : Z) : K (fstate B) Z :=
  x <- iget_ ip (fun x => x) ;;
  if itype x =? T_DEV then
    if (imajor x <? 0) || (NDEV <=? imajor x) then kret (-1)
    else match dev_write (imajor x) with
         | None => kret (-1)
         | Some f => f ip src (i32 n)
         end
  else if (isize x <? off) || (u32 (off + n) <? off) then kret (-1)
  else
    let n := if MAXFILE * BSIZE <? u32 (off + n) then u32 (MAXFILE * BSIZE - off) else n in
    off <- writei_loop NBLK ip src off n 0 ;;
    size <- iget_ ip isize ;;
    (if (0 <? n) && (size <? off) then
       iset ip (set_size off) ;;
       iupdate ip
     else kret tt) ;;
    kret n.

(** ** Directories *)

Definition namecmp (s t : bytes) : Z := strncmp (byte_at s) (byte_at t) DIRSIZ.

(** The inner loop of dirlookup, over the entries of one block: the offset in
    the block and the inode number of the first match. *)
Fixpoint dir_scan (d name : bytes) (cnt : nat) (k : nat) : option (Z * Z) :=
  match cnt with
  | O => None
  | S cnt' =>
      let de := dec_dirent (slice d (16 * k) 16) in
      if de_inum de =? 0 then dir_scan d name cnt' (S k)
      else if namecmp name (de_name de) =? 0 then Some (16 * Z.of_nat k, de_inum de)
      else dir_scan d name cnt' (S k)
  end.

Fixpoint dirlookup_loop (n : nat) (dp : nat) (name : bytes) (off : Z)
  : K (fstate B) (option (nat * Z)) :=
  match n with
  | O => diverge
  | S n' =>
      x <- iget_ dp (fun x => x) ;;
      if off <? isize x then
        a <- bmap dp (off / BSIZE) ;;
        bp <- onblk (bread (idev x) a) ;;
        d <- onblk (gets (bdata bp)) ;;
        match dir_scan d name 32 0 with
        | Some (o, num) =>
            onblk (brelse bp) ;;
            ip <- iget (idev x) num ;;
            kret (Some (ip, off + o))
        | None =>
            onblk (brelse bp) ;;
            dirlookup_loop n' dp name (off + BSIZE)
        end
      else kret None
  end.

(** The inode found, and the offset stored through poff. *)
Definition dirlookup (dp : nat) (name : bytes) : K (fstate B) (option (nat * Z)) :=
  t <- iget_ dp itype ;;
  if negb (t =? T_DIR) then panic "dirlookup not DIR"
  else dirlookup_loop NBLK dp name 0.

(** The search of dirlink for an empty entry: its offset. *)
Fixpoint dirlink_loop (n : nat) (dp : nat) (off : Z) : K (fstate B) Z :=
  match n with
  | O => diverge
  | S n' =>
      size <- iget_ dp isize ;;
      if off <? size then
        let* (r, de) <- readi dp off 16 ;;
        if negb (r =? 16) then panic "dirlink read"
        else if de_inum (dec_dirent de) =? 0 then kret off
        else dirlink_loop n' dp (off + 16)
      else kret off
  end.

(** strncpy(de.name, name, DIRSIZ) fills the 14 bytes of the entry's name. *)
Definition dirlink (dp : nat) (name : bytes) (num : Z) : K (fstate B) Z :=
  r <- dirlookup dp name ;;
  match r with
  | Some (ip, _) => iput ip ;; kret (-1)
  | None =>
      off <- dirlink_loop (32 * NBLK) dp 0 ;;
      let de := mkdirent (u16 num) (strncpy_bytes (byte_at name) 14) in
      r <- writei dp (enc_dirent de) off 16 ;;
      if negb (r =? 16) then panic "dirlink" else kret 0
  end.

(** ** Paths

    A path is the list of its characters before the terminating NUL. *)

Definition slash : Z := 47.

Fixpoint skip_slashes (path : bytes) : bytes :=
  match path with
  | c :: r => if c =? slash then skip_slashes r else path
  | [] => []
  end.

(** while( *path != '/' && *path != 0) path++: the element and the rest. *)
Fixpoint take_elem (path : bytes) : bytes * bytes :=
  match path with
  | c :: r => if c =? slash then ([], path) else let '(e, r') := take_elem r in (c :: e, r')
  | [] => ([], [])
  end.

(** The path after the element and the new contents of name[DIRSIZ]. *)
Definition skipelem (path name : bytes) : option (bytes * bytes) :=
  let path := skip_slashes path in
  match path with
  | [] => None
  | _ =>
      let '(s, path) := take_elem path in
      let len := Z.of_nat (length s) in
      let name := if DIRSIZ <=? len then splice name 0 (take 14 s)
                  else splice name 0 (s ++ [0]) in
      Some (skip_slashes path, name)
  end.

(** The loop of namex: one round per path element. *)
Fixpoint namex_loop (n : nat) (ip : nat) (path : bytes) (parent : bool) (name : bytes)
  : K (fstate B) (option nat * bytes) :=
  match n with
  | O => diverge
  | S n' =>
      match skipelem path name with
      | None =>
          if parent then iput ip ;; kret (None, name) else kret (Some ip, name)
      | Some (path, name) =>
          ilock ip ;;
          t <- iget_ ip itype ;;
          if negb (t =? T_DIR) then iunlockput ip ;; kret (None, name)
          else if parent && (match path with [] => true | _ => false end) then
            iunlock ip ;; kret (Some ip, name)
          else
            next <- dirlookup ip name ;;
            match next with
            | None => iunlockput ip ;; kret (None, name)
            | Some (next, _) => iunlockput ip ;; namex_loop n' next path parent name
            end
      end
  end.

(** namex with the current directory of the caller; the inode and name[]. *)
Definition namex (cwd : nat) (path : bytes) (parent : bool) (name : bytes)
  : K (fstate B) (option nat * bytes) :=
  ip <- (if match path with c :: _ => c =? slash | [] => false end
         then iget ROOTDEV ROOTINO else idup cwd) ;;
  namex_loop (length path + 1) ip path parent name.

Definition namei (cwd : nat) (path : bytes) : K (fstate B) (option nat) :=
  let* (r, _) <- namex cwd path false (replicate 14 0) ;;
  kret r.

Definition nameiparent (cwd : nat) (path name : bytes) : K (fstate B) (option nat * bytes) :=
  namex cwd path true name.

End Inodes.
End Fs.
