(* ===== verification/FsLogic.v ===== *)
(** * FsLogic: total-correctness triples for file-system code

    A triple speaks of the sectors' contents [V], the stack [H] of buffers the
    code holds (buffer, sector, data in the buffer) and the inode cache [I].
    [tri] says that the code runs to completion, without panic and without
    running out of fuel, in a state that [Q] describes.  The rules are proved from
    the laws of [BlockLayer] alone, so what is derived with them holds of any
    block layer, in particular of the buffer cache over the IDE driver. *)
From S2P Require Import Prelude Kmonad Cstring Block FsLayout Fs.
From stdpp Require Import options.

Module FsLogic.
Export Fs.

Abbreviation stack := (list (nat * (Z * Z) * bytes)).

Section Logic.
Context {B : Type} `{BO : BlockOps B} `{BL : !BlockLayer B}.

Definition brepd (t : B) (V : contents) (H : stack) : Prop :=
  brep t V H.*1 /\ NoDup H.*1.*1 /\ (forall h, h ∈ H -> bdata h.1.1 t = h.2).

Definition frep (s : fstate B) (V : contents) (H : stack) (I : list inode) : Prop :=
  brepd (blk s) V H /\ icache s = I.

(** What a run ends in: a return that [Q] describes, or a panic that [E] allows. *)
Definition ends {A} (E : string -> Prop) (Q : A -> contents -> stack -> list inode -> Prop)
    (r : result unit (fstate B) A) : Prop :=
  match r with
  | Done a _ s => exists V H I, frep s V H I /\ Q a V H I
  | Panicked msg => E msg
  | _ => False
  end.

Definition tri {A} (E : string -> Prop) (V : contents) (H : stack) (I : list inode)
    (m : K (fstate B) A) (Q : A -> contents -> stack -> list inode -> Prop) : Prop :=
  forall s, frep s V H I -> ends E Q (exec m s).

Lemma tri_bind {A C} E V H I (m : K (fstate B) A) (f : A -> K (fstate B) C) R Q :
  tri E V H I m R -> (forall a V' H' I', R a V' H' I' -> tri E V' H' I' (f a) Q) ->
  tri E V H I (kbind m f) Q.
Proof using Type.
  intros Hm Hf s Hs. specialize (Hm s Hs). rewrite exec_kbind.
  destruct (exec m s) as [a w s'| | |]; simpl in *; try done.
  destruct Hm as (V' & H' & I' & Hr & HR). by eapply Hf.
Qed.

Lemma tri_mono {A} E V H I (m : K (fstate B) A) (P Q : _ -> _ -> _ -> _ -> Prop) :
  tri E V H I m P -> (forall a V' H' I', P a V' H' I' -> Q a V' H' I') -> tri E V H I m Q.
Proof using Type.
  intros Hm HPQ s Hs. specialize (Hm s Hs). destruct (exec m s); simpl in *; try done.
  destruct Hm as (V' & H' & I' & Hr & HR). eauto 10.
Qed.

Lemma tri_ret {A} E V H I (a : A) (Q : _ -> _ -> _ -> _ -> Prop) :
  Q a V H I -> tri E V H I (kret a) Q.
Proof using Type. intros HQ s Hs. simpl. eauto 10. Qed.

Lemma tri_panic {A} (E : string -> Prop) V H I msg (Q : A -> _ -> _ -> _ -> Prop) :
  E msg -> tri E V H I (panic msg) Q.
Proof using Type. by intros HE s Hs. Qed.

(** One rule per operation, for code in continuation form. *)
Section Rules.
Context {C : Type} (E : string -> Prop) (V : contents) (H : stack) (I : list inode).
Context (Q : C -> contents -> stack -> list inode -> Prop).

Lemma tri_quiet {A} (m : K (fstate B) A) a (f : A -> K (fstate B) C) :
  (forall s, exec m s = Done a tt s) -> tri E V H I (f a) Q -> tri E V H I (kbind m f) Q.
Proof using Type. intros Hm Hf s Hs. rewrite exec_kbind, Hm. by apply Hf. Qed.

Lemma tri_acquire l (f : unit -> K (fstate B) C) :
  tri E V H I (f tt) Q -> tri E V H I (kbind (acquire l) f) Q.
Proof using Type. by apply tri_quiet. Qed.
Lemma tri_release l (f : unit -> K (fstate B) C) :
  tri E V H I (f tt) Q -> tri E V H I (kbind (release l) f) Q.
Proof using Type. by apply tri_quiet. Qed.
Lemma tri_wakeup c (f : unit -> K (fstate B) C) :
  tri E V H I (f tt) Q -> tri E V H I (kbind (wakeup c) f) Q.
Proof using Type. by apply tri_quiet. Qed.
Lemma tri_kret {A} (a : A) (f : A -> K (fstate B) C) :
  tri E V H I (f a) Q -> tri E V H I (kbind (kret a) f) Q.
Proof using Type. by apply tri_quiet. Qed.

Lemma tri_assoc {A D} (m : K (fstate B) A) (g : A -> K (fstate B) D) (f : D -> K (fstate B) C) :
  tri E V H I (kbind m (fun a => kbind (g a) f)) Q -> tri E V H I (kbind (kbind m g) f) Q.
Proof using Type.
  intros Ht s Hs. specialize (Ht s Hs). rewrite !exec_kbind in *.
  destruct (exec m s); simpl in *; rewrite ?exec_kbind in *; done.
Qed.

Lemma tri_iget_ {A} ip (g : inode -> A) (f : A -> K (fstate B) C) :
  tri E V H I (f (g (nth ip I inode0))) Q -> tri E V H I (kbind (iget_ ip g) f) Q.
Proof using Type.
  intros Hf s Hs. specialize (Hf s Hs). destruct Hs as [_ HI].
  unfold iget_. rewrite exec_kbind, exec_gets. simpl. unfold ino. by rewrite HI.
Qed.

Lemma tri_gets_icache {A} (g : list inode -> A) (f : A -> K (fstate B) C) :
  tri E V H I (f (g I)) Q -> tri E V H I (kbind (gets (fun s => g (icache s))) f) Q.
Proof using Type.
  intros Hf s Hs. specialize (Hf s Hs). destruct Hs as [_ HI].
  rewrite exec_kbind, exec_gets. simpl. by rewrite HI.
Qed.

Lemma tri_iset ip (g : inode -> inode) (f : unit -> K (fstate B) C) :
  tri E V H (alter g ip I) (f tt) Q -> tri E V H I (kbind (iset ip g) f) Q.
Proof using Type.
  intros Hf s [Hb HI]. unfold iset. rewrite exec_kbind, exec_modify. apply Hf.
  split; [done|]. simpl. by rewrite HI.
Qed.

(** Block-layer code inside the file system. *)
Lemma tri_onblk {A} (m : K B A) (f : A -> K (fstate B) C) :
  (forall t, brepd t V H -> exists a t' V' H', exec m t = Done a tt t' /\ brepd t' V' H' /\
     tri E V' H' I (f a) Q) ->
  tri E V H I (kbind (onblk m) f) Q.
Proof using Type.
  intros Hm s [Hb HI]. destruct (Hm _ Hb) as (a & t' & V' & H' & Ex & Hb' & Hf).
  unfold onblk. rewrite exec_kbind, exec_zoom, Ex by done. simpl. by apply Hf.
Qed.

Lemma tri_onblk_bind {A D} (m : K B A) (g : A -> K B D) (f : D -> K (fstate B) C) :
  tri E V H I (kbind (onblk m) (fun a => kbind (onblk (g a)) f)) Q ->
  tri E V H I (kbind (onblk (kbind m g)) f) Q.
Proof using Type.
  intros Ht s Hs. specialize (Ht s Hs). unfold onblk in *.
  rewrite !exec_kbind, !exec_zoom, ?exec_kbind in * by done.
  destruct (exec m (blk s)); simpl in *; rewrite ?exec_kbind, ?exec_zoom in Ht by done; [|done..].
  simpl in *. by destruct (exec (g a) s0).
Qed.

Lemma tri_onblk_ret {A} (a : A) (f : A -> K (fstate B) C) :
  tri E V H I (f a) Q -> tri E V H I (kbind (onblk (kret a)) f) Q.
Proof using Type. intros Hf. apply tri_onblk. intros t Ht. exists a, t, V, H. auto. Qed.

Lemma tri_onblk_panic {A} msg (f : A -> K (fstate B) C) :
  E msg -> tri E V H I (kbind (onblk (panic msg)) f) Q.
Proof using Type. by intros HE s Hs. Qed.

Lemma tri_bread v n (f : nat -> K (fstate B) C) :
  good_sector v n -> (v, n) ∉ H.*1.*2 -> (length H < MAXHELD)%nat ->
  (forall b, tri E V ((b, (v, n), V v n) :: H) I (f b) Q) ->
  tri E V H I (kbind (onblk (bread v n)) f) Q.
Proof using BL.
  intros Hg Hn Hl Hf. apply tri_onblk. intros t (Hb & Hd & Hh).
  destruct (bread_law t V H.*1 v n) as (b & t' & Ex & Hb' & Hv & Hk & Hfr); [done..|by rewrite length_fmap|].
  exists b, t', V, ((b, (v, n), V v n) :: H). split_and!; [done| |apply Hf].
  split_and!; [done|by constructor|]. intros h [->|Hin]%elem_of_cons; [done|].
  rewrite <- Hh by done. apply (Hk _ h.1.2). rewrite <- surjective_pairing.
  by apply list_elem_of_fmap_2.
Qed.

Lemma tri_bdata b k d (f : bytes -> K (fstate B) C) H0 :
  H = (b, k, d) :: H0 -> tri E V H I (f d) Q -> tri E V H I (kbind (onblk (gets (bdata b))) f) Q.
Proof using Type.
  intros EH Hf. apply tri_onblk. intros t Ht. exists (bdata b t), t, V, H. split_and!; [done..|].
  destruct Ht as (_ & _ & Hh). specialize (Hh (b, k, d)). cbn in Hh. rewrite Hh; [done|].
  rewrite EH. left.
Qed.

Lemma tri_bget {A} b k d (g : bytes -> A) (f : A -> K (fstate B) C) H0 :
  H = (b, k, d) :: H0 -> tri E V H I (f (g d)) Q ->
  tri E V H I (kbind (onblk (gets (fun t => g (bdata b t)))) f) Q.
Proof using Type.
  intros EH Hf. apply tri_onblk. intros t Ht. exists (g (bdata b t)), t, V, H. split_and!; [done..|].
  destruct Ht as (_ & _ & Hh). specialize (Hh (b, k, d)). cbn in Hh. rewrite Hh; [done|].
  rewrite EH. left.
Qed.

Lemma tri_bset b k d d' (g : B -> B) (f : unit -> K (fstate B) C) H0 :
  H = (b, k, d) :: H0 -> (forall t, bdata b t = d -> g t = bset b d' t) -> length d' = 512%nat ->
  tri E V ((b, k, d') :: H0) I (f tt) Q -> tri E V H I (kbind (onblk (modify g)) f) Q.
Proof using BL.
  intros EH Hg Hl Hf. apply tri_onblk. intros t Ht.
  exists tt, (bset b d' t), V, ((b, k, d') :: H0). split_and!; [| |done].
  - rewrite exec_modify, Hg; [done|]. destruct Ht as (_ & _ & Hh). apply (Hh (b, k, d)).
    rewrite EH. left.
  - destruct Ht as (Hb & Hd & Hh). rewrite EH in *. cbn in Hb, Hd. destruct k as [v n].
    apply NoDup_cons in Hd as [Hn Hd].
    destruct (bset_law t V ((b, (v, n)) :: H0.*1) b v n d') as (H1 & H2 & H3); [done|left|done|].
    split_and!; [done|by constructor|]. intros h [->|Hin]%elem_of_cons; [done|].
    rewrite <- (Hh h) by by right. apply (H3 _ h.1.2).
    + right. rewrite <- surjective_pairing. by apply list_elem_of_fmap_2.
    + intros Eb. apply Hn. rewrite <- Eb. do 2 apply list_elem_of_fmap_2. done.
Qed.

Lemma tri_bwrite b v n d (f : unit -> K (fstate B) C) H0 :
  H = (b, (v, n), d) :: H0 ->
  tri E (upd_sector V v n d) H I (f tt) Q -> tri E V H I (kbind (onblk (bwrite b)) f) Q.
Proof using BL.
  intros EH Hf. apply tri_onblk. intros t (Hb & Hd & Hh).
  assert ((b, (v, n)) ∈ H.*1) as Hin by (rewrite EH; left).
  destruct (bwrite_law t V H.*1 b v n Hb Hin) as (t' & Ex & Hb' & Hk).
  exists tt, t', (upd_sector V v n d), H. split_and!; [done| |done].
  assert (bdata b t = d) as <- by (apply (Hh (b, (v, n), d)); rewrite EH; left).
  split_and!; [done..|]. intros h Hhin. rewrite <- (Hh h) by done. apply (Hk _ h.1.2).
  rewrite <- surjective_pairing. by apply list_elem_of_fmap_2.
Qed.

Lemma tri_brelse b v n d (f : unit -> K (fstate B) C) H0 :
  H = (b, (v, n), d) :: H0 -> d = V v n ->
  tri E V H0 I (f tt) Q -> tri E V H I (kbind (onblk (brelse b)) f) Q.
Proof using BL.
  intros EH EV Hf. apply tri_onblk. intros t (Hb & Hd & Hh). rewrite EH in *. cbn in Hb, Hd.
  destruct (brelse_law t V [] b v n H0.*1) as (t' & Ex & Hb' & Hk); [done| |].
  { rewrite <- EV. apply (Hh (b, (v, n), d)). left. }
  exists tt, t', V, H0. split_and!; [done| |done].
  apply NoDup_cons in Hd as [_ Hd]. split_and!; [done..|]. intros h Hhin.
  rewrite <- (Hh h) by by right. apply (Hk _ h.1.2). rewrite <- surjective_pairing.
  by apply list_elem_of_fmap_2.
Qed.

End Rules.

Lemma tri_tail {A} E V H I (m : K (fstate B) A) Q :
  tri E V H I (kbind m kret) Q -> tri E V H I m Q.
Proof using Type.
  intros Ht s Hs. specialize (Ht s Hs). rewrite exec_kbind in Ht.
  by destruct (exec m s).
Qed.

(** The block layer's sectors have 512 bytes. *)
Lemma tri_512 {A} E V H I (m : K (fstate B) A) Q :
  ((forall v n, good_sector v n -> length (V v n) = 512%nat) -> tri E V H I m Q) -> tri E V H I m Q.
Proof using BL.
  intros Hm s Hs. apply Hm; [|done]. intros v n Hg. destruct Hs as [(Hb & _) _].
  by eapply blocks_512.
Qed.

(** Contents that agree on the sectors there are. *)
Lemma tri_ext {A} E V V' H I (m : K (fstate B) A) Q :
  (forall v n, good_sector v n -> V v n = V' v n) -> tri E V' H I m Q -> tri E V H I m Q.
Proof using BL.
  intros HV Hm s [(Hb & Hd & Hh) HI]. apply Hm. split; [|done]. split_and!; [|done..].
  by eapply brep_ext.
Qed.
End Logic.

(** Apply the rule of the first operation; side conditions are left to the
    caller except the ones that are immediate. *)
Ltac tstep :=
  lazymatch goal with
  | |- tri _ _ _ _ (kret _) _ => apply tri_ret
  | |- tri _ _ _ _ (panic _) _ => apply tri_panic
  | |- tri _ _ _ _ (kbind (onblk (panic _)) _) _ => apply tri_onblk_panic
  | |- tri _ _ _ _ (kbind (kret _) _) _ => apply tri_kret
  | |- tri _ _ _ _ (kbind (acquire _) _) _ => apply tri_acquire
  | |- tri _ _ _ _ (kbind (release _) _) _ => apply tri_release
  | |- tri _ _ _ _ (kbind (wakeup _) _) _ => apply tri_wakeup
  | |- tri _ _ _ _ (kbind (iget_ _ _) _) _ => apply tri_iget_
  | |- tri _ _ _ _ (kbind (iset _ _) _) _ => apply tri_iset
  | |- tri _ _ _ _ (kbind (kbind _ _) _) _ => apply tri_assoc
  | |- tri _ _ _ _ (kbind (onblk (kbind _ _)) _) _ => apply tri_onblk_bind
  | |- tri _ _ _ _ (kbind (onblk (kret _)) _) _ => apply tri_onblk_ret
  | |- tri _ _ _ _ (kbind (onblk (bread _ _)) _) _ => apply tri_bread; [..|intros ?]
  | |- tri _ _ _ _ (kbind (onblk (gets (bdata _))) _) _ => eapply tri_bdata; [reflexivity|]
  | |- tri _ _ _ _ (kbind (onblk (bwrite _)) _) _ => eapply tri_bwrite; [reflexivity|]
  | |- tri _ _ _ _ (kbind (onblk (brelse _)) _) _ => eapply tri_brelse; [reflexivity|..]
  end; cbv beta zeta.
(** Bring the first operation to the front. *)
Ltac tnorm :=
  repeat lazymatch goal with
  | |- tri _ _ _ _ (kbind (kbind _ _) _) _ => apply tri_assoc
  | |- tri _ _ _ _ (kbind (onblk (kbind _ _)) _) _ => apply tri_onblk_bind
  end; cbv beta zeta.
End FsLogic.
