(* ===== verification/FsImage.v ===== *)
(** * FsImage: a small file system on a disk

    The state the witnesses of the file-system theorems start from: the buffer
    cache as binit leaves it, over a disk that holds a super block, an inode
    block, a bitmap and a root directory. *)
From S2P Require Import Prelude Kmonad Block Ide Bio FsLayout Fs FsLogic.
From stdpp Require Import options.

Module FsImage.
Export FsLogic Ide.RamDisk Bio.Cache.

Abbreviation disk := (Ide.bstate * ramdisk)%type.

Definition pad (x : bytes) : bytes := take 512 (x ++ replicate 512 0).

(** Disk 1: [size] blocks, 8 inodes, the bitmap [bm] in block 4; inode 1 is a
    directory with one block, 5, and inode 2 an empty file. *)
Definition image (size : Z) (bm : bytes) : contents := fun v n =>
  if negb (v =? 1) then pad []
  else if n =? 1 then pad (le_enc 4 size ++ le_enc 4 (size - 5) ++ le_enc 4 8)
  else if n =? 2 then
    pad (replicate 64 0 ++ enc_dinode (mkdinode T_DIR 0 0 1 32 (5 :: replicate 12 0)) ++
         enc_dinode (mkdinode T_FILE 0 0 1 0 (replicate 13 0)))
  else if n =? 4 then pad bm
  else if n =? 5 then
    pad (enc_dirent (mkdirent 1 (46 :: replicate 13 0)) ++
         enc_dirent (mkdirent 2 ([102; 111; 111] ++ replicate 11 0)))
  else pad [].

Definition boot (size : Z) (bm : bytes) (I : list inode) : fstate disk :=
  mkfs (Bio.cache0, mkrd (image size bm) 0 0 0 0) I.

Lemma length_pad x : length (pad x) = 512%nat.
Proof. unfold pad. rewrite length_take, length_app, length_replicate. lia. Qed.

Lemma frep_boot size bm I : frep (boot size bm I) (image size bm) [] I.
Proof.
  split; [|done]. split_and!; [|constructor|intros h Hh; by apply not_elem_of_nil in Hh].
  refine (crep_boot (mkrd (image size bm) 0 0 0 0) _). intros v n. simpl. unfold image. repeat case_match; apply length_pad.
Qed.

(** The contents a triple reaches, without the states. *)
Lemma tri_boot {A} E size bm I (m : K (fstate disk) A) Q :
  tri E (image size bm) [] I m Q -> ends E Q (exec m (boot size bm I)).
Proof. intros H. apply H, frep_boot. Qed.
End FsImage.
