(* ===== verification/FsAlloc.v ===== *)
(** * FsAlloc: the block allocator of fs.c

    balloc takes the first block whose bit in the on-disk bitmap is clear, bfree
    zeroes a block and clears its bit; both against any [BlockLayer]. *)
From S2P Require Import Prelude Kmonad Cstring Block FsLayout Fs FsLogic FsImage.
From stdpp Require Import options.

Module FsAlloc.
Export FsLogic FsImage.

(** A file system whose super block and bitmap the driver can address. *)
Record sb_ok (V : contents) (dev : Z) (sb : superblock) : Prop := {
  sb_dec : dec_sb (V dev 1) = sb;
  sb_dev : 0 <= dev <= 1;
  sb_size_pos : 0 < sb_size sb <= 134217728;
  sb_ninodes_pos : 0 <= sb_ninodes sb <= 134217728
}.

(** The bit of block [b]. *)
Definition bit_at (d : bytes) (bi : Z) : bool :=
  Z.testbit (byte_at d (Z.to_nat (bi / 8))) (bi mod 8).
Definition used (V : contents) (dev : Z) (sb : superblock) (b : Z) : bool :=
  bit_at (V dev (BBLOCK b (sb_ninodes sb))) (b mod BPB).

(** The number of bits in the bitmap blocks that balloc visits. *)
Definition bitmap_end (sb : superblock) : Z := BPB * ((sb_size sb + BPB - 1) / BPB).

Definition first_free (V : contents) (dev : Z) (sb : superblock) (b : Z) : Prop :=
  used V dev sb b = false /\ forall b', 0 <= b' < b -> used V dev sb b' = true.

Definition mark (V : contents) (dev : Z) (sb : superblock) (b : Z) : contents :=
  let n := BBLOCK b (sb_ninodes sb) in upd_sector V dev n (set_bit (V dev n) (b mod BPB)).
Definition unmark (V : contents) (dev : Z) (sb : superblock) (b : Z) : contents :=
  let n := BBLOCK b (sb_ninodes sb) in upd_sector V dev n (clear_bit (V dev n) (b mod BPB)).

Lemma BPB_eq : BPB = 4096. Proof. done. Qed.

Lemma BBLOCK_eq b n : BBLOCK b n = b / 4096 + n / 8 + 3.
Proof. done. Qed.

Lemma upd_sector_same V v n x : upd_sector V v n x v n = x.
Proof. unfold upd_sector. by rewrite !Z.eqb_refl. Qed.

Lemma upd_sector_other V v n x v' n' : (v', n') <> (v, n) -> upd_sector V v n x v' n' = V v' n'.
Proof.
  intros H. unfold upd_sector. destruct (Z.eqb_spec v' v), (Z.eqb_spec n' n); simpl; congruence.
Qed.

(** ** Bits of a bitmap block *)

Lemma length_set_bit d bi : length (set_bit d bi) = length d.
Proof. apply length_insert. Qed.
Lemma length_clear_bit d bi : length (clear_bit d bi) = length d.
Proof. apply length_insert. Qed.

Lemma land_bit x bi : (Z.land x (Z.shiftl 1 (bi mod 8)) =? 0) = negb (Z.testbit x (bi mod 8)).
Proof.
  pose proof (land_mask_0 x (bi mod 8) ltac:(dlia)) as H.
  destruct (Z.eqb_spec (Z.land x (Z.shiftl 1 (bi mod 8))) 0) as [E|E].
  - by rewrite (proj1 H E).
  - destruct (Z.testbit x (bi mod 8)); [done|]. by destruct E; apply H.
Qed.

Lemma div_mod_8_inj i j : i / 8 = j / 8 -> i mod 8 = j mod 8 -> i = j.
Proof. dlia. Qed.

Lemma bit_at_set d i j :
  0 <= i < 8 * Z.of_nat (length d) -> 0 <= j -> bit_at (set_bit d i) j = (bit_at d j || (j =? i)).
Proof.
  intros Hi Hj. unfold bit_at, set_bit.
  destruct (decide (i / 8 = j / 8)) as [E|E].
  - rewrite E, byte_at_insert_eq by dlia. rewrite testbit_set by dlia. f_equal.
    pose proof (div_mod_8_inj i j E).
    destruct (Z.eqb_spec (j mod 8) (i mod 8)), (Z.eqb_spec j i); try done; try congruence.
    by destruct n; symmetry; auto.
  - rewrite byte_at_insert_ne by dlia.
    destruct (Z.eqb_spec j i); [congruence|by rewrite orb_false_r].
Qed.

Lemma bit_at_clear d i j :
  0 <= i < 8 * Z.of_nat (length d) -> 0 <= j ->
  bit_at (clear_bit d i) j = (bit_at d j && negb (j =? i)).
Proof.
  intros Hi Hj. unfold bit_at, clear_bit.
  destruct (decide (i / 8 = j / 8)) as [E|E].
  - rewrite E, byte_at_insert_eq by dlia. rewrite testbit_clear by dlia. do 2 f_equal.
    pose proof (div_mod_8_inj i j E).
    destruct (Z.eqb_spec (j mod 8) (i mod 8)), (Z.eqb_spec j i); try done; try congruence.
    by destruct n; symmetry; auto.
  - rewrite byte_at_insert_ne by dlia.
    destruct (Z.eqb_spec j i); [congruence|by rewrite andb_true_r].
Qed.

Lemma free_bit_spec d cnt bi :
  match free_bit d cnt bi with
  | Some r => bi <= r < bi + Z.of_nat cnt /\ bit_at d r = false /\
              forall j, bi <= j < r -> bit_at d j = true
  | None => forall j, bi <= j < bi + Z.of_nat cnt -> bit_at d j = true
  end.
Proof.
  revert bi. induction cnt as [|cnt IH]; intros bi; cbn [free_bit]; [intros; lia|].
  rewrite land_bit. fold (bit_at d bi). specialize (IH (bi + 1)).
  destruct (bit_at d bi) eqn:E; simpl.
  - destruct (free_bit d cnt (bi + 1)) as [r|].
    + destruct IH as (H1 & H2 & H3). split_and!; [lia|lia|done|].
      intros j Hj. destruct (decide (j = bi)) as [->|]; [done|]. apply H3. lia.
    + intros j Hj. destruct (decide (j = bi)) as [->|]; [done|]. apply IH. lia.
  - split_and!; [lia|lia|done|]. intros; lia.
Qed.

Lemma same_bit_sector sb b b' :
  BBLOCK b (sb_ninodes sb) = BBLOCK b' (sb_ninodes sb) -> b mod BPB = b' mod BPB -> b = b'.
Proof. rewrite !BBLOCK_eq, BPB_eq. dlia. Qed.

Lemma bit_bound b : 0 <= b mod BPB < 8 * Z.of_nat 512.
Proof. rewrite BPB_eq. dlia. Qed.

Section Marks.
Context (V : contents) (dev : Z) (sb : superblock).

Lemma used_mark b b' :
  length (V dev (BBLOCK b (sb_ninodes sb))) = 512%nat ->
  used (mark V dev sb b) dev sb b' = (used V dev sb b' || (b' =? b)).
Proof using Type.
  intros Hl. unfold used, mark. pose proof (bit_bound b). pose proof (bit_bound b').
  destruct (decide (BBLOCK b' (sb_ninodes sb) = BBLOCK b (sb_ninodes sb))) as [E|E].
  - rewrite E, upd_sector_same, bit_at_set by lia. f_equal.
    pose proof (same_bit_sector sb b' b E).
    destruct (Z.eqb_spec (b' mod BPB) (b mod BPB)), (Z.eqb_spec b' b); try done; [|congruence].
    by destruct n; auto.
  - rewrite upd_sector_other by congruence.
    destruct (Z.eqb_spec b' b); [congruence|by rewrite orb_false_r].
Qed.

Lemma used_unmark b b' :
  length (V dev (BBLOCK b (sb_ninodes sb))) = 512%nat ->
  used (unmark V dev sb b) dev sb b' = (used V dev sb b' && negb (b' =? b)).
Proof using Type.
  intros Hl. unfold used, unmark. pose proof (bit_bound b). pose proof (bit_bound b').
  destruct (decide (BBLOCK b' (sb_ninodes sb) = BBLOCK b (sb_ninodes sb))) as [E|E].
  - rewrite E, upd_sector_same, bit_at_clear by lia. do 2 f_equal.
    pose proof (same_bit_sector sb b' b E).
    destruct (Z.eqb_spec (b' mod BPB) (b mod BPB)), (Z.eqb_spec b' b); try done; [|congruence].
    by destruct n; auto.
  - rewrite upd_sector_other by congruence.
    destruct (Z.eqb_spec b' b); [congruence|by rewrite andb_true_r].
Qed.

(** A bitmap sector is not the super block and is addressable. *)
Lemma bitmap_sector b :
  sb_ok V dev sb -> 0 <= b < bitmap_end sb ->
  good_sector dev (BBLOCK b (sb_ninodes sb)) /\ 3 <= BBLOCK b (sb_ninodes sb) <= 100000000.
Proof using Type.
  intros [_ ? ? ?]. unfold bitmap_end, good_sector. rewrite BBLOCK_eq, BPB_eq. dlia.
Qed.
End Marks.

Section Alloc.
Context {B : Type} `{BO : BlockOps B} `{BL : !BlockLayer B}.
Context (dev : Z) (sb : superblock).

(** The buffers held are neither the super block nor bitmap blocks, and there
    is room for two more. *)
Definition clear_of (H : stack) : Prop :=
  (length H + 2 <= MAXHELD)%nat /\ (dev, 1) ∉ H.*1.*2 /\
  forall b, 0 <= b < bitmap_end sb -> (dev, BBLOCK b (sb_ninodes sb)) ∉ H.*1.*2.

Lemma tri_readsb {C} E V H I (f : superblock -> K (fstate B) C) Q :
  sb_ok V dev sb -> clear_of H -> tri E V H I (f sb) Q ->
  tri E V H I (kbind (onblk (readsb dev)) f) Q.
Proof using BL.
  intros Hsb (Hl & H1 & _) Hf. unfold readsb. destruct Hsb as [Hd ? ? ?].
  tstep. tstep; [unfold good_sector; lia|done|unfold MAXHELD in *; lia|].
  do 2 tstep. tstep. { tstep; [done|]. tstep. by rewrite Hd. }
Qed.

Lemma balloc_loop_ok E V H I Q fuel b0 b :
  sb_ok V dev sb -> clear_of H ->
  0 <= b0 -> b0 mod BPB = 0 -> b0 <= b < bitmap_end sb ->
  used V dev sb b = false -> (forall b', b0 <= b' < b -> used V dev sb b' = true) ->
  (b - b0) / BPB < Z.of_nat fuel ->
  Q b (mark V dev sb b) H I ->
  tri E V H I (onblk (balloc_loop fuel dev sb b0)) Q.
Proof using BL.
  intros Hsb Hc. revert b0. induction fuel as [|fuel IH]; intros b0 Hb0 Hm Hb Hu Hall Hf HQ.
  { rewrite BPB_eq in *. dlia. }
  assert (good_sector dev (BBLOCK b0 (sb_ninodes sb)) /\ 3 <= BBLOCK b0 (sb_ninodes sb) <= 100000000)
    as [Hg _] by (apply (bitmap_sector V); [done|lia]).
  assert (b0 < sb_size sb) as Hlt.
  { destruct Hsb. unfold bitmap_end in Hb. rewrite BPB_eq in *. clear - Hb Hm Hb0. dlia. }
  cbn [balloc_loop]. rewrite (proj2 (Z.ltb_lt _ _) Hlt).
  apply tri_512. intros H512.
  apply tri_tail. tstep. tstep; [done|apply Hc; lia|destruct Hc; lia|]. tstep. tstep.
  assert (Hsame : forall j, 0 <= j < BPB -> used V dev sb (b0 + j) = bit_at (V dev (BBLOCK b0 (sb_ninodes sb))) j).
  { intros j Hj. unfold used. rewrite !BBLOCK_eq, BPB_eq in *. f_equal; [f_equal|]; clear - Hj Hm; dlia. }
  pose proof (free_bit_spec (V dev (BBLOCK b0 (sb_ninodes sb))) (Z.to_nat BPB) 0) as Hfb.
  destruct (free_bit _ _ 0) as [bi|].
  - destruct Hfb as (H1 & H2 & H3). rewrite BPB_eq in H1, Hsame.
    assert (b = b0 + bi) as ->.
    { destruct (Z.lt_trichotomy b (b0 + bi)) as [Hc'|[Hc'|Hc']]; [|done|].
      - specialize (Hsame (b - b0) ltac:(lia)). rewrite H3 in Hsame by lia.
        replace (b0 + (b - b0)) with b in Hsame by lia. congruence.
      - rewrite <- Hsame, Hall in H2 by lia. done. }
    assert (BBLOCK (b0 + bi) (sb_ninodes sb) = BBLOCK b0 (sb_ninodes sb) /\ (b0 + bi) mod BPB = bi)
      as [EB EM] by (rewrite !BBLOCK_eq, BPB_eq in *; clear - H1 Hm; dlia).
    tstep. eapply tri_bset; [reflexivity|done|by rewrite length_set_bit, H512|].
    tstep. tstep. tstep. tstep; [by rewrite upd_sector_same|]. tstep. tstep.
    unfold mark in HQ. rewrite EB, EM in HQ. done.
  - rewrite BPB_eq in Hfb, Hsame.
    assert (b0 + BPB <= b).
    { rewrite BPB_eq. destruct (decide (b < b0 + 4096)); [|lia].
      specialize (Hsame (b - b0) ltac:(lia)). rewrite Hfb in Hsame by lia.
      replace (b0 + (b - b0)) with b in Hsame by lia. congruence. }
    rewrite BPB_eq in *. tstep. tstep; [done|].
    apply (tri_bind _ _ _ _ _ _ Q); [|intros; by tstep].
    apply IH; [lia|clear - Hm; dlia|lia|done|intros; apply Hall; lia|clear - Hf; dlia|done].
Qed.

Lemma balloc_ok E V H I Q b :
  sb_ok V dev sb -> clear_of H -> 0 <= b < bitmap_end sb -> first_free V dev sb b ->
  Q b (mark V dev sb b) H I -> tri E V H I (onblk (balloc dev)) Q.
Proof using BL.
  intros Hsb Hc Hb [Hu Hall] HQ. apply tri_tail. unfold balloc. tstep.
  apply tri_readsb; [done..|].
  apply (tri_bind _ _ _ _ _ _ Q); [|intros; by tstep].
  eapply (balloc_loop_ok _ _ _ _ _ _ 0 b); try done.
  rewrite Z.sub_0_r.
  destruct Hsb. unfold bitmap_end in Hb. rewrite BPB_eq in *. rewrite Z2Nat.id by dlia.
  clear - Hb. dlia.
Qed.

(** The continuation form. *)
Lemma tri_balloc {C} E V H I (f : Z -> K (fstate B) C) Q b :
  sb_ok V dev sb -> clear_of H -> 0 <= b < bitmap_end sb -> first_free V dev sb b ->
  tri E (mark V dev sb b) H I (f b) Q -> tri E V H I (kbind (onblk (balloc dev)) f) Q.
Proof using BL.
  intros. eapply (tri_bind _ _ _ _ _ _ (fun b' V' H' I' => b' = b /\ V' = mark V dev sb b /\ H' = H /\ I' = I)).
  - by eapply balloc_ok.
  - by intros ? ? ? ? (-> & -> & -> & ->).
Qed.

Lemma tri_bzero {C} E V H I (f : unit -> K (fstate B) C) Q n :
  good_sector dev n -> (dev, n) ∉ H.*1.*2 -> (length H < MAXHELD)%nat ->
  tri E (upd_sector V dev n (replicate 512 0)) H I (f tt) Q ->
  tri E V H I (kbind (onblk (bzero dev n)) f) Q.
Proof using BL.
  intros Hg Hn Hl Hf. unfold bzero. tstep. tstep; [done..|].
  tstep. eapply tri_bset; [reflexivity|done|done|]. tstep. tstep.
  tstep; [by rewrite upd_sector_same|done].
Qed.

(** What bfree leaves: the block zeroed and its bit clear. *)
Definition freed (V : contents) (b : Z) : contents :=
  unmark (upd_sector V dev b (replicate 512 0)) dev sb b.

Lemma tri_bfree {C} E V H I (f : unit -> K (fstate B) C) Q b :
  sb_ok V dev sb -> clear_of H ->
  0 <= b < bitmap_end sb -> b <> 1 -> (forall b', 0 <= b' < bitmap_end sb -> b <> BBLOCK b' (sb_ninodes sb)) ->
  (dev, b) ∉ H.*1.*2 -> used V dev sb b = true ->
  tri E (freed V b) H I (f tt) Q ->
  tri E V H I (kbind (onblk (bfree dev b)) f) Q.
Proof using BL.
  intros Hsb Hc Hb Hb1 Hbb Hn Hu Hf. pose proof Hsb as [? ? ? ?].
  apply tri_512. intros H512. unfold bfree. tstep.
  assert (good_sector dev b) as Hgb.
  { unfold good_sector, bitmap_end in *. rewrite BPB_eq in *. dlia. }
  assert (upd_sector V dev b (replicate 512 0) dev (BBLOCK b (sb_ninodes sb)) =
          V dev (BBLOCK b (sb_ninodes sb))) as EB.
  { apply upd_sector_other. intros [= Eb]. by apply (Hbb b). }
  apply tri_bzero; [done..|destruct Hc; lia|]. tstep.
  apply tri_readsb; [|done|].
  { split; try done. rewrite upd_sector_other by congruence. done. }
  tstep. tstep; [by apply (bitmap_sector V)|apply Hc; lia|destruct Hc; lia|].
  rewrite EB. tstep. tstep.
  rewrite land_bit. unfold used, bit_at in Hu. rewrite Hu. simpl.
  tstep. eapply tri_bset; [reflexivity|done| |].
  { rewrite length_clear_bit. apply H512. by apply (bitmap_sector V). }
  tstep. tstep. tstep; [by rewrite upd_sector_same|].
  unfold freed, unmark in Hf. rewrite EB in Hf. done.
Qed.

Lemma balloc_loop_full V H I fuel b0 :
  sb_ok V dev sb -> clear_of H -> 0 <= b0 -> b0 mod BPB = 0 ->
  (forall b, 0 <= b < bitmap_end sb -> used V dev sb b = true) ->
  sb_size sb <= b0 + BPB * (Z.of_nat fuel - 1) -> (0 < fuel)%nat ->
  tri (eq "balloc: out of blocks"%string) V H I (onblk (balloc_loop fuel dev sb b0)) (fun _ _ _ _ => False).
Proof using BL.
  intros Hsb Hc Hb0 Hm Hall. revert b0 Hb0 Hm.
  induction fuel as [|fuel IH]; intros b0 Hb0 Hm Hf Hpos; [lia|]. cbn [balloc_loop].
  apply tri_tail. destruct (Z.ltb_spec b0 (sb_size sb)) as [Hlt|Hge]; [|by tstep].
  assert (0 <= b0 < bitmap_end sb /\ b0 + BPB <= bitmap_end sb) as [Hb Hb'].
  { unfold bitmap_end. rewrite BPB_eq in *. clear - Hlt Hm Hb0. dlia. }
  tstep. tstep; [by apply (bitmap_sector V)|by apply Hc|destruct Hc; lia|]. tstep. tstep.
  pose proof (free_bit_spec (V dev (BBLOCK b0 (sb_ninodes sb))) (Z.to_nat BPB) 0) as Hfb.
  destruct (free_bit _ _ 0) as [bi|].
  - destruct Hfb as (H1 & H2 & _). rewrite BPB_eq in *. specialize (Hall (b0 + bi) ltac:(lia)).
    unfold used in Hall. rewrite !BBLOCK_eq, BPB_eq in *.
    replace ((b0 + bi) / 4096) with (b0 / 4096) in Hall by (clear - H1 Hm; dlia).
    replace ((b0 + bi) mod 4096) with bi in Hall by (clear - H1 Hm; dlia). congruence.
  - tstep. tstep; [done|].
    apply (tri_bind _ _ _ _ _ _ (fun _ _ _ _ => False)); [|by intros].
    apply IH; rewrite BPB_eq in *; [lia|clear - Hm; dlia|lia|lia].
Qed.

(** balloc is first fit: with a free block in the bitmap it returns the least
    one, sets exactly that block's bit on disk and changes no other sector.  This
    holds whatever buffers the caller holds, as long as they are not the ones
    balloc reads. *)
Theorem balloc_first_fit V H I b :
  sb_ok V dev sb -> clear_of H -> 0 <= b < bitmap_end sb -> first_free V dev sb b ->
  tri (fun _ => False) V H I (onblk (balloc dev)) (fun r V' H' I' =>
    r = b /\ H' = H /\ I' = I /\
    (forall b', used V' dev sb b' = (used V dev sb b' || (b' =? b))) /\
    forall v n, (v, n) <> (dev, BBLOCK b (sb_ninodes sb)) -> V' v n = V v n).
Proof using BL.
  intros Hsb Hc Hb Hf. apply tri_512. intros H512. eapply balloc_ok; try done.
  split_and!; try done.
  - intros b'. apply used_mark, H512. by apply (bitmap_sector V).
  - intros v n Hn. by apply upd_sector_other.
Qed.

(** When every bit of the bitmap is set balloc panics, after having read
    every bitmap block. *)
Theorem balloc_out_of_blocks V H I :
  sb_ok V dev sb -> clear_of H ->
  (forall b, 0 <= b < bitmap_end sb -> used V dev sb b = true) ->
  tri (eq "balloc: out of blocks"%string) V H I (onblk (balloc dev)) (fun _ _ _ _ => False).
Proof using BL.
  intros Hsb Hc Hall. apply tri_tail. unfold balloc. tstep. apply tri_readsb; [done..|].
  apply (tri_bind _ _ _ _ _ _ (fun _ _ _ _ => False)); [|by intros].
  apply balloc_loop_full; try done; destruct Hsb; rewrite BPB_eq in *; [|dlia].
  rewrite Z2Nat.id by dlia. dlia.
Qed.

(** The scan does not stop at sb.size: on a file system whose blocks are all
    in use and whose size is not a multiple of BPB, balloc hands out block number
    sb.size, one past the last block of the disk, instead of panicking. *)
Theorem balloc_past_end V H I :
  sb_ok V dev sb -> clear_of H -> sb_size sb mod BPB <> 0 ->
  (forall b, 0 <= b < sb_size sb -> used V dev sb b = true) ->
  used V dev sb (sb_size sb) = false ->
  tri (fun _ => False) V H I (onblk (balloc dev)) (fun r _ _ _ => r = sb_size sb).
Proof using BL.
  intros Hsb Hc Hm Hall Hu. eapply (balloc_ok _ _ _ _ _ (sb_size sb)); try done.
  destruct Hsb. unfold bitmap_end. rewrite BPB_eq in *. dlia.
Qed.

Lemma used_zeroed V b b' :
  b <> BBLOCK b' (sb_ninodes sb) ->
  used (upd_sector V dev b (replicate 512 0)) dev sb b' = used V dev sb b'.
Proof using Type. intros Hne. unfold used. rewrite upd_sector_other; [done|congruence]. Qed.

Lemma bfree_panics V H I b :
  sb_ok V dev sb -> clear_of H ->
  0 <= b < bitmap_end sb -> b <> 1 -> (forall b', 0 <= b' < bitmap_end sb -> b <> BBLOCK b' (sb_ninodes sb)) ->
  (dev, b) ∉ H.*1.*2 -> used V dev sb b = false ->
  tri (eq "freeing free block"%string) V H I (onblk (bfree dev b)) (fun _ _ _ _ => False).
Proof using BL.
  intros Hsb Hc Hb Hb1 Hbb Hn Hu. apply tri_tail. unfold bfree. tstep.
  assert (good_sector dev b) as Hgb.
  { destruct Hsb. unfold good_sector, bitmap_end in *. rewrite BPB_eq in *. dlia. }
  apply tri_bzero; [done..|destruct Hc; lia|]. tstep.
  apply tri_readsb; [|done|].
  { destruct Hsb. split; try done. rewrite upd_sector_other by congruence. done. }
  tstep. tstep; [by apply (bitmap_sector V)|by apply Hc|destruct Hc; lia|].
  rewrite upd_sector_other by (intros [= Eb]; by apply (Hbb b)). tstep. tstep.
  rewrite land_bit. unfold used, bit_at in Hu. rewrite Hu. simpl. by tstep.
Qed.

(** bfree of a block in use zeroes the block, clears its bit and changes
    no other sector; bfree of a free block panics. *)
Theorem bfree_spec V H I b :
  sb_ok V dev sb -> clear_of H ->
  0 <= b < bitmap_end sb -> b <> 1 ->
  (forall b', 0 <= b' < bitmap_end sb -> b <> BBLOCK b' (sb_ninodes sb)) ->
  (dev, b) ∉ H.*1.*2 ->
  if used V dev sb b then
    tri (fun _ => False) V H I (onblk (bfree dev b)) (fun _ V' H' I' =>
      H' = H /\ I' = I /\ V' dev b = replicate 512 0 /\
      (forall b', 0 <= b' < bitmap_end sb ->
        used V' dev sb b' = (used V dev sb b' && negb (b' =? b))) /\
      forall v n, (v, n) <> (dev, b) -> (v, n) <> (dev, BBLOCK b (sb_ninodes sb)) -> V' v n = V v n)
  else
    tri (eq "freeing free block"%string) V H I (onblk (bfree dev b)) (fun _ _ _ _ => False).
Proof using BL.
  intros Hsb Hc Hb Hb1 Hbb Hn. destruct (used V dev sb b) eqn:Hu; [|by apply bfree_panics].
  apply tri_512. intros H512. apply tri_tail. apply tri_bfree; try done. tstep.
  assert ((dev, b) <> (dev, BBLOCK b (sb_ninodes sb))) as Hne by (intros [= Eb]; by apply (Hbb b)).
  split_and!; try done.
  - unfold freed, unmark. by rewrite upd_sector_other, upd_sector_same.
  - intros b' Hb'. unfold freed. rewrite used_unmark, used_zeroed; auto.
    rewrite upd_sector_other by congruence. apply H512. by apply (bitmap_sector V).
  - intros v n H1 H2. unfold freed, unmark. by rewrite !upd_sector_other.
Qed.
End Alloc.

(** ** Witnesses, on the disk of FsImage *)

Section Witness.
Lemma clear_of_nil dev sb : clear_of dev sb [].
Proof.
  split; [unfold MAXHELD; simpl; lia|]. split; [|intros b _]; apply not_elem_of_nil.
Qed.

Lemma all_below (P : Z -> bool) n :
  forallb P (seqZ 0 n) = true -> forall b, 0 <= b < n -> P b = true.
Proof. rewrite forallb_forall. intros H b Hb. apply H. apply list_elem_of_In, elem_of_seqZ. lia. Qed.

Lemma balloc_first_fit_witness :
  ends (fun _ => False) (fun r _ _ _ => r = 6) (exec (onblk (balloc 1)) (boot 100 [63] [])).
Proof.
  apply tri_boot. eapply tri_mono.
  - apply (balloc_first_fit 1 (mksb 100 95 8) (image 100 [63]) [] [] 6); [|apply clear_of_nil|done|].
    + split; vm_compute; done.
    + split; [by vm_compute|]. by apply all_below; vm_compute.
  - by intros ? ? ? ? [-> _].
Defined.

Lemma balloc_out_of_blocks_witness :
  exec (onblk (balloc 1)) (boot 100 (replicate 512 255) []) = Panicked "balloc: out of blocks".
Proof.
  pose proof (balloc_out_of_blocks 1 (mksb 100 95 8) (image 100 (replicate 512 255)) [] []) as H.
  apply tri_boot in H; [|split; vm_compute; done|apply clear_of_nil|by apply all_below; vm_compute].
  destruct (exec _ _) as [? ? ?| | |]; simpl in H; [|by subst|done..].
  by destruct H as (? & ? & ? & _ & []).
Defined.

Lemma balloc_past_end_witness :
  ends (fun _ => False) (fun r _ _ _ => r = 6) (exec (onblk (balloc 1)) (boot 6 [63] [])).
Proof.
  apply tri_boot. apply (balloc_past_end 1 (mksb 6 1 8) (image 6 [63]) [] []);
    [split; vm_compute; done|apply clear_of_nil|done|by apply all_below; vm_compute|by vm_compute].
Defined.

Lemma bfree_spec_witness :
  ends (fun _ => False) (fun _ V' _ _ => used V' 1 (mksb 100 95 8) 5 = false)
    (exec (onblk (bfree 1 5)) (boot 100 [63] [])).
Proof.
  apply tri_boot. eapply tri_mono.
  - apply (bfree_spec 1 (mksb 100 95 8) (image 100 [63]) [] [] 5);
      [split; vm_compute; done|apply clear_of_nil|done|done| |apply not_elem_of_nil].
    intros b Hb. rewrite BBLOCK_eq. change (0 <= b < 4096) in Hb. simpl. dlia.
  - intros ? ? ? ? (_ & _ & _ & H & _). rewrite H by done. by vm_compute.
Defined.
End Witness.

End FsAlloc.
