(* ===== verification/FsFile.v ===== *)
(** * FsFile: the contents of a file

    bmap, readi, writei and iupdate of fs.c against an abstract file: a function
    from byte offsets to bytes.  The invariant is that free blocks are zero (bfree
    clears them, balloc does not), that the metadata blocks are in use, and that
    the block numbers of the inode are distinct blocks in use. *)
From S2P Require Import Prelude Kmonad Cstring Block FsLayout Fs FsLogic FsImage FsAlloc.
From stdpp Require Import options.

Module FsFile.
Export FsAlloc.

Definition set_addrs (l : list Z) (ip : inode) : inode :=
  mkinode (idev ip) (inum ip) (iref ip) (iflags ip) (itype ip) (imajor ip) (iminor ip)
    (inlink ip) (isize ip) l.

Lemma alter_lookup {A} (l : list A) i x (g : A -> A) :
  l !! i = Some x -> alter g i l = <[i := g x]> l.
Proof.
  revert i. induction l as [|y r IH]; intros [|i] H; simpl in *; try done; [congruence|].
  f_equal. by apply IH.
Qed.

Section File.
Context (dev : Z) (sb : superblock).

(** The first block after the bitmap. *)
Definition meta_end : Z := BBLOCK (sb_size sb - 1) (sb_ninodes sb) + 1.

Record fs_ok (V : contents) : Prop := {
  fs_sb : sb_ok V dev sb;
  fs_meta : meta_end <= sb_size sb;
  fs_free : forall b, 0 <= b < sb_size sb -> used V dev sb b = false ->
    meta_end <= b /\ V dev b = replicate 512 0
}.

(** The block numbers of an inode: 12 direct ones, the indirect block, and the
    128 entries of the indirect block. *)
Definition entries (d : bytes) : list Z := (fun k => get32 d (4 * k)) <$> seq 0 128.
Definition slots (V : contents) (x : inode) : list Z :=
  iaddrs x ++ (if addr x 12 =? 0 then replicate 128 0 else entries (V dev (addr x 12))).

Definition slot_of (n : nat) : nat := if (n <? 12)%nat then n else S n.
Definition blockno (V : contents) (x : inode) (n : nat) : Z := nth (slot_of n) (slots V x) 0.
Definition fdata (V : contents) (x : inode) (n : nat) : bytes :=
  if blockno V x n =? 0 then replicate 512 0 else V dev (blockno V x n).

(** The byte at offset [i] of the file. *)
Definition fbyte (V : contents) (x : inode) (i : Z) : Z :=
  byte_at (fdata V x (Z.to_nat (i / BSIZE))) (Z.to_nat (i mod BSIZE)).

Definition owns (V : contents) (x : inode) (b : Z) : Prop := b <> 0 /\ b ∈ slots V x.

Record wf_file (V : contents) (x : inode) : Prop := {
  wf_dev : idev x = dev;
  wf_len : length (iaddrs x) = 13%nat;
  wf_inj : forall i j a, slots V x !! i = Some a -> slots V x !! j = Some a -> a <> 0 -> i = j;
  wf_own : forall b, owns V x b -> meta_end <= b < sb_size sb /\ used V dev sb b = true
}.

(** Sectors that belong to nobody who writes through [x]. *)
Definition is_bitmap (n : Z) : Prop := exists b, 0 <= b < bitmap_end sb /\ n = BBLOCK b (sb_ninodes sb).
Definition foreign (V : contents) (x : inode) (v n : Z) : Prop :=
  v <> dev \/ (0 <= n < sb_size sb /\ used V dev sb n = true /\ ~ is_bitmap n /\ ~ owns V x n).

(** What writing to a file may do to the disk and to the inode. *)
Record evolve (V : contents) (x : inode) (V' : contents) (x' : inode) : Prop := {
  ev_meta : x' = set_addrs (iaddrs x') x;
  ev_fs : fs_ok V';
  ev_wf : wf_file V' x';
  ev_blk : forall n, (n < 140)%nat -> blockno V x n <> 0 -> blockno V' x' n = blockno V x n;
  ev_frame : forall v n, foreign V x v n -> V' v n = V v n;
  ev_used : forall b, 0 <= b < sb_size sb -> used V dev sb b = true -> used V' dev sb b = true;
  ev_own : forall b, owns V' x' b -> owns V x b \/ used V dev sb b = false
}.

(** The number of free blocks. *)
Definition nfree (V : contents) : nat :=
  length (filter (fun b => used V dev sb b = false) (seqZ 0 (sb_size sb))).

Lemma meta_pos V : sb_ok V dev sb -> 4 <= meta_end.
Proof using Type. intros [_ ? ? ?]. unfold meta_end. rewrite BBLOCK_eq. dlia. Qed.

Lemma evolve_refl V x : fs_ok V -> wf_file V x -> evolve V x V x.
Proof using Type. intros. split; try done; [by destruct x|by left]. Qed.

Lemma evolve_trans V x V1 x1 V2 x2 :
  evolve V x V1 x1 -> evolve V1 x1 V2 x2 -> evolve V x V2 x2.
Proof using Type.
  intros [M1 F1 W1 B1 R1 U1 O1] [M2 F2 W2 B2 R2 U2 O2]. split; try done.
  - etransitivity; [apply M2|]. by rewrite M1.
  - intros n Hn Hb. rewrite B2, B1; auto. by rewrite B1.
  - intros v n Hf. rewrite R2, R1; auto. destruct Hf as [?|(H0 & H1 & H2 & H3)]; [by left|right].
    split; [done|]. split; [auto|]. split; [done|]. intros Hn. destruct (O1 n Hn); [done|congruence].
  - auto.
  - intros b Hb. destruct (O2 b Hb) as [Hb1|Hb1]; [auto|]. right.
    destruct (used V dev sb b) eqn:E; [|done].
    destruct (wf_own _ _ W2 b Hb) as [Hr _]. pose proof (meta_pos V2 (fs_sb _ F2)).
    rewrite U1 in Hb1; [done|lia|done].
Qed.

Lemma length_slots V x : length (iaddrs x) = 13%nat -> length (slots V x) = 141%nat.
Proof using Type.
  intros H. unfold slots, entries. rewrite length_app, H. destruct (addr x 12 =? 0);
    by rewrite ?length_fmap, ?length_seq, ?length_replicate.
Qed.

Lemma slots_addr V x k :
  length (iaddrs x) = 13%nat -> (k <= 12)%nat -> slots V x !! k = Some (addr x k).
Proof using Type.
  intros H Hk. unfold slots, addr. rewrite lookup_app_l by lia.
  destruct (lookup_lt_is_Some_2 (iaddrs x) k) as [a Ha]; [lia|]. rewrite Ha. f_equal.
  symmetry. by apply nth_lookup_Some.
Qed.

Lemma slots_12 V x : length (iaddrs x) = 13%nat -> slots V x !! 12%nat = Some (addr x 12).
Proof using Type. intros. by apply slots_addr. Qed.

Lemma slot_of_lt n : (n < 140)%nat -> (slot_of n < 141)%nat /\ slot_of n <> 12%nat.
Proof using Type. unfold slot_of. destruct (Nat.ltb_spec n 12); lia. Qed.

Lemma slot_of_inj n m : slot_of n = slot_of m -> n = m.
Proof using Type. unfold slot_of. destruct (Nat.ltb_spec n 12), (Nat.ltb_spec m 12); lia. Qed.

Lemma blockno_slot V x n :
  length (iaddrs x) = 13%nat -> (n < 140)%nat -> slots V x !! slot_of n = Some (blockno V x n).
Proof using Type.
  intros Hl Hn. destruct (slot_of_lt n Hn) as [Hs _]. pose proof (length_slots V x Hl).
  destruct (lookup_lt_is_Some_2 (slots V x) (slot_of n)) as [a Ha]; [lia|].
  unfold blockno. rewrite Ha. f_equal. symmetry. by apply nth_lookup_Some.
Qed.

Lemma blockno_owns V x n :
  wf_file V x -> (n < 140)%nat -> blockno V x n <> 0 -> owns V x (blockno V x n).
Proof using Type.
  intros Hw Hn Hb. split; [done|]. eapply list_elem_of_lookup_2, blockno_slot; [apply Hw|done].
Qed.

Lemma meta_bitmap V b :
  sb_ok V dev sb -> 0 <= b < bitmap_end sb -> 3 <= BBLOCK b (sb_ninodes sb) < meta_end.
Proof using Type.
  intros [_ ? ? ?]. unfold meta_end, bitmap_end. rewrite !BBLOCK_eq, BPB_eq. dlia.
Qed.

Lemma size_bitmap_end V : sb_ok V dev sb -> sb_size sb <= bitmap_end sb.
Proof using Type. intros [_ ? ? ?]. unfold bitmap_end. rewrite BPB_eq. dlia. Qed.

(** ** Free blocks *)

Lemma least_below (P : Z -> bool) (n : nat) :
  (exists b, 0 <= b < Z.of_nat n /\ P b = true) ->
  exists b, 0 <= b < Z.of_nat n /\ P b = true /\ forall b', 0 <= b' < b -> P b' = false.
Proof using Type.
  induction n as [|n IH]; intros (b & Hb & HP); [lia|].
  destruct (existsb P (seqZ 0 (Z.of_nat n))) eqn:E.
  - apply existsb_exists in E as (c & Hc & HPc). apply list_elem_of_In, elem_of_seqZ in Hc.
    destruct IH as (d & Hd & HPd & Hl); [exists c; split; [lia|done]|]. exists d. split_and!; [lia..|done|done].
  - exists b. split_and!; [lia..|done|]. intros b' Hb'.
    destruct (P b') eqn:Eb; [|done]. rewrite <- E. symmetry. apply existsb_exists. exists b'.
    split; [|done]. apply list_elem_of_In, elem_of_seqZ. lia.
Qed.

Lemma free_exists V : (0 < nfree V)%nat -> exists b, 0 <= b < sb_size sb /\ first_free V dev sb b.
Proof using Type.
  unfold nfree. intros Hn.
  destruct (filter _ _) as [|b r] eqn:E; [simpl in Hn; lia|].
  assert (b ∈ filter (fun b => used V dev sb b = false) (seqZ 0 (sb_size sb))) as Hb by (rewrite E; left).
  apply list_elem_of_filter in Hb as [Hu Hb]. apply elem_of_seqZ in Hb.
  destruct (least_below (fun b => negb (used V dev sb b)) (Z.to_nat (sb_size sb))) as (c & Hc & Hcu & Hl).
  { exists b. split; [lia|]. by rewrite Hu. }
  exists c. split; [lia|]. split; [by apply negb_true_iff|].
  intros b' Hb'. apply negb_false_iff. by apply Hl.
Qed.

Lemma filter_remove_one (P P' : Z -> Prop) `{!forall x, Decision (P x)} `{!forall x, Decision (P' x)} l b :
  NoDup l -> b ∈ l -> P b -> (forall x, x ∈ l -> P' x <-> P x /\ x <> b) ->
  S (length (filter P' l)) = length (filter P l).
Proof using Type.
  intros Hnd Hin HP. induction Hnd as [|x r Hx Hnd IH]; intros HP'; [by apply not_elem_of_nil in Hin|].
  assert (HPr : forall y, y ∈ r -> P' y <-> P y /\ y <> b) by (intros y Hy; apply HP'; by right).
  pose proof (HP' x ltac:(left)) as HPx. clear HP'. apply elem_of_cons in Hin as [<-|Hin].
  - rewrite (filter_cons_True P) by done. rewrite (filter_cons_False P') by tauto.
    simpl. f_equal. f_equal. clear IH HPx Hnd. induction r as [|y r IH]; [done|].
    apply not_elem_of_cons in Hx as [Hy Hx]. pose proof (HPr y ltac:(left)) as HPy.
    assert (filter P' r = filter P r) as IH' by (apply IH; [done|intros; apply HPr; by right]).
    destruct (decide (P y)).
    + rewrite !filter_cons_True by (rewrite ?HPy; auto). by f_equal.
    + rewrite !filter_cons_False by (rewrite ?HPy; tauto). done.
  - assert (x <> b) by (intros ->; done). destruct (decide (P x)).
    + rewrite !filter_cons_True by (rewrite ?HPx; done). simpl. by rewrite IH.
    + rewrite !filter_cons_False by (rewrite ?HPx; tauto). auto.
Qed.

Lemma nfree_mark V V' b :
  0 <= b < sb_size sb -> used V dev sb b = false ->
  (forall b', 0 <= b' < sb_size sb -> used V' dev sb b' = (used V dev sb b' || (b' =? b))) ->
  S (nfree V') = nfree V.
Proof using Type.
  intros Hb Hu Hm. apply (filter_remove_one _ _ _ b); [apply NoDup_seqZ|apply elem_of_seqZ; lia|done|].
  intros x Hx. apply elem_of_seqZ in Hx. rewrite Hm by lia. destruct (Z.eqb_spec x b); rewrite ?orb_true_r, ?orb_false_r; [|tauto].
  subst. split; [done|]. by intros [].
Qed.

(** ** Giving the file a fresh block *)

Section Fresh.
Context (V V' : contents) (x x' : inode) (b : Z) (k : nat).
Context (Hfs : fs_ok V) (Hwf : wf_file V x).
Context (Hb : 0 <= b < sb_size sb) (Hfree : used V dev sb b = false).
Context (Hk : slots V x !! k = Some 0).
Context (Hs' : slots V' x' = <[k := b]> (slots V x)).
Context (Hm : x' = set_addrs (iaddrs x') x) (Hl : length (iaddrs x') = 13%nat).
(** The sectors that change are the block's bitmap sector and, for an indirect
    entry, the indirect block. *)
Context (HV : forall v n, (v, n) <> (dev, BBLOCK b (sb_ninodes sb)) ->
  (addr x 12 <> 0 -> (v, n) <> (dev, addr x 12)) -> V' v n = V v n).
Context (Hu : forall b', 0 <= b' < sb_size sb ->
  used V' dev sb b' = (used V dev sb b' || (b' =? b))).

Lemma fresh_nonzero : b <> 0.
Proof using Hfs Hb Hfree.
  destruct (fs_free _ Hfs b Hb Hfree) as [H1 _]. pose proof (meta_pos V (fs_sb _ Hfs)) as H2.
  clear - H1 H2. lia.
Qed.

Lemma ind_owned : addr x 12 <> 0 -> owns V x (addr x 12).
Proof using Hwf. intros H. split; [done|]. eapply list_elem_of_lookup_2, slots_12, Hwf. Qed.

(** Sectors that are neither bitmap sectors nor the indirect block do not change. *)
Lemma fresh_same n : meta_end <= n \/ n = 1 -> n <> addr x 12 -> V' dev n = V dev n.
Proof using Hfs HV Hb.
  intros Hn Ha. apply HV; [|congruence]. intros [= E].
  pose proof (meta_bitmap V b (fs_sb _ Hfs)) as Hmb.
  pose proof (size_bitmap_end V (fs_sb _ Hfs)) as He. clear - Hmb He Hn E Hb. lia.
Qed.

Lemma fresh_owns c : owns V' x' c -> c = b \/ owns V x c.
Proof using Hs'.
  intros [H1 H2]. rewrite Hs' in H2. apply list_elem_of_lookup in H2 as [j Hj].
  destruct (decide (j = k)) as [->|].
  - left. pose proof (lookup_lt_Some _ _ _ Hj) as Hlt. rewrite length_insert in Hlt.
    rewrite list_lookup_insert_eq in Hj by done. congruence.
  - rewrite list_lookup_insert_ne in Hj by done. right. split; [done|].
    by eapply list_elem_of_lookup_2.
Qed.

Lemma fresh_sb : sb_ok V' dev sb.
Proof using Hfs HV Hwf Hb.
  destruct (fs_sb _ Hfs) as [H1 H2 H3 H4]. split; [|done..].
  rewrite (fresh_same 1); [done|by right|]. intros E.
  destruct (wf_own _ _ Hwf (addr x 12)) as [Hr _]; [apply ind_owned; by rewrite <- E|].
  pose proof (meta_pos V (fs_sb _ Hfs)) as H5. clear - Hr H5 E. lia.
Qed.

Lemma fresh_not_owned : ~ owns V x b.
Proof using Hwf Hfree. intros H. destruct (wf_own _ _ Hwf b H). congruence. Qed.

Lemma fresh_zero : V' dev b = replicate 512 0.
Proof using Hfs HV Hb Hfree Hwf.
  destruct (fs_free _ Hfs b Hb Hfree) as [H1 H2]. rewrite fresh_same; [done|by left|].
  intros E. apply fresh_not_owned. rewrite E. apply ind_owned. rewrite <- E. apply fresh_nonzero.
Qed.

Lemma fresh_wf : wf_file V' x'.
Proof using Type*.
  destruct Hwf as [W1 W2 W3 W4]. split; [by rewrite Hm|done| |].
  - intros i j a Hi Hj Ha. rewrite Hs' in Hi, Hj.
    assert (Hin : forall i, slots V x !! i = Some b -> False).
    { intros i' Hi'. apply fresh_not_owned. split; [apply fresh_nonzero|].
      by eapply list_elem_of_lookup_2. }
    apply list_lookup_insert_Some in Hi, Hj. destruct Hi as [(<- & <- & _)|[Hi1 Hi]],
      Hj as [(<- & E & _)|[Hj1 Hj]]; try done; try (by apply Hin in Hi); try (by apply Hin in Hj).
    + by subst; apply Hin in Hi.
    + by eapply W3.
  - intros c Hc. destruct (fresh_owns c Hc) as [->|Ho].
    + rewrite Hu, Z.eqb_refl, orb_true_r by done. split; [|done]. split; [|lia].
      by apply (fs_free _ Hfs).
    + destruct (W4 c Ho) as [Hr Huc]. pose proof (meta_pos V (fs_sb _ Hfs)).
      rewrite Hu, Huc by lia. done.
Qed.

Lemma fresh_evolve : evolve V x V' x' /\ S (nfree V') = nfree V.
Proof using Type*.
  split; [|by apply (nfree_mark V V' b)]. split; try done.
  - split; [apply fresh_sb|apply Hfs|]. intros c Hc Huc. rewrite Hu in Huc by done.
    apply orb_false_iff in Huc as [Huc Hne]. apply Z.eqb_neq in Hne.
    destruct (fs_free _ Hfs c Hc Huc) as [H1 H2]. split; [done|].
    rewrite fresh_same; [done|by left|]. intros E.
    destruct (decide (addr x 12 = 0)) as [E0|E0].
    + pose proof (meta_pos V (fs_sb _ Hfs)). lia.
    + destruct (wf_own _ _ Hwf c) as [_ Hcu]; [rewrite E; by apply ind_owned|congruence].
  - apply fresh_wf.
  - intros n Hn Hnz. pose proof (blockno_slot V x n (wf_len _ _ Hwf) Hn) as Hb1.
    pose proof (blockno_slot V' x' n Hl Hn) as Hb2. rewrite Hs' in Hb2.
    rewrite list_lookup_insert_ne in Hb2 by congruence. congruence.
  - intros v n Hf. destruct Hf as [Hv|(_ & H1 & H2 & H3)]; [apply HV; intros; congruence|].
    apply HV.
    + intros [= -> ->]. apply H2. exists b. split; [|done].
      pose proof (size_bitmap_end V (fs_sb _ Hfs)). lia.
    + intros Ha [= -> ->]. apply H3. by apply ind_owned.
  - intros c Hr Hc. by rewrite Hu, Hc.
  - intros c Hc. destruct (fresh_owns c Hc) as [->|Ho]; auto.
Qed.

(** The contents of the file do not change: a hole reads as the zero block. *)
Lemma fresh_fdata n : (n < 140)%nat -> fdata V' x' n = fdata V x n.
Proof using Type*.
  intros Hn. pose proof (blockno_slot V x n (wf_len _ _ Hwf) Hn) as Hb1.
  pose proof (blockno_slot V' x' n Hl Hn) as Hb2. rewrite Hs' in Hb2. unfold fdata.
  destruct (decide (slot_of n = k)) as [<-|Hne].
  - rewrite list_lookup_insert_eq in Hb2.
    + injection Hb2 as <-. rewrite Hb1 in Hk. injection Hk as ->.
      destruct (Z.eqb_spec b 0) as [E|_]; [by destruct fresh_nonzero|]. apply fresh_zero.
    + by eapply lookup_lt_Some.
  - rewrite list_lookup_insert_ne in Hb2 by done.
    assert (blockno V' x' n = blockno V x n) as -> by congruence.
    destruct (Z.eqb_spec (blockno V x n) 0) as [|Hnz]; [done|].
    apply fresh_same.
    + left. apply (wf_own _ _ Hwf). by apply blockno_owns.
    + intros E. pose proof (slots_12 V x (wf_len _ _ Hwf)) as H12. rewrite <- E in H12.
      destruct (slot_of_lt n Hn) as [_ Hs12]. apply Hs12. exact (wf_inj _ _ Hwf _ _ _ Hb1 H12 Hnz).
Qed.
End Fresh.

Lemma set_addr_set_addrs k b x : set_addr k b x = set_addrs (iaddrs (set_addr k b x)) x.
Proof using Type. done. Qed.

Lemma addr_set_addr_eq k b x : (k < length (iaddrs x))%nat -> addr (set_addr k b x) k = b.
Proof using Type.
  intros H. unfold addr. simpl. apply nth_lookup_Some. by apply list_lookup_insert_eq.
Qed.

Lemma addr_set_addr_ne k j b x : k <> j -> addr (set_addr k b x) j = addr x j.
Proof using Type.
  intros H. unfold addr. simpl. rewrite !nth_lookup. by rewrite list_lookup_insert_ne.
Qed.

Lemma slots_set_direct V V' x k b :
  (k < 12)%nat -> length (iaddrs x) = 13%nat ->
  (addr x 12 <> 0 -> V' dev (addr x 12) = V dev (addr x 12)) ->
  slots V' (set_addr k b x) = <[k := b]> (slots V x).
Proof using Type.
  intros Hk Hl HV. unfold slots. rewrite addr_set_addr_ne by lia. simpl iaddrs.
  rewrite insert_app_l by lia. f_equal.
  destruct (Z.eqb_spec (addr x 12) 0); [done|]. by rewrite HV.
Qed.

Lemma slots_set_ind V V' x b :
  length (iaddrs x) = 13%nat -> addr x 12 = 0 -> V' dev b = replicate 512 0 ->
  slots V' (set_addr 12 b x) = <[12%nat := b]> (slots V x).
Proof using Type.
  intros Hl H0 HV. unfold slots. rewrite addr_set_addr_eq by lia. simpl iaddrs. rewrite H0.
  rewrite insert_app_l by lia. f_equal. destruct (b =? 0); [done|]. rewrite HV. by vm_compute.
Qed.

Lemma get32_put32_other d j k b :
  (4 * j + 4 <= length d)%nat -> j <> k -> get32 (put32 d (4 * j) b) (4 * k) = get32 d (4 * k).
Proof using Type.
  intros Hd Hne. unfold get32, put32. rewrite slice_splice_other; [done|by rewrite length_le_enc|].
  rewrite length_le_enc. lia.
Qed.

Lemma slots_set_entry V V' x j b :
  length (iaddrs x) = 13%nat -> addr x 12 <> 0 -> length (V dev (addr x 12)) = 512%nat ->
  (j < 128)%nat -> is_u32 b -> V' dev (addr x 12) = put32 (V dev (addr x 12)) (4 * j) b ->
  slots V' x = <[(13 + j)%nat := b]> (slots V x).
Proof using Type.
  intros Hl H0 H512 Hj Hb HV. unfold slots. destruct (Z.eqb_spec (addr x 12) 0); [done|].
  rewrite insert_app_r_alt by lia. f_equal. rewrite HV, Hl, Nat.add_comm, Nat.add_sub. unfold entries.
  apply list_eq. intros i. destruct (decide (i = j)) as [->|Hne].
  - rewrite list_lookup_insert_eq by (by rewrite length_fmap, length_seq).
    rewrite list_lookup_fmap, lookup_seq_lt by lia. simpl. f_equal. rewrite get32_put32 by lia.
    by apply u32_small.
  - rewrite list_lookup_insert_ne by done. rewrite !list_lookup_fmap.
    destruct (decide (i < 128)%nat); [|by rewrite lookup_seq_ge by lia].
    rewrite lookup_seq_lt by lia. cbn [fmap option_fmap option_map]. f_equal.
    apply get32_put32_other; lia.
Qed.

(** ** bmap *)

(** The blocks left, counting the indirect block the file already has. *)
Definition credit (V : contents) (x : inode) : nat :=
  nfree V + (if addr x 12 =? 0 then 0 else 1).

Record mapped (V : contents) (x : inode) (n : nat) (r : Z) (V' : contents) (x' : inode) : Prop := {
  mp_evolve : evolve V x V' x';
  mp_data : forall m, (m < 140)%nat -> fdata V' x' m = fdata V x m;
  mp_block : blockno V' x' n = r;
  mp_nonzero : r <> 0;
  mp_free : (credit V x <= credit V' x' + 1)%nat;
  mp_same : blockno V x n <> 0 -> V' = V /\ x' = x;
  mp_other : forall m, (m < 140)%nat -> m <> n -> blockno V' x' m = blockno V x m
}.

(** Block numbers after one slot was filled. *)
Lemma blockno_insert V V' x x' n c :
  length (iaddrs x) = 13%nat -> (n < 140)%nat ->
  slots V' x' = <[slot_of n := c]> (slots V x) -> blockno V' x' n = c.
Proof using Type.
  intros Hl Hn Hs. unfold blockno. rewrite Hs. apply nth_lookup_Some.
  apply list_lookup_insert_eq. rewrite length_slots by done. by apply slot_of_lt.
Qed.

Lemma blockno_insert_other V V' x x' k m c :
  slot_of m <> k -> slots V' x' = <[k := c]> (slots V x) -> blockno V' x' m = blockno V x m.
Proof using Type.
  intros Hne Hs. unfold blockno. rewrite Hs. rewrite !nth_lookup. by rewrite list_lookup_insert_ne.
Qed.

Lemma mapped_refl V x n :
  fs_ok V -> wf_file V x -> blockno V x n <> 0 -> mapped V x n (blockno V x n) V x.
Proof using Type. intros. split; try done; [by apply evolve_refl|lia]. Qed.

Section Bmap.
Context {B : Type} `{BO : BlockOps B} `{BL : !BlockLayer B}.

(** A data block may be held while balloc runs. *)
Lemma clear_of_data V b n d : sb_ok V dev sb -> meta_end <= n -> clear_of dev sb [(b, (dev, n), d)].
Proof using Type.
  intros Hsb Hn. pose proof (meta_pos V Hsb) as Hp. split_and!.
  - unfold MAXHELD. simpl. lia.
  - simpl. intros [= E]%list_elem_of_singleton. lia.
  - intros c Hc. simpl. intros [= E]%list_elem_of_singleton.
    pose proof (meta_bitmap V c Hsb Hc). lia.
Qed.

Lemma good_data V n : sb_ok V dev sb -> meta_end <= n < sb_size sb -> good_sector dev n.
Proof using Type. intros Hsb Hn. pose proof (meta_pos V Hsb). destruct Hsb. unfold good_sector. lia. Qed.

Lemma nth_entries d k : (k < 128)%nat -> nth k (entries d) 0 = get32 d (4 * k).
Proof using Type.
  intros H. unfold entries. apply nth_lookup_Some. rewrite list_lookup_fmap, lookup_seq_lt by done. done.
Qed.

Lemma blockno_indirect V x n :
  length (iaddrs x) = 13%nat -> addr x 12 <> 0 -> (12 <= n < 140)%nat ->
  blockno V x n = get32 (V dev (addr x 12)) (4 * (n - 12)).
Proof using Type.
  intros Hl H0 Hn. unfold blockno, slot_of, slots. destruct (Nat.ltb_spec n 12); [lia|].
  destruct (Z.eqb_spec (addr x 12) 0); [done|]. rewrite app_nth2 by lia.
  rewrite Hl. replace (S n - 13)%nat with (n - 12)%nat by lia. apply nth_entries. lia.
Qed.

(** A fresh block as entry [n] of the file, in the indirect block. *)
Lemma fresh_entry V x n c :
  fs_ok V -> wf_file V x -> addr x 12 <> 0 -> (12 <= n < 140)%nat ->
  length (V dev (addr x 12)) = 512%nat -> length (V dev (BBLOCK c (sb_ninodes sb))) = 512%nat ->
  0 <= c < sb_size sb -> first_free V dev sb c -> blockno V x n = 0 ->
  let V' := upd_sector (mark V dev sb c) dev (addr x 12)
              (put32 (V dev (addr x 12)) (4 * (n - 12)) c) in
  mapped V x n c V' x /\ S (nfree V') = nfree V.
Proof using Type.
  intros Hfs Hwf H0 Hn H512 H512' Hc [Hfree _] Hz V'. pose proof (fs_sb _ Hfs) as Hsb.
  pose proof (wf_len _ _ Hwf) as Hl.
  destruct (wf_own _ _ Hwf (addr x 12)) as [Hrng _]; [by apply ind_owned|].
  pose proof (size_bitmap_end V Hsb) as Hbe.
  assert (Hind : forall b', 0 <= b' < bitmap_end sb -> addr x 12 <> BBLOCK b' (sb_ninodes sb)).
  { intros b' Hb' E. pose proof (meta_bitmap V b' Hsb Hb'). lia. }
  assert (Hs : slots V' x = <[(13 + (n - 12))%nat := c]> (slots V x)).
  { apply slots_set_entry; try done; [lia| |]; [unfold is_u32; destruct Hsb; lia|].
    unfold V'. by rewrite upd_sector_same. }
  assert (Hk : slots V x !! (13 + (n - 12))%nat = Some 0).
  { rewrite <- Hz. replace (13 + (n - 12))%nat with (slot_of n).
    - apply blockno_slot; [done|lia].
    - unfold slot_of. destruct (Nat.ltb_spec n 12); lia. }
  assert (HV : forall v m, (v, m) <> (dev, BBLOCK c (sb_ninodes sb)) ->
            (addr x 12 <> 0 -> (v, m) <> (dev, addr x 12)) -> V' v m = V v m).
  { intros v m H1 H2. unfold V', mark. rewrite !upd_sector_other; auto. }
  assert (Hu : forall b', 0 <= b' < sb_size sb -> used V' dev sb b' = (used V dev sb b' || (b' =? c))).
  { intros b' Hb'. rewrite <- used_mark by done. unfold V', used.
    rewrite upd_sector_other; [done|]. intros [= E]. by apply (Hind b'); [lia|]. }
  pose proof (fresh_evolve V V' x x c _ Hfs Hwf Hc Hfree Hk Hs ltac:(by destruct x) Hl HV Hu) as [He Hf].
  assert (13 + (n - 12) = slot_of n)%nat as En by (unfold slot_of; destruct (Nat.ltb_spec n 12); lia).
  split; [|done]. split; try done.
  - intros m Hm. refine (fresh_fdata V V' x x c _ Hfs Hwf Hc Hfree Hk Hs _ Hl HV Hu m Hm). by destruct x.
  - apply (blockno_insert V _ x); [done|lia|]. by rewrite <- En.
  - by apply (fresh_nonzero V c Hfs Hc).
  - unfold credit. lia.
  - intros m Hm Hne. eapply blockno_insert_other; [|exact Hs]. rewrite En. intros E. by apply Hne, slot_of_inj.
Qed.

(** A fresh block as direct block [k], or as the indirect block. *)
Lemma fresh_addr V x k c :
  fs_ok V -> wf_file V x -> (k <= 12)%nat -> addr x k = 0 ->
  length (V dev (BBLOCK c (sb_ninodes sb))) = 512%nat ->
  0 <= c < sb_size sb -> first_free V dev sb c ->
  let V' := mark V dev sb c in let x' := set_addr k c x in
  evolve V x V' x' /\ (forall m, (m < 140)%nat -> fdata V' x' m = fdata V x m) /\
  slots V' x' = <[k := c]> (slots V x) /\ S (nfree V') = nfree V.
Proof using Type.
  intros Hfs Hwf Hk Hz H512 Hc [Hfree _] V' x'. pose proof (fs_sb _ Hfs) as Hsb.
  pose proof (wf_len _ _ Hwf) as Hl. pose proof (size_bitmap_end V Hsb) as Hbe.
  assert (Hother : forall v m, (v, m) <> (dev, BBLOCK c (sb_ninodes sb)) -> V' v m = V v m).
  { intros v m H1. unfold V', mark. by rewrite upd_sector_other. }
  assert (Hdata : forall m, meta_end <= m -> V' dev m = V dev m).
  { intros m Hm. apply Hother. intros [= E]. pose proof (meta_bitmap V c Hsb). lia. }
  assert (Hs : slots V' x' = <[k := c]> (slots V x)).
  { destruct (decide (k = 12%nat)) as [->|].
    - destruct (fs_free _ Hfs c Hc Hfree) as [H1 H2]. apply slots_set_ind; try done. by rewrite Hdata.
    - apply slots_set_direct; [lia|done|]. intros Ha. apply Hdata.
      apply (wf_own _ _ Hwf). by apply ind_owned. }
  assert (Hk0 : slots V x !! k = Some 0) by (rewrite <- Hz; by apply slots_addr).
  assert (Hl' : length (iaddrs x') = 13%nat) by (unfold x'; simpl; by rewrite length_insert).
  assert (Hu : forall b', 0 <= b' < sb_size sb -> used V' dev sb b' = (used V dev sb b' || (b' =? c)))
    by (intros; by apply used_mark).
  destruct (fresh_evolve V V' x x' c k Hfs Hwf Hc Hfree Hk0 Hs eq_refl Hl') as [He Hf]; [by intros; apply Hother|done|].
  split_and!; try done.
  intros m Hm. by apply (fresh_fdata V V' x x' c k); try done; intros; apply Hother.
Qed.

Lemma tri_bmap_entry {C} E V I x (n : nat) (f : Z -> K (fstate B) C) Q :
  fs_ok V -> wf_file V x -> addr x 12 <> 0 -> (12 <= n < 140)%nat ->
  (blockno V x n = 0 -> (0 < nfree V)%nat) ->
  (forall r V', mapped V x n r V' x -> tri E V' [] I (f r) Q) ->
  tri E V [] I (kbind (onblk (bmap_entry dev (addr x 12) (Z.of_nat n - 12))) f) Q.
Proof using BL.
  intros Hfs Hwf H0 Hn Hnf HQ. pose proof (fs_sb _ Hfs) as Hsb. pose proof (wf_len _ _ Hwf) as Hl.
  destruct (wf_own _ _ Hwf (addr x 12)) as [Hrng Huse]; [by apply ind_owned|].
  pose proof (good_data V _ Hsb Hrng) as Hg. pose proof (blockno_indirect V x n Hl H0 Hn) as Eb.
  apply tri_512. intros H512. pose proof (H512 _ _ Hg) as Hl512. unfold bmap_entry. tstep.
  tstep; [done|apply not_elem_of_nil|unfold MAXHELD; simpl; lia|]. tstep. tstep.
  replace (Z.to_nat (4 * (Z.of_nat n - 12))) with (4 * (n - 12))%nat by lia. rewrite <- Eb.
  destruct (Z.eqb_spec (blockno V x n) 0) as [Ez|Enz].
  - destruct (free_exists V (Hnf Ez)) as (c & Hc & Hff). tstep.
    apply tri_balloc with (sb := sb) (b := c); [done|by eapply clear_of_data; [|apply Hrng]| |done|].
    { pose proof (size_bitmap_end V Hsb). lia. }
    assert (is_u32 c) as Hcu by (unfold is_u32; destruct Hsb; lia).
    tstep. eapply tri_bset; [reflexivity|by intros t ->|rewrite length_put32; lia|].
    tstep. tstep. tstep. tstep; [by rewrite upd_sector_same|]. tstep.
    destruct (fresh_entry V x n c) as (HM & Hfr); try done.
    { apply H512. apply (bitmap_sector V); [done|]. pose proof (size_bitmap_end V Hsb). lia. }
    by apply HQ.
  - tstep. tstep; [done|]. tstep. apply HQ. by apply mapped_refl.
Qed.

Lemma mapped_trans V x V1 x1 n r V' x' :
  blockno V x n = 0 -> evolve V x V1 x1 -> (forall m, (m < 140)%nat -> fdata V1 x1 m = fdata V x m) ->
  credit V1 x1 = credit V x -> (forall m, blockno V1 x1 m = blockno V x m) ->
  mapped V1 x1 n r V' x' -> mapped V x n r V' x'.
Proof using Type.
  intros Hz He Hd Hf Hb [M1 M2 M3 M4 M5 M6 M7]. split; try done.
  - by eapply evolve_trans.
  - intros m Hm. by rewrite M2, Hd.
  - lia.
  - intros m Hm Hne. by rewrite M7, Hb.
Qed.

Lemma blockno_direct V x n :
  length (iaddrs x) = 13%nat -> (n < 12)%nat -> blockno V x n = addr x n.
Proof using Type.
  intros Hl Hn. unfold blockno, slot_of. destruct (Nat.ltb_spec n 12); [|lia].
  apply nth_lookup_Some. apply slots_addr; [done|lia].
Qed.

Lemma blockno_no_ind V x n :
  length (iaddrs x) = 13%nat -> (12 <= n < 140)%nat -> addr x 12 = 0 -> blockno V x n = 0.
Proof using Type.
  intros Hl Hn H0. unfold blockno, slot_of, slots. destruct (Nat.ltb_spec n 12); [lia|].
  rewrite H0, Z.eqb_refl, app_nth2 by lia. apply nth_lookup_Some, lookup_replicate_2. lia.
Qed.

(** A fresh direct block. *)
Lemma fresh_direct V x n c :
  fs_ok V -> wf_file V x -> (n < 12)%nat -> blockno V x n = 0 ->
  length (V dev (BBLOCK c (sb_ninodes sb))) = 512%nat ->
  0 <= c < sb_size sb -> first_free V dev sb c ->
  mapped V x n c (mark V dev sb c) (set_addr n c x) /\ S (nfree (mark V dev sb c)) = nfree V.
Proof using Type.
  intros Hfs Hwf Hn Hz H512 Hc Hff. pose proof (wf_len _ _ Hwf) as Hl. pose proof Hz as Hz'.
  rewrite blockno_direct in Hz' by done.
  destruct (fresh_addr V x n c) as (He & Hdat & Hs & Hfr); try done; [lia|].
  assert (slot_of n = n) as En by (unfold slot_of; destruct (Nat.ltb_spec n 12); lia).
  split; [|done]. split; try done.
  - apply (blockno_insert V _ x); [done|lia|]. by rewrite En.
  - by apply (fresh_nonzero V c Hfs Hc), Hff.
  - unfold credit. rewrite addr_set_addr_ne by lia. lia.
  - intros m Hm Hne. eapply blockno_insert_other; [|exact Hs]. intros E. apply Hne, slot_of_inj. by rewrite En.
Qed.

(** A fresh indirect block, and then what [f] does with it. *)
Lemma fresh_indirect V x n c r V' x' :
  fs_ok V -> wf_file V x -> (12 <= n < 140)%nat -> addr x 12 = 0 ->
  length (V dev (BBLOCK c (sb_ninodes sb))) = 512%nat ->
  0 <= c < sb_size sb -> first_free V dev sb c ->
  mapped (mark V dev sb c) (set_addr 12 c x) n r V' x' -> mapped V x n r V' x'.
Proof using Type.
  intros Hfs Hwf Hn Ez H512 Hc Hff. pose proof (wf_len _ _ Hwf) as Hl.
  destruct (fresh_addr V x 12 c) as (He & Hdat & Hs & Hfr); try done.
  pose proof (fresh_nonzero V c Hfs Hc (proj1 Hff)) as Hcnz.
  apply mapped_trans; try done; [by apply blockno_no_ind| |].
  - unfold credit. rewrite addr_set_addr_eq, Ez, Z.eqb_refl by lia. destruct (Z.eqb_spec c 0); [done|lia].
  - intros m. eapply blockno_insert_other; [|exact Hs]. unfold slot_of. destruct (Nat.ltb_spec m 12); lia.
Qed.

(** bmap in continuation form: it returns the block of the file's block [n],
    allocating what is missing, and does not change the contents of the file. *)
Lemma tri_bmap {C} E V I ip x (n : nat) (f : Z -> K (fstate B) C) Q :
  I !! ip = Some x -> fs_ok V -> wf_file V x -> (n < 140)%nat ->
  (blockno V x n = 0 -> (2 <= credit V x)%nat) ->
  (forall r V' x', mapped V x n r V' x' -> tri E V' [] (<[ip := x']> I) (f r) Q) ->
  tri E V [] I (kbind (bmap ip (Z.of_nat n)) f) Q.
Proof using BL.
  intros HI Hfs Hwf Hn Hnf Hf. pose proof (fs_sb _ Hfs) as Hsb. pose proof (wf_len _ _ Hwf) as Hl.
  assert (nth ip I inode0 = x) as Ex by by apply nth_lookup_Some.
  apply tri_512. intros H512.
  assert (H512' : forall c, 0 <= c < sb_size sb -> length (V dev (BBLOCK c (sb_ninodes sb))) = 512%nat).
  { intros c Hc. apply H512, (bitmap_sector V); [done|]. pose proof (size_bitmap_end V Hsb). lia. }
  unfold bmap. tstep. tstep. rewrite Ex, (wf_dev _ _ Hwf). unfold NDIRECT.
  destruct (Z.ltb_spec (Z.of_nat n) 12) as [Hd|Hd].
  - tstep. tstep. rewrite Ex, Nat2Z.id, <- (blockno_direct V x n) by (done || lia).
    destruct (Z.eqb_spec (blockno V x n) 0) as [Ez|Enz].
    + destruct (free_exists V) as (c & Hc & Hff);
        [specialize (Hnf Ez); unfold credit in Hnf; case_match; lia|].
      tstep. apply tri_balloc with (sb := sb) (b := c);
        [done|apply clear_of_nil|pose proof (size_bitmap_end V Hsb); lia|done|].
      destruct (fresh_direct V x n c) as (HM & _); try done; [lia|auto|].
      tstep. tstep. rewrite (alter_lookup I ip x) by done. tstep. by apply Hf.
    + tstep. pose proof (mapped_refl V x n Hfs Hwf Enz) as HM.
      specialize (Hf _ _ _ HM). by rewrite list_insert_id in Hf.
  - unfold NINDIRECT. change (BSIZE / 4) with 128. rewrite (proj2 (Z.ltb_lt (Z.of_nat n - 12) 128)) by lia.
    tstep. tstep. rewrite Ex. tstep. destruct (Z.eqb_spec (addr x 12) 0) as [Ez|Enz].
    + assert (blockno V x n = 0) as Ebz by (apply blockno_no_ind; (done || lia)).
      assert (2 <= nfree V)%nat as Hnf2.
      { specialize (Hnf Ebz). unfold credit in Hnf. rewrite Ez, Z.eqb_refl in Hnf. lia. }
      destruct (free_exists V) as (c & Hc & Hff); [lia|].
      tstep. apply tri_balloc with (sb := sb) (b := c);
        [done|apply clear_of_nil|pose proof (size_bitmap_end V Hsb); lia|done|].
      destruct (fresh_addr V x 12 c) as (He & Hdat & Hs & Hfr); try done; [auto|].
      pose proof (fresh_nonzero V c Hfs Hc (proj1 Hff)) as Hcnz.
      tstep. tstep. rewrite (alter_lookup I ip x) by done. tstep.
      assert (addr (set_addr 12 c x) 12 = c) as Ea by (apply addr_set_addr_eq; lia).
      replace (bmap_entry dev c (Z.of_nat n - 12))
        with (bmap_entry dev (addr (set_addr 12 c x) 12) (Z.of_nat n - 12)) by (by rewrite Ea).
      apply (tri_bmap_entry _ _ _ (set_addr 12 c x) n);
        [apply He|apply He|by rewrite Ea|lia|lia|].
      intros r V' HM. apply Hf. eapply (fresh_indirect V x n c); try done; [lia|auto].
    + tstep. apply (tri_bmap_entry _ _ _ x n); try done; [lia| |].
      { intros Hz. specialize (Hnf Hz). unfold credit in Hnf.
        destruct (Z.eqb_spec (addr x 12) 0); [done|lia]. }
      intros r V' HM. specialize (Hf _ _ _ HM). by rewrite list_insert_id in Hf.
Qed.
End Bmap.

(** ** readi *)

(** No holes, and a size that the inode can hold. *)
Definition dense (V : contents) (x : inode) : Prop :=
  0 <= isize x <= 71680 /\ forall n, 512 * Z.of_nat n < isize x -> blockno V x n <> 0.

Lemma slice_fbyte V x off m :
  0 <= off -> 0 <= m <= 512 - off mod 512 -> length (fdata V x (Z.to_nat (off / 512))) = 512%nat ->
  slice (fdata V x (Z.to_nat (off / 512))) (Z.to_nat (off mod 512)) (Z.to_nat m) =
  fbyte V x <$> seqZ off m.
Proof using Type.
  intros Ho Hm Hl. apply list_eq. intros i. rewrite list_lookup_fmap.
  destruct (decide (i < Z.to_nat m)%nat) as [Hi|Hi].
  - rewrite lookup_slice by done. rewrite lookup_seqZ_lt by lia. simpl. unfold fbyte, BSIZE.
    replace ((off + Z.of_nat i) / 512) with (off / 512) by (clear - Hi Hm; dlia).
    replace ((off + Z.of_nat i) mod 512) with (off mod 512 + Z.of_nat i) by (clear - Hi Hm; dlia).
    replace (Z.to_nat (off mod 512 + Z.of_nat i)) with (Z.to_nat (off mod 512) + i)%nat by (clear; dlia).
    unfold byte_at. destruct (lookup_lt_is_Some_2 (fdata V x (Z.to_nat (off / 512))) (Z.to_nat (off mod 512) + i)) as [c Hc].
    { rewrite Hl. clear - Hi Hm. dlia. }
    rewrite Hc. f_equal. symmetry. by apply nth_lookup_Some.
  - rewrite lookup_seqZ_ge by lia. apply lookup_ge_None. unfold slice. rewrite length_take. lia.
Qed.

Section Read.
Context {B : Type} `{BO : BlockOps B} `{BL : !BlockLayer B}.

Lemma tri_bind_eq {A C} E V H I (m : K (fstate B) A) (f : A -> K (fstate B) C) Q a V1 H1 I1 :
  tri E V H I m (fun a' V' H' I' => a' = a /\ V' = V1 /\ H' = H1 /\ I' = I1) ->
  tri E V1 H1 I1 (f a) Q -> tri E V H I (kbind m f) Q.
Proof using Type.
  intros Hm Hf. eapply tri_bind; [exact Hm|]. by intros ? ? ? ? (-> & -> & -> & ->).
Qed.

Lemma fdata_512 V x n :
  (forall v n, good_sector v n -> length (V v n) = 512%nat) ->
  fs_ok V -> wf_file V x -> (n < 140)%nat -> length (fdata V x n) = 512%nat.
Proof using Type.
  intros H512 Hfs Hwf Hn. unfold fdata. destruct (Z.eqb_spec (blockno V x n) 0); [done|].
  apply H512. eapply good_data; [apply Hfs|]. apply (wf_own _ _ Hwf). by apply blockno_owns.
Qed.

(** Reading the block that bmap gave. *)
Lemma good_mapped V x n : fs_ok V -> wf_file V x -> (n < 140)%nat -> blockno V x n <> 0 ->
  good_sector dev (blockno V x n).
Proof using Type.
  intros Hfs Hwf Hn Hnz. eapply good_data; [apply Hfs|]. apply (wf_own _ _ Hwf). by apply blockno_owns.
Qed.

Lemma readi_loop_ok E V I ip x k off n tot dst :
  I !! ip = Some x -> fs_ok V -> wf_file V x -> dense V x ->
  0 <= off -> 0 <= tot <= n -> off + (n - tot) <= isize x ->
  (0 < k)%nat -> (tot < n -> 141 <= off / 512 + Z.of_nat k) ->
  tri E V [] I (readi_loop k ip off n tot dst) (fun r V' H' I' =>
    r = dst ++ (fbyte V x <$> seqZ off (n - tot)) /\ V' = V /\ H' = [] /\ I' = I).
Proof using BL.
  intros HI Hfs Hwf Hde Ho Ht Hs Hk0 Hk. apply tri_512. intros H512.
  revert off tot dst Ho Ht Hs Hk0 Hk. induction k as [|k IH]; intros off tot dst Ho Ht Hs Hk0 Hk; [lia|].
  cbn [readi_loop]. destruct (Z.ltb_spec tot n) as [Hlt|Hge].
  - specialize (Hk Hlt). assert (0 <= off / 512 < 140) as Hbn by (destruct Hde; clear - Ho Hs Hlt H; dlia).
    assert (blockno V x (Z.to_nat (off / 512)) <> 0) as Hnz.
    { apply Hde. rewrite Z2Nat.id by lia. clear - Ho Hs Hlt. dlia. }
    assert (nth ip I inode0 = x) as Ex by by apply nth_lookup_Some.
    tstep. rewrite Ex, (wf_dev _ _ Hwf). unfold BSIZE.
    rewrite <- (Z2Nat.id (off / 512)) at 1 by lia.
    apply (tri_bmap E V I ip x); try done; [lia|].
    intros r V' x' HM. destruct (mp_same _ _ _ _ _ _ HM Hnz) as [-> ->].
    rewrite list_insert_id by done. rewrite <- (mp_block _ _ _ _ _ _ HM).
    tstep; [by apply good_mapped; [..|lia|]|apply not_elem_of_nil|unfold MAXHELD; simpl; lia|].
    tstep. tstep; [done|].
    set (m := Z.min (n - tot) (512 - off mod 512)).
    assert (0 <= m <= 512 - off mod 512 /\ 0 < m <= n - tot) as [Hm1 Hm2] by (unfold m; clear - Hlt; dlia).
    assert (V dev (blockno V x (Z.to_nat (off / 512))) = fdata V x (Z.to_nat (off / 512))) as Efd.
    { unfold fdata. by destruct (Z.eqb_spec (blockno V x (Z.to_nat (off / 512))) 0). }
    rewrite Efd, slice_fbyte; [|done|done|apply fdata_512; [done..|lia]].
    eapply tri_mono; [apply IH; [lia..| |]|].
    + assert (off / 512 < 140) by lia. lia.
    + intros Hlt2. assert (m = 512 - off mod 512) as Em by (unfold m in *; lia).
      rewrite Em. clear - Hk. dlia.
    + intros ? ? ? ? (-> & -> & -> & ->). split_and!; try done.
      rewrite <- app_assoc, <- fmap_app. do 2 f_equal.
      replace (n - tot) with (m + (n - (tot + m))) by lia. rewrite seqZ_app by lia. done.
  - tstep. split_and!; try done. replace (n - tot) with 0 by lia. simpl. by rewrite app_nil_r.
Qed.

Context (dev_read : Z -> option (nat -> Z -> K (fstate B) (Z * bytes))).

(** The number of bytes readi delivers. *)
Definition read_len (x : inode) (off n : Z) : Z := Z.min n (isize x - off).

Lemma readi_ok E V I ip x off n :
  I !! ip = Some x -> fs_ok V -> wf_file V x -> dense V x -> itype x <> T_DEV ->
  is_u32 off -> is_u32 n ->
  tri E V [] I (readi dev_read ip off n) (fun r V' H' I' =>
    r = (if (isize x <? off) || (4294967296 <=? off + n) then (-1, [])
         else (read_len x off n, fbyte V x <$> seqZ off (read_len x off n))) /\
    V' = V /\ H' = [] /\ I' = I).
Proof using BL.
  intros HI Hfs Hwf Hde Ht Ho Hn. unfold is_u32 in *.
  assert (nth ip I inode0 = x) as Ex by by apply nth_lookup_Some.
  unfold readi. tstep. rewrite Ex. destruct (Z.eqb_spec (itype x) T_DEV); [done|].
  assert ((u32 (off + n) <? off) = (4294967296 <=? off + n)) as ->.
  { unfold u32. destruct (Z.leb_spec 4294967296 (off + n)); [|rewrite Z.mod_small by lia].
    - apply Z.ltb_lt. dlia.
    - apply Z.ltb_ge. lia. }
  destruct (Z.ltb_spec (isize x) off) as [Hs|Hs]; cbn [orb]; [by tstep|].
  destruct (Z.leb_spec 4294967296 (off + n)) as [Hw|Hw]; [by tstep|].
  rewrite u32_small by lia.
  replace (if isize x <? off + n then isize x - off else n) with (read_len x off n).
  2: { unfold read_len. destruct (Z.ltb_spec (isize x) (off + n)); lia. }
  destruct Hde as [Hsz Hde]. unfold read_len.
  eapply tri_bind_eq; [eapply (readi_loop_ok _ V I ip x); try done; try lia|].
  - unfold NBLK. change (MAXFILE + 1) with 141. lia.
  - intros _. unfold NBLK. change (MAXFILE + 1) with 141. clear - Ho. dlia.
  - tstep. rewrite Z.sub_0_r. done.
Qed.
End Read.

(** ** writei *)

(** Writing into the block of the file's block [n]. *)
Section Store.
Context (V : contents) (x : inode) (n : nat) (d : bytes).
Context (Hfs : fs_ok V) (Hwf : wf_file V x) (Hn : (n < 140)%nat) (Hnz : blockno V x n <> 0).
Let V' : contents := upd_sector V dev (blockno V x n) d.

Lemma store_range : meta_end <= blockno V x n < sb_size sb.
Proof using Hwf Hn Hnz. apply (wf_own _ _ Hwf). by apply blockno_owns. Qed.

Lemma store_other m : m <> blockno V x n -> V' dev m = V dev m.
Proof using Type. intros H. apply upd_sector_other. congruence. Qed.

Lemma store_used b : 0 <= b < bitmap_end sb -> used V' dev sb b = used V dev sb b.
Proof using Hfs Hwf Hn Hnz.
  intros Hb. unfold used. rewrite store_other; [done|]. pose proof store_range as Hr.
  pose proof (meta_bitmap V b (fs_sb _ Hfs) Hb) as Hm. clear - Hr Hm. lia.
Qed.

Lemma store_slots : slots V' x = slots V x.
Proof using Hfs Hwf Hn Hnz.
  unfold slots. destruct (Z.eqb_spec (addr x 12) 0) as [|H0]; [done|]. rewrite store_other; [done|].
  intros E. destruct (slot_of_lt n Hn) as [_ Hs]. apply Hs.
  pose proof (blockno_slot V x n (wf_len _ _ Hwf) Hn) as H1.
  pose proof (slots_12 V x (wf_len _ _ Hwf)) as H2. rewrite E in H2.
  exact (wf_inj _ _ Hwf _ _ _ H1 H2 Hnz).
Qed.

Lemma store_blockno m : blockno V' x m = blockno V x m.
Proof using Hfs Hwf Hn Hnz. unfold blockno. by rewrite store_slots. Qed.

Lemma store_fdata m :
  (m < 140)%nat -> fdata V' x m = if decide (m = n) then d else fdata V x m.
Proof using Hfs Hwf Hn Hnz.
  intros Hm. unfold fdata. rewrite store_blockno. destruct (decide (m = n)) as [->|Hne].
  - destruct (Z.eqb_spec (blockno V x n) 0); [done|]. apply upd_sector_same.
  - destruct (Z.eqb_spec (blockno V x m) 0) as [|Hmz]; [done|]. apply store_other. intros E.
    apply Hne, slot_of_inj. pose proof (blockno_slot V x n (wf_len _ _ Hwf) Hn) as H1.
    pose proof (blockno_slot V x m (wf_len _ _ Hwf) Hm) as H2. rewrite E in H2.
    exact (wf_inj _ _ Hwf _ _ _ H2 H1 Hnz).
Qed.

Lemma store_owns b : owns V' x b <-> owns V x b.
Proof using Hfs Hwf Hn Hnz. unfold owns. by rewrite store_slots. Qed.

Lemma store_evolve : evolve V x V' x.
Proof using Hfs Hwf Hn Hnz.
  pose proof store_range as Hr. pose proof (size_bitmap_end V (fs_sb _ Hfs)) as Hbe.
  pose proof (meta_pos V (fs_sb _ Hfs)) as Hmp.
  assert (Hu : forall b, 0 <= b < sb_size sb -> used V' dev sb b = used V dev sb b).
  { intros b Hb. apply store_used. lia. }
  split.
  - by destruct x.
  - split.
    + destruct (fs_sb _ Hfs) as [H1 H2 H3 H4]. split; try done. rewrite store_other; [done|lia].
    + apply Hfs.
    + intros b Hb Hub. rewrite Hu in Hub by done. rewrite store_other; [by apply (fs_free _ Hfs)|].
      intros ->. destruct (wf_own _ _ Hwf (blockno V x n)) as [_ E]; [by apply blockno_owns|congruence].
  - destruct Hwf as [W1 W2 W3 W4]. split; try done; rewrite ?store_slots; try done.
    intros b Hb%store_owns. destruct (W4 b Hb) as [H1 H2]. split; [done|]. rewrite Hu; [done|lia].
  - intros m Hm _. apply store_blockno.
  - intros v m Hf. apply upd_sector_other. intros [= -> ->].
    destruct Hf as [?|(_ & _ & _ & H)]; [done|]. apply H. by apply blockno_owns.
  - intros b Hb Hub. by rewrite Hu.
  - intros b Hb%store_owns. by left.
Qed.

Lemma store_credit : credit V' x = credit V x.
Proof using Hfs Hwf Hn Hnz.
  unfold credit, nfree. f_equal. f_equal.
  assert (forall l : list Z, (forall b, b ∈ l -> 0 <= b < bitmap_end sb) ->
    filter (fun b => used V' dev sb b = false) l = filter (fun b => used V dev sb b = false) l) as H.
  { induction l as [|b r IH]; intros Hl; [done|].
    assert (used V' dev sb b = used V dev sb b) as E by (apply store_used, Hl; left).
    assert (IH' := IH (fun c Hc => Hl c ltac:(by right))). destruct (used V dev sb b) eqn:Eb.
    - rewrite !filter_cons_False by congruence. done.
    - rewrite !filter_cons_True by congruence. by f_equal. }
  apply H. intros b Hb%elem_of_seqZ. pose proof (size_bitmap_end V (fs_sb _ Hfs)). lia.
Qed.
End Store.

(** The file of [V'], [x'] is that of [V], [x] with [data] written at [off]. *)
Definition overwritten (V : contents) (x : inode) (V' : contents) (x' : inode) (off : Z) (data : bytes)
  : Prop :=
  forall i, 0 <= i < 71680 ->
  fbyte V' x' i = if (off <=? i) && (i <? off + Z.of_nat (length data))
                  then byte_at data (Z.to_nat (i - off)) else fbyte V x i.

Lemma overwritten_app V x V1 x1 V2 x2 off a b :
  overwritten V x V1 x1 off a -> overwritten V1 x1 V2 x2 (off + Z.of_nat (length a)) b ->
  overwritten V x V2 x2 off (a ++ b).
Proof using Type.
  intros H1 H2 i Hi. rewrite H2, H1 by done. rewrite length_app, Nat2Z.inj_add. unfold byte_at.
  destruct (Z.leb_spec (off + Z.of_nat (length a)) i) as [Ha|Ha]; simpl.
  - destruct (Z.leb_spec off i); [|lia]. rewrite (proj2 (Z.ltb_ge i (off + Z.of_nat (length a)))) by lia. simpl.
    replace (i <? off + (Z.of_nat (length a) + Z.of_nat (length b)))
      with (i <? off + Z.of_nat (length a) + Z.of_nat (length b)) by (f_equal; lia).
    case_match; [|done]. rewrite app_nth2 by lia. f_equal. lia.
  - destruct (Z.leb_spec off i); simpl; [|done].
    rewrite !(proj2 (Z.ltb_lt _ _)) by lia. rewrite app_nth1 by lia. done.
Qed.

Lemma overwritten_nil V x V' x' off :
  (forall m, (m < 140)%nat -> fdata V' x' m = fdata V x m) -> overwritten V x V' x' off [].
Proof using Type.
  intros H i Hi. simpl. rewrite Z.add_0_r.
  destruct (Z.leb_spec off i), (Z.ltb_spec i off); try lia; simpl; unfold fbyte, BSIZE;
    (rewrite H; [done|clear - Hi; dlia]).
Qed.

Lemma nth_splice (l new : bytes) o i :
  (o + length new <= length l)%nat -> (i < length l)%nat ->
  byte_at (splice l o new) i =
  if (o <=? i)%nat && (i <? o + length new)%nat then byte_at new (i - o) else byte_at l i.
Proof using Type.
  intros H1 H2. unfold byte_at. rewrite !nth_lookup.
  destruct (Nat.leb_spec o i), (Nat.ltb_spec i (o + length new)); simpl;
    (rewrite lookup_splice_in by lia; done) || (rewrite lookup_splice_out by lia; done).
Qed.

Lemma store_overwrites V x n o (new : bytes) :
  fs_ok V -> wf_file V x -> (n < 140)%nat -> blockno V x n <> 0 ->
  length (fdata V x n) = 512%nat -> (o + length new <= 512)%nat ->
  overwritten V x (upd_sector V dev (blockno V x n) (splice (fdata V x n) o new)) x
    (512 * Z.of_nat n + Z.of_nat o) new.
Proof using Type.
  intros Hfs Hwf Hn Hnz Hl Ho i Hi. unfold fbyte, BSIZE.
  rewrite store_fdata by (done || (clear - Hi; dlia)).
  destruct (decide (Z.to_nat (i / 512) = n)) as [En|En].
  - rewrite nth_splice by (rewrite Hl; (done || (clear - Hi; dlia))). subst n.
    assert (Z.to_nat (i mod 512) = Z.to_nat (i - 512 * Z.of_nat (Z.to_nat (i / 512)))) as Em by (clear - Hi; dlia).
    assert (0 <= i - 512 * Z.of_nat (Z.to_nat (i / 512)) < 512) as Hr by (clear - Hi; dlia).
    rewrite Em. set (q := 512 * Z.of_nat (Z.to_nat (i / 512))) in *.
    destruct (Nat.leb_spec o (Z.to_nat (i - q))), (Z.leb_spec (q + Z.of_nat o) i); try lia; simpl; [|done].
    destruct (Nat.ltb_spec (Z.to_nat (i - q)) (o + length new)),
      (Z.ltb_spec i (q + Z.of_nat o + Z.of_nat (length new))); try lia.
    f_equal. lia.
  - destruct (Z.leb_spec (512 * Z.of_nat n + Z.of_nat o) i) as [H1|H1]; simpl; [|done].
    destruct (Z.ltb_spec i (512 * Z.of_nat n + Z.of_nat o + Z.of_nat (length new))) as [H2|H2]; [|done].
    exfalso. apply En. clear - H1 H2 Ho Hi. dlia.
Qed.

Section Write.
Context {B : Type} `{BO : BlockOps B} `{BL : !BlockLayer B}.

(** The blocks that a write of [len] bytes at [off] touches. *)
Definition touches (off len : Z) (m : nat) : Prop :=
  0 < len /\ off / 512 <= Z.of_nat m /\ 512 * Z.of_nat m < off + len.

(** There is a free block for every missing block of the range, from any of
    them to the last, and one for the indirect block. *)
Definition room (V : contents) (x : inode) (off len : Z) : Prop :=
  forall m, touches off len m -> blockno V x m = 0 ->
  (off + len + 511) / 512 - Z.of_nat m + 1 <= Z.of_nat (credit V x).

Lemma room_next V x V' x' r off len :
  0 <= off -> 0 < len -> off + len <= 71680 -> room V x off len ->
  mapped V x (Z.to_nat (off / 512)) r V' x' ->
  let off' := 512 * (off / 512 + 1) in room V' x' off' (off + len - off').
Proof using Type.
  intros Ho Hlen Hf Hr HM off' m (H0 & H1 & H2) H3. unfold off' in *.
  replace (512 * (off / 512 + 1) / 512) with (off / 512 + 1) in H1 by (clear; dlia).
  replace (512 * (off / 512 + 1) + (off + len - 512 * (off / 512 + 1))) with (off + len) in * by lia.
  assert (blockno V x m = 0) as Hz.
  { destruct (decide (blockno V x m = 0)) as [|Hnz]; [done|].
    rewrite (ev_blk _ _ _ _ (mp_evolve _ _ _ _ _ _ HM)) in H3; [done|lia|done]. }
  pose proof (mp_free _ _ _ _ _ _ HM) as Hc.
  destruct (decide (blockno V x (Z.to_nat (off / 512)) = 0)) as [Hz0|Hnz0].
  - assert (touches off len (Z.to_nat (off / 512))) as Ht by (split_and!; [done|clear - Ho; dlia..|clear - Ho Hlen; dlia]).
    specialize (Hr _ Ht Hz0). rewrite Z2Nat.id in Hr by (clear - Ho; dlia). lia.
  - destruct (mp_same _ _ _ _ _ _ HM Hnz0) as [-> ->]. apply Hr; [split_and!; lia|done].
Qed.

Record wrote (V : contents) (x : inode) (off : Z) (data : bytes) (V' : contents) (x' : inode) : Prop := {
  wr_evolve : evolve V x V' x';
  wr_bytes : overwritten V x V' x' off data;
  wr_dense : forall m, touches off (Z.of_nat (length data)) m -> blockno V' x' m <> 0;
  wr_same : (forall m, touches off (Z.of_nat (length data)) m -> blockno V x m <> 0) -> x' = x
}.

Lemma slice_split (l : bytes) a m n :
  (m <= n)%nat -> slice l a n = slice l a m ++ slice l (a + m) (n - m).
Proof using Type.
  intros H. unfold slice. rewrite <- drop_drop. rewrite <- (take_drop m (drop a l)) at 1.
  rewrite take_app, take_take, length_take. f_equal; [f_equal; lia|].
  destruct (decide (m <= length (drop a l))%nat).
  - f_equal. lia.
  - rewrite (drop_ge (drop a l) m) by lia. by rewrite !take_nil.
Qed.

(** One round of the loop, then the rest. *)
Lemma wrote_step V x off (chunk rest : bytes) r V1 x1 V' x' :
  let n := Z.to_nat (off / 512) in
  let V2 := upd_sector V1 dev r (splice (fdata V1 x1 n) (Z.to_nat (off mod 512)) chunk) in
  0 <= off < 71680 -> mapped V x n r V1 x1 -> length (fdata V1 x1 n) = 512%nat ->
  (0 < length chunk)%nat ->
  (off mod 512 + Z.of_nat (length chunk) <= 512) ->
  (rest <> [] -> off mod 512 + Z.of_nat (length chunk) = 512) ->
  off + Z.of_nat (length (chunk ++ rest)) <= 71680 ->
  wrote V2 x1 (off + Z.of_nat (length chunk)) rest V' x' -> wrote V x off (chunk ++ rest) V' x'.
Proof using Type.
  intros n V2 Ho HM Hl Hc0 Hc Hrest Hmax HW.
  assert (Hn : (n < 140)%nat) by (unfold n; clear - Ho; dlia).
  pose proof (mp_evolve _ _ _ _ _ _ HM) as He1. pose proof (ev_fs _ _ _ _ He1) as Hfs1.
  pose proof (ev_wf _ _ _ _ He1) as Hwf1. pose proof (mp_block _ _ _ _ _ _ HM) as Hb1.
  assert (Hnz1 : blockno V1 x1 n <> 0) by (rewrite Hb1; apply (mp_nonzero _ _ _ _ _ _ HM)).
  unfold V2 in *. clear V2. rewrite <- Hb1 in HW.
  pose proof (store_evolve V1 x1 n (splice (fdata V1 x1 n) (Z.to_nat (off mod 512)) chunk) Hfs1 Hwf1 Hn Hnz1) as He2.
  pose proof (store_blockno V1 x1 n (splice (fdata V1 x1 n) (Z.to_nat (off mod 512)) chunk) Hfs1 Hwf1 Hn Hnz1) as Hbn2.
  assert (Htouch : forall m, touches off (Z.of_nat (length (chunk ++ rest))) m ->
    m = n \/ touches (off + Z.of_nat (length chunk)) (Z.of_nat (length rest)) m).
  { intros m (H0 & H1 & H2). rewrite length_app, Nat2Z.inj_add in *.
    destruct (decide (m = n)) as [|Hne]; [by left|right]. unfold n in *.
    assert (rest <> []) as Hr.
    { intros ->. simpl in *. clear - Hne Hc H1 H2 Ho. dlia. }
    specialize (Hrest Hr). assert (0 < length rest)%nat by (destruct rest; [done|simpl; lia]).
    split_and!; [lia| |lia]. clear - Hrest Hne H1 Ho. dlia. }
  destruct HW as [W1 W2 W3 W4]. split.
  - eapply evolve_trans; [|done]. by eapply evolve_trans.
  - eapply overwritten_app; [|done].
    refine (overwritten_app V x V1 x1 _ _ off [] chunk _ _); [apply overwritten_nil, HM|]. simpl.
    replace (off + Z.of_nat 0) with (512 * Z.of_nat n + Z.of_nat (Z.to_nat (off mod 512))) by (unfold n; clear - Ho; dlia).
    apply store_overwrites; try done. clear - Hc. dlia.
  - intros m Hm. destruct (Htouch m Hm) as [->|Ht]; [|by apply W3].
    rewrite (ev_blk _ _ _ _ W1); rewrite ?Hbn2; done.
  - intros Hno. destruct (mp_same _ _ _ _ _ _ HM) as [-> ->].
    { apply Hno. rewrite length_app, Nat2Z.inj_add. split_and!; [lia|unfold n; clear - Ho; dlia|].
      unfold n. clear - Ho Hc0. dlia. }
    apply W4. intros m (H0 & H1 & H2). rewrite Hbn2. apply Hno.
    rewrite length_app, Nat2Z.inj_add. split_and!; [lia| |lia]. clear - H1 Ho Hc0. dlia.
Qed.

(** The body of the loop: bmap, then the chunk written into the block. *)
Lemma tri_write_block {C} E V I ip x (off : Z) (chunk : bytes) (f : unit -> K (fstate B) C) Q :
  let b := Z.to_nat (off / 512) in let o := Z.to_nat (off mod 512) in
  I !! ip = Some x -> fs_ok V -> wf_file V x -> (b < 140)%nat ->
  (blockno V x b = 0 -> (2 <= credit V x)%nat) -> (o + length chunk <= 512)%nat ->
  (forall r V1 x1 V2, mapped V x b r V1 x1 -> length (fdata V1 x1 b) = 512%nat ->
     V2 = upd_sector V1 dev r (splice (fdata V1 x1 b) o chunk) ->
     evolve V1 x1 V2 x1 -> (forall j, blockno V2 x1 j = blockno V1 x1 j) -> credit V2 x1 = credit V1 x1 ->
     tri E V2 [] (<[ip := x1]> I) (f tt) Q) ->
  tri E V [] I (kbind (bmap ip (Z.of_nat b)) (fun a =>
    bp <- onblk (bread dev a) ;;
    onblk (modify (fun t => bset bp (splice (bdata bp t) o chunk) t)) ;;
    onblk (bwrite bp) ;;
    u <- onblk (brelse bp) ;;
    f u)) Q.
Proof using BL.
  intros b o HI Hfs Hwf Hbn Hcr Ho Hf. apply (tri_bmap E V I ip x); try done.
  intros r V1 x1 HM. pose proof (mp_evolve _ _ _ _ _ _ HM) as He1.
  pose proof (ev_fs _ _ _ _ He1) as Hfs1. pose proof (ev_wf _ _ _ _ He1) as Hwf1.
  pose proof (mp_block _ _ _ _ _ _ HM) as Hb1. pose proof (mp_nonzero _ _ _ _ _ _ HM) as Hnz.
  assert (Hnz1 : blockno V1 x1 b <> 0) by congruence.
  assert (V1 dev r = fdata V1 x1 b) as Efd.
  { unfold fdata. rewrite Hb1. by destruct (Z.eqb_spec r 0). }
  apply tri_512. intros H512. pose proof (fdata_512 V1 x1 b H512 Hfs1 Hwf1 Hbn) as Hl512.
  tstep; [rewrite <- Hb1; by apply good_mapped|apply not_elem_of_nil|unfold MAXHELD; simpl; lia|].
  rewrite Efd. eapply tri_bset; [reflexivity|by intros t ->|by rewrite length_splice; rewrite Hl512|].
  tstep. tstep; [by rewrite upd_sector_same|]. apply (Hf r V1 x1); try done; rewrite <- Hb1.
  - by apply store_evolve.
  - intros j. by apply store_blockno.
  - by apply store_credit.
Qed.

Lemma writei_loop_ok E V I ip x k src off n tot :
  I !! ip = Some x -> fs_ok V -> wf_file V x -> 0 <= off -> 0 <= tot <= n ->
  off + (n - tot) <= 71680 -> n <= Z.of_nat (length src) -> room V x off (n - tot) ->
  (0 < k)%nat -> (tot < n -> 141 <= off / 512 + Z.of_nat k) ->
  tri E V [] I (writei_loop k ip src off n tot) (fun r V' H' I' =>
    r = off + (n - tot) /\ H' = [] /\ exists x', I' = <[ip := x']> I /\
    wrote V x off (slice src (Z.to_nat tot) (Z.to_nat (n - tot))) V' x').
Proof using BL.
  revert V I x off tot. induction k as [|k IH]; intros V I x off tot HI Hfs Hwf Ho Ht Hs Hsrc Hroom Hk0 Hk; [lia|].
  cbn [writei_loop]. destruct (Z.ltb_spec tot n) as [Hlt|Hge].
  - specialize (Hk Hlt). set (m := Z.min (n - tot) (512 - off mod 512)).
    assert (0 < m <= n - tot /\ off mod 512 + m <= 512) as [Hm1 Hm2] by (unfold m; clear - Hlt; dlia).
    assert (m < n - tot -> off mod 512 + m = 512) as Hm3 by (unfold m; lia).
    assert (Hb : off / 512 = Z.of_nat (Z.to_nat (off / 512)) /\ (Z.to_nat (off / 512) < 140)%nat)
      by (clear - Ho Hs Hlt; dlia).
    set (chunk := slice src (Z.to_nat tot) (Z.to_nat m)).
    assert (length chunk = Z.to_nat m) as Hcl by (apply length_slice; lia).
    tstep. rewrite (nth_lookup_Some _ _ _ _ HI), (wf_dev _ _ Hwf). unfold BSIZE. rewrite (proj1 Hb) at 1.
    fold m. fold chunk.
    apply tri_write_block with (x := x); try done; [apply Hb| |rewrite Hcl; clear - Hm1 Hm2; dlia|].
    { intros Hz. assert (touches off (n - tot) (Z.to_nat (off / 512))) as Htb
        by (split_and!; [lia|lia|clear - Hlt Ho; dlia]).
      specialize (Hroom _ Htb Hz). clear - Hroom Hlt Ho. dlia. }
    intros r V1 x1 V2 HM Hl512 EV2 He2 Hbk2 Hcr2.
    assert (room V2 x1 (off + m) (n - (tot + m))) as Hroom2.
    { intros j (H1 & H2 & H3) Hz. rewrite Hcr2. rewrite Hbk2 in Hz.
      assert (off + m = 512 * (off / 512 + 1)) as Eom by (specialize (Hm3 ltac:(lia)); clear - Hm3; dlia).
      pose proof (room_next V x V1 x1 r off (n - tot) Ho ltac:(lia) Hs Hroom HM) as Hr. simpl in Hr.
      rewrite <- Eom in Hr. specialize (Hr j).
      replace (off + (n - tot) - (off + m)) with (n - (tot + m)) in Hr by lia. by apply Hr. }
    eapply tri_mono; [apply (IH V2 (<[ip:=x1]> I) x1)|]; try apply He2; try lia; try done.
    + apply list_lookup_insert_eq. by eapply lookup_lt_Some.
    + intros Hlt2. specialize (Hm3 ltac:(lia)). clear - Hk Hm3. dlia.
    + intros ? V' ? ? (-> & -> & x' & -> & HW). split_and!; [lia|done|]. exists x'.
      rewrite list_insert_insert_eq. split; [done|].
      rewrite (slice_split src (Z.to_nat tot) (Z.to_nat m)) by lia. fold chunk.
      replace (Z.to_nat tot + Z.to_nat m)%nat with (Z.to_nat (tot + m)) by lia.
      replace (Z.to_nat (n - tot) - Z.to_nat m)%nat with (Z.to_nat (n - (tot + m))) by lia.
      set (rest := slice src (Z.to_nat (tot + m)) (Z.to_nat (n - (tot + m)))) in *.
      assert (length rest = Z.to_nat (n - (tot + m))) as Hrl by (apply length_slice; lia).
      apply (wrote_step V x off chunk rest r V1 x1); try done;
        rewrite ?length_app, ?Hcl, ?Hrl, ?Z2Nat.id by lia; try lia.
      * intros Hr. apply Hm3. destruct rest; [done|simpl in Hrl; lia].
      * by rewrite <- EV2.
  - tstep. split_and!; [lia|done|]. exists x. rewrite list_insert_id by done. split; [done|].
    replace (n - tot) with 0 by lia. unfold slice. simpl. split; try done; simpl.
    + by apply evolve_refl.
    + by apply overwritten_nil.
    + intros m (H1 & _). lia.
Qed.

(** ** Writing an inode block *)

Section Meta.
Context (V : contents) (x : inode) (n : Z) (d : bytes).
Context (Hfs : fs_ok V) (Hn : 2 <= n < sb_ninodes sb / 8 + 3).
Let V' : contents := upd_sector V dev n d.

Lemma meta_other m : m <> n -> V' dev m = V dev m.
Proof using Type. intros H. apply upd_sector_other. congruence. Qed.

Lemma meta_below : n < meta_end.
Proof using Hfs Hn.
  destruct (fs_sb _ Hfs) as [_ _ Hs _]. unfold meta_end. rewrite BBLOCK_eq. clear - Hs Hn. dlia.
Qed.

Lemma meta_used b : 0 <= b -> used V' dev sb b = used V dev sb b.
Proof using Hn.
  intros Hb. unfold used. rewrite meta_other; [done|]. rewrite BBLOCK_eq. clear - Hn Hb. dlia.
Qed.

Lemma meta_fs : fs_ok V'.
Proof using Hfs Hn.
  split.
  - destruct (fs_sb _ Hfs) as [H1 H2 H3 H4]. split; try done. rewrite meta_other; [done|lia].
  - apply Hfs.
  - intros b Hb Hu. rewrite meta_used in Hu by lia. destruct (fs_free _ Hfs b Hb Hu) as [H1 H2].
    split; [done|]. rewrite meta_other; [done|]. pose proof meta_below. lia.
Qed.

Context (Hwf : wf_file V x).

Lemma meta_slots : slots V' x = slots V x.
Proof using Hfs Hn Hwf.
  unfold slots. destruct (Z.eqb_spec (addr x 12) 0) as [|H0]; [done|]. rewrite meta_other; [done|].
  destruct (wf_own _ _ Hwf (addr x 12)) as [Hr _]; [by apply ind_owned|].
  pose proof meta_below as Hb. clear - Hr Hb. lia.
Qed.

Lemma meta_blockno m : blockno V' x m = blockno V x m.
Proof using Hfs Hn Hwf. unfold blockno. by rewrite meta_slots. Qed.

Lemma meta_fdata m : (m < 140)%nat -> fdata V' x m = fdata V x m.
Proof using Hfs Hn Hwf.
  intros Hm. unfold fdata. rewrite meta_blockno. destruct (Z.eqb_spec (blockno V x m) 0) as [|H0]; [done|].
  apply meta_other. destruct (wf_own _ _ Hwf (blockno V x m)) as [Hr _]; [by apply blockno_owns|].
  pose proof meta_below. lia.
Qed.

Lemma meta_wf : wf_file V' x.
Proof using Hfs Hn Hwf.
  destruct Hwf as [W1 W2 W3 W4]. split; rewrite ?meta_slots; try done.
  intros b [H1 H2]. rewrite meta_slots in H2. destruct (W4 b) as [H3 H4]; [done|].
  split; [done|]. pose proof (meta_pos V (fs_sb _ Hfs)). rewrite meta_used; [done|lia].
Qed.
End Meta.

Lemma inode_block V i :
  fs_ok V -> 0 <= i < sb_ninodes sb -> good_sector dev (IBLOCK i) /\ 2 <= IBLOCK i < sb_ninodes sb / 8 + 3.
Proof using Type.
  intros Hfs Hi. destruct (fs_sb _ Hfs) as [_ Hd _ Hni]. unfold good_sector, IBLOCK.
  change IPB with 8. clear - Hi Hd Hni. dlia.
Qed.

Lemma inode_foreign V x i :
  fs_ok V -> wf_file V x -> 0 <= i < sb_ninodes sb -> foreign V x dev (IBLOCK i).
Proof using Type.
  intros Hfs Hwf Hi. destruct (inode_block V i Hfs Hi) as [_ Hb]. pose proof (meta_below V _ Hfs Hb) as Hm.
  right. pose proof (fs_meta _ Hfs). split_and!; [lia..| | |].
  - destruct (used V dev sb (IBLOCK i)) eqn:E; [done|].
    destruct (fs_free _ Hfs (IBLOCK i)) as [Hc _]; [lia|done|]. lia.
  - intros (b & Hb' & E). rewrite BBLOCK_eq in E. clear - E Hb Hb'. dlia.
  - intros Ho. destruct (wf_own _ _ Hwf _ Ho) as [Hr _]. lia.
Qed.

Lemma tri_iupdate {C} E V I ip x (f : unit -> K (fstate B) C) Q :
  I !! ip = Some x -> idev x = dev -> fs_ok V -> 0 <= inum x < sb_ninodes sb ->
  length (iaddrs x) = 13%nat ->
  tri E (upd_sector V dev (IBLOCK (inum x))
           (put_dinode (V dev (IBLOCK (inum x))) (inum x) (to_dinode x))) [] I (f tt) Q ->
  tri E V [] I (kbind (iupdate ip) f) Q.
Proof using BL.
  intros HI Hd Hfs Hi Hl Hf. destruct (inode_block V _ Hfs Hi) as [Hg _].
  apply tri_512. intros H512. unfold iupdate. do 2 tstep.
  rewrite (nth_lookup_Some _ _ _ _ HI), Hd. tstep.
  tstep; [done|apply not_elem_of_nil|unfold MAXHELD; simpl; lia|]. do 3 tstep.
  eapply tri_bset; [reflexivity|done|by rewrite length_put_dinode; [|apply H512|]|].
  do 2 tstep. tstep; [by rewrite upd_sector_same|]. done.
Qed.

Definition i16_fields (x : inode) : Prop :=
  is_i16 (itype x) /\ is_i16 (imajor x) /\ is_i16 (iminor x) /\ is_i16 (inlink x).

(** The invariant of a locked inode that is not a device. *)
Record file_ok (V : contents) (x : inode) : Prop := {
  fo_fs : fs_ok V;
  fo_wf : wf_file V x;
  fo_dense : dense V x;
  fo_inum : 0 <= inum x < sb_ninodes sb;
  fo_type : itype x <> T_DEV;
  fo_i16 : i16_fields x
}.

(** The inode on disk is the one in memory. *)
Definition synced (V : contents) (x : inode) : Prop :=
  get_dinode (V dev (IBLOCK (inum x))) (inum x) = to_dinode x.

(** What writing [data] at [off] does: to the file, to its size, to the inode on
    disk; and that no other inode and no foreign sector changes. *)
Record written (V : contents) (x : inode) (off : Z) (data : bytes) (V' : contents) (x' : inode) : Prop := {
  wn_ok : file_ok V' x';
  wn_bytes : overwritten V x V' x' off data;
  wn_size : isize x' = Z.max (isize x) (off + Z.of_nat (length data));
  wn_meta : x' = set_addrs (iaddrs x') (set_size (isize x') x);
  wn_disk : isize x < off + Z.of_nat (length data) \/ synced V x -> synced V' x';
  wn_inodes : forall i, 0 <= i < sb_ninodes sb -> i <> inum x ->
    get_dinode (V' dev (IBLOCK i)) i = get_dinode (V dev (IBLOCK i)) i;
  wn_frame : forall v n, foreign V x v n -> (v, n) <> (dev, IBLOCK (inum x)) -> V' v n = V v n
}.

Lemma dinode_ok_file V x :
  wf_file V x -> fs_ok V -> i16_fields x -> is_u32 (isize x) -> dinode_ok (to_dinode x).
Proof using Type.
  intros Hwf Hfs (H1 & H2 & H3 & H4) H5. split_and!; try done; [|apply Hwf]. simpl.
  apply Forall_forall. intros a Ha. destruct (decide (a = 0)) as [->|Hnz]; [done|].
  destruct (wf_own _ _ Hwf a) as [Hr _].
  { split; [done|]. unfold slots. apply elem_of_app. by left. }
  pose proof (meta_pos V (fs_sb _ Hfs)). destruct (fs_sb _ Hfs). unfold is_u32. lia.
Qed.

(** The bytes of the file below its size are in blocks that exist. *)
Lemma dense_after V x V' x' off data :
  dense V x -> off <= isize x -> 0 <= off -> off + Z.of_nat (length data) <= 71680 ->
  wrote V x off data V' x' ->
  forall n, 512 * Z.of_nat n < Z.max (isize x) (off + Z.of_nat (length data)) -> blockno V' x' n <> 0.
Proof using Type.
  intros [Hsz Hd] Ho Hp Hmax [We Wb Wd Ws] n Hn.
  destruct (decide (512 * Z.of_nat n < isize x)) as [Hlt|Hge].
  - rewrite (ev_blk _ _ _ _ We); auto. lia.
  - apply Wd. split_and!; [lia| |lia]. clear - Hge Ho Hp. dlia.
Qed.

(** A write that does not extend the file. *)
Lemma written_inside V x off data V' x' :
  file_ok V x -> 0 <= off -> off + Z.of_nat (length data) <= isize x ->
  wrote V x off data V' x' -> written V x off data V' x'.
Proof using Type.
  intros [Hfs Hwf Hde Hi Ht Hf] Ho Hs HW. pose proof HW as [We Wb Wd Ws].
  assert (x' = x) as ->.
  { apply Ws. intros m (H1 & H2 & H3). apply Hde. lia. }
  assert (Hino : forall i, 0 <= i < sb_ninodes sb -> V' dev (IBLOCK i) = V dev (IBLOCK i)).
  { intros i Hi'. apply (ev_frame _ _ _ _ We). by apply inode_foreign. }
  split; try done.
  - split; try done; [apply We|apply We|]. split; [apply Hde|]. intros n Hn.
    destruct Hde as [Hsz Hde]. eapply (dense_after V x V' x off data); try done; lia.
  - lia.
  - by destruct x.
  - intros [?|Hsy]; [lia|]. unfold synced. by rewrite Hino.
  - intros i Hi' _. by rewrite Hino.
  - intros v n Hv _. by apply We.
Qed.

Lemma wf_set_size V x n : wf_file V x -> wf_file V (set_size n x).
Proof using Type. intros [W1 W2 W3 W4]. by split. Qed.

(** A write that does: the size changes and the inode is written. *)
Lemma written_extend V x off data V1 x1 :
  (forall v n, good_sector v n -> length (V1 v n) = 512%nat) ->
  file_ok V x -> 0 <= off <= isize x -> isize x < off + Z.of_nat (length data) <= 71680 ->
  wrote V x off data V1 x1 ->
  let x' := set_size (off + Z.of_nat (length data)) x1 in
  written V x off data
    (upd_sector V1 dev (IBLOCK (inum x')) (put_dinode (V1 dev (IBLOCK (inum x'))) (inum x') (to_dinode x'))) x'.
Proof using Type.
  intros H512 [Hfs Hwf Hde Hi Ht Hf] Ho Hs HW x'. pose proof HW as [We Wb Wd Ws].
  pose proof (ev_fs _ _ _ _ We) as Hfs1. pose proof (ev_wf _ _ _ _ We) as Hwf1.
  pose proof (ev_meta _ _ _ _ We) as Hm1.
  assert (inum x' = inum x) as Ei by (unfold x'; rewrite Hm1; done). rewrite Ei.
  destruct (inode_block V1 (inum x) Hfs1 Hi) as [Hg Hb]. pose proof (H512 _ _ Hg) as Hl.
  pose proof (wf_set_size _ _ (off + Z.of_nat (length data)) Hwf1) as Hwf2. fold x' in Hwf2.
  set (d := put_dinode (V1 dev (IBLOCK (inum x))) (inum x) (to_dinode x')).
  assert (dinode_ok (to_dinode x')) as Hdok.
  { apply (dinode_ok_file V1); [done|done|unfold x'; rewrite Hm1; done|unfold is_u32; simpl; lia]. }
  split.
  - split; [by apply meta_fs|by apply meta_wf| |by rewrite Ei|unfold x'; rewrite Hm1; done|unfold x'; rewrite Hm1; done].
    split; [simpl; lia|]. intros n Hn. rewrite meta_blockno by done. change (blockno V1 x1 n <> 0).
    eapply (dense_after V x V1 x1 off data); try done; simpl in Hn; lia.
  - intros i Hi'. rewrite <- Wb by done. unfold fbyte, BSIZE. rewrite meta_fdata by (done || (clear - Hi'; dlia)).
    done.
  - simpl. lia.
  - unfold x'. rewrite Hm1. done.
  - intros _. unfold synced. rewrite Ei, upd_sector_same. by apply get_put_dinode.
  - intros i Hir Hne. assert (V1 dev (IBLOCK i) = V dev (IBLOCK i)) as E1.
    { apply (ev_frame _ _ _ _ We). by apply inode_foreign. }
    destruct (decide (IBLOCK i = IBLOCK (inum x))) as [Eb|Eb].
    + rewrite Eb, upd_sector_same, <- Eb, <- E1, Eb. unfold d. apply get_put_dinode_other; try done; [apply Hwf2|lia|lia|].
      intros Em. apply Hne. unfold IBLOCK in Eb. change IPB with 8 in *. clear - Em Eb Hir Hi. dlia.
    + rewrite upd_sector_other by congruence. by rewrite E1.
  - intros v n Hv Hne. rewrite upd_sector_other by done. by apply We.
Qed.

Context (dev_write : Z -> option (nat -> bytes -> Z -> K (fstate B) Z)).

(** The number of bytes writei takes. *)
Definition write_len (off n : Z) : Z := Z.min n (71680 - off).

Lemma writei_ok E V I ip x src off n :
  I !! ip = Some x -> file_ok V x -> 0 <= off <= isize x -> is_u32 n -> off + n < 4294967296 ->
  n <= Z.of_nat (length src) -> room V x off (write_len off n) ->
  tri E V [] I (writei dev_write ip src off n) (fun r V' H' I' =>
    r = write_len off n /\ H' = [] /\ exists x', I' = <[ip := x']> I /\
    written V x off (take (Z.to_nat (write_len off n)) src) V' x').
Proof using BL.
  intros HI Hfo Ho Hn Hw Hsrc Hroom. pose proof Hfo as [Hfs Hwf Hde Hi Ht Hf].
  destruct Hde as [Hsz Hde]. unfold is_u32 in Hn.
  unfold writei. tstep. rewrite (nth_lookup_Some _ _ _ _ HI).
  destruct (Z.eqb_spec (itype x) T_DEV); [done|]. rewrite u32_small by lia.
  rewrite (proj2 (Z.ltb_ge (isize x) off)), (proj2 (Z.ltb_ge (off + n) off)) by lia. cbn [orb].
  change (MAXFILE * BSIZE) with 71680.
  replace (if 71680 <? off + n then u32 (71680 - off) else n) with (write_len off n).
  2: { unfold write_len. rewrite u32_small by lia. destruct (Z.ltb_spec 71680 (off + n)); lia. }
  set (len := write_len off n) in *. assert (0 <= len <= n /\ off + len <= 71680) as Hlen by (unfold len, write_len; lia).
  eapply tri_bind.
  { apply (writei_loop_ok E V I ip x); try done; try lia; [by rewrite Z.sub_0_r| |].
    - unfold NBLK. change (MAXFILE + 1) with 141. lia.
    - intros _. unfold NBLK. change (MAXFILE + 1) with 141. clear - Ho. dlia. }
  intros ? V1 ? ? (-> & -> & x1 & -> & HW). rewrite Z.sub_0_r in *.
  change (slice src (Z.to_nat 0) (Z.to_nat len)) with (take (Z.to_nat len) src) in HW.
  set (data := take (Z.to_nat len) src) in *.
  assert (Z.of_nat (length data) = len) as Hdl by (unfold data; rewrite length_take; lia).
  assert (isize x1 = isize x) as Es by (rewrite (ev_meta _ _ _ _ (wr_evolve _ _ _ _ _ _ HW)); done).
  assert (HI1 : <[ip := x1]> I !! ip = Some x1) by (eapply list_lookup_insert_eq, lookup_lt_Some, HI).
  tstep. rewrite (nth_lookup_Some _ _ _ _ HI1), Es.
  destruct (Z.ltb_spec (isize x) (off + len)) as [Hg|Hg].
  - rewrite (proj2 (Z.ltb_lt 0 len)) by lia. cbn [andb]. do 2 tstep. rewrite (alter_lookup _ _ _ _ HI1).
    rewrite list_insert_insert_eq. apply tri_512. intros H512.
    pose proof (written_extend V x off data V1 x1 H512 Hfo Ho ltac:(lia) HW) as HWn.
    rewrite Hdl in HWn. simpl in HWn.
    assert (HI2 : <[ip := set_size (off + len) x1]> I !! ip = Some (set_size (off + len) x1))
      by (eapply list_lookup_insert_eq, lookup_lt_Some, HI).
    pose proof (wn_meta _ _ _ _ _ _ HWn) as Em.
    apply (tri_iupdate _ _ _ ip (set_size (off + len) x1)); try done.
    + apply (wr_evolve _ _ _ _ _ _ HW).
    + apply (wr_evolve _ _ _ _ _ _ HW).
    + rewrite Em. apply Hi.
    + apply (wr_evolve _ _ _ _ _ _ HW).
    + tstep. split_and!; [done|done|]. by eexists.
  - rewrite andb_false_r. tstep. tstep. split_and!; [done..|]. exists x1. split; [done|].
    apply written_inside; [done|lia|lia|done].
Qed.

(** C1. writei: an offset past the end of the file or one that wraps gives -1 and
    changes nothing.  Otherwise it takes as many of the n bytes as fit below
    MAXFILE blocks, and when it returns exactly those bytes of the file have
    changed, to the source bytes; the size is the larger of the old size and the
    end of the write; an inode that grew is the one on disk; no other inode, and
    no sector that is not the file's own, a bitmap sector or a newly allocated
    block, has changed; and the invariant holds again.  There is no panic and no
    loop runs out of fuel. *)
Theorem writei_spec V I ip x src off n :
  I !! ip = Some x -> file_ok V x -> is_u32 off -> is_u32 n ->
  n <= Z.of_nat (length src) -> room V x off (write_len off n) ->
  tri (fun _ => False) V [] I (writei dev_write ip src off n) (fun r V' H' I' =>
    H' = [] /\
    if (isize x <? off) || (4294967296 <=? off + n) then r = -1 /\ V' = V /\ I' = I
    else r = write_len off n /\ exists x', I' = <[ip := x']> I /\
      written V x off (take (Z.to_nat (write_len off n)) src) V' x').
Proof using BL.
  intros HI Hfo Ho Hn Hsrc Hroom. unfold is_u32 in *.
  destruct ((isize x <? off) || (4294967296 <=? off + n)) eqn:E.
  - unfold writei. tstep. rewrite (nth_lookup_Some _ _ _ _ HI).
    destruct (Z.eqb_spec (itype x) T_DEV) as [Et|_]; [by destruct (fo_type _ _ Hfo)|].
    replace ((isize x <? off) || (u32 (off + n) <? off)) with true; [by tstep|].
    symmetry. apply orb_true_iff. apply orb_true_iff in E as [?|E]; [by left|right].
    apply Z.leb_le in E. apply Z.ltb_lt. unfold u32. clear - E Ho Hn. dlia.
  - bool_prop. eapply tri_mono; [eapply (writei_ok _ V I ip x); try done; lia|].
    intros r V' H' I' (-> & -> & Hx). done.
Qed.
End Write.

Section FileTheorems.
Context {B : Type} `{BO : BlockOps B} `{BL : !BlockLayer B}.
Context (dev_read : Z -> option (nat -> Z -> K (fstate B) (Z * bytes))).
Context (dev_write : Z -> option (nat -> bytes -> Z -> K (fstate B) Z)).

(** readi returns the bytes of the file from [off] on, cut at the end of the
    file, and -1 for an offset past the end or one that wraps; it changes
    neither the disk nor the inode. *)
Theorem readi_spec V I ip x off n :
  I !! ip = Some x -> file_ok V x -> is_u32 off -> is_u32 n ->
  tri (fun _ => False) V [] I (readi dev_read ip off n) (fun r V' H' I' =>
    r = (if (isize x <? off) || (4294967296 <=? off + n) then (-1, [])
         else (read_len x off n, fbyte V x <$> seqZ off (read_len x off n))) /\
    V' = V /\ H' = [] /\ I' = I).
Proof using BL. intros HI [Hfs Hwf Hde Hi Ht Hf] Ho Hn. by apply readi_ok. Qed.

Lemma overwritten_read V x V' x' off data :
  overwritten V x V' x' off data -> 0 <= off -> off + Z.of_nat (length data) <= 71680 ->
  fbyte V' x' <$> seqZ off (Z.of_nat (length data)) = data.
Proof using Type.
  intros Ho Hp Hm. apply list_eq. intros i. rewrite list_lookup_fmap.
  destruct (decide (i < length data)%nat) as [Hi|Hi].
  - rewrite lookup_seqZ_lt by lia. simpl. rewrite Ho by lia.
    rewrite (proj2 (Z.leb_le _ _)), (proj2 (Z.ltb_lt _ _)) by lia. simpl.
    replace (Z.to_nat (off + Z.of_nat i - off)) with i by lia. unfold byte_at.
    destruct (lookup_lt_is_Some_2 data i Hi) as [c Hc]. rewrite Hc. f_equal. by apply nth_lookup_Some.
  - rewrite lookup_seqZ_ge by lia. symmetry. apply lookup_ge_None. lia.
Qed.

(** C14. What writei stores is what readi gives back. *)
Theorem writei_readi_roundtrip V I ip x src off :
  let n := Z.of_nat (length src) in
  I !! ip = Some x -> file_ok V x -> 0 <= off <= isize x -> off + n <= 71680 -> room V x off n ->
  tri (fun _ => False) V [] I
    (r <- writei dev_write ip src off n ;; readi dev_read ip off r)
    (fun r _ _ _ => r = (n, src)).
Proof using BL.
  intros n HI Hfo Ho Hn Hroom. pose proof (fo_dense _ _ Hfo) as [Hsz _].
  assert (write_len off n = n) as Ew by (unfold write_len; lia).
  eapply tri_bind; [apply (writei_ok dev_write _ V I ip x src off n); rewrite ?Ew; try done; unfold is_u32; lia|].
  intros ? V' ? ? (-> & -> & x' & -> & HW). rewrite Ew in *. pose proof (wn_ok _ _ _ _ _ _ HW) as [Hfs Hwf Hde Hi Ht Hf].
  assert (take (Z.to_nat n) src = src) as Et by (apply take_ge; lia). rewrite Et in HW.
  eapply tri_mono; [apply (readi_ok dev_read _ V' _ ip x'); try done; unfold is_u32; try lia|].
  - eapply list_lookup_insert_eq, lookup_lt_Some, HI.
  - intros ? ? ? ? (-> & _). pose proof (wn_size _ _ _ _ _ _ HW) as Es. fold n in Es.
    rewrite (proj2 (Z.ltb_ge _ _)), (proj2 (Z.leb_gt _ _)) by lia. cbn [orb].
    assert (read_len x' off n = n) as -> by (unfold read_len; lia). f_equal.
    eapply overwritten_read; [apply HW|lia|fold n; lia].
Qed.

(** C13. bmap returns the disk block of block [n] of the file.  If the block is
    there already nothing changes; otherwise bmap allocates it, and the
    indirect block if that is missing too, and the contents of the file are
    what they were: a block that balloc hands out is zero. *)
Theorem bmap_spec V I ip x (n : nat) :
  I !! ip = Some x -> fs_ok V -> wf_file V x -> (n < 140)%nat ->
  (blockno V x n = 0 -> (2 <= credit V x)%nat) ->
  tri (fun _ => False) V [] I (bmap ip (Z.of_nat n)) (fun r V' H' I' =>
    H' = [] /\ exists x', I' = <[ip := x']> I /\ mapped V x n r V' x').
Proof using BL.
  intros. apply tri_tail. apply (tri_bmap _ V I ip x); try done.
  intros r V' x' HM. tstep. eauto.
Qed.
End FileTheorems.

End File.

(** ** Witnesses: the empty file of FsImage *)

Definition V0 : contents := image 100 [63].
Definition sb0 : superblock := mksb 100 95 8.
Definition file0 : inode := mkinode 1 2 1 3 T_FILE 0 0 1 0 (replicate 13 0).

Lemma file0_slots V : slots 1 V file0 = replicate 141 0.
Proof. done. Qed.

Lemma file0_blockno n : blockno 1 V0 file0 n = 0.
Proof.
  unfold blockno. rewrite file0_slots. generalize (slot_of n). intros k.
  rewrite nth_lookup. destruct (replicate 141 0 !! k) as [a|] eqn:E; [|done].
  by apply lookup_replicate in E as [-> _].
Qed.

Lemma fs_ok_V0 : fs_ok 1 sb0 V0.
Proof.
  split; [split; vm_compute; done|by vm_compute|]. intros b Hb Hu.
  pose proof (all_below (fun b => used V0 1 sb0 b ||
    ((meta_end sb0 <=? b) && bool_decide (V0 1 b = replicate 512 0))) 100) as H.
  specialize (H ltac:(by vm_compute) b Hb). cbv beta in H. rewrite Hu in H. simpl in H. bool_prop. done.
Qed.

Lemma file_ok_file0 : file_ok 1 sb0 V0 file0.
Proof.
  split; [apply fs_ok_V0| | |done|done|by vm_compute].
  - split; [done|done| |].
    + intros i j a Hi _ Ha. rewrite file0_slots in Hi. by apply lookup_replicate in Hi as [-> _].
    + intros b [Hb Hin]. rewrite file0_slots in Hin. by apply elem_of_replicate in Hin as [-> _].
  - split; [done|]. simpl. lia.
Qed.

Lemma room_file0 off n : 0 <= off -> off + n <= 512 -> room 1 sb0 V0 file0 off n.
Proof.
  intros Ho Hn m (H1 & H2 & H3) _. change (Z.of_nat (credit 1 sb0 V0 file0)) with 94. dlia.
Qed.

(** The root directory of the image: one block, two entries. *)
Definition dir0 (flags nlink : Z) : inode := mkinode 1 1 1 flags T_DIR 0 0 nlink 32 (5 :: replicate 12 0).

Lemma dir0_slots V fl nl : slots 1 V (dir0 fl nl) = 5 :: replicate 140 0.
Proof. done. Qed.

Lemma file_ok_dir0 fl nl : is_i16 nl -> file_ok 1 sb0 V0 (dir0 fl nl).
Proof.
  intros Hnl. split; [apply fs_ok_V0| | |done|done|by split_and!].
  - split; [done|done| |].
    + intros i j a Hi Hj Ha. rewrite dir0_slots in Hi, Hj.
      assert (Hz : forall k, (5 :: replicate 140 0) !! k = Some a -> k = 0%nat).
      { intros [|k] Hk; [done|]. by apply lookup_replicate in Hk as [-> _]. }
      rewrite (Hz i), (Hz j); done.
    + intros b [Hb Hin]. rewrite dir0_slots in Hin.
      apply elem_of_cons in Hin as [->|Hin]; [by vm_compute|].
      by apply elem_of_replicate in Hin as [-> _].
  - split; [done|]. simpl. intros n Hn. assert (n = 0%nat) as -> by lia. done.
Qed.

Lemma writei_spec_witness :
  ends (fun _ => False) (fun r V' _ _ => r = 2 /\ di_size (get_dinode (V' 1 2) 2) = 2)
    (exec (writei (fun _ => None) 0 [104; 105] 0 2) (boot 100 [63] [file0])).
Proof.
  apply tri_boot. eapply tri_mono.
  - apply (writei_spec 1 sb0 (fun _ => None) V0 [file0] 0 file0 [104; 105] 0 2);
      [done|apply file_ok_file0|done|done|done|by apply room_file0].
  - intros r V' H' I' (_ & -> & x' & _ & HW). split; [done|].
    pose proof (wn_disk _ _ _ _ _ _ _ _ HW (or_introl eq_refl)) as Hd.
    pose proof (wn_meta _ _ _ _ _ _ _ _ HW) as Hm. unfold synced in Hd. rewrite Hm in Hd. simpl in Hd.
    change (IBLOCK 2) with 2 in Hd. rewrite Hd. simpl. rewrite (wn_size _ _ _ _ _ _ _ _ HW). done.
Defined.

Lemma readi_spec_witness :
  ends (fun _ => False) (fun r _ _ _ => r = (0, []))
    (exec (readi (fun _ => None) 0 0 10) (boot 100 [63] [file0])).
Proof.
  apply tri_boot. eapply tri_mono.
  - apply (readi_spec 1 sb0 (fun _ => None) V0 [file0] 0 file0 0 10); [done|apply file_ok_file0|done|done].
  - by intros ? ? ? ? (-> & _).
Defined.

Lemma writei_readi_roundtrip_witness :
  ends (fun _ => False) (fun r _ _ _ => r = (2, [104; 105]))
    (exec (r <- writei (fun _ => None) 0 [104; 105] 0 2 ;; readi (fun _ => None) 0 0 r)
       (boot 100 [63] [file0])).
Proof.
  apply tri_boot.
  apply (writei_readi_roundtrip 1 sb0 (fun _ => None) (fun _ => None) V0 [file0] 0 file0 [104; 105] 0);
    [done|apply file_ok_file0|done|done|by apply room_file0].
Defined.

Lemma bmap_spec_witness :
  ends (fun _ => False) (fun r V' _ _ => r <> 0) (exec (bmap 0 20) (boot 100 [63] [file0])).
Proof.
  apply tri_boot. eapply tri_mono.
  - apply (bmap_spec 1 sb0 V0 [file0] 0 file0 20);
      [done|apply fs_ok_V0|apply file_ok_file0|lia|by vm_compute; lia].
  - intros r V' H' I' (_ & x' & _ & HM). apply (mp_nonzero _ _ _ _ _ _ _ _ HM).
Defined.

End FsFile.
