(* ===== verification/FsInode.v ===== *)
(** * FsInode: the inode cache of fs.c

    iget, idup, iput, ilock and iunlock against a specification of the cache as
    a count of references per inode: at most one entry in use for each inode
    number, and each operation changes the count of one inode by one. *)
From S2P Require Import Prelude Kmonad Cstring Block FsLayout Fs FsLogic FsImage FsAlloc FsFile.
From stdpp Require Import options.

Module FsInode.
Export FsFile.

(** An entry of the cache that holds inode [n] of device [d]. *)
Definition caches (d n : Z) (x : inode) : bool :=
  (0 <? iref x) && (idev x =? d) && (inum x =? n).

(** References are not negative, and no inode is cached twice. *)
Definition icache_ok (I : list inode) : Prop :=
  Forall (fun x => 0 <= iref x) I /\
  forall i j x y, I !! i = Some x -> I !! j = Some y -> 0 < iref x -> 0 < iref y ->
    idev x = idev y -> inum x = inum y -> i = j.

(** The references to inode [n] of device [d]. *)
Fixpoint refs (I : list inode) (d n : Z) : Z :=
  match I with
  | [] => 0
  | x :: r => (if caches d n x then iref x else 0) + refs r d n
  end.

Lemma caches_true d n x : caches d n x = true <-> 0 < iref x /\ idev x = d /\ inum x = n.
Proof.
  unfold caches. rewrite !andb_true_iff, Z.ltb_lt, !Z.eqb_eq. tauto.
Qed.

Lemma refs_insert I ip x y d n :
  I !! ip = Some x ->
  refs (<[ip := y]> I) d n =
  refs I d n - (if caches d n x then iref x else 0) + (if caches d n y then iref y else 0).
Proof.
  revert ip. induction I as [|z r IH]; intros [|ip] H; simpl in *; try done.
  - injection H as ->. lia.
  - rewrite (IH _ H). lia.
Qed.

Lemma iget_scan_inl d n l k e ip :
  iget_scan d n l k e = inl ip ->
  exists x, l !! (ip - k)%nat = Some x /\ (k <= ip)%nat /\ caches d n x = true.
Proof.
  revert k e. induction l as [|x r IH]; intros k e H; simpl in H; [done|].
  fold (caches d n x) in H. destruct (caches d n x) eqn:E.
  - injection H as <-. exists x. rewrite Nat.sub_diag. auto.
  - apply IH in H as (y & Hy & Hk & Hc). exists y. split_and!; [|lia|done].
    replace (ip - k)%nat with (S (ip - S k)) by lia. done.
Qed.

Lemma iget_scan_inr d n l k e r :
  iget_scan d n l k e = inr r ->
  (forall x, x ∈ l -> caches d n x = false) /\
  match r with
  | Some ip => e = Some ip \/ exists x, l !! (ip - k)%nat = Some x /\ (k <= ip)%nat /\ iref x = 0
  | None => e = None /\ forall x, x ∈ l -> iref x <> 0
  end.
Proof.
  revert k e. induction l as [|x l IH]; intros k e H; simpl in H.
  - injection H as <-. split; [by intros ? ?%not_elem_of_nil|].
    destruct e; [by left|]. split; [done|]. by intros ? ?%not_elem_of_nil.
  - fold (caches d n x) in H. destruct (caches d n x) eqn:E; [done|].
    apply IH in H as [H1 H2]. split.
    { intros y [->|Hy]%elem_of_cons; auto. }
    destruct r as [ip|].
    + destruct H2 as [H2|(y & Hy & Hk & Hc)].
      * destruct e as [e|]; [by left|]. destruct (Z.eqb_spec (iref x) 0); [|done].
        injection H2 as <-. right. exists x. rewrite Nat.sub_diag. auto.
      * right. exists y. split_and!; [|lia|done]. by replace (ip - k)%nat with (S (ip - S k)) by lia.
    + destruct H2 as [H2 H3]. destruct e as [e|]; [done|]. destruct (Z.eqb_spec (iref x) 0); [done|].
      split; [done|]. intros y [->|Hy]%elem_of_cons; auto.
Qed.

(** Changing one entry keeps the cache consistent if the entry keeps its key or
    takes one that no other entry has. *)
Lemma icache_ok_insert I ip x y :
  icache_ok I -> I !! ip = Some x -> 0 <= iref y ->
  (0 < iref y -> forall j z, I !! j = Some z -> j <> ip -> caches (idev y) (inum y) z = false) ->
  icache_ok (<[ip := y]> I).
Proof.
  intros [H1 H2] Hx Hy Hk. split.
  - by apply Forall_insert.
  - assert (Hlt : (ip < length I)%nat) by by eapply lookup_lt_Some.
    assert (Hc : forall j z, I !! j = Some z -> j <> ip -> 0 < iref z -> 0 < iref y ->
              idev z = idev y -> inum z = inum y -> False).
    { intros j z Hz Hne Hzp Hyp Hd Hn. specialize (Hk Hyp j z Hz Hne).
      rewrite (proj2 (caches_true _ _ z)) in Hk; done. }
    intros i j a b Ha Hb Hap Hbp Hd Hn.
    apply list_lookup_insert_Some in Ha, Hb.
    destruct Ha as [(<- & -> & _)|[Hi Ha]], Hb as [(E & <- & _)|[Hj Hb]]; try done.
    + exfalso. by eapply (Hc j b).
    + exfalso. subst. by eapply (Hc i a).
    + by eapply H2.
Qed.

Lemma caches_unique I i x d n :
  icache_ok I -> I !! i = Some x -> caches d n x = true ->
  forall j z, I !! j = Some z -> j <> i -> caches d n z = false.
Proof.
  intros [_ H2] Hx Hc j z Hz Hne. apply caches_true in Hc as (H3 & H4 & H5).
  destruct (caches d n z) eqn:E; [|done]. apply caches_true in E as (H6 & H7 & H8).
  exfalso. apply Hne. eapply H2; try done; congruence.
Qed.

Definition one (d n d' n' : Z) : Z := if (d' =? d) && (n' =? n) then 1 else 0.

(** An entry in use whose count becomes [r]. *)
Lemma refs_set_ref I ip x r d n :
  I !! ip = Some x -> 0 < iref x -> 0 <= r -> caches d n x = true ->
  forall d' n', refs (<[ip := set_ref r x]> I) d' n' = refs I d' n' + (r - iref x) * one d n d' n'.
Proof.
  intros Hx Hp Hr Hc d' n'. rewrite (refs_insert _ _ _ _ _ _ Hx).
  apply caches_true in Hc as (_ & Hd & Hn). unfold caches, one. simpl. subst.
  rewrite (Z.eqb_sym (idev x)), (Z.eqb_sym (inum x)).
  destruct (Z.ltb_spec 0 (iref x)); [|lia].
  destruct (d' =? idev x), (n' =? inum x), (Z.ltb_spec 0 r); simpl; lia.
Qed.

Lemma refs_zero I d n : (forall x, x ∈ I -> caches d n x = false) -> refs I d n = 0.
Proof.
  induction I as [|x r IH]; intros H; [done|]. simpl. rewrite H by left. rewrite IH; [done|].
  intros y Hy. apply H. by right.
Qed.

Lemma icache_ok_set_ref I ip x r :
  icache_ok I -> I !! ip = Some x -> 0 < iref x -> 0 <= r -> icache_ok (<[ip := set_ref r x]> I).
Proof.
  intros Hok Hx Hp Hr. eapply icache_ok_insert; try done. intros _ j z Hz Hne. simpl.
  apply (caches_unique I ip x (idev x) (inum x) Hok Hx) with j; try done. by apply caches_true.
Qed.

Section Icache.
Context {B : Type} `{BO : BlockOps B} `{BL : !BlockLayer B}.
Context (V : contents) (H : stack) (I : list inode) (Hok : icache_ok I).

(** iget, on each of its branches. *)
Lemma iget_ok d n :
  tri (fun msg => msg = "iget: no inodes"%string /\ refs I d n = 0 /\ forall x, x ∈ I -> 0 < iref x)
    V H I (iget d n) (fun ip V' H' I' =>
      V' = V /\ H' = H /\ icache_ok I' /\
      (exists x, I' !! ip = Some x /\ caches d n x = true /\ (refs I d n = 0 -> iflags x = 0)) /\
      forall d' n', refs I' d' n' = refs I d' n' + one d n d' n').
Proof using Hok.
  unfold iget. tstep. apply (tri_gets_icache _ _ _ _ _ (fun l => iget_scan d n l 0 None)).
  destruct (iget_scan d n I 0 None) as [ip|[ip|]] eqn:E.
  - apply iget_scan_inl in E as (x & Hx & _ & Hc). rewrite Nat.sub_0_r in Hx.
    pose proof Hc as (Hp & Hd & Hn)%caches_true.
    tstep. rewrite (alter_lookup _ _ _ _ Hx). do 2 tstep. split_and!; try done.
    + apply icache_ok_set_ref; try done. lia.
    + exists (set_ref (iref x + 1) x). split_and!.
      * eapply list_lookup_insert_eq, lookup_lt_Some, Hx.
      * apply caches_true. simpl. split_and!; [lia|done..].
      * intros Hz. exfalso. assert (refs (<[ip := set_ref 0 x]> I) d n = refs I d n - iref x) as Er.
        { rewrite (refs_set_ref _ _ _ _ d n) by (done || lia). unfold one. rewrite !Z.eqb_refl. simpl. lia. }
        assert (forall l, Forall (fun x => 0 <= iref x) l -> 0 <= refs l d n) as Hnn.
        { induction 1; simpl; [lia|]. case_match; lia. }
        specialize (Hnn (<[ip := set_ref 0 x]> I)). destruct Hok as [Hf _].
        specialize (Hnn ltac:(apply Forall_insert; [done|simpl; lia])). lia.
    + intros d' n'. rewrite (refs_set_ref _ _ _ _ d n) by (done || lia). lia.
  - apply iget_scan_inr in E as [Hno [?|(x & Hx & _ & Hz)]]; [done|]. rewrite Nat.sub_0_r in Hx.
    tstep. rewrite (alter_lookup _ _ _ _ Hx). do 2 tstep. split_and!; try done.
    + eapply icache_ok_insert; try done. intros _ j z Hj _. simpl. apply Hno. by eapply list_elem_of_lookup_2.
    + eexists. split_and!; [eapply list_lookup_insert_eq, lookup_lt_Some, Hx| |done].
      by apply caches_true.
    + intros d' n'. rewrite (refs_insert _ _ _ _ _ _ Hx). unfold caches, one. simpl. rewrite Hz. simpl.
      rewrite (Z.eqb_sym d), (Z.eqb_sym n). destruct (d' =? d), (n' =? n); simpl; lia.
  - apply iget_scan_inr in E as [Hno [_ Hz]]. tstep. split_and!; [done|by apply refs_zero|].
    intros x Hx. destruct Hok as [Hf _]. rewrite Forall_forall in Hf. specialize (Hf x Hx).
    specialize (Hz x Hx). lia.
Qed.

(** iget returns an entry of the cache that holds the inode, and one more
    reference to that inode and to no other; an inode is never cached twice, and
    an entry made now is not valid, so that ilock will read it from disk.  It
    panics exactly when the inode is not cached and every entry is in use. *)
Theorem iget_spec d n :
  tri (fun msg => msg = "iget: no inodes"%string /\ refs I d n = 0 /\ forall x, x ∈ I -> 0 < iref x)
    V H I (iget d n) (fun ip V' H' I' =>
      V' = V /\ H' = H /\ icache_ok I' /\
      (exists x, I' !! ip = Some x /\ caches d n x = true /\ (refs I d n = 0 -> iflags x = 0)) /\
      forall d' n', refs I' d' n' = refs I d' n' + one d n d' n').
Proof using Hok. apply iget_ok. Qed.

(** iput when the inode stays: other references, or still linked, or not read. *)
Lemma iput_keeps ip x d n :
  I !! ip = Some x -> caches d n x = true ->
  iref x <> 1 \/ flag x I_VALID = false \/ inlink x <> 0 ->
  tri (fun _ => False) V H I (iput ip) (fun _ V' H' I' =>
    V' = V /\ H' = H /\ icache_ok I' /\ forall d' n', refs I' d' n' = refs I d' n' - one d n d' n').
Proof using Hok.
  intros Hx Hc Hk. pose proof Hc as (Hp & _)%caches_true.
  unfold iput. do 2 tstep. rewrite (nth_lookup_Some _ _ _ _ Hx).
  replace ((iref x =? 1) && flag x I_VALID && (inlink x =? 0)) with false.
  2: { destruct (Z.eqb_spec (iref x) 1), (flag x I_VALID), (Z.eqb_spec (inlink x) 0); try done.
       by destruct Hk as [?|[?|?]]. }
  tstep. tstep. rewrite (alter_lookup _ _ _ _ Hx). apply tri_tail. do 2 tstep. split_and!; try done.
  - apply icache_ok_set_ref; try done. lia.
  - intros d' n'. rewrite (refs_set_ref _ _ _ _ d n) by (done || lia). lia.
Qed.
End Icache.

Lemma iget_spec_witness :
  ends (fun _ => False) (fun ip _ _ I' => refs I' 1 1 = 1)
    (exec (iget 1 1) (boot 100 [63] (replicate 50 inode0))).
Proof.
  assert (icache_ok (replicate 50 inode0)) as Hok.
  { split; [by apply Forall_replicate|]. intros i j x y Hx _ Hp.
    apply lookup_replicate in Hx as [-> _]. simpl in Hp. lia. }
  pose proof (tri_boot _ _ _ _ _ _ (iget_spec (image 100 [63]) [] (replicate 50 inode0) Hok 1 1)) as H.
  destruct (exec _ _) as [ip w s|msg| |]; simpl in *; [|by destruct H as (_ & _ & H); specialize (H inode0 ltac:(left))|done..].
  destruct H as (V & H & I & Hr & _ & _ & _ & _ & Hn). exists V, H, I. split; [done|]. by rewrite Hn.
Defined.
End FsInode.
