(* ===== verification/FsTrunc.v ===== *)
(** * FsTrunc: itrunc and the last iput of fs.c

    Truncating a file frees exactly the blocks it owns, and dropping the last
    reference to an unlinked inode also frees the inode on disk. *)
From S2P Require Import Prelude Kmonad Cstring Block FsLayout Fs FsLogic FsImage FsAlloc FsFile FsInode.
From stdpp Require Import options.

Module FsTrunc.
Export FsInode.

Section Trunc.
Context (dev : Z) (sb : superblock).

(** [V'] is [V] with the blocks of [l] freed. *)
Record frees (V : contents) (l : list Z) (V' : contents) : Prop := {
  fr_sb : sb_ok V' dev sb;
  fr_used : forall b, 0 <= b < bitmap_end sb ->
    used V' dev sb b = (used V dev sb b && negb (bool_decide (b ∈ l)));
  fr_zero : forall b, b ∈ l -> V' dev b = replicate 512 0;
  fr_frame : forall v n, (v = dev -> n ∉ l /\ ~ is_bitmap sb n) -> V' v n = V v n
}.

Lemma frees_nil V : sb_ok V dev sb -> frees V [] V.
Proof using Type.
  intros. split; try done; [|by intros ? ?%not_elem_of_nil].
  intros. rewrite bool_decide_false by apply not_elem_of_nil. by rewrite andb_true_r.
Qed.

(** A data block. *)
Definition data_block (b : Z) : Prop := meta_end sb <= b < sb_size sb.

Lemma data_not_bitmap V b : sb_ok V dev sb -> data_block b -> ~ is_bitmap sb b.
Proof using Type. intros Hsb Hb (c & Hc & ->). pose proof (meta_bitmap dev sb V c Hsb Hc). unfold data_block in *. lia. Qed.

Lemma frees_app V l1 V1 l2 V2 :
  Forall data_block (l1 ++ l2) -> frees V l1 V1 -> frees V1 l2 V2 -> frees V (l1 ++ l2) V2.
Proof using Type.
  intros Hd [S1 U1 Z1 F1] [S2 U2 Z2 F2]. split; [done| | |].
  - intros b Hb. rewrite U2, U1 by done. rewrite <- andb_assoc. f_equal. rewrite <- negb_orb. f_equal.
    destruct (decide (b ∈ l1)), (decide (b ∈ l2)); rewrite !bool_decide_decide; repeat case_decide;
      rewrite ?elem_of_app in *; tauto.
  - intros b Hb. destruct (decide (b ∈ l2)) as [|Hn]; [by apply Z2|].
    assert (b ∈ l1) as H1 by (apply elem_of_app in Hb; tauto).
    rewrite F2; [by apply Z1|]. intros _. split; [done|]. eapply data_not_bitmap; [apply S1|].
    rewrite Forall_forall in Hd. by apply Hd.
  - intros v n Hn. rewrite F2, F1; [done| |].
    + intros Hv. destruct (Hn Hv) as [H1 H2]. rewrite elem_of_app in H1. tauto.
    + intros Hv. destruct (Hn Hv) as [H1 H2]. rewrite elem_of_app in H1. tauto.
Qed.

Section Code.
Context {B : Type} `{BO : BlockOps B} `{BL : !BlockLayer B}.

Lemma tri_bfree_data {C} E V H I (f : unit -> K (fstate B) C) Q b :
  sb_ok V dev sb -> clear_of dev sb H -> data_block b -> used V dev sb b = true -> (dev, b) ∉ H.*1.*2 ->
  (forall V', frees V [b] V' -> tri E V' H I (f tt) Q) ->
  tri E V H I (kbind (onblk (bfree dev b)) f) Q.
Proof using BL.
  intros Hsb Hc Hb Hu Hn Hf. pose proof (size_bitmap_end dev sb V Hsb) as He.
  pose proof (meta_pos dev sb V Hsb) as Hp. unfold data_block in Hb.
  assert (Hbb : forall b', 0 <= b' < bitmap_end sb -> b <> BBLOCK b' (sb_ninodes sb)).
  { intros b' Hb' ->. pose proof (meta_bitmap dev sb V b' Hsb Hb'). lia. }
  apply tri_512. intros H512.
  eapply tri_bfree with (sb := sb); try done; [lia|lia|]. apply Hf.
  assert (Hne : (dev, BBLOCK b (sb_ninodes sb)) <> (dev, b)) by (intros [= E']; by apply (Hbb b); [lia|]).
  unfold freed. split.
  - destruct Hsb as [S1 S2 S3 S4]. split; try done. unfold unmark.
    rewrite !upd_sector_other; [done|intros [= E']; lia|].
    intros [= E']. pose proof (meta_bitmap dev sb V b ltac:(done) ltac:(lia)). lia.
  - intros c Hc'. rewrite used_unmark, used_zeroed.
    + f_equal. f_equal. destruct (Z.eqb_spec c b) as [->|Hcb].
      * rewrite bool_decide_true; [done|]. by apply list_elem_of_singleton.
      * rewrite bool_decide_false; [done|]. by intros ?%list_elem_of_singleton.
    + by apply Hbb.
    + rewrite upd_sector_other by done. apply H512, (bitmap_sector V); [done|lia].
  - intros c ->%list_elem_of_singleton. unfold unmark. by rewrite upd_sector_other, upd_sector_same.
  - intros v n Hvn. unfold unmark. rewrite !upd_sector_other; [done| |].
    + intros [= -> ->]. destruct (Hvn eq_refl) as [H1 _]. apply H1. by apply list_elem_of_singleton.
    + intros [= -> ->]. destruct (Hvn eq_refl) as [_ H2]. apply H2. exists b. split; [lia|done].
Qed.

(** The blocks of [l] can be freed one after the other. *)
Definition freeable (V : contents) (l : list Z) : Prop :=
  NoDup l /\ Forall (fun b => data_block b /\ used V dev sb b = true) l.

Lemma freeable_cons V b l : freeable V (b :: l) ->
  data_block b /\ used V dev sb b = true /\ b ∉ l /\ freeable V l.
Proof using Type.
  intros [H1 H2]. apply NoDup_cons in H1 as [H1 H3]. apply Forall_cons in H2 as [[H2 H4] H5]. done.
Qed.

Lemma freeable_frees V b l V1 :
  sb_ok V dev sb -> b ∉ l -> freeable V l -> frees V [b] V1 -> freeable V1 l.
Proof using Type.
  intros Hsb Hb [H1 H2] Hf. split; [done|]. rewrite Forall_forall in *. intros c Hc.
  destruct (H2 c Hc) as [H3 H4]. split; [done|]. unfold data_block in H3.
  pose proof (size_bitmap_end dev sb V Hsb). pose proof (meta_pos dev sb V Hsb).
  rewrite (fr_used _ _ _ Hf) by lia. rewrite H4, bool_decide_false; [done|].
  intros ->%list_elem_of_singleton. done.
Qed.

Definition nz (l : list Z) : list Z := filter (.≠ 0) l.

Lemma nz_cons_0 l : nz (0 :: l) = nz l.
Proof using Type. unfold nz. rewrite filter_cons_False; [done|]. intros Hn. by apply Hn. Qed.
Lemma nz_cons_ne b l : b <> 0 -> nz (b :: l) = b :: nz l.
Proof using Type. intros. unfold nz. rewrite filter_cons_True; done. Qed.

Lemma tri_itrunc_indirect {C} E V I bp ind d n j (f : unit -> K (fstate B) C) Q :
  let l := nz ((fun k => get32 d (4 * k)) <$> seq j n) in
  let H := [(bp, (dev, ind), d)] in
  sb_ok V dev sb -> data_block ind -> freeable V l -> ind ∉ l ->
  (forall V', frees V l V' -> tri E V' H I (f tt) Q) ->
  tri E V H I (kbind (onblk (itrunc_indirect n dev bp j)) f) Q.
Proof using BL.
  intros l H Hsb Hind Hl Hni Hf. subst l. revert V j f Hsb Hl Hni Hf.
  induction n as [|n IH]; intros V j f Hsb Hl Hni Hf; cbn [itrunc_indirect].
  { tstep. apply Hf. by apply frees_nil. }
  tstep. eapply (tri_bget _ _ _ _ _ _ _ _ (fun x => get32 x (4 * j))); [reflexivity|].
  cbn [seq fmap list_fmap] in Hl, Hni, Hf. tstep.
  destruct (Z.eqb_spec (get32 d (4 * j)) 0) as [E0|E0]; cbn [negb].
  - rewrite E0, nz_cons_0 in *. tstep. by apply IH.
  - rewrite nz_cons_ne in * by done. apply freeable_cons in Hl as (Hd & Hu & Hn & Hl).
    apply not_elem_of_cons in Hni as [Hne Hni].
    apply tri_bfree_data; try done.
    + destruct Hind. by eapply clear_of_data.
    + simpl. intros [= Ei]%list_elem_of_singleton. by apply Hne.
    + intros V1 Hf1. apply IH; try done; [apply Hf1|exact (freeable_frees _ _ _ _ Hsb Hn Hl Hf1)|].
      intros V' Hf2. apply Hf. eapply (frees_app _ [_]); try done.
      apply Forall_cons. split; [done|]. destruct Hl as [_ Hl]. eapply Forall_impl; [exact Hl|].
      by intros ? [? _].
Qed.

(** [n] addresses from [i] on set to 0. *)
Definition zeroed (i n : nat) (l : list Z) : list Z := splice l i (replicate n 0).

Lemma zeroed_step i n (l : list Z) :
  (i + S n <= length l)%nat -> zeroed (S i) n (<[i := 0]> l) = zeroed i (S n) l.
Proof using Type.
  intros Hl. unfold zeroed. apply list_eq. intros k.
  destruct (decide (k < i)%nat); [|destruct (decide (k = i)) as [->|]; [|destruct (decide (k < i + S n)%nat)]].
  - rewrite !lookup_splice_out by (rewrite ?length_insert, ?length_replicate; lia).
    by rewrite list_lookup_insert_ne by lia.
  - rewrite lookup_splice_out by (rewrite ?length_insert, ?length_replicate; lia).
    rewrite list_lookup_insert_eq by lia. rewrite lookup_splice_in by (rewrite ?length_replicate; lia).
    by rewrite Nat.sub_diag.
  - rewrite !lookup_splice_in by (rewrite ?length_insert, ?length_replicate; lia).
    rewrite !lookup_replicate_2 by lia. done.
  - rewrite !lookup_splice_out by (rewrite ?length_insert, ?length_replicate; lia).
    by rewrite list_lookup_insert_ne by lia.
Qed.

Lemma slice_cons (l : list Z) i n :
  (i < length l)%nat -> slice l i (S n) = nth i l 0 :: slice l (S i) n.
Proof using Type.
  intros Hi. unfold slice. destruct (lookup_lt_is_Some_2 l i Hi) as [a Ha].
  rewrite (drop_S _ _ _ Ha), (nth_lookup_Some _ _ _ _ Ha). done.
Qed.

Lemma slice_insert_lt (l : list Z) i k n a : (i < k)%nat -> slice (<[i := a]> l) k n = slice l k n.
Proof using Type. intros H. unfold slice. by rewrite drop_insert_lt. Qed.

Lemma set_addr_0 x i : addr x i = 0 -> (i < length (iaddrs x))%nat -> set_addr i 0 x = x.
Proof using Type.
  intros Ha Hi. unfold set_addr. rewrite list_insert_id; [by destruct x|].
  destruct (lookup_lt_is_Some_2 _ _ Hi) as [a Hl]. rewrite Hl. unfold addr in Ha.
  rewrite (nth_lookup_Some _ _ _ _ Hl) in Ha. by rewrite Ha.
Qed.

Lemma tri_itrunc_direct {C} E V I ip x n i (f : unit -> K (fstate B) C) Q :
  I !! ip = Some x -> idev x = dev -> sb_ok V dev sb -> (i + n <= length (iaddrs x))%nat ->
  freeable V (nz (slice (iaddrs x) i n)) ->
  (forall V', frees V (nz (slice (iaddrs x) i n)) V' ->
     tri E V' [] (<[ip := set_addrs (zeroed i n (iaddrs x)) x]> I) (f tt) Q) ->
  tri E V [] I (kbind (itrunc_direct n ip i) f) Q.
Proof using BL.
  revert V I x i. induction n as [|n IH]; intros V I x i HI Hd Hsb Hi Hl Hf; cbn [itrunc_direct].
  { tstep. assert (set_addrs (zeroed i 0 (iaddrs x)) x = x) as E0.
    { unfold zeroed, splice. simpl. rewrite Nat.add_0_r, take_drop. by destruct x. }
    rewrite E0 in Hf. specialize (Hf V (frees_nil V Hsb)). by rewrite list_insert_id in Hf. }
  do 2 tstep. rewrite (nth_lookup_Some _ _ _ _ HI), Hd. tstep.
  rewrite slice_cons in Hl, Hf by lia. fold (addr x i) in Hl, Hf.
  assert (Hx' : set_addrs (zeroed (S i) n (iaddrs (set_addr i 0 x))) (set_addr i 0 x) =
                set_addrs (zeroed i (S n) (iaddrs x)) x) by (simpl; rewrite zeroed_step by lia; done).
  assert (Hsl : slice (iaddrs (set_addr i 0 x)) (S i) n = slice (iaddrs x) (S i) n)
    by (apply slice_insert_lt; lia).
  assert (Hlen : length (iaddrs (set_addr i 0 x)) = length (iaddrs x)) by apply length_insert.
  destruct (Z.eqb_spec (addr x i) 0) as [E0|E0]; cbn [negb].
  - rewrite E0, nz_cons_0 in *. tstep. apply (IH _ _ (set_addr i 0 x)); try rewrite Hsl; try done; [|lia|].
    { by rewrite set_addr_0 by (done || lia). }
    intros V' HV'. rewrite Hx'. by apply Hf.
  - rewrite nz_cons_ne in * by done. apply freeable_cons in Hl as (Hdb & Hu & Hn & Hl).
    tstep. apply tri_bfree_data; try done; [apply clear_of_nil|apply not_elem_of_nil|].
    intros V1 Hf1. tstep. rewrite (alter_lookup _ _ _ _ HI).
    apply (IH _ _ (set_addr i 0 x)); try rewrite Hsl; try done; [|apply Hf1|lia|exact (freeable_frees _ _ _ _ Hsb Hn Hl Hf1)|].
    { eapply list_lookup_insert_eq, lookup_lt_Some, HI. }
    intros V' HV'. rewrite Hx', list_insert_insert_eq. apply Hf. eapply (frees_app _ [_]); try done.
    apply Forall_cons. split; [done|]. destruct Hl as [_ Hl]. eapply Forall_impl; [exact Hl|].
    by intros ? [? _].
Qed.

Lemma NoDup_nz l :
  (forall i j a, l !! i = Some a -> l !! j = Some a -> a <> 0 -> i = j) -> NoDup (nz l).
Proof using Type.
  induction l as [|x r IH]; intros Hi; [constructor|].
  assert (NoDup (nz r)) as Hr.
  { apply IH. intros i j a H1 H2 Ha. by injection (Hi (S i) (S j) a H1 H2 Ha). }
  destruct (decide (x = 0)) as [->|Hne]; [by rewrite nz_cons_0|]. rewrite nz_cons_ne by done.
  constructor; [|done]. intros [_ Hin]%list_elem_of_filter. apply list_elem_of_lookup in Hin as [j Hj].
  discriminate (Hi 0%nat (S j) x eq_refl Hj Hne).
Qed.

Lemma elem_of_nz b l : b ∈ nz l <-> b <> 0 /\ b ∈ l.
Proof using Type. unfold nz. by rewrite list_elem_of_filter. Qed.

Lemma nz_app l1 l2 : nz (l1 ++ l2) = nz l1 ++ nz l2.
Proof using Type. apply filter_app. Qed.

Lemma wf_freeable V x : wf_file dev sb V x -> freeable V (nz (slots dev V x)).
Proof using Type.
  intros Hwf. split; [apply NoDup_nz, Hwf|]. apply Forall_forall. intros b Hb%elem_of_nz.
  by apply (wf_own _ _ _ _ Hwf).
Qed.

Lemma freeable_app V l1 l2 : freeable V (l1 ++ l2) ->
  freeable V l1 /\ freeable V l2 /\ forall b, b ∈ l1 -> b ∉ l2.
Proof using Type.
  intros [H1 H2]. apply NoDup_app in H1 as (H3 & H4 & H5). apply Forall_app in H2 as [H6 H7].
  split_and!; try done.
Qed.

Lemma freeable_frees_list V l l' V1 :
  sb_ok V dev sb -> (forall b, b ∈ l' -> b ∉ l) -> freeable V l' -> frees V l V1 -> freeable V1 l'.
Proof using Type.
  intros Hsb Hb [H1 H2] Hf. split; [done|]. rewrite Forall_forall in *. intros c Hc.
  destruct (H2 c Hc) as [H3 H4]. split; [done|]. unfold data_block in H3.
  pose proof (size_bitmap_end dev sb V Hsb). pose proof (meta_pos dev sb V Hsb).
  rewrite (fr_used _ _ _ Hf) by lia. rewrite H4, bool_decide_false; [done|]. by apply Hb.
Qed.

(** The blocks of a file, in the order in which itrunc frees them. *)
Lemma slots_split V x :
  length (iaddrs x) = 13%nat ->
  slots dev V x = slice (iaddrs x) 0 12 ++ [addr x 12] ++
    (if addr x 12 =? 0 then replicate 128 0 else entries (V dev (addr x 12))).
Proof using Type.
  intros Hl. unfold slots. rewrite app_assoc. f_equal.
  rewrite <- (take_drop 12 (iaddrs x)) at 1. unfold slice. rewrite drop_0. f_equal.
  destruct (lookup_lt_is_Some_2 (iaddrs x) 12) as [a Ha]; [lia|].
  rewrite (drop_S _ _ _ Ha), drop_ge by lia. unfold addr. by rewrite (nth_lookup_Some _ _ _ _ Ha).
Qed.

Lemma nz_replicate_0 n : nz (replicate n 0) = [].
Proof using Type. induction n as [|n IH]; [done|]. simpl. by rewrite nz_cons_0. Qed.

(** Freeing the entries of the indirect block, then the block itself. *)
Lemma tri_free_indirect {C D} E V I ind (g : K (fstate B) D) (f : D -> K (fstate B) C) Q :
  sb_ok V dev sb -> freeable V (ind :: nz (entries (V dev ind))) ->
  (forall V', frees V (nz (entries (V dev ind)) ++ [ind]) V' -> tri E V' [] I (kbind g f) Q) ->
  tri E V [] I (kbind (bp <- onblk (bread dev ind) ;;
    onblk (itrunc_indirect 128 dev bp 0) ;;
    onblk (brelse bp) ;;
    onblk (bfree dev ind) ;;
    g) f) Q.
Proof using BL.
  intros Hsb Hfr Hf. apply freeable_cons in Hfr as (Hdb & Hu & Hni & Hfr).
  do 2 tstep; [eapply good_data; [apply Hsb|apply Hdb]|apply not_elem_of_nil|unfold MAXHELD; simpl; lia|].
  tstep. apply tri_itrunc_indirect; try done. intros V2 Hf2. tstep.
  assert (V2 dev ind = V dev ind) as EV2.
  { apply (fr_frame _ _ _ Hf2). intros _. split; [done|]. by eapply data_not_bitmap. }
  assert (used V2 dev sb ind = true) as Hu2.
  { pose proof (size_bitmap_end dev sb V Hsb). pose proof (meta_pos dev sb V Hsb). unfold data_block in Hdb.
    rewrite (fr_used _ _ _ Hf2) by lia. rewrite Hu, bool_decide_false; done. }
  tstep; [by rewrite EV2|]. tstep.
  apply tri_bfree_data; try done; [apply Hf2|apply clear_of_nil|apply not_elem_of_nil|]. intros V3 Hf3.
  apply Hf. eapply frees_app; [|done|done]. rewrite Forall_app, Forall_singleton. split; [|done].
  destruct Hfr as [_ Hx]. eapply Forall_impl; [exact Hx|]. by intros ? [? _].
Qed.

(** itrunc up to the update of the inode. *)
Lemma tri_itrunc_blocks {C} E V I ip x (f : unit -> K (fstate B) C) Q :
  I !! ip = Some x -> fs_ok dev sb V -> wf_file dev sb V x ->
  (forall V' l, frees V l V' -> (forall b, b ∈ l <-> owns dev V x b) ->
     tri E V' [] (<[ip := set_addrs (replicate 13 0) x]> I) (kbind (iset ip (set_size 0)) (fun _ => kbind (iupdate ip) f)) Q) ->
  tri E V [] I (kbind (itrunc ip) f) Q.
Proof using BL.
  intros HI Hfs Hwf Hf. pose proof (fs_sb _ _ _ Hfs) as Hsb. pose proof (wf_len _ _ _ _ Hwf) as Hl.
  pose proof (wf_freeable V x Hwf) as Hfr. rewrite (slots_split V x Hl), !nz_app in Hfr.
  apply freeable_app in Hfr as (Hfr1 & Hfr2 & Hdis). unfold itrunc. tstep.
  apply (tri_itrunc_direct _ _ _ _ x); try done; [apply Hwf|lia|].
  intros V1 Hf1. set (x1 := set_addrs (zeroed 0 12 (iaddrs x)) x).
  assert (HI1 : <[ip := x1]> I !! ip = Some x1) by (eapply list_lookup_insert_eq, lookup_lt_Some, HI).
  assert (Hx1 : iaddrs x1 = replicate 12 0 ++ [addr x 12]).
  { unfold x1, zeroed, splice. simpl. f_equal. unfold addr.
    destruct (iaddrs x) as [|a0 [|a1 [|a2 [|a3 [|a4 [|a5 [|a6 [|a7 [|a8 [|a9 [|a10 [|a11 [|a12 [|]]]]]]]]]]]]]];
      try discriminate Hl. done. }
  assert (addr x1 12 = addr x 12) as Ea by (unfold addr at 1; rewrite Hx1; done).
  tstep. tstep. rewrite (nth_lookup_Some _ _ _ _ HI1), Ea. tstep.
  assert (Eown : forall b, owns dev V x b <-> b ∈ nz (slots dev V x)) by (intros b; symmetry; apply elem_of_nz).
  rewrite (slots_split V x Hl) in Eown.
  destruct (Z.eqb_spec (addr x 12) 0) as [E0|E0]; cbn [negb].
  - tstep. assert (set_addrs (replicate 13 0) x = x1) as Ex1.
    { assert (iaddrs x1 = replicate 13 0) as <- by (rewrite Hx1, E0; done). done. }
    rewrite <- Ex1. tstep. apply (Hf V1 _ Hf1).
    intros b. rewrite Eown, !nz_app, !elem_of_app, E0, nz_replicate_0, nz_cons_0.
    change (nz []) with (@nil Z). rewrite !elem_of_nil. tauto.
  - rewrite (nz_cons_ne _ [] E0) in Hfr2, Hdis. change (nz []) with (@nil Z) in Hfr2, Hdis.
    set (ind := addr x 12) in *. set (l1 := nz (slice (iaddrs x) 0 12)) in *.
    change ([ind] ++ nz (entries (V dev ind))) with (ind :: nz (entries (V dev ind))) in *.
    pose proof Hfr2 as (Hdb & _)%freeable_cons.
    assert (V1 dev ind = V dev ind) as EV.
    { apply (fr_frame _ _ _ Hf1). intros _. split; [|by eapply data_not_bitmap].
      intros Hc. apply (Hdis _ Hc). left. }
    assert (freeable V1 (ind :: nz (entries (V1 dev ind)))) as Hfr1'.
    { rewrite EV. eapply (freeable_frees_list V l1); try done. intros b Hb Hc. by apply (Hdis _ Hc). }
    change (idev x1) with (idev x). rewrite (wf_dev _ _ _ _ Hwf).
    apply tri_free_indirect; [apply Hf1|done|]. intros V3 Hf3. rewrite EV in Hf3.
    tstep. rewrite (alter_lookup _ _ _ _ HI1), list_insert_insert_eq.
    assert (set_addr 12 0 x1 = set_addrs (replicate 13 0) x) as -> by (unfold set_addr; by rewrite Hx1).
    tstep. apply (Hf V3 (l1 ++ nz (entries (V dev ind)) ++ [ind])).
    + eapply frees_app; [|exact Hf1|exact Hf3]. rewrite !Forall_app, Forall_singleton.
      destruct Hfr1 as [_ H1]. apply freeable_cons in Hfr2 as (_ & _ & _ & _ & H2).
      split_and!; [eapply Forall_impl; [exact H1|]|eapply Forall_impl; [exact H2|]|done]; by intros ? [? _].
    + intros b. rewrite Eown, !nz_app, !elem_of_app. fold l1. rewrite (nz_cons_ne _ [] E0).
      change (nz []) with (@nil Z). tauto.
Qed.

(** What truncating does: the inode has no blocks and size 0, in memory and on
    disk; exactly its blocks became free, and they are zero; the other inodes and
    the sectors that are neither the file's nor bitmap sectors are as before. *)
Record truncated (V : contents) (x : inode) (V' : contents) (x' : inode) : Prop := {
  tc_ino : x' = set_size 0 (set_addrs (replicate 13 0) x);
  tc_ok : file_ok dev sb V' x';
  tc_disk : synced dev V' x';
  tc_used : forall b, 0 <= b < sb_size sb ->
    (used V' dev sb b = true <-> used V dev sb b = true /\ ~ owns dev V x b);
  tc_zero : forall b, owns dev V x b -> V' dev b = replicate 512 0;
  tc_inodes : forall i, 0 <= i < sb_ninodes sb -> i <> inum x ->
    get_dinode (V' dev (IBLOCK i)) i = get_dinode (V dev (IBLOCK i)) i;
  tc_frame : forall v n, foreign dev sb V x v n -> (v, n) <> (dev, IBLOCK (inum x)) -> V' v n = V v n
}.

Lemma frees_fs V V' l x :
  fs_ok dev sb V -> frees V l V' -> (forall b, b ∈ l <-> owns dev V x b) -> wf_file dev sb V x -> fs_ok dev sb V'.
Proof using Type.
  intros Hfs Hf Hl Hwf. split; [apply Hf|apply Hfs|]. intros b Hb Hu.
  pose proof (size_bitmap_end dev sb V (fs_sb _ _ _ Hfs)). rewrite (fr_used _ _ _ Hf) in Hu by lia.
  destruct (decide (b ∈ l)) as [Hin|Hin].
  - split; [|by apply (fr_zero _ _ _ Hf)]. apply (wf_own _ _ _ _ Hwf). by apply Hl.
  - rewrite bool_decide_false, andb_true_r in Hu by done.
    destruct (fs_free _ _ _ Hfs b Hb Hu) as [H1 H2]. split; [done|].
    rewrite (fr_frame _ _ _ Hf); [done|]. intros _. split; [done|].
    eapply data_not_bitmap; [apply Hfs|split; [done|apply Hb]].
Qed.

Lemma frees_foreign V V' l x v n :
  frees V l V' -> (forall b, b ∈ l <-> owns dev V x b) -> foreign dev sb V x v n -> V' v n = V v n.
Proof using Type.
  intros Hf Hl Hv. apply (fr_frame _ _ _ Hf). intros ->.
  destruct Hv as [?|(_ & _ & H1 & H2)]; [done|]. by rewrite Hl.
Qed.

Lemma wf_empty V x : idev x = dev -> iaddrs x = replicate 13 0 -> wf_file dev sb V x.
Proof using Type.
  intros Hd Ha.
  assert (slots dev V x = replicate 141 0) as Es by (unfold slots, addr; rewrite Ha; done).
  split; [done|by rewrite Ha| |].
  - intros i j a Hi _ Hne. rewrite Es in Hi. by apply lookup_replicate in Hi as [-> _].
  - intros b [Hb Hin]. rewrite Es in Hin. by apply elem_of_replicate in Hin as [-> _].
Qed.

(** Writing one inode leaves the others. *)
Lemma get_other_inode V i j y :
  length (V dev (IBLOCK j)) = 512%nat -> length (di_addrs y) = 13%nat ->
  0 <= i < sb_ninodes sb -> 0 <= j < sb_ninodes sb -> i <> j ->
  get_dinode (upd_sector V dev (IBLOCK j) (put_dinode (V dev (IBLOCK j)) j y) dev (IBLOCK i)) i =
  get_dinode (V dev (IBLOCK i)) i.
Proof using Type.
  intros Hl Hy Hi Hj Hne. destruct (decide (IBLOCK i = IBLOCK j)) as [Eb|Eb].
  - rewrite Eb, upd_sector_same. apply get_put_dinode_other; try done; [lia|lia|].
    intros Em. apply Hne. unfold IBLOCK in Eb. change IPB with 8 in *. clear - Em Eb Hi Hj. dlia.
  - rewrite upd_sector_other by congruence. done.
Qed.

(** The state after the blocks are freed and the inode is written. *)
Lemma truncated_disk V x V1 l :
  let x' := set_size 0 (set_addrs (replicate 13 0) x) in
  (forall v n, good_sector v n -> length (V1 v n) = 512%nat) ->
  file_ok dev sb V x -> frees V l V1 -> (forall b, b ∈ l <-> owns dev V x b) ->
  truncated V x (upd_sector V1 dev (IBLOCK (inum x))
    (put_dinode (V1 dev (IBLOCK (inum x))) (inum x) (to_dinode x'))) x'.
Proof using Type.
  intros x' H512 [Hfs Hwf Hde Hi Ht Hi16] Hf Hl.
  pose proof (frees_fs V V1 l x Hfs Hf Hl Hwf) as Hfs1.
  destruct (inode_block dev sb V1 (inum x) Hfs1 Hi) as [Hg Hb].
  assert (wf_file dev sb V1 x') as Hwf1 by (apply wf_empty; [apply Hwf|done]).
  assert (dinode_ok (to_dinode x')) as Hdok by (by eapply dinode_ok_file).
  assert (Hino : forall i, 0 <= i < sb_ninodes sb -> V1 dev (IBLOCK i) = V dev (IBLOCK i)).
  { intros i Hir. eapply frees_foreign; try done. by apply inode_foreign. }
  split; [done| | | | | |].
  - split; try done; [by apply meta_fs|by apply meta_wf|]. split; [done|]. simpl. lia.
  - unfold synced. simpl. rewrite upd_sector_same. apply get_put_dinode; [by apply H512|done].
  - intros b Hb'. rewrite (meta_used dev sb) by (done || lia).
    pose proof (size_bitmap_end dev sb V (fs_sb _ _ _ Hfs)). rewrite (fr_used _ _ _ Hf) by lia.
    rewrite andb_true_iff, negb_true_iff, bool_decide_eq_false, Hl. done.
  - intros b Ho. destruct (wf_own _ _ _ _ Hwf b Ho) as [Hr _].
    pose proof (meta_below dev sb V1 _ Hfs1 Hb). rewrite upd_sector_other by (intros [= ->]; lia).
    apply (fr_zero _ _ _ Hf). by apply Hl.
  - intros i Hir Hne. rewrite get_other_inode by (done || by apply H512). by rewrite Hino.
  - intros v n Hv Hne. rewrite upd_sector_other by done. by eapply frees_foreign.
Qed.

Lemma tri_itrunc {C} E V I ip x (f : unit -> K (fstate B) C) Q :
  I !! ip = Some x -> file_ok dev sb V x ->
  (forall V' x', truncated V x V' x' -> tri E V' [] (<[ip := x']> I) (f tt) Q) ->
  tri E V [] I (kbind (itrunc ip) f) Q.
Proof using BL.
  intros HI Hfo Hf. pose proof Hfo as [Hfs Hwf Hde Hi Ht Hi16].
  apply (tri_itrunc_blocks _ _ _ _ x); try done. intros V1 l Hfr Hl. apply tri_512. intros H512.
  set (x1 := set_addrs (replicate 13 0) x).
  assert (HI1 : <[ip := x1]> I !! ip = Some x1) by (eapply list_lookup_insert_eq, lookup_lt_Some, HI).
  tstep. rewrite (alter_lookup _ _ _ _ HI1), list_insert_insert_eq.
  apply (tri_iupdate dev sb _ _ _ ip (set_size 0 x1)); try done.
  - eapply list_lookup_insert_eq, lookup_lt_Some, HI.
  - exact (wf_dev _ _ _ _ Hwf).
  - by eapply frees_fs.
  - apply Hf. exact (truncated_disk V x V1 l H512 Hfo Hfr Hl).
Qed.

End Code.
End Trunc.

End FsTrunc.
