(* ===== verification/FsDir.v ===== *)
(** * FsDir: directories and path names of fs.c

    dirlookup and dirlink against a directory seen as a list of entries, and
    skipelem against the list of the elements of a path. *)
From S2P Require Import Prelude Kmonad Cstring Block FsLayout Fs FsLogic FsImage FsAlloc FsFile FsInode.
From stdpp Require Import options.

Module FsDir.
Export FsInode.
Import Cstring.

(** ** Path elements *)

Fixpoint split_slash (p : bytes) : list bytes :=
  match p with
  | [] => [[]]
  | c :: r =>
      if c =? slash then [] :: split_slash r
      else match split_slash r with h :: t => (c :: h) :: t | [] => [[c]] end
  end.

(** The elements of a path: the non-empty strings between slashes. *)
Definition path_elems (p : bytes) : list bytes := filter (.≠ []) (split_slash p).

Lemma split_slash_cons p : exists h t, split_slash p = h :: t.
Proof.
  induction p as [|c r (h & t & E)]; simpl; [eauto|]. destruct (c =? slash); [eauto|].
  rewrite E. eauto.
Qed.

Lemma path_elems_slash c r : (c =? slash) = true -> path_elems (c :: r) = path_elems r.
Proof.
  intros E. unfold path_elems. simpl. rewrite E. rewrite filter_cons_False; [done|]. intros H. by apply H.
Qed.

Lemma skip_slashes_elems p :
  path_elems (skip_slashes p) = path_elems p /\ (length (skip_slashes p) <= length p)%nat /\
  (forall c r, skip_slashes p = c :: r -> (c =? slash) = false) /\
  (Forall (.≠ 0) p -> Forall (.≠ 0) (skip_slashes p)).
Proof.
  induction p as [|c r (IH1 & IH2 & IH3 & IH4)]; simpl; [done|].
  destruct (c =? slash) eqn:E; simpl.
  - split_and!; [by rewrite IH1, path_elems_slash|lia|done|]. intros H. apply IH4. by inversion H.
  - split_and!; [done|lia| |done]. intros c' r' [= <- <-]. done.
Qed.

Lemma take_elem_split p e r :
  take_elem p = (e, r) ->
  p = e ++ r /\ Forall (fun c => (c =? slash) = false) e /\
  (r = [] \/ exists r', r = slash :: r') /\ split_slash p = e :: tail (split_slash r).
Proof.
  revert e r. induction p as [|c p IH]; intros e r H; simpl in *.
  - injection H as <- <-. split_and!; auto.
  - destruct (c =? slash) eqn:E.
    + injection H as <- <-. apply Z.eqb_eq in E as ->. split_and!; eauto.
    + destruct (take_elem p) as [e' r'] eqn:Et. injection H as <- <-.
      destruct (IH e' r' eq_refl) as (H1 & H2 & H3 & H4). split_and!; [by rewrite H1 at 1|by constructor|done|].
      by rewrite H4.
Qed.

Lemma path_elems_after r :
  r = [] \/ (exists r', r = slash :: r') -> filter (.≠ []) (tail (split_slash r)) = path_elems r.
Proof.
  intros [->|[r' ->]]; [done|]. unfold path_elems. simpl. rewrite filter_cons_False; [done|]. intros H. by apply H.
Qed.

Lemma cstr_app_nul (l : bytes) (n : nat) rest :
  Forall (.≠ 0) l -> (length l < n)%nat -> cstr (byte_at (l ++ 0 :: rest)) n 0 = l.
Proof.
  intros Hl. assert (forall pre, (length l < n)%nat ->
    cstr (byte_at (pre ++ l ++ 0 :: rest)) n (length pre) = l) as H; [|by apply (H [])].
  induction Hl as [|c l Hc Hl IH] in n |- *; intros pre Hn; (destruct n as [|n]; [simpl in Hn; lia|]); simpl.
  - unfold byte_at. rewrite app_nth2, Nat.sub_diag by lia. done.
  - unfold byte_at at 1 2. rewrite app_nth2, Nat.sub_diag by lia. simpl.
    destruct (Z.eqb_spec c 0); [done|]. f_equal. specialize (IH n (pre ++ [c])).
    rewrite length_app, <- app_assoc in IH. simpl in IH. rewrite Nat.add_1_r in IH. apply IH. simpl in Hn. lia.
Qed.

Lemma cstr_full (l : bytes) : Forall (.≠ 0) l -> cstr (byte_at l) (length l) 0 = l.
Proof.
  intros Hl. assert (forall pre, cstr (byte_at (pre ++ l)) (length l) (length pre) = l) as H; [|by apply (H [])].
  induction Hl as [|c l Hc Hl IH]; intros pre; [done|]. simpl. unfold byte_at at 1 2.
  rewrite app_nth2, Nat.sub_diag by lia. simpl. destruct (Z.eqb_spec c 0); [done|]. f_equal.
  specialize (IH (pre ++ [c])). rewrite length_app, <- app_assoc in IH. simpl in IH.
  by rewrite Nat.add_1_r in IH.
Qed.

(** The name that dirlink stores reads back as the name it was given. *)
Lemma cstr_strncpy_bytes p n : cstr (byte_at (strncpy_bytes p n)) n 0 = cstr p n 0.
Proof.
  unfold strncpy_bytes. pose proof (length_cstr p n 0) as Hl. pose proof (cstr_nonzero p n 0) as Hz.
  destruct (decide (length (cstr p n 0) = n)) as [E|E].
  - rewrite E, Nat.sub_diag. simpl. rewrite app_nil_r. rewrite <- E at 2. by apply cstr_full.
  - replace (n - length (cstr p n 0))%nat with (S (n - length (cstr p n 0) - 1)) by lia. simpl replicate.
    apply cstr_app_nul; [done|lia].
Qed.

Lemma namecmp_strncpy name : namecmp name (strncpy_bytes (byte_at name) 14) = 0.
Proof. apply strncmp_same. symmetry. apply cstr_strncpy_bytes. Qed.

(** skipelem takes the first element off a path: it returns 0 exactly when the
    path has no element; otherwise name[] holds the element, cut at DIRSIZ
    characters, and the path returned has the remaining elements, does not start
    with a slash and is shorter, which bounds the loop of namex. *)
Theorem skipelem_spec path name :
  length name = 14%nat -> Forall (.≠ 0) path ->
  match skipelem path name with
  | None => path_elems path = []
  | Some (rest, name') =>
      exists e, path_elems path = e :: path_elems rest /\ length name' = 14%nat /\
        cstr (byte_at name') 14 0 = take 14 e /\ Forall (.≠ 0) rest /\
        (forall c r, rest = c :: r -> c <> slash) /\ (length rest < length path)%nat
  end.
Proof.
  intros Hn Hp. unfold skipelem.
  destruct (skip_slashes_elems path) as (H1 & H2 & H3 & H4). specialize (H4 Hp). rewrite <- H1.
  destruct (skip_slashes path) as [|c q] eqn:Es; [done|]. specialize (H3 c q eq_refl).
  destruct (take_elem (c :: q)) as [e r] eqn:Et.
  destruct (take_elem_split _ _ _ Et) as (Hq & He & Hr & Hs).
  destruct (skip_slashes_elems r) as (R1 & R2 & R3 & R4).
  assert (e <> []) as Hne.
  { intros ->. simpl in Et. rewrite H3 in Et. by destruct (take_elem q). }
  assert (Forall (.≠ 0) e /\ Forall (.≠ 0) r) as [He0 Hr0] by (rewrite Hq in H4; by apply Forall_app in H4).
  exists e. split_and!.
  - unfold path_elems at 1. rewrite Hs, filter_cons_True by done. f_equal. rewrite R1. by apply path_elems_after.
  - destruct (Z.leb_spec DIRSIZ (Z.of_nat (length e))); unfold DIRSIZ in *;
      rewrite length_splice; rewrite ?length_take, ?length_app; cbn [length]; lia.
  - destruct (Z.leb_spec DIRSIZ (Z.of_nat (length e))) as [Hl|Hl]; unfold DIRSIZ in *.
    + assert (length (take 14 e) = 14%nat) as El by (rewrite length_take; lia).
      unfold splice. rewrite take_0, app_nil_l, El, drop_ge, app_nil_r by lia. rewrite <- El at 2.
      apply cstr_full. by apply Forall_take.
    + unfold splice. rewrite take_0, app_nil_l, <- app_assoc. rewrite (take_ge e) by lia.
      apply cstr_app_nul; [done|lia].
  - auto.
  - intros c' r' E. by apply Z.eqb_neq, (R3 c' r').
  - apply (f_equal length) in Hq. rewrite length_app in Hq. simpl in *. destruct e; [done|]. simpl in *. lia.
Qed.

Lemma skipelem_spec_witness :
  exists e, path_elems [47; 97; 47; 98] = e :: path_elems [98] /\ e = [97].
Proof.
  pose proof (skipelem_spec [47; 97; 47; 98] (replicate 14 1) eq_refl) as H.
  specialize (H ltac:(repeat constructor; lia)). simpl in H. destruct H as (e & H & _).
  exists e. split; [done|]. by injection H.
Defined.

(** ** Directory entries *)

Section Dir.
Context (dev : Z) (sb : superblock).

(** Entry [k] of a directory. *)
Definition entry (V : contents) (x : inode) (k : Z) : dirent :=
  dec_dirent (fbyte dev V x <$> seqZ (16 * k) 16).

Definition matches (name : bytes) (e : dirent) : bool :=
  negb (de_inum e =? 0) && (namecmp name (de_name e) =? 0).

(** The blocks of a directory. *)
Definition nblocks (x : inode) : Z := (isize x + 511) / 512.

(** The first entry from [k] on, among [n], that matches. *)
Fixpoint dir_find (V : contents) (x : inode) (name : bytes) (n : nat) (k : Z) : option (Z * Z) :=
  match n with
  | O => None
  | S n' =>
      if matches name (entry V x k) then Some (k, de_inum (entry V x k))
      else dir_find V x name n' (k + 1)
  end.

Lemma dir_find_app V x name n m k :
  dir_find V x name (n + m) k =
  match dir_find V x name n k with
  | Some r => Some r
  | None => dir_find V x name m (k + Z.of_nat n)
  end.
Proof using Type.
  revert k. induction n as [|n IH]; intros k; simpl; [by rewrite Z.add_0_r|].
  destruct (matches name (entry V x k)); [done|]. rewrite IH.
  by replace (k + 1 + Z.of_nat n) with (k + Z.of_nat (S n)) by lia.
Qed.

Lemma dir_find_none V x name n k :
  dir_find V x name n k = None <-> forall j, k <= j < k + Z.of_nat n -> matches name (entry V x j) = false.
Proof using Type.
  revert k. induction n as [|n IH]; intros k; simpl.
  - split; [intros; lia|done].
  - destruct (matches name (entry V x k)) eqn:E.
    + split; [done|]. intros H. rewrite H in E; [done|lia].
    + rewrite IH. split.
      * intros H j Hj. destruct (decide (j = k)) as [->|]; [done|]. apply H. lia.
      * intros H j Hj. apply H. lia.
Qed.

Lemma dir_find_first V x name n k j :
  k <= j < k + Z.of_nat n -> matches name (entry V x j) = true ->
  (forall i, k <= i < j -> matches name (entry V x i) = false) ->
  dir_find V x name n k = Some (j, de_inum (entry V x j)).
Proof using Type.
  revert k. induction n as [|n IH]; intros k Hj Hm Hlt; [lia|]. simpl.
  destruct (decide (j = k)) as [->|Hne]; [by rewrite Hm|]. rewrite Hlt by lia. apply IH; [lia|done|].
  intros i Hi. apply Hlt. lia.
Qed.

(** The entries of one block are the slices the code looks at. *)
Lemma entry_slice V x (b : nat) (k : nat) :
  length (fdata dev V x b) = 512%nat -> (k < 32)%nat ->
  dec_dirent (slice (fdata dev V x b) (16 * k) 16) = entry V x (32 * Z.of_nat b + Z.of_nat k).
Proof using Type.
  intros Hl Hk. unfold entry. f_equal.
  pose proof (slice_fbyte dev V x (16 * (32 * Z.of_nat b + Z.of_nat k)) 16) as H.
  replace (16 * (32 * Z.of_nat b + Z.of_nat k) / 512) with (Z.of_nat b) in H by (clear - Hk; dlia).
  replace (16 * (32 * Z.of_nat b + Z.of_nat k) mod 512) with (16 * Z.of_nat k) in H by (clear - Hk; dlia).
  rewrite Nat2Z.id in H. replace (Z.to_nat (16 * Z.of_nat k)) with (16 * k)%nat in H by lia.
  apply H; [lia|lia|done].
Qed.

Lemma dir_scan_find V x name (b : nat) n k :
  length (fdata dev V x b) = 512%nat -> (k + n <= 32)%nat ->
  dir_scan (fdata dev V x b) name n k =
  match dir_find V x name n (32 * Z.of_nat b + Z.of_nat k) with
  | Some (j, num) => Some (16 * (j - 32 * Z.of_nat b), num)
  | None => None
  end.
Proof using Type.
  intros Hl. revert k. induction n as [|n IH]; intros k Hk; cbn [dir_scan dir_find]; [done|].
  rewrite entry_slice by (done || lia). unfold matches.
  replace (32 * Z.of_nat b + Z.of_nat k + 1) with (32 * Z.of_nat b + Z.of_nat (S k)) by lia.
  destruct (de_inum _ =? 0) eqn:E1; simpl; [apply IH; lia|].
  destruct (namecmp name _ =? 0) eqn:E2; [|apply IH; lia]. do 2 f_equal. lia.
Qed.

Section DirCode.
Context {B : Type} `{BO : BlockOps B} `{BL : !BlockLayer B}.

Lemma dirlookup_loop_ok E V I dp x name n b Q :
  I !! dp = Some x -> file_ok dev sb V x ->
  Z.of_nat b <= nblocks x -> nblocks x - Z.of_nat b < Z.of_nat n ->
  match dir_find V x name (Z.to_nat (32 * (nblocks x - Z.of_nat b))) (32 * Z.of_nat b) with
  | None => Q None V [] I
  | Some (k, num) => tri E V [] I (iget dev num) (fun ip V' H' I' => Q (Some (ip, 16 * k)) V' H' I')
  end ->
  tri E V [] I (dirlookup_loop n dp name (512 * Z.of_nat b)) Q.
Proof using BL.
  intros HI Hfo Hb Hn HQ. apply tri_512. intros H512. pose proof Hfo as [Hfs Hwf [Hsz Hde] _ _ _].
  revert b Hb Hn HQ. induction n as [|n IH]; intros b Hb Hn HQ; [lia|].
  cbn [dirlookup_loop]. tstep. rewrite (nth_lookup_Some _ _ _ _ HI), (wf_dev _ _ _ _ Hwf). unfold nblocks in *.
  destruct (Z.ltb_spec (512 * Z.of_nat b) (isize x)) as [Hlt|Hge].
  - assert (b < 140)%nat as Hb140 by lia.
    assert (blockno dev V x b <> 0) as Hnz by (by apply Hde).
    unfold BSIZE. replace (512 * Z.of_nat b / 512) with (Z.of_nat b) by (clear; dlia).
    apply (tri_bmap dev sb E V I dp x); try done. intros r V' x' HM.
    destruct (mp_same _ _ _ _ _ _ _ _ HM Hnz) as [-> ->]. rewrite list_insert_id by done.
    rewrite <- (mp_block _ _ _ _ _ _ _ _ HM).
    tstep; [by eapply good_mapped|apply not_elem_of_nil|unfold MAXHELD; simpl; lia|]. tstep.
    assert (V dev (blockno dev V x b) = fdata dev V x b) as Efd.
    { unfold fdata. by destruct (Z.eqb_spec (blockno dev V x b) 0). }
    pose proof (fdata_512 dev sb V x b H512 Hfs Hwf Hb140) as Hl.
    rewrite Efd, (dir_scan_find V x name b 32 0 Hl) by lia. change (Z.of_nat 0) with 0. rewrite Z.add_0_r.
    replace (Z.to_nat (32 * ((isize x + 511) / 512 - Z.of_nat b)))
      with (32 + Z.to_nat (32 * ((isize x + 511) / 512 - Z.of_nat (S b))))%nat in HQ by (clear - Hlt; dlia).
    rewrite dir_find_app in HQ.
    destruct (dir_find V x name 32 (32 * Z.of_nat b)) as [[k num]|].
    + tstep; [done|]. eapply tri_bind; [exact HQ|]. intros ip V' H' I' HQ'. tstep.
      by replace (512 * Z.of_nat b + 16 * (k - 32 * Z.of_nat b)) with (16 * k) by lia.
    + tstep; [done|]. replace (512 * Z.of_nat b + 512) with (512 * Z.of_nat (S b)) by lia.
      replace (32 * Z.of_nat b + Z.of_nat 32) with (32 * Z.of_nat (S b)) in HQ by lia.
      apply IH; [clear - Hlt; dlia|clear - Hn; lia|done].
  - tstep. replace (Z.to_nat (32 * ((isize x + 511) / 512 - Z.of_nat b))) with 0%nat in HQ; [done|].
    clear - Hge. dlia.
Qed.

(** dirlookup searches the entries of the directory in order. *)
Lemma dirlookup_ok E V I dp x name Q :
  I !! dp = Some x -> file_ok dev sb V x -> itype x = T_DIR ->
  match dir_find V x name (Z.to_nat (32 * nblocks x)) 0 with
  | None => Q None V [] I
  | Some (k, num) => tri E V [] I (iget dev num) (fun ip V' H' I' => Q (Some (ip, 16 * k)) V' H' I')
  end ->
  tri E V [] I (dirlookup dp name) Q.
Proof using BL.
  intros HI Hfo Ht HQ. unfold dirlookup. tstep. rewrite (nth_lookup_Some _ _ _ _ HI), Ht. cbn [negb Z.eqb T_DIR Pos.eqb].
  apply (dirlookup_loop_ok E V I dp x name NBLK 0); try done.
  - simpl. unfold nblocks. destruct (fo_dense _ _ _ _ Hfo) as [? _]. dlia.
  - destruct (fo_dense _ _ _ _ Hfo) as [Hs _]. unfold nblocks, NBLK. change (MAXFILE + 1) with 141.
    change (Z.of_nat 0) with 0. rewrite Z2Nat.id by lia. clear - Hs. dlia.
  - change (Z.of_nat 0) with 0. by rewrite Z.sub_0_r, Z.mul_0_r.
Qed.

(** dirlookup returns the inode of the first entry of the directory, in the
    order of the file, that is in use and has the name, with its offset, and
    nothing when there is none; the disk does not change.  It panics only when
    the inode cache is full. *)
Theorem dirlookup_spec V I dp x name :
  I !! dp = Some x -> file_ok dev sb V x -> itype x = T_DIR -> icache_ok I ->
  tri (eq "iget: no inodes"%string) V [] I (dirlookup dp name) (fun r V' H' I' =>
    V' = V /\ H' = [] /\
    match dir_find V x name (Z.to_nat (32 * nblocks x)) 0 with
    | None => r = None /\ I' = I
    | Some (k, num) => exists ip y, r = Some (ip, 16 * k) /\ I' !! ip = Some y /\
        caches dev num y = true /\ icache_ok I' /\
        forall d' n', refs I' d' n' = refs I d' n' + one dev num d' n'
    end).
Proof using BL.
  intros HI Hfo Ht Hok. eapply (dirlookup_ok _ _ _ _ x); try done.
  destruct (dir_find V x name (Z.to_nat (32 * nblocks x)) 0) as [[k num]|]; [|done].
  intros s Hs. pose proof (iget_ok V [] I Hok dev num s Hs) as Hi.
  destruct (exec (iget dev num) s) as [ip w s'|msg| |]; simpl in *; try done; [|by destruct Hi as [-> _]].
  destruct Hi as (V' & H' & I' & Hr & -> & -> & Hok' & (y & Hy & Hc & _) & Hrf).
  exists V, [], I'. split; [done|]. split_and!; try done. by exists ip, y.
Qed.

Context (dev_read : Z -> option (nat -> Z -> K (fstate B) (Z * bytes))).
Context (dev_write : Z -> option (nat -> bytes -> Z -> K (fstate B) Z)).

(** The search for an empty entry. *)
Lemma dirlink_loop_ok E V I dp x n k :
  I !! dp = Some x -> file_ok dev sb V x -> isize x mod 16 = 0 ->
  0 <= k <= isize x / 16 -> isize x / 16 - k < Z.of_nat n ->
  tri E V [] I (dirlink_loop dev_read n dp (16 * k)) (fun r V' H' I' =>
    V' = V /\ H' = [] /\ I' = I /\ exists j, r = 16 * j /\ k <= j <= isize x / 16 /\
      (j < isize x / 16 -> de_inum (entry V x j) = 0)).
Proof using BL.
  intros HI Hfo Hm. pose proof Hfo as [Hfs Hwf [Hsz Hde] _ Ht _]. revert k.
  induction n as [|n IH]; intros k Hk Hn; [lia|]. cbn [dirlink_loop]. tstep.
  rewrite (nth_lookup_Some _ _ _ _ HI). destruct (Z.ltb_spec (16 * k) (isize x)) as [Hlt|Hge].
  - eapply tri_bind_eq.
    { apply (readi_ok dev sb dev_read E V I dp x); try done; unfold is_u32; lia. }
    rewrite (proj2 (Z.ltb_ge _ _)), (proj2 (Z.leb_gt _ _)) by lia. cbn [orb].
    assert (read_len x (16 * k) 16 = 16) as -> by (unfold read_len; clear - Hm Hlt; dlia).
    cbn [Z.eqb negb Pos.eqb]. fold (entry V x k).
    destruct (Z.eqb_spec (de_inum (entry V x k)) 0) as [Ez|_].
    + tstep. split_and!; try done. exists k. split_and!; try done; lia.
    + replace (16 * k + 16) with (16 * (k + 1)) by lia. eapply tri_mono; [apply IH|].
      * clear - Hm Hlt Hk. dlia.
      * lia.
      * intros r V' H' I' (-> & -> & -> & j & -> & Hj & Hz). split_and!; try done. exists j.
        split_and!; try done; lia.
  - tstep. split_and!; try done. exists k. split_and!; try done; try lia. intros Hc. clear - Hge Hc. dlia.
Qed.

Lemma entry_other V x V' x' j i data :
  overwritten dev V x V' x' (16 * j) data -> length data = 16%nat -> i <> j -> 0 <= i -> 16 * i + 16 <= 71680 ->
  entry V' x' i = entry V x i.
Proof using Type.
  intros Ho Hl Hne Hi Hm. unfold entry. f_equal. apply list_fmap_ext. intros p q Hq.
  apply lookup_seqZ in Hq as [-> Hp]. rewrite Ho by lia.
  replace ((16 * j <=? 16 * i + Z.of_nat p) && (16 * i + Z.of_nat p <? 16 * j + Z.of_nat (length data)))
    with false; [done|].
  symmetry. apply andb_false_iff. rewrite Z.leb_gt, Z.ltb_ge. lia.
Qed.

Lemma room_inside V x off n : dense dev V x -> 0 <= off -> off + n <= isize x -> room dev sb V x off n.
Proof using Type. intros [_ Hd] Ho Hn m (H1 & H2 & H3) Hz. exfalso. apply (Hd m); [lia|done]. Qed.

(** The entry written is the first with its name. *)
Lemma dirlink_found V x V' x' j name num :
  let de := mkdirent (u16 num) (strncpy_bytes (byte_at name) 14) in
  file_ok dev sb V x -> u16 num <> 0 -> 0 <= j <= isize x / 16 -> 16 * j + 16 <= 71680 ->
  dir_find V x name (Z.to_nat (32 * nblocks x)) 0 = None ->
  written dev sb V x (16 * j) (enc_dirent de) V' x' ->
  dir_find V' x' name (Z.to_nat (32 * nblocks x')) 0 = Some (j, u16 num).
Proof using Type.
  intros de Hfo Hnum Hj Hmax Hnone HW. destruct (fo_dense _ _ _ _ Hfo) as [Hsz _].
  assert (length (enc_dirent de) = 16%nat) as Hl by (apply length_enc_dirent, length_strncpy_bytes).
  pose proof (wn_bytes _ _ _ _ _ _ _ _ HW) as Hb. pose proof (wn_size _ _ _ _ _ _ _ _ HW) as Hs.
  rewrite Hl in Hs.
  assert (entry V' x' j = de) as Ej.
  { unfold entry. pose proof (overwritten_read dev V x V' x' _ _ Hb) as Hr. rewrite Hl in Hr.
    change (Z.of_nat 16) with 16 in Hr. rewrite Hr by lia. apply dec_enc_dirent.
    - unfold de. simpl. apply u16_range.
    - apply length_strncpy_bytes. }
  rewrite <- (f_equal de_inum Ej : de_inum (entry V' x' j) = u16 num). apply dir_find_first.
  - unfold nblocks. rewrite Hs. clear - Hj Hsz. dlia.
  - rewrite Ej. unfold matches. simpl. rewrite namecmp_strncpy.
    destruct (Z.eqb_spec (u16 num) 0); [done|]. done.
  - intros i Hi. rewrite (entry_other V x V' x' j i (enc_dirent de)) by (done || lia).
    pose proof (proj1 (dir_find_none _ _ _ _ _) Hnone i) as Hf. apply Hf. unfold nblocks. clear - Hi Hj Hsz. dlia.
Qed.


(** ilock of an unlocked inode locks it; if the entry is not valid it takes the
    inode's fields from the disk, so that they are what the last iupdate wrote,
    and panics exactly when the inode on disk is free. *)
Theorem ilock_spec fuel V I ip x :
  (0 < fuel)%nat -> I !! ip = Some x -> 1 <= iref x -> flag x I_BUSY = false ->
  idev x = dev -> 0 <= inum x < sb_ninodes sb -> fs_ok dev sb V ->
  let d := get_dinode (V dev (IBLOCK (inum x))) (inum x) in
  tri (fun msg => msg = "ilock: no type"%string /\ flag x I_VALID = false /\ di_type d = 0) V [] I
    (ilock fuel ip) (fun _ V' H' I' =>
      V' = V /\ H' = [] /\ exists x', I' = <[ip := x']> I /\ flag x' I_BUSY = true /\ flag x' I_VALID = true /\
      if flag x I_VALID then x' = set_iflags (Z.lor (iflags x) I_BUSY) x
      else to_dinode x' = d /\ di_type d <> 0 /\ idev x' = idev x /\ inum x' = inum x /\ iref x' = iref x).
Proof using BL.
  intros Hf HI Hr Hnb Hd Hi Hfs d. destruct fuel as [|fuel]; [lia|].
  assert (HIn : forall y, <[ip := y]> I !! ip = Some y)
    by (intros y; eapply list_lookup_insert_eq, lookup_lt_Some, HI).
  unfold ilock. tstep. rewrite (nth_lookup_Some _ _ _ _ HI), (proj2 (Z.ltb_ge _ _)) by lia.
  tstep. cbn [ilock_wait]. tnorm. tstep. rewrite (nth_lookup_Some _ _ _ _ HI), Hnb. tstep.
  tstep. rewrite (alter_lookup _ _ _ _ HI). set (x1 := set_iflags (Z.lor (iflags x) I_BUSY) x).
  do 2 tstep. rewrite (nth_lookup_Some _ _ _ _ (HIn x1)).
  assert (Hb1 : forall z, flag (set_iflags (Z.lor z I_BUSY) x) I_BUSY = true).
  { intros z. unfold flag. cbn [iflags set_iflags]. apply negb_true_iff, Z.eqb_neq. intros E.
    apply (f_equal (fun w => Z.testbit w 0)) in E. rewrite Z.land_spec, Z.lor_spec in E.
    by rewrite orb_true_r in E. }
  assert (Hv1 : flag x1 I_VALID = flag x I_VALID).
  { unfold flag, x1. simpl. f_equal. f_equal. apply Z.bits_inj'. intros i Hi'. rewrite !Z.land_spec, Z.lor_spec.
    destruct (decide (i = 1)) as [->|]; [by rewrite orb_false_r|].
    assert (Z.testbit I_VALID i = false) as -> by (apply (Z.pow2_bits_false 1); lia). by rewrite !andb_false_r. }
  rewrite Hv1. destruct (flag x I_VALID) eqn:Ev.
  - tstep. split_and!; try done. exists x1. split_and!; try done. apply Hb1.
  - tstep. rewrite (nth_lookup_Some _ _ _ _ (HIn x1)). change (idev x1) with (idev x). change (inum x1) with (inum x).
    rewrite Hd. destruct (inode_block dev sb V _ Hfs Hi) as [Hg _].
    tstep; [done|apply not_elem_of_nil|unfold MAXHELD; simpl; lia|]. tstep.
    tstep. rewrite (alter_lookup _ _ _ _ (HIn x1)), list_insert_insert_eq. tstep; [done|].
    tstep. rewrite (alter_lookup _ _ _ _ (HIn _)), list_insert_insert_eq.
    tstep. rewrite (nth_lookup_Some _ _ _ _ (HIn _)). cbn [itype set_iflags load_dinode]. fold d.
    destruct (Z.eqb_spec (di_type d) 0) as [Ez|Enz]; tstep; [done|].
    split_and!; try done. eexists. split_and!; [done| | |by destruct d|done|done|done|done].
    + unfold flag. cbn [iflags set_iflags load_dinode x1]. apply negb_true_iff, Z.eqb_neq. intros E.
      apply (f_equal (fun w => Z.testbit w 0)) in E. rewrite Z.land_spec, !Z.lor_spec in E.
      by rewrite orb_true_r in E.
    + unfold flag. cbn [iflags set_iflags]. apply negb_true_iff, Z.eqb_neq. intros E.
      apply (f_equal (fun w => Z.testbit w 1)) in E. rewrite Z.land_spec, Z.lor_spec in E.
      by rewrite orb_true_r in E.
Qed.
End DirCode.
End Dir.

(** ** Witnesses, on the root directory of FsImage *)

Definition foo : bytes := [102; 111; 111] ++ replicate 11 0.
Definition bar : bytes := [98; 97; 114] ++ replicate 11 0.

Lemma dirlookup_spec_witness :
  ends (eq "iget: no inodes"%string) (fun r _ _ _ => exists ip, r = Some (ip, 16))
    (exec (dirlookup 0 foo) (boot 100 [63] [dir0 3 1; inode0])).
Proof.
  apply tri_boot. eapply tri_mono.
  - apply (dirlookup_spec 1 sb0 V0 [dir0 3 1; inode0] 0 (dir0 3 1) foo); [done|by apply file_ok_dir0|done|].
    split; [by repeat constructor|]. intros i j x y Hx Hy Hxp Hyp.
    destruct i as [|[|?]], j as [|[|?]]; simplify_eq/=; lia || done.
  - intros r V' H' I' (_ & _ & H). vm_compute in H. destruct H as (ip & y & -> & _). by exists ip.
Defined.


Lemma ilock_spec_witness :
  ends (fun _ => False) (fun _ _ _ I' => exists x, I' = [x] /\ isize x = 32 /\ itype x = T_DIR)
    (exec (ilock 1 0) (boot 100 [63] [mkinode 1 1 1 0 0 0 0 0 0 (replicate 13 0)])).
Proof.
  set (x := mkinode 1 1 1 0 0 0 0 0 0 (replicate 13 0)).
  pose proof (tri_boot _ _ _ _ _ _ (ilock_spec 1 sb0 1 V0 [x] 0 x ltac:(lia) eq_refl ltac:(done) eq_refl eq_refl
    ltac:(done) fs_ok_V0)) as H.
  destruct (exec _ _) as [a w s|msg| |]; cbn [ends] in *; [|by destruct H as (_ & _ & H); vm_compute in H|done..].
  destruct H as (V & H & I & Hr & _ & _ & x' & -> & _ & _ & Hd). exists V, H, [x']. split; [done|].
  change (flag x I_VALID) with false in Hd. destruct Hd as (Hd & _). exists x'. split; [done|].
  split; [change (isize x') with (di_size (to_dinode x'))|change (itype x') with (di_type (to_dinode x'))];
    rewrite Hd; by vm_compute.
Defined.
End FsDir.
