(* ===== verification/Segment.v ===== *)
(** * Segment: the x86 descriptors (mmu.h), ksegment and usegment (proc.c),
      tvinit and idtinit (trap.c)

    The segment and gate descriptors with their bit fields, what the processor
    reads from them, and the code that fills the descriptor tables in.  The
    theorems are the protection they give: user code reaches exactly the
    memory of its process, and enters the kernel only through the system call
    gate. *)
From S2P Require Import Prelude Kmonad Spinlock Kalloc Proc.
From stdpp Require Import options.

Module Seg.

(** The value stored in a bit field of [w] bits. *)
Definition bf (w v : Z) : Z := v mod 2 ^ w.

Record segdesc : Type := mkseg {
  lim_15_0 : Z; base_15_0 : Z; base_23_16 : Z; stype : Z; sysseg : Z; dpl : Z; present : Z;
  lim_19_16 : Z; avl : Z; rsv1 : Z; db : Z; gran : Z; base_31_24 : Z
}.

Definition SEG_NULL : segdesc := mkseg 0 0 0 0 0 0 0 0 0 0 0 0 0.

Definition SEG (type base lim d : Z) : segdesc :=
  mkseg (bf 16 (Z.land (Z.shiftr lim 12) 0xffff)) (bf 16 (Z.land base 0xffff))
    (bf 8 (Z.land (Z.shiftr base 16) 0xff)) (bf 4 type) 1 (bf 2 d) 1
    (bf 4 (Z.shiftr lim 28)) 0 0 1 1 (bf 8 (Z.shiftr base 24)).

Definition SEG16 (type base lim d : Z) : segdesc :=
  mkseg (bf 16 (Z.land lim 0xffff)) (bf 16 (Z.land base 0xffff))
    (bf 8 (Z.land (Z.shiftr base 16) 0xff)) (bf 4 type) 1 (bf 2 d) 1
    (bf 4 (Z.shiftr lim 16)) 0 0 1 0 (bf 8 (Z.shiftr base 24)).

Definition set_s (v : Z) (d : segdesc) : segdesc :=
  mkseg (lim_15_0 d) (base_15_0 d) (base_23_16 d) (stype d) v (dpl d) (present d) (lim_19_16 d)
    (avl d) (rsv1 d) (db d) (gran d) (base_31_24 d).

Definition DPL_USER : Z := 3.
Abbreviation STA_X := (8)%Z (only parsing).
Abbreviation STA_W := (2)%Z (only parsing).
Abbreviation STA_R := (2)%Z (only parsing).
Abbreviation STS_T32A := (9)%Z (only parsing).
Abbreviation STS_IG32 := (14)%Z (only parsing).
Abbreviation STS_TG32 := (15)%Z (only parsing).

Abbreviation SEG_KCODE := (1)%nat (only parsing).
Abbreviation SEG_KDATA := (2)%nat (only parsing).
Abbreviation SEG_KCPU := (3)%nat (only parsing).
Abbreviation SEG_UCODE := (4)%nat (only parsing).
Abbreviation SEG_UDATA := (5)%nat (only parsing).
Abbreviation SEG_TSS := (6)%nat (only parsing).
Definition NSEGS : nat := 7.

(** A selector of the table: the index shifted by 3. *)
Definition sel (i : nat) : Z := Z.shiftl (Z.of_nat i) 3.

(** The operand of lgdt and lidt: the three half-words of pd. *)
Definition table_reg (p size : Z) : list Z := [u16 (size - 1); u16 p; u16 (Z.shiftr p 16)].

(** The parts of struct cpu that ksegment and usegment set, and the
    registers lgdt, ltr and loadfsgs load; [caddr] is the address of the struct
    cpu, [cli] its interrupt state and [cur] the variable cp. *)
Record scpu : Type := mkscpu {
  caddr : Z; cli : Spinlock.cpu; ss0 : Z; esp0 : Z; gdt : list segdesc;
  gdtr : list Z; tr : Z; fsgs : Z; cur : option nat
}.

(** Offsets of ts, gdt and tls in struct cpu, and the sizes used. *)
Definition off_ts : Z := 8.
Definition size_ts : Z := 104.
Definition off_gdt : Z := 112.
Definition size_gdt : Z := 56.
Definition off_tls : Z := 180.
Definition size_tls : Z := 8.

Definition set_gdt (i : nat) (d : segdesc) (c : scpu) : scpu :=
  mkscpu (caddr c) (cli c) (ss0 c) (esp0 c) (<[i := d]> (gdt c)) (gdtr c) (tr c) (fsgs c) (cur c).
Definition set_ts (s0 e0 : Z) (c : scpu) : scpu :=
  mkscpu (caddr c) (cli c) s0 e0 (gdt c) (gdtr c) (tr c) (fsgs c) (cur c).
Definition set_cli (l : Spinlock.cpu) (c : scpu) : scpu :=
  mkscpu (caddr c) l (ss0 c) (esp0 c) (gdt c) (gdtr c) (tr c) (fsgs c) (cur c).
Definition set_cur (p : option nat) (c : scpu) : scpu :=
  mkscpu (caddr c) (cli c) (ss0 c) (esp0 c) (gdt c) (gdtr c) (tr c) (fsgs c) p.
Definition lgdt (p size : Z) (c : scpu) : scpu :=
  mkscpu (caddr c) (cli c) (ss0 c) (esp0 c) (gdt c) (table_reg p size) (tr c) (fsgs c) (cur c).
Definition ltr (s : Z) (c : scpu) : scpu :=
  mkscpu (caddr c) (cli c) (ss0 c) (esp0 c) (gdt c) (gdtr c) s (fsgs c) (cur c).
Definition loadfsgs (v : Z) (c : scpu) : scpu :=
  mkscpu (caddr c) (cli c) (ss0 c) (esp0 c) (gdt c) (gdtr c) (tr c) v (cur c).

(** [c1] is the entry of cpus for the processor that runs. *)
Definition ksegment (c1 : scpu) : scpu :=
  let c1 := set_gdt 0 SEG_NULL c1 in
  let c1 := set_gdt SEG_KCODE (SEG (Z.lor STA_X STA_R) 0 (0x100000 + 64 * 1024 - 1) 0) c1 in
  let c1 := set_gdt SEG_KDATA (SEG STA_W 0 0xffffffff 0) c1 in
  let c1 := set_gdt SEG_KCPU
              (SEG STA_W (u32 (u32 (caddr c1 + off_tls) + size_tls)) 0xffffffff 0) c1 in
  let c1 := set_gdt SEG_UCODE SEG_NULL c1 in
  let c1 := set_gdt SEG_UDATA SEG_NULL c1 in
  let c1 := set_gdt SEG_TSS SEG_NULL c1 in
  let c1 := lgdt (u32 (caddr c1 + off_gdt)) size_gdt c1 in
  let c1 := loadfsgs (sel SEG_KCPU) c1 in
  set_cur None c1.

(** usegment between pushcli and popcli; [p] is cp. *)
Definition usegment_body (p : option Proc.proc) (c : scpu) : scpu :=
  let c := set_ts (sel SEG_KDATA)
             (match p with
              | Some p => u32 (Proc.kstack p + Proc.KSTACKSIZE)
              | None => 0xffffffff
              end) c in
  let c := match p with
           | Some p =>
               set_gdt SEG_UDATA (SEG STA_W (Proc.pmem p) (u32 (Proc.sz p - 1)) DPL_USER)
                 (set_gdt SEG_UCODE
                    (SEG (Z.lor STA_X STA_R) (Proc.pmem p) (u32 (Proc.sz p - 1)) DPL_USER) c)
           | None => set_gdt SEG_UDATA SEG_NULL (set_gdt SEG_UCODE SEG_NULL c)
           end in
  let c := set_gdt SEG_TSS (SEG16 STS_T32A (u32 (caddr c + off_ts)) (size_ts - 1) 0) c in
  let c := set_gdt SEG_TSS (set_s 0 (nth SEG_TSS (gdt c) SEG_NULL)) c in
  ltr (sel SEG_TSS) (lgdt (u32 (caddr c + off_gdt)) size_gdt c).

Definition usegment (p : option Proc.proc) : K scpu unit :=
  modify (fun c => set_cli (Spinlock.pushcli (cli c)) c) ;;
  modify (usegment_body p) ;;
  r <- gets (fun c => Spinlock.popcli (cli c)) ;;
  match r with
  | Spinlock.LOk l => modify (set_cli l)
  | Spinlock.LPanic m => panic m
  | Spinlock.LSpin => diverge
  end.

(** ** Interrupt gates *)

Record gatedesc : Type := mkgate {
  goff_15_0 : Z; gcs : Z; gargs : Z; grsv1 : Z; gtype : Z; gs : Z; gdpl : Z; gp : Z; goff_31_16 : Z
}.

Definition SETGATE (istrap : bool) (s o d : Z) : gatedesc :=
  mkgate (bf 16 (Z.land o 0xffff)) (bf 16 s) 0 0 (if istrap then STS_TG32 else STS_IG32)
    0 (bf 2 d) 1 (bf 16 (Z.shiftr o 16)).

Definition T_SYSCALL : nat := 64.

(** tvinit: the table idt of 256 gates; [vectors] is the table of vectors.S. *)
Definition tvinit (vectors : nat -> Z) : list gatedesc :=
  <[T_SYSCALL := SETGATE true (sel SEG_KCODE) (vectors T_SYSCALL) DPL_USER]>
    ((fun i => SETGATE false (sel SEG_KCODE) (vectors i) 0) <$> seq 0 256).

(** idtinit: lidt(idt, sizeof(idt)). *)
Definition idtinit (idt : Z) : list Z := table_reg idt (256 * 8).

(** ** What the processor reads from the descriptors *)

Definition seg_base (d : segdesc) : Z :=
  base_15_0 d + 2 ^ 16 * base_23_16 d + 2 ^ 24 * base_31_24 d.

(** The last valid offset: the 20-bit limit, scaled by 4K when g is set. *)
Definition seg_limit (d : segdesc) : Z :=
  let l := lim_15_0 d + 2 ^ 16 * lim_19_16 d in
  if gran d =? 1 then l * 4096 + 4095 else l.

(** An access of privilege [cpl] at offset [a] through [d] is allowed. *)
Definition seg_allows (d : segdesc) (cpl a : Z) : bool :=
  (present d =? 1) && (sysseg d =? 1) && (cpl <=? dpl d) && (0 <=? a) && (a <=? seg_limit d).

Definition gate_off (g : gatedesc) : Z := goff_15_0 g + 2 ^ 16 * goff_31_16 g.

(** int [i] from privilege [cpl] is let through. *)
Definition gate_open (g : gatedesc) (cpl : Z) : bool := (gp g =? 1) && (cpl <=? gdpl g).

(** The address a table register loaded by [table_reg] holds, and its limit. *)
Definition reg_base (r : list Z) : Z := byte_at r 1 + 2 ^ 16 * byte_at r 2.

(** ** Decoding *)

Lemma bf_small w v : 0 <= v < 2 ^ w -> bf w v = v.
Proof. apply Z.mod_small. Qed.

Lemma split16 x : is_u32 x -> bf 16 (Z.land x 0xffff) + 2 ^ 16 * bf 16 (Z.shiftr x 16) = x.
Proof.
  unfold is_u32, bf. intros. change 0xffff with (Z.ones 16).
  rewrite Z.land_ones, Z.shiftr_div_pow2 by lia. change (2 ^ 16) with 65536. dlia.
Qed.

Lemma seg_base_split x :
  is_u32 x ->
  bf 16 (Z.land x 0xffff) + 2 ^ 16 * bf 8 (Z.land (Z.shiftr x 16) 0xff)
    + 2 ^ 24 * bf 8 (Z.shiftr x 24) = x.
Proof.
  unfold is_u32, bf. intros. change 0xffff with (Z.ones 16). change 0xff with (Z.ones 8).
  rewrite !Z.land_ones, !Z.shiftr_div_pow2 by lia.
  change (2 ^ 16) with 65536. change (2 ^ 8) with 256. change (2 ^ 24) with 16777216. dlia.
Qed.

Lemma seg_base_SEG t x lim d : is_u32 x -> seg_base (SEG t x lim d) = x.
Proof. apply seg_base_split. Qed.

Lemma seg_base_SEG16 t x lim d : is_u32 x -> seg_base (SEG16 t x lim d) = x.
Proof. apply seg_base_split. Qed.

(** The limit of a SEG descriptor is [lim] rounded up to the end of its page. *)
Lemma seg_limit_SEG t x lim d :
  is_u32 lim -> seg_limit (SEG t x lim d) = lim / 4096 * 4096 + 4095.
Proof.
  unfold is_u32, seg_limit, SEG, bf. intros. simpl. change 0xffff with (Z.ones 16).
  rewrite Z.land_ones, !Z.shiftr_div_pow2 by lia.
  change (2 ^ 16) with 65536. change (2 ^ 12) with 4096. change (2 ^ 28) with 268435456.
  change (2 ^ 4) with 16. dlia.
Qed.

Lemma table_reg_base p n : is_u32 p -> reg_base (table_reg p n) = p.
Proof.
  unfold is_u32, reg_base, table_reg, u16, byte_at. intros. simpl.
  rewrite Z.shiftr_div_pow2 by lia. change (2 ^ 16) with 65536. dlia.
Qed.

(** A whole number of pages: the user segment allows exactly [0, n). *)
Lemma seg_allows_pages t x n a :
  0 < n < 4294967296 -> n mod 4096 = 0 ->
  seg_allows (SEG t x (u32 (n - 1)) DPL_USER) 3 a = true <-> 0 <= a < n.
Proof.
  intros Hn Hp. unfold seg_allows. rewrite seg_limit_SEG by apply u32_range.
  rewrite u32_small by lia. simpl. rewrite andb_true_iff, !Z.leb_le. dlia.
Qed.

(** usegment does not panic with interrupts counted properly, and leaves the
    interrupt state as it found it. *)
Lemma usegment_run p c on0 d :
  Cli.cli_inv on0 d (cli c) -> d < 2147483647 ->
  exists l, exec (usegment p) c = Done tt tt (set_cli l (usegment_body p c)) /\
            Cli.cli_inv on0 d l.
Proof.
  intros Hi Hd. destruct (Cli.popcli_inv on0 (d + 1) (Spinlock.pushcli (cli c))) as (l & El & Hl & _).
  { by apply Cli.pushcli_inv. } { destruct Hi as (? & ? & ?). lia. }
  exists l. rewrite Z.add_simpl_r in Hl. split; [|done].
  assert (forall b : scpu, cli (usegment_body p b) = cli b) as Hb by (by intros; destruct p).
  unfold exec, usegment, kbind, modify, gets. cbn [obind]. rewrite Hb.
  cbn [cli set_cli]. rewrite El. by destruct p.
Qed.

(** The table after ksegment and usegment. *)
Definition user_gdt (ca : Z) (p : Proc.proc) : list segdesc :=
  [SEG_NULL;
   SEG (Z.lor STA_X STA_R) 0 (0x100000 + 64 * 1024 - 1) 0;
   SEG STA_W 0 0xffffffff 0;
   SEG STA_W (u32 (u32 (ca + off_tls) + size_tls)) 0xffffffff 0;
   SEG (Z.lor STA_X STA_R) (Proc.pmem p) (u32 (Proc.sz p - 1)) DPL_USER;
   SEG STA_W (Proc.pmem p) (u32 (Proc.sz p - 1)) DPL_USER;
   set_s 0 (SEG16 STS_T32A (u32 (ca + off_ts)) (size_ts - 1) 0)].

Lemma usegment_regs c0 p l :
  length (gdt c0) = NSEGS ->
  let c := set_cli l (usegment_body (Some p) (ksegment c0)) in
  gdt c = user_gdt (caddr c0) p /\ ss0 c = sel SEG_KDATA /\
  esp0 c = u32 (Proc.kstack p + Proc.KSTACKSIZE) /\
  gdtr c = table_reg (u32 (caddr c0 + off_gdt)) size_gdt.
Proof.
  destruct c0 as [ca cl s0 e0 g gr t fs cu]. cbn [gdt caddr]. intros Hg.
  destruct g as [|? [|? [|? [|? [|? [|? [|? [|]]]]]]]]; try discriminate Hg. by split_and!.
Qed.

Lemma user_bases ca p :
  is_u32 (Proc.pmem p) ->
  seg_base (nth SEG_UCODE (user_gdt ca p) SEG_NULL) = Proc.pmem p /\
  seg_base (nth SEG_UDATA (user_gdt ca p) SEG_NULL) = Proc.pmem p.
Proof.
  intros H. unfold user_gdt. cbn [nth]. by rewrite !seg_base_SEG.
Qed.

(** A descriptor below the user's privilege, or a system one, lets no user
    access through. *)
Lemma seg_denies d a : dpl d < 3 \/ sysseg d = 0 -> seg_allows d 3 a = false.
Proof.
  intros [H|H]; unfold seg_allows.
  - assert (3 <=? dpl d = false) as -> by (by apply Z.leb_gt).
    by rewrite andb_false_r.
  - rewrite H. by rewrite andb_false_r.
Qed.

Lemma user_table ca p i a :
  0 < Proc.sz p < 4294967296 -> Proc.sz p mod 4096 = 0 ->
  seg_allows (nth i (user_gdt ca p) SEG_NULL) 3 a = true <->
  (i = SEG_UCODE \/ i = SEG_UDATA) /\ 0 <= a < Proc.sz p.
Proof.
  intros Hs Hp. unfold user_gdt.
  destruct i as [|[|[|[|[|[|[|i]]]]]]]; cbn [nth].
  5, 6: rewrite seg_allows_pages by done; intuition auto.
  6: destruct i.
  all: rewrite seg_denies by ((left; reflexivity) || (right; reflexivity)); intuition (done || lia).
Qed.


(** The trap gates: each of the 256 gates leads to its vector through the
    kernel code segment; only the system call gate can be entered from user
    mode by an int instruction, and it is the only one that leaves interrupts
    enabled (a trap gate). *)
Theorem tvinit_gates vectors i :
  (i < 256)%nat -> is_u32 (vectors i) ->
  exists g, tvinit vectors !! i = Some g /\ gate_off g = vectors i /\ gcs g = sel SEG_KCODE /\
    (gate_open g 3 = true <-> i = T_SYSCALL) /\ (gtype g = STS_TG32 <-> i = T_SYSCALL) /\
    gate_open g 0 = true.
Proof.
  intros Hi Hv. unfold tvinit. destruct (decide (i = T_SYSCALL)) as [->|Hne].
  - eexists. rewrite list_lookup_insert_eq by (rewrite length_fmap, length_seq; lia).
    split; [done|]. split; [by apply split16|]. done.
  - eexists. rewrite list_lookup_insert_ne, list_lookup_fmap, lookup_seq_lt by done.
    split; [done|]. split; [by apply split16|]. split; [done|].
    split_and!; [| |done]; split; intros Hx; done.
Qed.

Definition cpu0 : scpu :=
  mkscpu 0x8000 (Spinlock.mkcpu 0 0 0 512) 0 0 (replicate 7 SEG_NULL) [] 0 0 None.
Definition proc_ex : Proc.proc := Proc.set_kstack 0x30000 (Proc.set_mem 0x20000 8192 Proc.proc0).


Lemma tvinit_gates_witness :
  exists g, tvinit (fun i => 0x100000 + Z.of_nat i) !! 64%nat = Some g /\ gate_off g = 0x100040.
Proof.
  destruct (tvinit_gates (fun i => 0x100000 + Z.of_nat i) 64) as (g & E & H & _);
    [lia|unfold is_u32; simpl; lia|]. by exists g.
Defined.
End Seg.
