(* ===== verification/File.v ===== *)
(** * File: file.c and pipealloc of pipe.c, the open files

    The state of the kernel above the file system: the file system state, the
    table of open files, the pipes with the page allocator, the process table,
    the segment state of the processor and the tick counter.  A struct file pointer is its index in ftable.file. *)
From S2P Require Import Prelude Kmonad Kalloc Pipe Proc Segment Block FsLayout Fs.
From stdpp Require Import options.

Module File.
Import FsLayout Fs.

Definition NFILE : nat := 100.

Inductive fdtype : Type := FD_NONE | FD_PIPE | FD_INODE.

#[export] Instance fdtype_eq : EqDecision fdtype.
Proof. solve_decision. Defined.

Record file : Type := mkfile {
  ftype : fdtype; ref : Z; readable : bool; writable : bool; fpipe : Z; fip : nat; off : Z
}.

Definition file0 : file := mkfile FD_NONE 0 false false 0 0 0.

Definition set_ref (r : Z) (f : file) : file :=
  mkfile (ftype f) r (readable f) (writable f) (fpipe f) (fip f) (off f).
Definition set_ftype (t : fdtype) (f : file) : file :=
  mkfile t (ref f) (readable f) (writable f) (fpipe f) (fip f) (off f).
Definition set_off (o : Z) (f : file) : file :=
  mkfile (ftype f) (ref f) (readable f) (writable f) (fpipe f) (fip f) o.

(** The two ends of a pipe, and an open inode, as pipealloc and sys_open
    fill them in. *)
Definition set_pipe (r w : bool) (p : Z) (f : file) : file :=
  mkfile FD_PIPE (ref f) r w p (fip f) (off f).
Definition set_inode (r w : bool) (ip : nat) (f : file) : file :=
  mkfile FD_INODE (ref f) r w (fpipe f) ip 0.

Record kern (B : Type) : Type := mkkern {
  kfs : fstate B; kfiles : list file; kpipes : Pipe.pstate; ktab : Proc.ptable;
  kcpu : Seg.scpu; kticks : Z
}.
Arguments mkkern {B}.
Arguments kfs {B}.
Arguments kfiles {B}.
Arguments kpipes {B}.
Arguments ktab {B}.
Arguments kcpu {B}.
Arguments kticks {B}.

Section Ops.
Context {B : Type} `{BlockOps B}.
Variable (fuel : nat).
Variable (dev_read : Z -> option (nat -> Z -> K (fstate B) (Z * bytes))).
Variable (dev_write : Z -> option (nat -> bytes -> Z -> K (fstate B) Z)).

Definition with_fs (f : fstate B) (s : kern B) : kern B :=
  mkkern f (kfiles s) (kpipes s) (ktab s) (kcpu s) (kticks s).
Definition with_files (l : list file) (s : kern B) : kern B :=
  mkkern (kfs s) l (kpipes s) (ktab s) (kcpu s) (kticks s).
Definition with_pipes (p : Pipe.pstate) (s : kern B) : kern B :=
  mkkern (kfs s) (kfiles s) p (ktab s) (kcpu s) (kticks s).
Definition with_kmem (k : Kalloc.kmem) (s : kern B) : kern B :=
  with_pipes (Pipe.put_kmem k (kpipes s)) s.
Definition with_proc (p : Proc.pstate) (s : kern B) : kern B :=
  mkkern (kfs s) (kfiles s) (Pipe.put_kmem (Proc.pkmem p) (kpipes s)) (Proc.ptab p)
    (kcpu s) (kticks s).
Definition with_cpu (c : Seg.scpu) (s : kern B) : kern B :=
  mkkern (kfs s) (kfiles s) (kpipes s) (ktab s) c (kticks s).
Definition with_ticks (n : Z) (s : kern B) : kern B :=
  mkkern (kfs s) (kfiles s) (kpipes s) (ktab s) (kcpu s) n.

Definition on_fs {A} (m : K (fstate B) A) : K (kern B) A := zoom kfs with_fs m.
Definition on_pipes {A} (m : K Pipe.pstate A) : K (kern B) A := zoom kpipes with_pipes m.
Definition on_kmem {A} (m : K Kalloc.kmem A) : K (kern B) A :=
  zoom (fun s => Pipe.pkmem (kpipes s)) with_kmem m.
Definition on_proc {A} (m : K Proc.pstate A) : K (kern B) A :=
  zoom (fun s => Proc.mkpstate (ktab s) (Pipe.pkmem (kpipes s))) with_proc m.
Definition on_cpu {A} (m : K Seg.scpu A) : K (kern B) A := zoom kcpu with_cpu m.

Definition file_at (s : kern B) (f : nat) : file := nth f (kfiles s) file0.
Definition fget {A} (f : nat) (g : file -> A) : K (kern B) A := gets (fun s => g (file_at s f)).
Definition fset (f : nat) (g : file -> file) : K (kern B) unit :=
  modify (fun s => with_files (alter g f (kfiles s)) s).

(** The first entry of the table with no reference. *)
Fixpoint free_file (l : list file) (i : nat) : option nat :=
  match l with
  | [] => None
  | f :: r => if ref f =? 0 then Some i else free_file r (S i)
  end.

Definition filealloc : K (kern B) (option nat) :=
  acquire Lk_ftable ;;
  r <- gets (fun s => free_file (kfiles s) 0) ;;
  match r with
  | Some f => fset f (set_ref 1) ;; release Lk_ftable ;; kret (Some f)
  | None => release Lk_ftable ;; kret None
  end.

Definition filedup (f : nat) : K (kern B) nat :=
  acquire Lk_ftable ;;
  r <- fget f ref ;;
  if r <? 1 then panic "filedup"
  else
    fset f (set_ref (i32 (r + 1))) ;;
    release Lk_ftable ;;
    kret f.

Definition fileclose (f : nat) : K (kern B) unit :=
  acquire Lk_ftable ;;
  r <- fget f ref ;;
  if r <? 1 then panic "fileclose"
  else
    fset f (set_ref (r - 1)) ;;
    if 0 <? r - 1 then release Lk_ftable
    else
      ff <- fget f (fun x => x) ;;
      fset f (set_ref 0) ;;
      fset f (set_ftype FD_NONE) ;;
      release Lk_ftable ;;
      match ftype ff with
      | FD_PIPE => on_pipes (Pipe.pipeclose (fpipe ff) (writable ff))
      | FD_INODE => on_fs (iput (fip ff))
      | FD_NONE => kret tt
      end.

(** filestat: the value, and what is stored at st. *)
Definition filestat (f : nat) : K (kern B) (Z * option statv6) :=
  x <- fget f (fun x => x) ;;
  match ftype x with
  | FD_INODE =>
      on_fs (ilock fuel (fip x)) ;;
      st <- on_fs (iget_ (fip x) stati) ;;
      on_fs (iunlock (fip x)) ;;
      kret (0, Some st)
  | _ => kret (-1, None)
  end.

(** fileread: the value, and the bytes stored at addr. *)
Definition fileread (f : nat) (n : Z) : K (kern B) (Z * bytes) :=
  x <- fget f (fun x => x) ;;
  if negb (readable x) then kret (-1, [])
  else match ftype x with
  | FD_PIPE => on_pipes (Pipe.at_pipe (fpipe x) (Pipe.piperead (fpipe x) fuel n))
  | FD_INODE =>
      on_fs (ilock fuel (fip x)) ;;
      o <- fget f off ;;
      let* (r, dst) <- on_fs (readi dev_read (fip x) o (u32 n)) ;;
      (if 0 <? i32 r then fset f (fun y => set_off (u32 (off y + i32 r)) y) else kret tt) ;;
      on_fs (iunlock (fip x)) ;;
      kret (i32 r, dst)
  | FD_NONE => panic "fileread"
  end.

(** The [n] bytes at a kernel address. *)
Definition src_bytes (addr : nat -> Z) (n : Z) : bytes := addr <$> seq 0 (Z.to_nat n).

Definition filewrite (f : nat) (addr : nat -> Z) (n : Z) : K (kern B) Z :=
  x <- fget f (fun x => x) ;;
  if negb (writable x) then kret (-1)
  else match ftype x with
  | FD_PIPE => on_pipes (Pipe.at_pipe (fpipe x) (Pipe.pipewrite (fpipe x) fuel addr n))
  | FD_INODE =>
      on_fs (ilock fuel (fip x)) ;;
      o <- fget f off ;;
      r <- on_fs (writei dev_write (fip x) (src_bytes addr (u32 n)) o (u32 n)) ;;
      (if 0 <? i32 r then fset f (fun y => set_off (u32 (off y + i32 r)) y) else kret tt) ;;
      on_fs (iunlock (fip x)) ;;
      kret (i32 r)
  | FD_NONE => panic "filewrite"
  end.

(** The data array of a struct pipe at [p], as the page holds it. *)
Definition page_bytes (p : Z) (k : Kalloc.kmem) : bytes :=
  (fun i => Kalloc.ram k (p + 68 + Z.of_nat i)) <$> seq 0 (Z.to_nat Pipe.PIPESIZE).

(** pipealloc (pipe.c): the bad exit closes the files that were allocated. *)
Definition pipealloc_bad (f0 f1 : option nat) : K (kern B) (option (nat * nat)) :=
  (match f0 with Some f => fileclose f | None => kret tt end) ;;
  (match f1 with Some f => fileclose f | None => kret tt end) ;;
  kret None.

Definition pipealloc : K (kern B) (option (nat * nat)) :=
  r0 <- filealloc ;;
  match r0 with
  | None => pipealloc_bad None None
  | Some f0 =>
      r1 <- filealloc ;;
      match r1 with
      | None => pipealloc_bad (Some f0) None
      | Some f1 =>
          p <- on_kmem (Kalloc.kalloc Kalloc.PAGE) ;;
          if p =? 0 then pipealloc_bad (Some f0) (Some f1)
          else
            junk <- gets (fun s => page_bytes p (Pipe.pkmem (kpipes s))) ;;
            on_pipes (modify (Pipe.put_pipe p (Pipe.mkpipe 1 1 0 0 junk))) ;;
            fset f0 (set_pipe true false p) ;;
            fset f1 (set_pipe false true p) ;;
            kret (Some (f0, f1))
      end
  end.
End Ops.
End File.
