(* ===== verification/Syscall.v ===== *)
(** * Syscall: the arguments of system calls (syscall.c)

    User memory is the run of kernel memory at p->mem, so a user address is
    checked against p->sz and then used as an offset into [ram].  The
    theorems say what the checks let through. *)
From S2P Require Import Prelude Kmonad Kalloc Proc.
From stdpp Require Import options.

Module Syscall.
Import Proc.

(** The [n] bytes and the 32-bit word at a kernel address. *)
Definition mem_bytes (m : Z -> Z) (a : Z) (n : nat) : bytes :=
  (fun i => m (a + Z.of_nat i)) <$> seq 0 n.
Definition mem_word (m : Z -> Z) (a : Z) : Z := le_dec (mem_bytes m a 4).

(** memmove/memset-style stores. *)
Definition mem_write (a : Z) (d : bytes) (m : Z -> Z) : Z -> Z :=
  fun x => if (a <=? x) && (x <? a + Z.of_nat (length d)) then byte_at d (Z.to_nat (x - a)) else m x.

Definition with_ram (f : (Z -> Z) -> Z -> Z) (k : Kalloc.kmem) : Kalloc.kmem :=
  Kalloc.mkkmem (Kalloc.freelist k) (Kalloc.runs k) (f (Kalloc.ram k)).

Definition fetchint (p : proc) (m : Z -> Z) (addr : Z) : option Z :=
  if (sz p <=? addr) || (sz p <? u32 (addr + 4)) then None
  else Some (i32 (mem_word m (pmem p + addr))).

(** The scan of fetchstr from [s] up to [ep], [n] bytes apart. *)
Fixpoint fetchstr_loop (n : nat) (m : Z -> Z) (s0 s : Z) : option Z :=
  match n with
  | O => None
  | S n' => if m s =? 0 then Some (s - s0) else fetchstr_loop n' m s0 (s + 1)
  end.

(** fetchstr: the length, and the pointer stored in *pp. *)
Definition fetchstr (p : proc) (m : Z -> Z) (addr : Z) : option (Z * Z) :=
  if sz p <=? addr then None
  else
    let pp := pmem p + addr in
    let ep := pmem p + sz p in
    match fetchstr_loop (Z.to_nat (ep - pp)) m pp pp with
    | Some len => Some (len, pp)
    | None => None
    end.

Definition argint (p : proc) (m : Z -> Z) (n : Z) : option Z :=
  fetchint p m (u32 (tf_esp (tf p) + 4 + 4 * n)).

Definition argptr (p : proc) (m : Z -> Z) (n size : Z) : option Z :=
  match argint p m n with
  | None => None
  | Some i =>
      if (sz p <=? u32 i) || (sz p <=? u32 (u32 i + size)) then None
      else Some (u32 (pmem p + i))
  end.

Definition argstr (p : proc) (m : Z -> Z) (n : Z) : option (Z * Z) :=
  match argint p m n with
  | None => None
  | Some addr => fetchstr p m (u32 addr)
  end.

(** The string a pointer of fetchstr denotes. *)
Definition str_at (m : Z -> Z) (r : Z * Z) : bytes := mem_bytes m (snd r) (Z.to_nat (fst r)).

(** ** Memory *)

Lemma length_mem_bytes m a n : length (mem_bytes m a n) = n.
Proof. unfold mem_bytes. by rewrite length_fmap, length_seq. Qed.

Lemma lookup_mem_bytes m a n i :
  (i < n)%nat -> mem_bytes m a n !! i = Some (m (a + Z.of_nat i)).
Proof.
  intros. unfold mem_bytes. rewrite list_lookup_fmap, lookup_seq_lt by done. done.
Qed.

Lemma byte_at_mem_bytes m a n i :
  (i < n)%nat -> byte_at (mem_bytes m a n) i = m (a + Z.of_nat i).
Proof. intros. by apply byte_at_lookup, lookup_mem_bytes. Qed.

Lemma mem_bytes_ext m m' a n :
  (forall x, a <= x < a + Z.of_nat n -> m x = m' x) -> mem_bytes m a n = mem_bytes m' a n.
Proof.
  intros H. apply list_eq. intros i. destruct (decide (i < n)%nat).
  - rewrite !lookup_mem_bytes by done. f_equal. apply H. lia.
  - rewrite !lookup_ge_None_2; rewrite ?length_mem_bytes; auto; lia.
Qed.

Lemma mem_write_in a d m x :
  a <= x < a + Z.of_nat (length d) -> mem_write a d m x = byte_at d (Z.to_nat (x - a)).
Proof.
  intros. unfold mem_write.
  assert ((a <=? x) && (x <? a + Z.of_nat (length d)) = true) as ->; [|done].
  apply andb_true_iff. rewrite Z.leb_le, Z.ltb_lt. lia.
Qed.

Lemma mem_write_out a d m x :
  x < a \/ a + Z.of_nat (length d) <= x -> mem_write a d m x = m x.
Proof.
  intros. unfold mem_write.
  destruct ((a <=? x) && (x <? a + Z.of_nat (length d))) eqn:E; [|done]. bool_prop. lia.
Qed.

Lemma mem_bytes_write a d m : mem_bytes (mem_write a d m) a (length d) = d.
Proof.
  apply list_eq. intros i. destruct (decide (i < length d)%nat) as [Hi|].
  - rewrite lookup_mem_bytes, mem_write_in by lia.
    destruct (lookup_lt_is_Some_2 d i Hi) as [b Hb]. rewrite Hb. f_equal.
    apply byte_at_lookup. by rewrite Z.add_simpl_l, Nat2Z.id.
  - rewrite !lookup_ge_None_2; rewrite ?length_mem_bytes; auto; lia.
Qed.

Lemma mem_bytes_write_out a d m b n :
  b + Z.of_nat n <= a \/ a + Z.of_nat (length d) <= b ->
  mem_bytes (mem_write a d m) b n = mem_bytes m b n.
Proof. intros. apply mem_bytes_ext. intros. apply mem_write_out. lia. Qed.

(** ** The checks *)

(** fetchint gives a word exactly when its four bytes lie inside the
    process's memory, and then the word stored there. *)
Theorem fetchint_spec p m addr :
  is_u32 addr -> 0 <= sz p < 4294967292 ->
  fetchint p m addr =
    if decide (addr + 4 <= sz p) then Some (i32 (mem_word m (pmem p + addr))) else None.
Proof.
  unfold is_u32, fetchint. intros Ha Hs. destruct (sz p <=? addr) eqn:E1; bool_prop; simpl.
  - rewrite decide_False by lia. done.
  - rewrite u32_small by lia. case_decide; destruct (sz p <? addr + 4) eqn:E2; bool_prop; (done || lia).
Qed.

Lemma fetchstr_loop_spec n m s0 s :
  match fetchstr_loop n m s0 s with
  | Some len =>
      exists k, (k < n)%nat /\ len = s - s0 + Z.of_nat k /\ m (s + Z.of_nat k) = 0 /\
        forall j, (j < k)%nat -> m (s + Z.of_nat j) <> 0
  | None => forall j, (j < n)%nat -> m (s + Z.of_nat j) <> 0
  end.
Proof.
  revert s. induction n as [|n IH]; intros s; simpl; [intros; lia|].
  destruct (m s =? 0) eqn:E; bool_prop.
  - exists 0%nat. split_and!; [lia|lia|by rewrite Z.add_0_r|intros; lia].
  - specialize (IH (s + 1)). destruct (fetchstr_loop n m s0 (s + 1)) as [len|].
    + destruct IH as (k & Hk & -> & Hz & Hn). exists (S k).
      split_and!; [lia|lia|by replace (s + Z.of_nat (S k)) with (s + 1 + Z.of_nat k) by lia|].
      intros [|j] Hj; [by rewrite Z.add_0_r|].
      replace (s + Z.of_nat (S j)) with (s + 1 + Z.of_nat j) by lia. apply Hn. lia.
    + intros [|j] Hj; [by rewrite Z.add_0_r|].
      replace (s + Z.of_nat (S j)) with (s + 1 + Z.of_nat j) by lia. apply IH. lia.
Qed.

(** fetchstr accepts exactly the addresses from which a NUL is found
    before the end of the process's memory; what it gives is the address of the
    string and its length up to the first NUL, so that the string and its
    terminator lie inside the process's memory. *)
Theorem fetchstr_spec p m addr :
  0 <= addr ->
  match fetchstr p m addr with
  | Some (len, pp) =>
      pp = pmem p + addr /\ 0 <= len /\ addr + len < sz p /\
      m (pp + len) = 0 /\ Forall (fun b => b <> 0) (str_at m (len, pp))
  | None => forall a, addr <= a < sz p -> m (pmem p + a) <> 0
  end.
Proof.
  intros Ha. unfold fetchstr. destruct (sz p <=? addr) eqn:E; bool_prop; [intros; lia|].
  set (pp := pmem p + addr). set (n := Z.to_nat (pmem p + sz p - pp)).
  pose proof (fetchstr_loop_spec n m pp pp) as H. destruct (fetchstr_loop n m pp pp) as [len|].
  - destruct H as (k & Hk & -> & Hz & Hn). rewrite Z.sub_diag, Z.add_0_l.
    split_and!; [done|lia|subst n pp; lia|done|].
    apply Forall_lookup. intros i b Hi. unfold str_at in Hi. simpl in Hi. rewrite Nat2Z.id in Hi.
    assert (i < k)%nat by (apply lookup_lt_Some in Hi; by rewrite length_mem_bytes in Hi).
    rewrite lookup_mem_bytes in Hi by done. simplify_eq. by apply Hn.
  - intros a Hr. specialize (H (Z.to_nat (a - addr)) ltac:(subst n pp; lia)).
    replace (pmem p + a) with (pp + Z.of_nat (Z.to_nat (a - addr))) by (subst pp; lia). done.
Qed.

Lemma argptr_ok p m n size i :
  argint p m n = Some i -> 0 <= size < 2147483648 ->
  0 <= sz p <= 2147483648 -> 0 <= pmem p -> pmem p + sz p <= 4294967296 ->
  argptr p m n size =
    if decide (u32 i + size < sz p) then Some (pmem p + u32 i) else None.
Proof.
  intros Hi Hn Hs Hp Hb. unfold argptr. rewrite Hi.
  pose proof (u32_range i). destruct (sz p <=? u32 i) eqn:E1; bool_prop; simpl.
  - rewrite decide_False by lia. done.
  - rewrite (u32_small (u32 i + size)) by lia.
    case_decide; destruct (sz p <=? u32 i + size) eqn:E2; bool_prop; try lia; [|done].
    f_equal. rewrite <- (u32_small (pmem p + u32 i)) by lia.
    unfold u32. by rewrite Zplus_mod_idemp_r.
Qed.

(** C34. argptr with a size that is not negative lets a buffer through exactly
    when it ends strictly below the end of the process's memory: what it
    accepts is inside, and a buffer that ends exactly at the end is refused. *)
Theorem argptr_spec p m n size i :
  argint p m n = Some i -> 0 <= size < 2147483648 ->
  0 <= sz p <= 2147483648 -> 0 <= pmem p -> pmem p + sz p <= 4294967296 ->
  argptr p m n size =
    if decide (u32 i + size < sz p) then Some (pmem p + u32 i) else None.
Proof. apply argptr_ok. Qed.

(** A negative size gets past argptr: for every pointer from -size up to
    the end of memory the check passes, whatever the number of bytes that the
    callee takes the size to be. *)
Lemma argptr_negative_size p m n size i :
  argint p m n = Some i -> -2147483648 <= size < 0 ->
  0 <= sz p <= 2147483648 -> - size <= u32 i < sz p ->
  argptr p m n size = Some (u32 (pmem p + i)).
Proof.
  intros Hi Hn Hs Hr. unfold argptr. rewrite Hi. pose proof (u32_range i).
  rewrite (u32_small (u32 i + size)) by lia.
  destruct (sz p <=? u32 i) eqn:E1, (sz p <=? u32 i + size) eqn:E2; bool_prop; (lia || done).
Qed.

Lemma argint_range p m n v : argint p m n = Some v -> -2147483648 <= v < 2147483648.
Proof.
  unfold argint, fetchint. destruct (_ || _); [done|]. intros [= <-]. apply i32_range.
Qed.

(** ** Witnesses: a process at 0x20000 with the arguments 0x100 and 0x61 *)

Definition proc_args : proc := set_mem 0x20000 4096 proc0.
Definition ram_args : Z -> Z :=
  mem_write 0x20004 (le_enc 4 0x100 ++ le_enc 4 0xfff) (mem_write 0x20100 [108; 115; 0] (fun _ => 1)).

Lemma fetchint_spec_witness : fetchint proc_args ram_args 4092 = Some 16843009.
Proof. by rewrite (fetchint_spec proc_args ram_args 4092). Defined.

Lemma fetchstr_spec_witness :
  fetchstr proc_args ram_args 0x100 = Some (2, 0x20100) /\ Forall (fun b => b <> 0) (str_at ram_args (2, 0x20100)).
Proof.
  split; [by vm_compute|].
  exact (proj2 (proj2 (proj2 (proj2 (fetchstr_spec proc_args ram_args 0x100 ltac:(done)))))).
Defined.

(** A buffer of 16 bytes at 0x100, and one that ends at the end of memory. *)
Lemma argptr_spec_witness :
  argptr proc_args ram_args 0 16 = Some 0x20100 /\ argptr proc_args ram_args 1 1 = None.
Proof.
  rewrite (argptr_spec proc_args ram_args 0 16 0x100) by (by vm_compute).
  rewrite (argptr_spec proc_args ram_args 1 1 0xfff) by (by vm_compute). done.
Defined.
End Syscall.
