(* ===== verification/Process.v ===== *)
(** * Process: growproc, fork, userinit and exit of proc.c, and sysproc.c

    The operations on processes that touch memory, open files and the
    current directory, over the state of [File].  [cp] is the index of the
    current process. *)
From S2P Require Import Prelude Kmonad Cstring Kalloc Pipe Proc Segment Block FsLayout Fs File Syscall.
From stdpp Require Import options.

Module Process.
Import FsLayout Fs File Syscall.

Section Ops.
Context {B : Type} `{BlockOps B}.
Variable (fuel : nat).

Definition pget {A} (p : nat) (f : Proc.proc -> A) : K (kern B) A :=
  gets (fun s => f (Proc.proc_at (ktab s) p)).
Definition pupd (p : nat) (f : Proc.proc -> Proc.proc) : K (kern B) unit :=
  on_proc (Proc.upd_proc p f).
Definition mem : K (kern B) (Z -> Z) := gets (fun s => Kalloc.ram (Pipe.pkmem (kpipes s))).
Definition mupd (f : (Z -> Z) -> Z -> Z) : K (kern B) unit := on_kmem (modify (with_ram f)).

(** safestrcpy into a field of [length old] bytes, from a string elsewhere. *)
Definition safestrcpy_field (old : bytes) (src : nat -> Z) : bytes :=
  let n := Z.of_nat (length old) in
  let m := fun x => if x <? n then byte_at old (Z.to_nat x) else src (Z.to_nat (x - n)) in
  mem_bytes (Cstring.safestrcpy 0 n n m) 0 (length old).

Definition usegment (cp : nat) : K (kern B) unit :=
  p <- pget cp (fun p => p) ;;
  on_cpu (Seg.usegment (Some p)).

Definition growproc (cp : nat) (n : Z) : K (kern B) Z :=
  p <- pget cp (fun p => p) ;;
  newmem <- on_kmem (Kalloc.kalloc (i32 (u32 (Proc.sz p + n)))) ;;
  if newmem =? 0 then kret (-1)
  else
    mupd (Cstring.memmove newmem (Proc.pmem p) (Proc.sz p)) ;;
    mupd (Cstring.memset (u32 (newmem + Proc.sz p)) 0 (u32 n)) ;;
    on_kmem (Kalloc.kfree (Proc.pmem p) (i32 (Proc.sz p))) ;;
    pupd cp (Proc.set_mem newmem (u32 (Proc.sz p + n))) ;;
    usegment cp ;;
    kret 0.

Definition set_ofile (fd : nat) (f : option nat) (p : Proc.proc) : Proc.proc :=
  Proc.set_files (<[fd := f]> (Proc.ofile p)) (Proc.cwd p) p.
Definition set_cwd (d : option nat) (p : Proc.proc) : Proc.proc :=
  Proc.set_files (Proc.ofile p) d p.
Definition ofile_at (p : Proc.proc) (fd : nat) : option nat := nth fd (Proc.ofile p) None.

Definition set_tf (t : Proc.trapframe) (p : Proc.proc) : Proc.proc :=
  Proc.mkproc (Proc.pmem p) (Proc.sz p) (Proc.kstack p) (Proc.state p) (Proc.pid p)
    (Proc.parent p) t (Proc.context p) (Proc.pchan p) (Proc.killed p) (Proc.ofile p)
    (Proc.cwd p) (Proc.name p).
Definition tf_set_eax (v : Z) (t : Proc.trapframe) : Proc.trapframe :=
  Proc.mktf (Proc.tf_edi t) (Proc.tf_esi t) (Proc.tf_ebp t) (Proc.tf_oesp t) (Proc.tf_ebx t)
    (Proc.tf_edx t) (Proc.tf_ecx t) v (Proc.tf_gs t) (Proc.tf_fs t) (Proc.tf_es t)
    (Proc.tf_ds t) (Proc.tf_trapno t) (Proc.tf_err t) (Proc.tf_eip t) (Proc.tf_cs t)
    (Proc.tf_eflags t) (Proc.tf_esp t) (Proc.tf_ss t).
Definition tf_set_exec (ip sp : Z) (t : Proc.trapframe) : Proc.trapframe :=
  Proc.mktf (Proc.tf_edi t) (Proc.tf_esi t) (Proc.tf_ebp t) (Proc.tf_oesp t) (Proc.tf_ebx t)
    (Proc.tf_edx t) (Proc.tf_ecx t) (Proc.tf_eax t) (Proc.tf_gs t) (Proc.tf_fs t) (Proc.tf_es t)
    (Proc.tf_ds t) (Proc.tf_trapno t) (Proc.tf_err t) ip (Proc.tf_cs t)
    (Proc.tf_eflags t) sp (Proc.tf_ss t).

(** The loop of fork over the descriptors from [fd] on. *)
Fixpoint fork_files (n fd cp np : nat) : K (kern B) unit :=
  match n with
  | O => kret tt
  | S n' =>
      f <- pget cp (fun p => ofile_at p fd) ;;
      (match f with
       | Some f => f' <- filedup f ;; pupd np (set_ofile fd (Some f'))
       | None => kret tt
       end) ;;
      fork_files n' (S fd) cp np
  end.

Definition fork (cp : nat) : K (kern B) Z :=
  r <- on_proc Proc.allocproc ;;
  match r with
  | None => kret (-1)
  | Some np =>
      size <- pget cp Proc.sz ;;
      m <- on_kmem (Kalloc.kalloc (i32 size)) ;;
      pupd np (Proc.set_mem m size) ;;
      if m =? 0 then
        ks <- pget np Proc.kstack ;;
        on_kmem (Kalloc.kfree ks Proc.KSTACKSIZE) ;;
        pupd np (Proc.set_kstack 0) ;;
        pupd np (Proc.set_state Proc.UNUSED) ;;
        kret (-1)
      else
        src <- pget cp Proc.pmem ;;
        mupd (Cstring.memmove m src size) ;;
        pupd np (Proc.set_parent (Some cp)) ;;
        t <- pget cp Proc.tf ;;
        pupd np (set_tf (tf_set_eax 0 t)) ;;
        fork_files Proc.NOFILE 0 cp np ;;
        d <- pget cp Proc.cwd ;;
        d' <- on_fs (idup (default 0%nat d)) ;;
        pupd np (set_cwd (Some d')) ;;
        pid <- pget np Proc.pid ;;
        pupd np (Proc.set_state Proc.RUNNABLE) ;;
        kret pid
  end.

(** userinit: [initcode] is the binary of initcode.S; the name is "initcode". *)
Definition userinit (initcode : bytes) : K (kern B) unit :=
  r <- on_proc Proc.allocproc ;;
  match r with
  | None => panic "null dereference"
  | Some p =>
      on_proc (modify (Proc.with_tab (fun t => Proc.mkptable (Proc.procs t) (Proc.nextpid t) (Some p)))) ;;
      m <- on_kmem (Kalloc.kalloc Kalloc.PAGE) ;;
      pupd p (Proc.set_mem m Kalloc.PAGE) ;;
      mupd (mem_write m initcode) ;;
      let uds := Z.lor (Seg.sel Seg.SEG_UDATA) Seg.DPL_USER in
      pupd p (set_tf (Proc.mktf 0 0 0 0 0 0 0 0 0 0 uds uds 0 0 0
                        (Z.lor (Seg.sel Seg.SEG_UCODE) Seg.DPL_USER) 512 Kalloc.PAGE uds)) ;;
      pupd p (fun x => Proc.set_name
        (safestrcpy_field (Proc.name x) (byte_at [105; 110; 105; 116; 99; 111; 100; 101; 0])) x) ;;
      d <- on_fs (namei fuel 0 [slash]) ;;
      pupd p (set_cwd d) ;;
      pupd p (Proc.set_state Proc.RUNNABLE)
  end.

(** The loop of exit that closes the files from [fd] on. *)
Fixpoint close_files (n fd cp : nat) : K (kern B) unit :=
  match n with
  | O => kret tt
  | S n' =>
      f <- pget cp (fun p => ofile_at p fd) ;;
      (match f with
       | Some f => fileclose f ;; pupd cp (set_ofile fd None)
       | None => kret tt
       end) ;;
      close_files n' (S fd) cp
  end.

Definition exit (cp : nat) : K (kern B) unit :=
  i <- gets (fun s => Proc.initproc (ktab s)) ;;
  if decide (i = Some cp) then panic "init exiting"
  else
    close_files Proc.NOFILE 0 cp ;;
    d <- pget cp Proc.cwd ;;
    on_fs (iput (default 0%nat d)) ;;
    pupd cp (set_cwd None) ;;
    on_proc (Proc.exit_locked cp).

(** ** sysproc.c *)

Definition arg {A} (cp : nat) (f : Proc.proc -> (Z -> Z) -> option A) : K (kern B) (option A) :=
  m <- mem ;; p <- pget cp (fun p => p) ;; kret (f p m).

Definition sys_fork (cp : nat) : K (kern B) Z := fork cp.

Definition sys_exit (cp : nat) : K (kern B) Z := exit cp ;; kret 0.

Definition sys_wait (cp : nat) : K (kern B) Z := on_proc (Proc.wait fuel cp).

Definition sys_kill (cp : nat) : K (kern B) Z :=
  a <- arg cp (fun p m => argint p m 0) ;;
  match a with
  | None => kret (-1)
  | Some pid => on_proc (Proc.kill pid)
  end.

Definition sys_getpid (cp : nat) : K (kern B) Z := pget cp Proc.pid.

Definition sys_sbrk (cp : nat) : K (kern B) Z :=
  a <- arg cp (fun p m => argint p m 0) ;;
  match a with
  | None => kret (-1)
  | Some n =>
      addr <- pget cp (fun p => i32 (Proc.sz p)) ;;
      r <- growproc cp n ;;
      if r <? 0 then kret (-1) else kret addr
  end.

Fixpoint sleep_loop (k : nat) (n ticks0 : Z) : K (kern B) Z :=
  match k with
  | O => diverge
  | S k' =>
      t <- gets kticks ;;
      if i32 (t - ticks0) <? n then
        dead <- cp_killed ;;
        if (dead : bool) then release Lk_ticks ;; kret (-1)
        else sleep Ch_ticks Lk_ticks ;; sleep_loop k' n ticks0
      else release Lk_ticks ;; kret 0
  end.

Definition sys_sleep (cp : nat) : K (kern B) Z :=
  a <- arg cp (fun p m => argint p m 0) ;;
  match a with
  | None => kret (-1)
  | Some n =>
      acquire Lk_ticks ;;
      ticks0 <- gets kticks ;;
      sleep_loop fuel n ticks0
  end.
End Ops.
End Process.
