(* ===== verification/Exec.v ===== *)
(** * Exec: exec.c and elf.h

    The program loader.  [elf0] and [ph0] are what the local variables elf and
    ph hold before they are read into.  The path and the arguments are values:
    exec reads them from memory that does not change while it runs. *)
From S2P Require Import Prelude Kmonad Cstring Kalloc Pipe Proc Segment Block FsLayout Fs File Syscall Process.
From stdpp Require Import options.

Module Exec.
Import FsLayout Fs File Syscall Process.

Abbreviation ELF_MAGIC := (0x464C457F)%Z (only parsing).
Abbreviation ELF_PROG_LOAD := (1)%Z (only parsing).

Record elfhdr : Type := mkelf {
  e_magic : Z; e_elf : bytes; e_type : Z; e_machine : Z; e_version : Z; e_entry : Z;
  e_phoff : Z; e_shoff : Z; e_flags : Z; e_ehsize : Z; e_phentsize : Z; e_phnum : Z;
  e_shentsize : Z; e_shnum : Z; e_shstrndx : Z
}.

Definition size_elf : Z := 52.

Definition get_elf (d : bytes) : elfhdr :=
  mkelf (get32 d 0) (slice d 4 12) (get16 d 16) (get16 d 18) (get32 d 20) (get32 d 24)
    (get32 d 28) (get32 d 32) (get32 d 36) (get16 d 40) (get16 d 42) (get16 d 44)
    (get16 d 46) (get16 d 48) (get16 d 50).

Record proghdr : Type := mkph {
  p_type : Z; p_offset : Z; p_va : Z; p_pa : Z; p_filesz : Z; p_memsz : Z; p_flags : Z; p_align : Z
}.

Definition size_ph : Z := 32.

Definition get_ph (d : bytes) : proghdr :=
  mkph (get32 d 0) (get32 d 4) (get32 d 8) (get32 d 12) (get32 d 16) (get32 d 20)
    (get32 d 24) (get32 d 28).

(** The part of a path after its last slash. *)
Fixpoint last_elem (path last : bytes) : bytes :=
  match path with
  | [] => last
  | c :: r => last_elem r (if c =? slash then r else last)
  end.

(** arglen over the strings of argv. *)
Fixpoint arg_bytes (argv : list bytes) (n : Z) : Z :=
  match argv with
  | [] => n
  | a :: r => arg_bytes r (i32 (n + Z.of_nat (length a) + 1))
  end.

Definition round4 (n : Z) : Z := Z.land (n + 3) (Z.lnot 3).

(** sz after the arguments and the stack are added, rounded to pages. *)
Definition image_size (sz arglen argc : Z) : Z :=
  Z.land (u32 (u32 (u32 (sz + arglen + 4 * (argc + 1)) + Kalloc.PAGE) + Kalloc.PAGE - 1))
    (4294967296 - Kalloc.PAGE).

(** The copy of the argv strings and pointers, last string first: the new
    memory and the final sp; [l] is the reversed list, with indices. *)
Fixpoint push_args (mem argp : Z) (l : list (nat * bytes)) (sp : Z) (m : Z -> Z) : Z * (Z -> Z) :=
  match l with
  | [] => (sp, m)
  | (i, a) :: r =>
      let len := Z.of_nat (length a) + 1 in
      let sp := u32 (sp - len) in
      push_args mem argp r sp
        (mem_write (mem + argp + 4 * Z.of_nat i) (le_enc 4 sp) (mem_write (mem + sp) (a ++ [0]) m))
  end.

(** The stack of the new image: argv, then the frame of main(argc, argv). *)
Definition init_stack (mem sz arglen : Z) (argv : list bytes) (m : Z -> Z) : Z * (Z -> Z) :=
  let argc := Z.of_nat (length argv) in
  let argp := u32 (sz - arglen - 4 * (argc + 1)) in
  let m := mem_write (mem + argp + 4 * argc) (le_enc 4 0) m in
  let '(_, m) := push_args mem argp (rev (zip (seq 0 (length argv)) argv)) sz m in
  let m := mem_write (mem + u32 (argp - 4)) (le_enc 4 argp) m in
  let m := mem_write (mem + u32 (argp - 8)) (le_enc 4 argc) m in
  let m := mem_write (mem + u32 (argp - 12)) (le_enc 4 0xffffffff) m in
  (u32 (argp - 12), m).

Section Exec.
Context {B : Type} `{BlockOps B}.
Variable (fuel : nat).
Variable (dev_read : Z -> option (nat -> Z -> K (fstate B) (Z * bytes))).
Variable (elf0 : bytes).

(** One program header: [None] when readi does not give all of it. *)
Definition read_ph (ip : nat) (off : Z) : K (kern B) (option proghdr) :=
  let* (r, d) <- on_fs (readi dev_read ip (u32 off) size_ph) ;;
  kret (if negb (u32 r =? size_ph) then None else Some (get_ph d)).

(** The first pass: sz of the segments, [None] for the exits to bad. *)
Fixpoint size_loop (n : nat) (ip : nat) (off sz : Z) : K (kern B) (option Z) :=
  match n with
  | O => kret (Some sz)
  | S n' =>
      r <- read_ph ip off ;;
      match r with
      | None => kret None
      | Some ph =>
          if negb (p_type ph =? ELF_PROG_LOAD) then size_loop n' ip (i32 (off + size_ph)) sz
          else if p_memsz ph <? p_filesz ph then kret None
          else size_loop n' ip (i32 (off + size_ph)) (u32 (sz + p_memsz ph))
      end
  end.

(** The second pass: loads the segments, [false] for the exits to bad. *)
Fixpoint load_loop (n : nat) (ip : nat) (off sz mem : Z) : K (kern B) bool :=
  match n with
  | O => kret true
  | S n' =>
      r <- read_ph ip off ;;
      match r with
      | None => kret false
      | Some ph =>
          if negb (p_type ph =? ELF_PROG_LOAD) then load_loop n' ip (i32 (off + size_ph)) sz mem
          else if (u32 (p_va ph + p_memsz ph) <? p_va ph) || (sz <? u32 (p_va ph + p_memsz ph))
                  || (p_memsz ph <? p_filesz ph)
          then kret false
          else
            let* (r, d) <- on_fs (readi dev_read ip (p_offset ph) (p_filesz ph)) ;;
            mupd (mem_write (u32 (mem + p_va ph)) d) ;;
            if negb (u32 r =? p_filesz ph) then kret false
            else
              mupd (Cstring.memset (u32 (mem + p_va ph + p_filesz ph)) 0
                      (p_memsz ph - p_filesz ph)) ;;
              load_loop n' ip (i32 (off + size_ph)) sz mem
      end
  end.

Definition exec_bad (ip : nat) (mem sz : Z) : K (kern B) Z :=
  (if negb (mem =? 0) then on_kmem (Kalloc.kfree mem (i32 sz)) else kret tt) ;;
  on_fs (iunlockput ip) ;;
  kret (-1).

(** From the stack on: the new image is committed. *)
Definition exec_commit (cp : nat) (path : bytes) (argv : list bytes) (elf : elfhdr)
    (mem sz arglen : Z) : K (kern B) Z :=
  m <- Process.mem ;;
  let '(sp, m') := init_stack mem sz arglen argv m in
  mupd (fun _ => m') ;;
  pupd cp (fun p => Proc.set_name
    (safestrcpy_field (Proc.name p) (byte_at (last_elem path path ++ [0]))) p) ;;
  old <- pget cp (fun p => p) ;;
  on_kmem (Kalloc.kfree (Proc.pmem old) (i32 (Proc.sz old))) ;;
  pupd cp (Proc.set_mem mem sz) ;;
  pupd cp (fun p => set_tf (tf_set_exec (e_entry elf) sp (Proc.tf p)) p) ;;
  usegment cp ;;
  kret 0.

Definition exec (cp : nat) (path : bytes) (argv : list bytes) : K (kern B) Z :=
  wd <- pget cp (fun p => default 0%nat (Proc.cwd p)) ;;
  r <- on_fs (namei fuel wd path) ;;
  match r with
  | None => kret (-1)
  | Some ip =>
      on_fs (ilock fuel ip) ;;
      let* (r, d) <- on_fs (readi dev_read ip 0 size_elf) ;;
      (* int < unsigned: the comparison is unsigned *)
      if u32 r <? size_elf then exec_bad ip 0 0
      else
        let elf := get_elf (splice elf0 0 d) in
        if negb (e_magic elf =? ELF_MAGIC) then exec_bad ip 0 0
        else
          let n := Z.to_nat (e_phnum elf) in
          r <- size_loop n ip (i32 (e_phoff elf)) 0 ;;
          match r with
          | None => exec_bad ip 0 0
          | Some sz =>
              let arglen := round4 (arg_bytes argv 0) in
              let sz := image_size sz arglen (Z.of_nat (length argv)) in
              mem <- on_kmem (Kalloc.kalloc (i32 sz)) ;;
              if mem =? 0 then exec_bad ip 0 sz
              else
                mupd (Cstring.memset mem 0 sz) ;;
                ok <- load_loop n ip (i32 (e_phoff elf)) sz mem ;;
                if negb (ok : bool) then exec_bad ip mem sz
                else
                  on_fs (iunlockput ip) ;;
                  exec_commit cp path argv elf mem sz arglen
          end
  end.
End Exec.
End Exec.
