(* ===== verification/Sysfile.v ===== *)
(** * Sysfile: sysfile.c, the system calls on files

    Each call takes the index [cp] of the current process and gives the value
    that syscall() stores in %eax; error exits keep the order in which the
    source undoes its work. *)
From S2P Require Import Prelude Kmonad Kalloc Pipe Proc Segment Block FsLayout Fs File Syscall Process Exec.
From stdpp Require Import options.

Module Sysfile.
Import FsLayout Fs File Syscall Process.

Definition O_RDONLY : Z := 0.
Definition O_WRONLY : Z := 1.
Definition O_RDWR : Z := 2.
Definition O_CREATE : Z := 512.

Definition dot : bytes := [46; 0].
Definition dotdot : bytes := [46; 46; 0].

(** sizeof(struct statv6), and its bytes: type and nlink are shorts followed
    by padding, which filestat leaves alone. *)
Definition size_stat : Z := 20.

Definition put_stat (a : Z) (st : statv6) (m : Z -> Z) : Z -> Z :=
  mem_write (a + 16) (le_enc 4 (st_size st))
    (mem_write (a + 12) (le_enc 2 (st_nlink st))
      (mem_write (a + 8) (le_enc 4 (st_ino st))
        (mem_write (a + 4) (le_enc 4 (st_dev st))
          (mem_write a (le_enc 2 (st_type st)) m)))).

Section Calls.
Context {B : Type} `{BlockOps B}.
Variable (fuel : nat).
Variable (dev_read : Z -> option (nat -> Z -> K (fstate B) (Z * bytes))).
Variable (dev_write : Z -> option (nat -> bytes -> Z -> K (fstate B) Z)).

(** argfd: the descriptor and the file. *)
Definition argfd (cp : nat) (n : Z) : K (kern B) (option (nat * nat)) :=
  a <- arg cp (fun p m => argint p m n) ;;
  match a with
  | None => kret None
  | Some fd =>
      if (fd <? 0) || (Z.of_nat Proc.NOFILE <=? fd) then kret None
      else
        f <- pget cp (fun p => ofile_at p (Z.to_nat fd)) ;;
        match f with
        | None => kret None
        | Some f => kret (Some (Z.to_nat fd, f))
        end
  end.

Fixpoint fdalloc_loop (n fd cp f : nat) : K (kern B) Z :=
  match n with
  | O => kret (-1)
  | S n' =>
      o <- pget cp (fun p => ofile_at p fd) ;;
      match o with
      | None => pupd cp (set_ofile fd (Some f)) ;; kret (Z.of_nat fd)
      | Some _ => fdalloc_loop n' (S fd) cp f
      end
  end.

Definition fdalloc (cp f : nat) : K (kern B) Z := fdalloc_loop Proc.NOFILE 0 cp f.

(** The arguments of read and write: the file, the count and the buffer. *)
Definition rwargs (cp : nat) : K (kern B) (option (nat * Z * Z)) :=
  a <- argfd cp 0 ;;
  match a with
  | None => kret None
  | Some (_, f) =>
      n <- arg cp (fun p m => argint p m 2) ;;
      match n with
      | None => kret None
      | Some n =>
          p <- arg cp (fun p m => argptr p m 1 n) ;;
          match p with
          | None => kret None
          | Some p => kret (Some (f, n, p))
          end
      end
  end.

Definition sys_read (cp : nat) : K (kern B) Z :=
  a <- rwargs cp ;;
  match a with
  | None => kret (-1)
  | Some (f, n, p) =>
      let* (r, dst) <- fileread fuel dev_read f n ;;
      mupd (mem_write p dst) ;;
      kret r
  end.

Definition sys_write (cp : nat) : K (kern B) Z :=
  a <- rwargs cp ;;
  match a with
  | None => kret (-1)
  | Some (f, n, p) =>
      m <- mem ;;
      filewrite fuel dev_write f (fun i => m (p + Z.of_nat i)) n
  end.

Definition sys_dup (cp : nat) : K (kern B) Z :=
  a <- argfd cp 0 ;;
  match a with
  | None => kret (-1)
  | Some (_, f) =>
      fd <- fdalloc cp f ;;
      if fd <? 0 then kret (-1)
      else filedup f ;; kret fd
  end.

Definition sys_close (cp : nat) : K (kern B) Z :=
  a <- argfd cp 0 ;;
  match a with
  | None => kret (-1)
  | Some (fd, f) =>
      pupd cp (set_ofile fd None) ;;
      fileclose f ;;
      kret 0
  end.

Definition sys_fstat (cp : nat) : K (kern B) Z :=
  a <- argfd cp 0 ;;
  match a with
  | None => kret (-1)
  | Some (_, f) =>
      st <- arg cp (fun p m => argptr p m 1 size_stat) ;;
      match st with
      | None => kret (-1)
      | Some a =>
          let* (r, st) <- filestat fuel f ;;
          (match st with Some x => mupd (put_stat a x) | None => kret tt end) ;;
          kret r
      end
  end.

(** The current directory and a string argument. *)
Definition cwd_of (cp : nat) : K (kern B) nat := pget cp (fun p => default 0%nat (Proc.cwd p)).

Definition strarg (cp : nat) (n : Z) : K (kern B) (option bytes) :=
  m <- mem ;;
  a <- arg cp (fun p m => argstr p m n) ;;
  kret (match a with Some r => Some (str_at m r) | None => None end).

Definition sys_link_bad (ip : nat) : K (kern B) Z :=
  on_fs (ilock fuel ip) ;;
  on_fs (iset ip (fun x => set_nlink (i16 (inlink x - 1)) x)) ;;
  on_fs (iupdate ip) ;;
  on_fs (iunlockput ip) ;;
  kret (-1).

Definition sys_link (cp : nat) : K (kern B) Z :=
  old <- strarg cp 0 ;;
  match old with None => kret (-1) | Some old =>
  new <- strarg cp 1 ;;
  match new with None => kret (-1) | Some new =>
  wd <- cwd_of cp ;;
  ip <- on_fs (namei fuel wd old) ;;
  match ip with None => kret (-1) | Some ip =>
    on_fs (ilock fuel ip) ;;
    t <- on_fs (iget_ ip itype) ;;
    if t =? T_DIR then on_fs (iunlockput ip) ;; kret (-1)
    else
      on_fs (iset ip (fun x => set_nlink (i16 (inlink x + 1)) x)) ;;
      on_fs (iupdate ip) ;;
      on_fs (iunlock ip) ;;
      let* (dp, name) <- on_fs (nameiparent fuel wd new (replicate 14 0)) ;;
      match dp with
      | None => sys_link_bad ip
      | Some dp =>
          on_fs (ilock fuel dp) ;;
          d <- on_fs (iget_ dp idev) ;;
          x <- on_fs (iget_ ip (fun x => x)) ;;
          ok <- (if negb (d =? idev x) then kret false
                 else r <- on_fs (dirlink dev_read dev_write dp name (inum x)) ;;
                      kret (negb (r <? 0))) ;;
          if (ok : bool) then
            on_fs (iunlockput dp) ;;
            on_fs (iput ip) ;;
            kret 0
          else
            on_fs (iunlockput dp) ;;
            sys_link_bad ip
      end
  end end end.

(** The loop of isdirempty: a directory has at most MAXFILE blocks of 32
    entries, so [n] entries from [off] on. *)
Fixpoint isdirempty_loop (n : nat) (dp : nat) (off : Z) : K (fstate B) bool :=
  match n with
  | O => diverge
  | S n' =>
      size <- iget_ dp isize ;;
      if off <? size then
        let* (r, de) <- readi dev_read dp off 16 ;;
        if negb (r =? 16) then panic "isdirempty: readi"
        else if negb (get16 de 0 =? 0) then kret false
        else isdirempty_loop n' dp (off + 16)
      else kret true
  end.

Definition NDIRENT : nat := Z.to_nat (MAXFILE * BSIZE / 16 + 1).

Definition isdirempty (dp : nat) : K (fstate B) bool := isdirempty_loop NDIRENT dp 32.

Definition sys_unlink (cp : nat) : K (kern B) Z :=
  path <- strarg cp 0 ;;
  match path with None => kret (-1) | Some path =>
  wd <- cwd_of cp ;;
  let* (dp, name) <- on_fs (nameiparent fuel wd path (replicate 14 0)) ;;
  match dp with None => kret (-1) | Some dp =>
    on_fs (ilock fuel dp) ;;
    if (namecmp name dot =? 0) || (namecmp name dotdot =? 0) then
      on_fs (iunlockput dp) ;; kret (-1)
    else
      r <- on_fs (dirlookup dp name) ;;
      match r with
      | None => on_fs (iunlockput dp) ;; kret (-1)
      | Some (ip, off) =>
          on_fs (ilock fuel ip) ;;
          nl <- on_fs (iget_ ip inlink) ;;
          if nl <? 1 then panic "unlink: nlink < 1"
          else
            t <- on_fs (iget_ ip itype) ;;
            empty <- (if t =? T_DIR then on_fs (isdirempty ip) else kret true) ;;
            if negb (empty : bool) then
              on_fs (iunlockput ip) ;; on_fs (iunlockput dp) ;; kret (-1)
            else
              w <- on_fs (writei dev_write dp (replicate 16 0) off 16) ;;
              if negb (w =? 16) then panic "unlink: writei"
              else
                t <- on_fs (iget_ ip itype) ;;
                (if t =? T_DIR then
                   on_fs (iset dp (fun x => set_nlink (i16 (inlink x - 1)) x)) ;;
                   on_fs (iupdate dp)
                 else kret tt) ;;
                on_fs (iunlockput dp) ;;
                on_fs (iset ip (fun x => set_nlink (i16 (inlink x - 1)) x)) ;;
                on_fs (iupdate ip) ;;
                on_fs (iunlockput ip) ;;
                kret 0
      end
  end end.

(** create: the new or existing inode, locked. *)
Definition create (cp : nat) (path : bytes) (type major minor : Z) : K (kern B) (option nat) :=
  wd <- cwd_of cp ;;
  let* (dp, name) <- on_fs (nameiparent fuel wd path (replicate 14 0)) ;;
  match dp with None => kret None | Some dp =>
    on_fs (ilock fuel dp) ;;
    r <- on_fs (dirlookup dp name) ;;
    match r with
    | Some (ip, _) =>
        on_fs (iunlockput dp) ;;
        on_fs (ilock fuel ip) ;;
        t <- on_fs (iget_ ip itype) ;;
        if negb (t =? type) || negb (type =? T_FILE) then
          on_fs (iunlockput ip) ;; kret None
        else kret (Some ip)
    | None =>
        dev <- on_fs (iget_ dp idev) ;;
        (* ialloc panics rather than returning 0 *)
        ip <- on_fs (ialloc dev type) ;;
        on_fs (ilock fuel ip) ;;
        on_fs (iset ip (fun x => set_nlink 1 (set_devs (i16 major) (i16 minor) x))) ;;
        on_fs (iupdate ip) ;;
        inum_ip <- on_fs (iget_ ip inum) ;;
        (if type =? T_DIR then
           on_fs (iset dp (fun x => set_nlink (i16 (inlink x + 1)) x)) ;;
           on_fs (iupdate dp) ;;
           r1 <- on_fs (dirlink dev_read dev_write ip dot inum_ip) ;;
           if r1 <? 0 then panic "create dots"
           else
             inum_dp <- on_fs (iget_ dp inum) ;;
             r2 <- on_fs (dirlink dev_read dev_write ip dotdot inum_dp) ;;
             if r2 <? 0 then panic "create dots" else kret tt
         else kret tt) ;;
        r <- on_fs (dirlink dev_read dev_write dp name inum_ip) ;;
        if r <? 0 then panic "create: dirlink"
        else
          on_fs (iunlockput dp) ;;
          kret (Some ip)
    end
  end.

(** The inode that open opens, locked. *)
Definition open_inode (cp : nat) (path : bytes) (omode : Z) : K (kern B) (option nat) :=
  if negb (Z.land omode O_CREATE =? 0) then create cp path T_FILE 0 0
  else
    wd <- cwd_of cp ;;
    r <- on_fs (namei fuel wd path) ;;
    match r with
    | None => kret None
    | Some ip =>
        on_fs (ilock fuel ip) ;;
        t <- on_fs (iget_ ip itype) ;;
        if (t =? T_DIR) && negb (omode =? O_RDONLY) then
          on_fs (iunlockput ip) ;; kret None
        else kret (Some ip)
    end.

(** f = filealloc() and fd = fdalloc(f), with f closed again if there is no
    descriptor. *)
Definition alloc_fd (cp : nat) : K (kern B) (option (nat * Z)) :=
  r <- filealloc ;;
  match r with
  | None => kret None
  | Some f =>
      fd <- fdalloc cp f ;;
      if fd <? 0 then fileclose f ;; kret None else kret (Some (f, fd))
  end.

Definition sys_open (cp : nat) : K (kern B) Z :=
  path <- strarg cp 0 ;;
  match path with None => kret (-1) | Some path =>
  omode <- arg cp (fun p m => argint p m 1) ;;
  match omode with None => kret (-1) | Some omode =>
  r <- open_inode cp path omode ;;
  match r with None => kret (-1) | Some ip =>
    a <- alloc_fd cp ;;
    match a with
    | None => on_fs (iunlockput ip) ;; kret (-1)
    | Some (f, fd) =>
        on_fs (iunlock ip) ;;
        fset f (set_inode (Z.land omode O_WRONLY =? 0)
                  (negb (Z.land omode O_WRONLY =? 0) || negb (Z.land omode O_RDWR =? 0)) ip) ;;
        kret fd
    end
  end end end.

Definition sys_mknod (cp : nat) : K (kern B) Z :=
  path <- strarg cp 0 ;;
  match path with None => kret (-1) | Some path =>
  major <- arg cp (fun p m => argint p m 1) ;;
  match major with None => kret (-1) | Some major =>
  minor <- arg cp (fun p m => argint p m 2) ;;
  match minor with None => kret (-1) | Some minor =>
  r <- create cp path T_DEV (i16 major) (i16 minor) ;;
  match r with
  | None => kret (-1)
  | Some ip => on_fs (iunlockput ip) ;; kret 0
  end end end end.

Definition sys_mkdir (cp : nat) : K (kern B) Z :=
  path <- strarg cp 0 ;;
  match path with None => kret (-1) | Some path =>
  r <- create cp path T_DIR 0 0 ;;
  match r with
  | None => kret (-1)
  | Some ip => on_fs (iunlockput ip) ;; kret 0
  end end.

Definition sys_chdir (cp : nat) : K (kern B) Z :=
  path <- strarg cp 0 ;;
  match path with None => kret (-1) | Some path =>
  wd <- cwd_of cp ;;
  r <- on_fs (namei fuel wd path) ;;
  match r with
  | None => kret (-1)
  | Some ip =>
      on_fs (ilock fuel ip) ;;
      t <- on_fs (iget_ ip itype) ;;
      if negb (t =? T_DIR) then on_fs (iunlockput ip) ;; kret (-1)
      else
        on_fs (iunlock ip) ;;
        on_fs (iput wd) ;;
        pupd cp (set_cwd (Some ip)) ;;
        kret 0
  end end.

(** The loop of sys_exec over argv, from index [i] of at most 20. *)
Fixpoint exec_args (n : nat) (cp : nat) (uargv : Z) (i : Z) (acc : list bytes)
  : K (kern B) (option (list bytes)) :=
  match n with
  | O => kret None
  | S n' =>
      u <- arg cp (fun p m => fetchint p m (u32 (uargv + 4 * i))) ;;
      match u with
      | None => kret None
      | Some uarg =>
          if uarg =? 0 then kret (Some acc)
          else
            m <- mem ;;
            a <- arg cp (fun p m => fetchstr p m (u32 uarg)) ;;
            match a with
            | None => kret None
            | Some r => exec_args n' cp uargv (i + 1) (acc ++ [str_at m r])
            end
      end
  end.

Definition sys_exec (elf0 : bytes) (cp : nat) : K (kern B) Z :=
  path <- strarg cp 0 ;;
  match path with None => kret (-1) | Some path =>
  uargv <- arg cp (fun p m => argint p m 1) ;;
  match uargv with None => kret (-1) | Some uargv =>
  argv <- exec_args 20 cp (u32 uargv) 0 [] ;;
  match argv with
  | None => kret (-1)
  | Some argv => Exec.exec fuel dev_read elf0 cp path argv
  end end end.

Definition sys_pipe (cp : nat) : K (kern B) Z :=
  fd <- arg cp (fun p m => argptr p m 0 8) ;;
  match fd with None => kret (-1) | Some fd =>
  r <- pipealloc ;;
  match r with None => kret (-1) | Some (rf, wf) =>
    fd0 <- fdalloc cp rf ;;
    if fd0 <? 0 then fileclose rf ;; fileclose wf ;; kret (-1)
    else
      fd1 <- fdalloc cp wf ;;
      if fd1 <? 0 then
        pupd cp (set_ofile (Z.to_nat fd0) None) ;;
        fileclose rf ;;
        fileclose wf ;;
        kret (-1)
      else
        mupd (mem_write fd (le_enc 4 fd0)) ;;
        mupd (mem_write (fd + 4) (le_enc 4 fd1)) ;;
        kret 0
  end end.
End Calls.
End Sysfile.
