(* ===== verification/Console.v ===== *)
(** * Console: console.c, uart.c, kbd.c and kbd.h

    Output goes to the serial port and to the CGA screen, input comes from the
    keyboard or the serial port and is edited in a ring buffer.  The I/O ports
    are events; the screen memory is [crt].  What the code guarantees is in
    [ConsoleSpec]. *)
From S2P Require Import Prelude Kmonad.
From Stdlib Require Import Ascii.
From stdpp Require Import options.

(** ** kbd.h *)

Module Kbd.

Abbreviation KBSTATP := (0x64)%Z (only parsing).
Abbreviation KBS_DIB := (0x01)%Z (only parsing).
Abbreviation KBDATAP := (0x60)%Z (only parsing).

Abbreviation SHIFT := (1)%Z (only parsing).
Abbreviation CTL := (2)%Z (only parsing).
Abbreviation ALT := (4)%Z (only parsing).
Abbreviation CAPSLOCK := (8)%Z (only parsing).
Abbreviation NUMLOCK := (16)%Z (only parsing).
Abbreviation SCROLLLOCK := (32)%Z (only parsing).
Abbreviation E0ESC := (64)%Z (only parsing).

Definition C (x : Z) : Z := x - 64.

(** A table of 256 uchars from its first entries and its designated ones. *)
Definition table (base : list Z) (at_ : list (Z * Z)) : list Z :=
  foldr (fun e t => <[Z.to_nat (fst e) := u8 (snd e)]> t)
    ((u8 <$> base) ++ replicate (256 - length base) 0) at_.

Definition shiftcode : list Z :=
  table [] [(0x1D, CTL); (0x2A, SHIFT); (0x36, SHIFT); (0x38, ALT); (0x9D, CTL); (0xB8, ALT)].

Definition togglecode : list Z :=
  table [] [(0x3A, CAPSLOCK); (0x45, NUMLOCK); (0x46, SCROLLLOCK)].

(** The entries the three maps share, KEY_UP to KEY_DEL. *)
Definition keys : list (Z * Z) :=
  [(0xC8, 0xE2); (0xD0, 0xE3); (0xC9, 0xE6); (0xD1, 0xE7); (0xCB, 0xE4); (0xCD, 0xE5);
   (0x97, 0xE0); (0xCF, 0xE1); (0xD2, 0xE8); (0xD3, 0xE9)].

(** 0x39 is the space bar, 0x3A to 0x46 give nothing, 0x47 to 0x53 the keypad. *)
Definition keypad : list Z :=
  [32] ++ replicate 13 0 ++ chars "789-456+1230.".

Definition normalmap : list Z :=
  table ([0; 0x1B] ++ chars "1234567890-=" ++ [8; 9] ++ chars "qwertyuiop[]" ++ [10; 0]
         ++ chars "asdfghjkl;'`" ++ [0] ++ chars "\zxcvbnm,./" ++ [0; 42; 0] ++ keypad)
    ([(0x9C, 10); (0xB5, 47)] ++ keys).

Definition shiftmap : list Z :=
  table ([0; 27] ++ chars "!@#$%^&*()_+" ++ [8; 9] ++ chars "QWERTYUIOP{}" ++ [10; 0]
         ++ chars "ASDFGHJKL:" ++ [34; 126; 0] ++ chars "|ZXCVBNM<>?" ++ [0; 42; 0] ++ keypad)
    ([(0x9C, 10); (0xB5, 47)] ++ keys).

Definition ctlmap : list Z :=
  table (replicate 16 0 ++ (C <$> chars "QWERTYUIOP") ++ [0; 0; 13; 0] ++ (C <$> chars "ASDFGHJKL")
         ++ [0; 0; 0; 0] ++ (C <$> chars "\ZXCVBNM") ++ [0; 0; C 47; 0; 0])
    ([(0x9C, 13); (0xB5, C 47)] ++ keys).

Definition charcode (i : Z) : list Z :=
  if i =? 0 then normalmap else if i =? 1 then shiftmap else ctlmap.

(** ** kbd.c *)

(** kbdgetc after data is read from the port: the new static shift and the
    value. *)
Definition kbd_decode (shift data : Z) : Z * Z :=
  if data =? 0xE0 then (Z.lor shift E0ESC, 0)
  else if negb (Z.land data 0x80 =? 0) then
    let data := if negb (Z.land shift E0ESC =? 0) then data else Z.land data 0x7F in
    (Z.land shift (Z.lnot (Z.lor (byte_at shiftcode (Z.to_nat data)) E0ESC)), 0)
  else
    let esc := negb (Z.land shift E0ESC =? 0) in
    let data := if esc then Z.lor data 0x80 else data in
    let shift := if esc then Z.land shift (Z.lnot E0ESC) else shift in
    let shift := Z.lor shift (byte_at shiftcode (Z.to_nat data)) in
    let shift := Z.lxor shift (byte_at togglecode (Z.to_nat data)) in
    let c := byte_at (charcode (Z.land shift (Z.lor CTL SHIFT))) (Z.to_nat data) in
    let c := if negb (Z.land shift CAPSLOCK =? 0) then
               if (97 <=? c) && (c <=? 122) then c + (65 - 97)
               else if (65 <=? c) && (c <=? 90) then c + (97 - 65) else c
             else c in
    (shift, c).
End Kbd.

(** ** console.c and uart.c *)

Module Console.

Abbreviation CRTPORT := (0x3d4)%Z (only parsing).
Definition BACKSPACE : Z := 0x100.
Definition INPUT_BUF : Z := 128.
Abbreviation COM1 := (0x3f8)%Z (only parsing).

(** cons.locking, panicked, uart, the screen, input and the static shift. *)
Record input : Type := mkinput { ibuf : bytes; ir : Z; iw : Z; ie : Z }.

Record console : Type := mkconsole {
  locking : bool; panicked : bool; uart : bool; crt : list Z; inp : input; kshift : Z
}.

Definition set_locking b s := mkconsole b (panicked s) (uart s) (crt s) (inp s) (kshift s).
Definition set_panicked b s := mkconsole (locking s) b (uart s) (crt s) (inp s) (kshift s).
Definition set_uart b s := mkconsole (locking s) (panicked s) b (crt s) (inp s) (kshift s).
Definition set_crt t s := mkconsole (locking s) (panicked s) (uart s) t (inp s) (kshift s).
Definition set_inp i s := mkconsole (locking s) (panicked s) (uart s) (crt s) i (kshift s).
Definition set_shift k s := mkconsole (locking s) (panicked s) (uart s) (crt s) (inp s) k.

(** The loop of uartputc; microdelay only spins. *)
Fixpoint uart_wait (n : nat) : K console unit :=
  match n with
  | O => kret tt
  | S n' =>
      st <- inb (COM1 + 5) ;;
      if Z.land st 0x20 =? 0 then uart_wait n' else kret tt
  end.

Definition uartputc (c : Z) : K console unit :=
  u <- gets uart ;;
  if negb u then kret tt
  else uart_wait 128 ;; outb COM1 (u8 c).

Definition uartgetc : K console Z :=
  u <- gets uart ;;
  if negb u then kret (-1)
  else
    st <- inb (COM1 + 5) ;;
    if Z.land st 0x01 =? 0 then kret (-1) else inb COM1.

(** [picenable] and [ioapicenable] are those of Irq; [on] runs code of the console
    in a state that has both. *)
Definition uartinit {S} (on : forall A, K console A -> K S A) (picenable ioapicenable : K S unit) : K S unit :=
  outb (COM1 + 2) 0 ;;
  outb (COM1 + 3) 0x80 ;;
  outb COM1 (115200 / 9600) ;;
  outb (COM1 + 1) 0 ;;
  outb (COM1 + 3) 0x03 ;;
  outb (COM1 + 4) 0 ;;
  outb (COM1 + 1) 0x01 ;;
  st <- inb (COM1 + 5) ;;
  if st =? 0xFF then kret tt
  else
    on _ (modify (set_uart true)) ;;
    inb (COM1 + 2) ;;
    inb COM1 ;;
    picenable ;;
    ioapicenable ;;
    on _ (kforeach (chars "xv6..." ++ [10]) uartputc).

(** crt[i] = v, and crt + 80 moved down to crt. *)
Definition put_crt (i v : Z) (t : list Z) : list Z := <[Z.to_nat i := v]> t.
Definition scroll (pos : Z) (t : list Z) : list Z :=
  let t := splice t 0 (slice t 80 (Z.to_nat (23 * 80))) in
  splice t (Z.to_nat pos) (replicate (Z.to_nat (24 * 80 - pos)) 0).

(** The new cursor position and screen of cgaputc, before the cursor cell. *)
Definition cga_char (c pos : Z) (t : list Z) : Z * list Z :=
  if c =? 10 then (pos + (80 - Z.rem pos 80), t)
  else if c =? BACKSPACE then
    if 0 <? pos then (pos - 1, put_crt (pos - 1) (Z.lor 32 0x0700) t) else (pos, t)
  else (pos + 1, put_crt pos (Z.lor (Z.land c 0xff) 0x0700) t).

Definition cga_scroll (pos : Z) (t : list Z) : Z * list Z :=
  if 24 <=? pos / 80 then (pos - 80, scroll (pos - 80) t) else (pos, t).

Definition cgaputc (c : Z) : K console unit :=
  outb CRTPORT 14 ;;
  hi <- inb (CRTPORT + 1) ;;
  outb CRTPORT 15 ;;
  lo <- inb (CRTPORT + 1) ;;
  t <- gets crt ;;
  let '(pos, t) := cga_char c (Z.lor (Z.shiftl hi 8) lo) t in
  let '(pos, t) := cga_scroll pos t in
  modify (set_crt t) ;;
  outb CRTPORT 14 ;;
  outb (CRTPORT + 1) (u8 (Z.shiftr pos 8)) ;;
  outb CRTPORT 15 ;;
  outb (CRTPORT + 1) (u8 pos) ;;
  modify (fun s => set_crt (put_crt pos (Z.lor 32 0x0700) (crt s)) s).

(** After a panic the processor stops here. *)
Definition consputc (c : Z) : K console unit :=
  p <- gets panicked ;;
  if (p : bool) then diverge
  else uartputc c ;; cgaputc c.

Definition digits : bytes := chars "0123456789abcdef".

(** buf of printint, least significant digit first; a uint has at most 32
    digits. *)
Fixpoint int_digits (n : nat) (x base : Z) : bytes :=
  match n with
  | O => []
  | S n' =>
      byte_at digits (Z.to_nat (x mod base)) ::
      (if x / base =? 0 then [] else int_digits n' (x / base) base)
  end.

(** The characters of printint in the order they are printed. *)
Definition int_chars (xx base : Z) (sgn : bool) : bytes :=
  let neg := sgn && (xx <? 0) in
  let x := if neg then u32 (0 - xx) else u32 xx in
  rev (int_digits 32 x base ++ (if neg then [45] else [])).

Definition printint (xx base : Z) (sgn : bool) : K console unit :=
  kforeach (int_chars xx base sgn) consputc.

(** The characters of cprintf: [argp] gives the argument words and [str] the
    string at a pointer; [pct] is state == '%'. *)
Fixpoint fmt_chars (fmt : bytes) (argp : nat -> Z) (i : nat) (str : Z -> bytes) (pct : bool)
  : bytes :=
  match fmt with
  | [] => []
  | c :: r =>
      if negb pct then
        if c =? 37 then fmt_chars r argp i str true
        else c :: fmt_chars r argp i str false
      else if c =? 100 then
        int_chars (i32 (argp i)) 10 true ++ fmt_chars r argp (S i) str false
      else if (c =? 120) || (c =? 112) then
        int_chars (i32 (argp i)) 16 false ++ fmt_chars r argp (S i) str false
      else if c =? 115 then
        (if argp i =? 0 then chars "(null)" else str (argp i)) ++ fmt_chars r argp (S i) str false
      else if c =? 37 then 37 :: fmt_chars r argp i str false
      else 37 :: c :: fmt_chars r argp i str false
  end.

Definition cprintf (fmt : bytes) (argp : nat -> Z) (str : Z -> bytes) : K console unit :=
  l <- gets locking ;;
  (if (l : bool) then acquire Lk_cons else kret tt) ;;
  kforeach (fmt_chars fmt argp 0 str false) consputc ;;
  (if (l : bool) then release Lk_cons else kret tt).

(** panic: prints with no lock and stops; [cpu] and [pcs] are the processor
    and the call stack. *)
Definition panic_ (s : bytes) (cpu : Z) (pcs : list Z) (str : Z -> bytes) : K console unit :=
  modify (set_locking false) ;;
  cprintf (chars "cpu%d: panic: ") (fun _ => cpu) str ;;
  cprintf s (fun _ => 0) str ;;
  cprintf [10] (fun _ => 0) str ;;
  kforeach pcs (fun pc => cprintf (chars " %p") (fun _ => pc) str) ;;
  modify (set_panicked true) ;;
  diverge.

(** ** Input *)

Definition at_buf (i : Z) (x : input) : Z := byte_at (ibuf x) (Z.to_nat (i mod INPUT_BUF)).

Definition on_inp (f : input -> input) : K console unit :=
  modify (fun s => set_inp (f (inp s)) s).

Definition set_e (v : Z) (x : input) : input := mkinput (ibuf x) (ir x) (iw x) v.
Definition set_w (v : Z) (x : input) : input := mkinput (ibuf x) (ir x) v (ie x).
Definition set_r (v : Z) (x : input) : input := mkinput (ibuf x) v (iw x) (ie x).

(** The loop of C('U'); the line is at most INPUT_BUF long. *)
Fixpoint kill_line (n : nat) : K console unit :=
  match n with
  | O => diverge
  | S n' =>
      x <- gets inp ;;
      if negb (ie x =? iw x) && negb (at_buf (u32 (ie x - 1)) x =? 10) then
        on_inp (set_e (u32 (ie x - 1))) ;;
        consputc BACKSPACE ;;
        kill_line n'
      else kret tt
  end.

(** The char stored in the buffer is signed. *)
Definition schar (c : Z) : Z := (c + 128) mod 256 - 128.

Definition put_key (c : Z) (x : input) : input :=
  mkinput (<[Z.to_nat (ie x mod INPUT_BUF) := schar c]> (ibuf x)) (ir x) (iw x) (u32 (ie x + 1)).

(** One character of consoleintr. *)
Definition console_key (procdump : K console unit) (c : Z) : K console unit :=
  if c =? Kbd.C 80 then procdump
  else if c =? Kbd.C 85 then kill_line (Z.to_nat INPUT_BUF + 1)
  else if c =? Kbd.C 72 then
    x <- gets inp ;;
    if negb (ie x =? iw x) then
      on_inp (set_e (u32 (ie x - 1))) ;; consputc BACKSPACE
    else kret tt
  else
    x <- gets inp ;;
    if negb (c =? 0) && (u32 (ie x - ir x) <? INPUT_BUF) then
      on_inp (put_key c) ;;
      consputc c ;;
      x <- gets inp ;;
      if (c =? 10) || (c =? Kbd.C 68) || (ie x =? u32 (ir x + INPUT_BUF)) then
        on_inp (set_w (ie x)) ;;
        wakeup Ch_input
      else kret tt
    else kret tt.

(** The loop of consoleintr, until getc gives a negative value. *)
Fixpoint intr_loop (fuel : nat) (procdump : K console unit) (getc : K console Z) : K console unit :=
  match fuel with
  | O => diverge
  | S fuel' =>
      c <- getc ;;
      if c <? 0 then kret tt
      else console_key procdump c ;; intr_loop fuel' procdump getc
  end.

Definition consoleintr (fuel : nat) (procdump : K console unit) (getc : K console Z) : K console unit :=
  acquire Lk_input ;;
  intr_loop fuel procdump getc ;;
  release Lk_input.

Definition kbdgetc : K console Z :=
  st <- inb Kbd.KBSTATP ;;
  if Z.land st Kbd.KBS_DIB =? 0 then kret (-1)
  else
    data <- inb Kbd.KBDATAP ;;
    sh <- gets kshift ;;
    let '(sh, c) := Kbd.kbd_decode sh data in
    modify (set_shift sh) ;;
    kret c.

Definition kbdintr (fuel : nat) (procdump : K console unit) : K console unit :=
  consoleintr fuel procdump kbdgetc.

Definition uartintr (fuel : nat) (procdump : K console unit) : K console unit :=
  consoleintr fuel procdump uartgetc.

(** ** The device operations

    consolewrite and consoleread between the iunlock of their first line and
    the ilock of their last. *)

Definition consolewrite_locked (buf : nat -> Z) (n : Z) : K console Z :=
  acquire Lk_cons ;;
  kforeach (seq 0 (Z.to_nat n)) (fun i => consputc (Z.land (buf i) 0xff)) ;;
  release Lk_cons ;;
  kret n.

(** while(input.r == input.w): [false] when the process was killed. *)
Fixpoint read_wait (fuel : nat) : K console bool :=
  match fuel with
  | O => diverge
  | S fuel' =>
      x <- gets inp ;;
      if ir x =? iw x then
        dead <- cp_killed ;;
        if (dead : bool) then release Lk_input ;; kret false
        else sleep Ch_input Lk_input ;; read_wait fuel'
      else kret true
  end.

(** The outer loop with [n] bytes to go of [target]; the value and dst. *)
Fixpoint read_loop (fuel n : nat) (target : Z) (dst : bytes) : K console (Z * bytes) :=
  match n with
  | O => release Lk_input ;; kret (target, dst)
  | S n' =>
      ok <- read_wait fuel ;;
      if negb ok then kret (-1, dst)
      else
        x <- gets inp ;;
        let c := at_buf (ir x) x in
        on_inp (set_r (u32 (ir x + 1))) ;;
        if c =? Kbd.C 68 then
          (if Z.of_nat n <? target then on_inp (fun x => set_r (u32 (ir x - 1)) x) else kret tt) ;;
          release Lk_input ;;
          kret (target - Z.of_nat n, dst)
        else if c =? 10 then
          release Lk_input ;;
          kret (target - Z.of_nat n', dst ++ [u8 c])
        else read_loop fuel n' target (dst ++ [u8 c])
  end.

Definition consoleread_locked (fuel : nat) (n : Z) : K console (Z * bytes) :=
  acquire Lk_input ;;
  if n <=? 0 then release Lk_input ;; kret (0, [])
  else read_loop fuel (Z.to_nat n) n [].
End Console.
