(* ===== verification/ConsoleSpec.v ===== *)
(** * ConsoleSpec: what the console, the keyboard and the screen guarantee

    [KbdSpec] is the keyboard decoder, [PrintSpec] the number printer,
    [ScreenSpec] the CGA screen with its cursor registers, and [InputSpec] the
    line editor: the ring buffer of console.c implements a queue of committed
    characters followed by the line being edited. *)
From S2P Require Import Prelude Kmonad Console.
From stdpp Require Import options.

(** ** Keyboard *)

Module KbdSpec.
Import Kbd.

(** Scan codes of the letters, and their lower case. *)
Definition is_letter (d : Z) : bool :=
  let l := byte_at normalmap (Z.to_nat d) in (97 <=? l) && (l <=? 122).

Definition states : list Z := seqZ 0 128.
Definition codes : list Z := seqZ 0 256.

Definition bit (x f : Z) : bool := negb (Z.land x f =? 0).

Lemma forallb_seqZ (f : Z -> bool) n x :
  forallb f (seqZ 0 n) = true -> 0 <= x < n -> f x = true.
Proof.
  intros H Hx. rewrite forallb_forall in H. apply H, list_elem_of_In, elem_of_seqZ. lia.
Qed.

(** A property of every modifier state and every scan code. *)
Lemma forall_keys (f : Z -> Z -> bool) n :
  forallb (fun sh => forallb (f sh) (seqZ 0 128)) (seqZ 0 n) = true ->
  forall sh d, 0 <= sh < n -> 0 <= d < 128 -> f sh d = true.
Proof.
  intros H sh d Hs Hd. pose proof (forallb_seqZ _ _ _ H Hs) as H'. by apply (forallb_seqZ _ _ _ H').
Qed.

(** What a key press gives for a letter, and what the press and release of a
    key leave of the modifiers. *)
Definition letter_ok (sh d : Z) : bool :=
  let l := byte_at normalmap (Z.to_nat d) in
  if negb (bit sh CTL) && is_letter d then
    bool_decide (kbd_decode sh d = (sh, if xorb (bit sh SHIFT) (bit sh CAPSLOCK) then l - 32 else l))
  else true.

Definition release_ok (sh d : Z) : bool :=
  if d =? 0x60 then true
  else bool_decide (kbd_decode (fst (kbd_decode sh d)) (d + 128) =
    (Z.land (Z.lxor sh (byte_at togglecode (Z.to_nat d)))
       (Z.lnot (byte_at shiftcode (Z.to_nat d))), 0)).

Lemma keys_ok :
  forallb (fun sh => forallb (fun d => letter_ok sh d && release_ok sh d) (seqZ 0 128)) (seqZ 0 64)
  = true.
Proof. vm_compute. reflexivity. Qed.

(** The keyboard decoder: in every modifier state without control, the key
    of a letter gives its upper case exactly when one of shift and caps lock is
    on, and changes no modifier; and pressing and releasing a key (the release
    code of key 0x60 is the escape prefix) leaves the modifiers as they were
    except that a lock key toggles its lock and a modifier key is released. *)
Theorem kbd_decode_spec sh d :
  0 <= sh < 64 -> 0 <= d < 128 ->
  (bit sh CTL = false -> is_letter d = true ->
     kbd_decode sh d = (sh, let l := byte_at normalmap (Z.to_nat d) in
                            if xorb (bit sh SHIFT) (bit sh CAPSLOCK) then l - 32 else l)) /\
  (d <> 0x60 ->
     kbd_decode (fst (kbd_decode sh d)) (d + 128) =
       (Z.land (Z.lxor sh (byte_at togglecode (Z.to_nat d)))
          (Z.lnot (byte_at shiftcode (Z.to_nat d))), 0)).
Proof.
  intros Hs Hd. pose proof (forall_keys _ _ keys_ok sh d Hs Hd) as H.
  apply andb_prop in H as [Hl Hr]. split.
  - intros Hc Hi. unfold letter_ok in Hl. rewrite Hc, Hi in Hl.
    by apply bool_decide_eq_true in Hl.
  - intros Hne. unfold release_ok in Hr. destruct (Z.eqb_spec d 0x60); [done|].
    by apply bool_decide_eq_true in Hr.
Qed.

(** Caps lock on and shift pressed: the key of the letter a gives an a. *)
Lemma kbd_decode_spec_witness : kbd_decode (Z.lor CAPSLOCK SHIFT) 0x1E = (9, 97).
Proof.
  destruct (kbd_decode_spec (Z.lor CAPSLOCK SHIFT) 0x1E) as [H _];
    [by vm_compute|by vm_compute|]. rewrite H by (by vm_compute). by vm_compute.
Defined.
End KbdSpec.

(** ** Numbers *)

Module PrintSpec.
Import Console.

(** The value of a list of digit characters, least significant first. *)
Definition digit_val (c : Z) : Z := if c <? 58 then c - 48 else c - 87.
Fixpoint digits_val (base : Z) (l : bytes) : Z :=
  match l with [] => 0 | c :: r => digit_val c + base * digits_val base r end.

Lemma digit_val_at d : 0 <= d < 16 -> digit_val (byte_at digits (Z.to_nat d)) = d.
Proof.
  intros H. assert (In d (seqZ 0 16)) as Hd by (apply list_elem_of_In, elem_of_seqZ; lia).
  vm_compute in Hd. repeat destruct Hd as [<-|Hd]; try reflexivity. done.
Qed.

Lemma int_digits_spec n x base :
  2 <= base <= 16 -> 0 <= x < base ^ Z.of_nat n -> (0 < n)%nat ->
  digits_val base (int_digits n x base) = x /\
  (1 <= length (int_digits n x base))%nat /\
  (0 < x -> base ^ Z.of_nat (length (int_digits n x base) - 1) <= x).
Proof.
  intros Hb. revert x. induction n as [|n IH]; intros x Hx Hn; [lia|].
  cbn [int_digits digits_val length]. pose proof (Z.mod_pos_bound x base ltac:(lia)).
  rewrite digit_val_at by lia. pose proof (Z.div_mod x base ltac:(lia)).
  destruct (x / base =? 0) eqn:E; bool_prop; cbn [digits_val length].
  - split_and!; [lia|lia|]. change (Z.of_nat (1 - 1)) with 0. lia.
  - assert (0 < x / base) by (pose proof (Z.div_pos x base ltac:(lia) ltac:(lia)); lia).
    rewrite Nat2Z.inj_succ, Z.pow_succ_r in Hx by lia.
    assert (x / base < base ^ Z.of_nat n) by (apply Z.div_lt_upper_bound; lia).
    destruct (IH (x / base)) as (Hv & Hl & Hp); [lia| |].
    { destruct n; [simpl in *; lia|lia]. }
    rewrite Hv. split_and!; [lia|lia|]. intros _. specialize (Hp ltac:(lia)).
    replace (Z.of_nat (S (length (int_digits n (x / base) base)) - 1))
      with (Z.succ (Z.of_nat (length (int_digits n (x / base) base) - 1))) by lia.
    rewrite Z.pow_succ_r by lia. nia.
Qed.

(** printint in base 10 prints the number: an optional minus sign for a
    negative signed argument, then digits that read back as the magnitude, with
    no leading zero, and never more than the 16 characters of its buffer. *)
Theorem printint_spec xx sgn :
  -2147483648 <= xx < 2147483648 ->
  let x := if sgn && (xx <? 0) then - xx else u32 xx in
  exists ds, int_chars xx 10 sgn = (if sgn && (xx <? 0) then [45] else []) ++ rev ds /\
    digits_val 10 ds = x /\ (1 <= length ds <= 10)%nat /\
    (0 < x -> 10 ^ Z.of_nat (length ds - 1) <= x).
Proof.
  intros Hxx x. assert (0 <= x < 4294967296) as Hx.
  { subst x. destruct (sgn && (xx <? 0)) eqn:E; [bool_prop; lia|apply u32_range]. }
  assert (int_chars xx 10 sgn =
          rev (int_digits 32 x 10 ++ (if sgn && (xx <? 0) then [45] else []))) as ->.
  { subst x. unfold int_chars. destruct (sgn && (xx <? 0)) eqn:E; [|done]. bool_prop.
    by rewrite u32_small by lia. }
  exists (int_digits 32 x 10). rewrite rev_app_distr.
  split; [by destruct (sgn && (xx <? 0))|].
  destruct (int_digits_spec 32 x 10) as (Hv & Hl & Hp); [lia| |lia|].
  { split; [lia|]. change (Z.of_nat 32) with 32. lia. }
  split; [done|]. split; [|done]. split; [lia|].
  destruct (decide (length (int_digits 32 x 10) <= 10)%nat) as [|Hgt]; [done|exfalso].
  destruct (decide (0 < x)) as [H0|].
  - specialize (Hp H0).
    assert (10 ^ 10 <= 10 ^ Z.of_nat (length (int_digits 32 x 10) - 1))
      by (apply Z.pow_le_mono_r; lia). lia.
  - assert (x = 0) as E by lia. rewrite E in Hgt. apply Hgt. change (length (int_digits 32 0 10)) with 1%nat. lia.
Qed.

Lemma printint_spec_witness :
  exists ds, int_chars (-2147483648) 10 true = [45] ++ rev ds /\ digits_val 10 ds = 2147483648.
Proof.
  destruct (printint_spec (-2147483648) true) as (ds & H1 & H2 & _); [lia|]. by exists ds.
Defined.
End PrintSpec.

(** ** Execution with ports that answer *)

Module Ports.
Import Console.

Section Tot.
Context {W : Type} (h : handler W console) {O : Type} (obs : W -> O).

(** The ports (other than the serial data port) and the locks answer at once,
    leave the console alone and keep what [obs] sees of the world. *)
Definition answers (e : event) : Prop :=
  match e with
  | EInb p => p <> COM1
  | EOutb _ _ | EAcquire _ | ERelease _ | EWakeup _ => True
  | _ => False
  end.

Definition ports : Prop :=
  forall e w s, answers e -> exists z w', h e w s = Some (z, w', s) /\ obs w' = obs w.

Context (Hports : ports).

(** From [s] the code runs to its end, with [Q] of its value and state. *)
Definition tot {A} (m : K console A) (s : console) (Q : A -> console -> Prop) : Prop :=
  forall w, exists a w' s', run h w (m s) = Done a w' s' /\ obs w' = obs w /\ Q a s'.

Lemma tot_ret {A} (a : A) s (Q : A -> console -> Prop) : Q a s -> tot (kret a) s Q.
Proof using Type. intros H w. by exists a, w, s. Qed.

Lemma tot_gets {A} (f : console -> A) s (Q : A -> console -> Prop) : Q (f s) s -> tot (gets f) s Q.
Proof using Type. intros H w. by exists (f s), w, s. Qed.

Lemma tot_modify f s (Q : unit -> console -> Prop) : Q tt (f s) -> tot (modify f) s Q.
Proof using Type. intros H w. by exists tt, w, (f s). Qed.

Lemma tot_event e s (Q : ans e -> console -> Prop) :
  answers e -> (forall z, Q z s) -> tot (trigger e) s Q.
Proof using Type*.
  intros He HQ w. destruct (Hports e w s He) as (z & w' & E & Hw). exists z, w', s.
  rewrite run_trigger, E. auto.
Qed.

Lemma tot_inb p s (Q : Z -> console -> Prop) : p <> COM1 -> (forall z, Q z s) -> tot (inb p) s Q.
Proof using Type*. exact (tot_event (EInb p) s Q). Qed.

Lemma tot_outb p v s (Q : unit -> console -> Prop) : Q tt s -> tot (outb p v) s Q.
Proof using Type*. intros H. apply (tot_event (EOutb p v) s Q I). by intros []. Qed.

Lemma tot_wakeup c s (Q : unit -> console -> Prop) : Q tt s -> tot (wakeup c) s Q.
Proof using Type*. intros H. apply (tot_event (EWakeup c) s Q I). by intros []. Qed.

Lemma tot_bind {A B} (m : K console A) (f : A -> K console B) s (Q : B -> console -> Prop) :
  tot m s (fun a s' => tot (f a) s' Q) -> tot (kbind m f) s Q.
Proof using Type.
  intros H w. destruct (H w) as (a & w' & s' & E & Hw & H').
  destruct (H' w') as (b & w2 & s2 & E2 & Hw2 & HQ). exists b, w2, s2.
  rewrite run_kbind, E. split; [done|]. split; [congruence|done].
Qed.

Lemma tot_mono {A} (m : K console A) s (P Q : A -> console -> Prop) :
  (forall a s', P a s' -> Q a s') -> tot m s P -> tot m s Q.
Proof using Type.
  intros H Hm w. destruct (Hm w) as (a & w' & s' & E & Hw & HP). exists a, w', s'. auto.
Qed.

Lemma uart_wait_tot n s : tot (uart_wait n) s (fun _ s' => s' = s).
Proof using Type*.
  induction n as [|n IH]; simpl; [by apply tot_ret|].
  apply tot_bind, tot_inb; [done|]. intros st. destruct (_ =? 0); [done|by apply tot_ret].
Qed.

(** Output changes nothing but the screen. *)
Definition on_screen (s s' : console) : Prop := exists t, s' = set_crt t s.

Lemma consputc_tot c s :
  panicked s = false -> tot (consputc c) s (fun _ s' => on_screen s s').
Proof using Type*.
  intros Hp. unfold consputc. apply tot_bind, tot_gets. rewrite Hp. apply tot_bind.
  apply tot_mono with (P := fun _ s' => s' = s).
  - intros _ s' ->. unfold cgaputc.
    do 2 (apply tot_bind, tot_outb; apply tot_bind, tot_inb; [done|intros ?]).
    apply tot_bind, tot_gets.
    destruct (cga_char _ _ _) as [pos t]. destruct (cga_scroll pos t) as [pos' t'].
    apply tot_bind, tot_modify.
    do 4 apply tot_bind, tot_outb. apply tot_modify. by eexists.
  - unfold uartputc. apply tot_bind, tot_gets. destruct (uart s); [|by apply tot_ret].
    apply tot_bind, tot_mono with (P := fun _ s' => s' = s); [|apply uart_wait_tot]. intros _ s' ->.
    by apply tot_outb.
Qed.
End Tot.
End Ports.

(** ** The line editor *)

Module InputSpec.
Import Console Ports.

Definition used (x : input) : nat := Z.to_nat (u32 (iw x - ir x)).
Definition filled (x : input) : nat := Z.to_nat (u32 (ie x - ir x)).

(** The [i]-th character from the read index. *)
Definition cell (x : input) (i : nat) : Z :=
  byte_at (ibuf x) (Z.to_nat ((ir x + Z.of_nat i) mod INPUT_BUF)).

(** The committed characters and the line being edited. *)
Definition committed (x : input) : bytes := cell x <$> seq 0 (used x).
Definition editing (x : input) : bytes := cell x <$> seq (used x) (filled x - used x).

Definition input_ok (x : input) : Prop :=
  length (ibuf x) = 128%nat /\ is_u32 (ir x) /\ is_u32 (iw x) /\ is_u32 (ie x) /\
  (used x <= filled x <= 128)%nat /\ Forall (fun c => c <> 10) (editing x).

(** What a key does to the committed characters and the line. *)
Definition key_spec (c : Z) (a : bytes * bytes) : bytes * bytes :=
  let '(q, l) := a in
  if c =? Kbd.C 85 then (q, [])
  else if c =? Kbd.C 72 then (q, removelast l)
  else if negb (c =? 0) && (length q + length l <? 128)%nat then
    let l' := l ++ [schar c] in
    if (c =? 10) || (c =? Kbd.C 68) || (length q + length l' =? 128)%nat
    then (q ++ l', []) else (q, l')
  else (q, l).

Definition abs (x : input) : bytes * bytes := (committed x, editing x).

Lemma at_buf_cell x i : at_buf (u32 (ir x + Z.of_nat i)) x = cell x i.
Proof. unfold at_buf, cell, u32, INPUT_BUF. f_equal. f_equal. dlia. Qed.

Lemma ie_filled x : input_ok x -> ie x = u32 (ir x + Z.of_nat (filled x)).
Proof. unfold input_ok, is_u32, filled, u32. intros (_ & ? & ? & ? & _). dlia. Qed.

Lemma iw_used x : input_ok x -> iw x = u32 (ir x + Z.of_nat (used x)).
Proof. unfold input_ok, is_u32, used, u32. intros (_ & ? & ? & ? & _). dlia. Qed.

Lemma length_committed x : length (committed x) = used x.
Proof. unfold committed. by rewrite length_fmap, length_seq. Qed.

Lemma length_editing x : length (editing x) = (filled x - used x)%nat.
Proof. unfold editing. by rewrite length_fmap, length_seq. Qed.

Lemma line_empty x : input_ok x -> (ie x =? iw x) = true <-> filled x = used x.
Proof.
  unfold input_ok, is_u32, filled, used, u32. intros (_ & ? & ? & ? & _).
  rewrite Z.eqb_eq. split; intros; dlia.
Qed.

(** Backspace. *)
Lemma set_e_ok x :
  input_ok x -> (used x < filled x)%nat ->
  let x' := set_e (u32 (ie x - 1)) x in
  input_ok x' /\ used x' = used x /\ filled x' = (filled x - 1)%nat /\
  committed x' = committed x /\ editing x' = removelast (editing x).
Proof.
  intros Hok Hlt x'. pose proof (ie_filled x Hok) as He.
  destruct Hok as (Hl & Hr & Hw & Hee & Hu & Hn).
  assert (used x' = used x) as Eu by done.
  assert (filled x' = filled x - 1)%nat as Ef.
  { unfold x', filled, set_e, u32, is_u32 in *. simpl. unfold u32 in *. dlia. }
  assert (editing x' = removelast (editing x)) as Ee.
  { unfold editing. rewrite Eu, Ef.
    replace (filled x - used x)%nat with (S (filled x - 1 - used x)) by lia.
    rewrite seq_S, fmap_app. simpl. by rewrite removelast_last. }
  split; [|done]. split; [done|]. split; [done|]. split; [done|].
  split; [apply u32_range|]. split; [lia|]. rewrite Ee.
  destruct (editing x) as [|c l] using rev_ind; [done|]. rewrite removelast_last.
  by apply Forall_app in Hn as [? _].
Qed.

Lemma last_cell x : input_ok x -> (used x < filled x)%nat -> at_buf (u32 (ie x - 1)) x <> 10.
Proof.
  intros Hok Hlt. pose proof (ie_filled x Hok) as He. destruct Hok as (_ & _ & _ & _ & _ & Hn).
  replace (u32 (ie x - 1)) with (u32 (ir x + Z.of_nat (filled x - 1)))
    by (rewrite He, u32_sub; f_equal; lia).
  rewrite at_buf_cell. rewrite Forall_forall in Hn. apply Hn. unfold editing.
  apply list_elem_of_fmap. exists (filled x - 1)%nat. split; [done|]. apply elem_of_seq. lia.
Qed.

Lemma schar_nl c : 0 <= c < 256 -> schar c = 10 <-> c = 10.
Proof. unfold schar. intros. split; intros; dlia. Qed.

(** A character added at the edit index. *)
Lemma put_key_filled x c :
  input_ok x -> (filled x < 128)%nat ->
  let x' := put_key c x in
  used x' = used x /\ filled x' = S (filled x) /\ committed x' = committed x /\
  editing x' = editing x ++ [schar c].
Proof.
  intros Hok Hlt x'. pose proof (ie_filled x Hok) as He.
  destruct Hok as (Hl & Hr & Hw & Hee & Hu & Hn).
  assert (used x' = used x) as Eu by done.
  assert (filled x' = S (filled x)) as Ef.
  { unfold x', filled, put_key, u32, is_u32 in *. simpl. unfold u32 in *. dlia. }
  assert (forall i, (i < filled x)%nat -> cell x' i = cell x i) as Hc.
  { intros i Hi. unfold cell, x', put_key. simpl. apply byte_at_insert_ne.
    rewrite He. clear - Hi Hlt. unfold u32, INPUT_BUF. dlia. }
  assert (cell x' (filled x) = schar c) as Hlast.
  { unfold cell, x', put_key. simpl.
    replace ((ir x + Z.of_nat (filled x)) mod INPUT_BUF) with (ie x mod INPUT_BUF)
      by (rewrite He; clear; unfold u32, INPUT_BUF; dlia).
    apply byte_at_insert_eq. rewrite Hl. unfold INPUT_BUF. clear. dlia. }
  split; [done|]. split; [done|]. unfold committed, editing. rewrite Eu, Ef. split.
  - apply list_fmap_ext. intros i j Hj. apply lookup_seq in Hj as [-> Hj]. apply Hc. lia.
  - replace (S (filled x) - used x)%nat with (S (filled x - used x)) by lia.
    rewrite seq_S, fmap_app. simpl. replace (used x + (filled x - used x))%nat with (filled x) by lia.
    rewrite Hlast. f_equal.
    apply list_fmap_ext. intros i j Hj. apply lookup_seq in Hj as [-> Hj]. apply Hc. lia.
Qed.

Lemma put_key_ok x c :
  input_ok x -> (filled x < 128)%nat -> 0 <= c < 256 -> c <> 10 -> input_ok (put_key c x).
Proof.
  intros Hok Hlt Hc Hne. destruct (put_key_filled x c Hok Hlt) as (Eu & Ef & _ & Ee).
  destruct Hok as (Hl & Hr & Hw & Hee & Hu & Hn).
  split; [simpl; by rewrite length_insert|]. split; [done|]. split; [done|].
  split; [apply u32_range|]. rewrite Eu, Ef, Ee. split; [lia|].
  apply Forall_app. split; [done|]. constructor; [by rewrite schar_nl|done].
Qed.

(** Committing the line. *)
Lemma commit_ok x c :
  input_ok x -> (filled x < 128)%nat ->
  let x' := set_w (ie (put_key c x)) (put_key c x) in
  input_ok x' /\ abs x' = (committed x ++ editing x ++ [schar c], []).
Proof.
  intros Hok Hlt x'. destruct (put_key_filled x c Hok Hlt) as (Eu & Ef & Ec & Ee).
  assert (used x' = S (filled x)) as Eu' by (by rewrite <- Ef).
  assert (filled x' = S (filled x)) as Ef' by (by rewrite <- Ef).
  destruct Hok as (Hl & Hr & Hw & Hee & Hu & Hn).
  assert (editing x' = []) as E0 by (unfold editing; by rewrite Eu', Ef', Nat.sub_diag).
  split.
  - split; [simpl; by rewrite length_insert|]. split; [done|]. split; [apply u32_range|].
    split; [apply u32_range|]. rewrite Eu', Ef', E0. split; [lia|constructor].
  - unfold abs. rewrite E0. f_equal. rewrite <- Ec, <- Ee. unfold committed, editing.
    rewrite Eu', Eu, Ef. replace (S (filled x)) with (used x + (S (filled x) - used x))%nat by lia.
    rewrite seq_app, fmap_app. simpl. f_equal. by rewrite Nat.add_sub_swap, Nat.sub_diag by lia.
Qed.

Section Keys.
Context {W : Type} (h : handler W console) {O : Type} (obs : W -> O).
Context (Hports : ports h obs) (procdump : K console unit) (u : bool).
Abbreviation tot := (tot h obs).

Definition live (s : console) : Prop := panicked s = false /\ uart s = u.

(** The console can print and its input is well formed, with contents [a]. *)
Definition holds (a : bytes * bytes) (s : console) : Prop :=
  live s /\ input_ok (inp s) /\ abs (inp s) = a.

(** A change of the input followed by an echo. *)
Lemma echo_tot f c s (Q : unit -> console -> Prop) :
  live s ->
  (forall s', live s' -> inp s' = f (inp s) -> Q tt s') ->
  tot (on_inp f ;; consputc c) s Q.
Proof using Type*.
  intros Hp HQ. apply tot_bind, tot_modify.
  eapply tot_mono; [|apply consputc_tot; [done|apply Hp]]. intros [] s' [t ->]. by apply HQ.
Qed.

Lemma echo_tot_bind {A} f c (k : K console A) s (Q : A -> console -> Prop) :
  live s ->
  (forall s', live s' -> inp s' = f (inp s) -> tot k s' Q) ->
  tot (on_inp f ;; consputc c ;; k) s Q.
Proof using Type*.
  intros Hp HQ. apply tot_bind, tot_modify, tot_bind.
  eapply tot_mono; [|apply consputc_tot; [done|apply Hp]]. intros [] s' [t ->]. by apply HQ.
Qed.

Lemma holds_facts q l s :
  holds (q, l) s ->
  committed (inp s) = q /\ editing (inp s) = l /\ length q = used (inp s) /\
  length l = (filled (inp s) - used (inp s))%nat /\ (used (inp s) <= filled (inp s) <= 128)%nat.
Proof.
  intros (_ & Hok & Ha). injection Ha as <- <-. rewrite length_committed, length_editing.
  split_and!; try done; apply Hok.
Qed.

(** The test for an empty line. *)
Lemma line_cases q l s :
  holds (q, l) s ->
  ((ie (inp s) =? iw (inp s)) = true /\ l = []) \/
  ((ie (inp s) =? iw (inp s)) = false /\ (used (inp s) < filled (inp s))%nat /\
   (length (removelast l) < length l)%nat).
Proof.
  intros Hh. destruct (holds_facts _ _ _ Hh) as (_ & _ & _ & Hl & Hu).
  destruct Hh as (_ & Hok & _). pose proof (line_empty (inp s) Hok) as Hle.
  destruct (ie (inp s) =? iw (inp s)) eqn:E; [left|right].
  - split; [done|]. destruct Hle as [Hle _]. specialize (Hle eq_refl). destruct l; [done|simpl in Hl; lia].
  - split; [done|]. assert (filled (inp s) <> used (inp s)) by (intros Hx; by apply Hle in Hx).
    split; [lia|]. destruct l as [|c l] using rev_ind; [simpl in Hl; lia|].
    rewrite removelast_last, length_app. simpl. lia.
Qed.

Lemma holds_erase q l s s' :
  holds (q, l) s -> (used (inp s) < filled (inp s))%nat -> live s' ->
  inp s' = set_e (u32 (ie (inp s) - 1)) (inp s) -> holds (q, removelast l) s'.
Proof.
  intros (_ & Hok & Ha) Hlt Hp Hi. destruct (set_e_ok _ Hok Hlt) as (Hok' & _ & _ & Ec & Ee).
  split; [done|]. rewrite Hi. split; [done|]. unfold abs in *. rewrite Ec, Ee. congruence.
Qed.

Lemma kill_line_tot n s q l :
  holds (q, l) s -> (length l < n)%nat -> tot (kill_line n) s (fun _ => holds (q, [])).
Proof using Type*.
  revert s l. induction n as [|n IH]; intros s l Hh Hn; [lia|].
  cbn [kill_line]. apply tot_bind, tot_gets.
  destruct (line_cases _ _ _ Hh) as [[-> ->]|(-> & Hlt & Hlen)]; [by apply tot_ret|].
  pose proof Hh as (Hp & Hok & _). pose proof (last_cell _ Hok Hlt) as Hnl.
  apply Z.eqb_neq in Hnl. rewrite Hnl. simpl.
  apply echo_tot_bind; [done|]. intros s' Hp' Hi.
  apply (IH s' (removelast l)); [by apply (holds_erase q l s)|lia].
Qed.

(** An ordinary character. *)
Lemma key_insert_tot c s q l :
  0 <= c < 256 -> holds (q, l) s -> (filled (inp s) < 128)%nat ->
  tot (on_inp (put_key c) ;; consputc c ;;
         x <- gets inp ;;
         if (c =? 10) || (c =? Kbd.C 68) || (ie x =? u32 (ir x + INPUT_BUF)) then
           on_inp (set_w (ie x)) ;; wakeup Ch_input
         else kret tt) s
    (fun _ => holds (let l' := l ++ [schar c] in
       if (c =? 10) || (c =? Kbd.C 68) || (length q + length l' =? 128)%nat
       then (q ++ l', []) else (q, l'))).
Proof using Type*.
  intros Hc Hh Hlt. destruct (holds_facts _ _ _ Hh) as (Hq & Hl & Hlq & Hll & Hu).
  destruct Hh as (Hp & Hok & _).
  destruct (put_key_filled (inp s) c Hok Hlt) as (Eu & Ef & Ec & Ee).
  apply echo_tot_bind; [done|]. intros s' Hp' Hi. apply tot_bind, tot_gets. rewrite Hi.
  assert ((ie (put_key c (inp s)) =? u32 (ir (put_key c (inp s)) + INPUT_BUF)) =
          (length q + length (l ++ [schar c]) =? 128)%nat) as ->.
  { rewrite length_app. simpl length. rewrite Hlq, Hll.
    apply eq_bool_prop_intro. rewrite !Is_true_true, Z.eqb_eq, Nat.eqb_eq.
    assert (is_u32 (ir (inp s))) as Hr by apply Hok. clear - Ef Hlt Hr Hu. revert Ef.
    unfold filled, put_key, is_u32, INPUT_BUF, u32 in *. simpl. unfold u32. intros. split; intros; dlia. }
  cbv zeta. destruct ((c =? 10) || (c =? Kbd.C 68) || _) eqn:E4.
  - apply tot_bind, tot_modify, tot_wakeup; [done|]. destruct (commit_ok (inp s) c Hok Hlt) as [Hok' Ha'].
    split; [done|]. cbn [inp set_inp]. rewrite Hi. split; [done|].
    rewrite Ha'. by rewrite Hq, Hl, (assoc_L (++)).
  - bool_prop. apply tot_ret. split; [done|]. rewrite Hi. split; [by apply put_key_ok|].
    unfold abs. by rewrite Ec, Ee, Hq, Hl.
Qed.

Lemma key_tot c s a :
  0 <= c < 256 -> c <> Kbd.C 80 -> holds a s ->
  tot (console_key procdump c) s (fun _ => holds (key_spec c a)).
Proof using Type*.
  destruct a as [q l]. intros Hc Hd Hh. unfold console_key, key_spec.
  destruct (c =? Kbd.C 80) eqn:E0; bool_prop; [done|].
  destruct (holds_facts _ _ _ Hh) as (Hq & Hl & Hlq & Hll & Hu).
  destruct (c =? Kbd.C 85) eqn:E1.
  { apply kill_line_tot with l; [done|change (Z.to_nat INPUT_BUF + 1)%nat with 129%nat; lia]. }
  destruct (c =? Kbd.C 72) eqn:E2; apply tot_bind, tot_gets.
  - destruct (line_cases _ _ _ Hh) as [[-> ->]|(-> & Hlt & Hlen)]; [by apply tot_ret|].
    apply echo_tot; [apply Hh|]. intros s' Hp' Hi. by apply (holds_erase q l s).
  - assert ((u32 (ie (inp s) - ir (inp s)) <? INPUT_BUF) = (length q + length l <? 128)%nat) as ->.
    { rewrite Hlq, Hll. pose proof (u32_range (ie (inp s) - ir (inp s))). unfold filled, INPUT_BUF in *.
      apply eq_bool_prop_intro. rewrite !Is_true_true, Z.ltb_lt, Nat.ltb_lt. lia. }
    destruct (negb (c =? 0) && (length q + length l <? 128)%nat) eqn:E3; [|by apply tot_ret].
    apply andb_prop in E3 as [_ E3]. apply Nat.ltb_lt in E3. apply key_insert_tot; [done|done|lia].
Qed.
End Keys.

(** ** A serial line

    A world with the characters that wait on the serial port: bit 0 of the
    line status says whether there is one, reading the data port takes it; bit
    5 says that output is possible.  The other ports read as zero. *)
Definition serial : handler bytes console := fun e w s =>
  match e as e0 return option (ans e0 * bytes * console) with
  | EInb p =>
      if p =? COM1 then Some (hd 0 w, tl w, s)
      else if p =? COM1 + 5 then Some (match w with [] => 0x20 | _ => 0x21 end, w, s)
      else Some (0, w, s)
  | EOutb _ _ | EAcquire _ | ERelease _ | EWakeup _ => Some (tt, w, s)
  | _ => None
  end.

Lemma serial_ports : ports serial id.
Proof.
  intros [] w s He; try done; [by exists tt, w..| |by exists tt, w]. unfold serial. destruct (Z.eqb_spec port COM1); [done|].
  destruct (port =? COM1 + 5); by eexists _, w.
Qed.

Lemma uartgetc_serial w s :
  uart s = true -> run serial w (uartgetc s) = Done (hd (-1) w) (tl w) s.
Proof. intros Hu. unfold uartgetc, kbind, gets. simpl. rewrite Hu. by destruct w. Qed.

Lemma intr_loop_serial procdump w s a :
  holds true a s -> Forall (fun c => 0 <= c < 256 /\ c <> Kbd.C 80) w ->
  exists s', run serial w (intr_loop (S (length w)) procdump uartgetc s) = Done tt [] s' /\
    holds true (foldl (fun a c => key_spec c a) a w) s'.
Proof.
  revert s a. induction w as [|c w IH]; intros s a Hh Hw; cbn [intr_loop length].
  - pose proof Hh as ((_ & Hu) & _). krun. rewrite uartgetc_serial by done. by exists s.
  - pose proof Hh as ((_ & Hu) & _). inversion Hw as [|? ? [Hc Hd] Hw']; subst.
    destruct (key_tot serial id serial_ports procdump true c s a Hc Hd Hh w) as ([] & w' & s1 & E & Ew & H1).
    simpl in Ew. subst w'. destruct (IH s1 _ H1 Hw') as (s2 & E2 & H2). exists s2. split; [|done].
    krun. rewrite uartgetc_serial by done. cbn [hd tl].
    krun. assert (c <? 0 = false) as -> by (apply Z.ltb_ge; lia). krun.
    rewrite E. krun. rewrite <- E2. cbn [intr_loop]. by krun.
Qed.

(** C28. The line editor: an interrupt of the serial port with the characters
    [w] waiting takes them all, and the ring buffer of console.c goes from the
    contents [a] (committed characters and edited line) to the ones that
    applying the keys one after the other gives: erase and kill act on the
    current line only, a line is committed by its newline, by control-D or when
    the buffer is full, and characters that do not fit are dropped. *)
Theorem uartintr_edits procdump w s a :
  holds true a s -> Forall (fun c => 0 <= c < 256 /\ c <> Kbd.C 80) w ->
  exists s', run serial w (uartintr (S (length w)) procdump s) = Done tt [] s' /\
    holds true (foldl (fun a c => key_spec c a) a w) s'.
Proof.
  intros Hh Hw. destruct (intr_loop_serial procdump w s a Hh Hw) as (s' & E & H').
  exists s'. split; [|done]. unfold uartintr, consoleintr. krun.
  change (run serial w (acquire Lk_input s)) with (Done (W := bytes) tt w s). krun.
  rewrite E. krun. done.
Qed.

Definition console0 : console :=
  mkconsole true false true (replicate 2000 0) (mkinput (replicate 128 0) 0 0 0) 0.

Lemma console0_ok : holds true ([], []) console0.
Proof.
  split; [done|]. split; [|done]. unfold input_ok, is_u32.
  change (used (inp console0)) with 0%nat. change (filled (inp console0)) with 0%nat.
  change (editing (inp console0)) with (@nil Z). simpl. split_and!; (done || lia || constructor).
Qed.

(** h, i, erase, o, newline. *)
Lemma uartintr_edits_witness :
  exists s', run serial [104; 105; 8; 111; 10] (uartintr 6 (kret tt) console0) = Done tt [] s' /\
    abs (inp s') = ([104; 111; 10], []).
Proof.
  destruct (uartintr_edits (kret tt) [104; 105; 8; 111; 10] console0 ([], [])) as (s' & E & _ & _ & H);
    [exact console0_ok|repeat constructor; done|]. by exists s'.
Defined.

(** ** Reading *)

(** The characters a read of [n] takes, [first] as long as none was taken;
    [None] when it has to wait for more. *)
Fixpoint read_spec (n : nat) (first : bool) (q : bytes) : option (bytes * bytes) :=
  match n, q with
  | O, _ => Some ([], q)
  | _, [] => None
  | S n', c :: r =>
      if c =? Kbd.C 68 then Some ([], if first then r else q)
      else if c =? 10 then Some ([c], r)
      else match read_spec n' false r with
           | Some (d, q') => Some (c :: d, q')
           | None => None
           end
  end.

(** Taking the first committed character. *)
Lemma set_r_ok x c q :
  input_ok x -> committed x = c :: q ->
  let x' := set_r (u32 (ir x + 1)) x in
  input_ok x' /\ at_buf (ir x) x = c /\ committed x' = q /\ editing x' = editing x.
Proof.
  intros Hok Hc x'. assert (0 < used x)%nat as Hu0.
  { rewrite <- length_committed, Hc. simpl. lia. }
  pose proof Hok as (Hl & Hr & Hw & Hee & Hu & Hn).
  assert (S (used x') = used x) as Eu.
  { clear - Hr Hw Hu0. unfold x', used, set_r, is_u32, u32 in *. simpl. unfold u32. dlia. }
  assert (S (filled x') = filled x) as Ef.
  { clear - Hr Hee Hu0 Hu. unfold x', used, filled, set_r, is_u32, u32 in *. simpl. unfold u32. dlia. }
  assert (forall i, cell x' i = cell x (S i)) as Hcell.
  { intros i. unfold cell, x'. simpl. do 2 f_equal. clear. unfold u32, INPUT_BUF. dlia. }
  assert (editing x' = editing x) as Ee.
  { unfold editing. rewrite <- Eu, <- Ef. replace (S (filled x') - S (used x'))%nat
      with (filled x' - used x')%nat by lia. rewrite <- fmap_S_seq, <- list_fmap_compose.
    apply list_fmap_ext. intros i j _. apply Hcell. }
  unfold committed in Hc. rewrite <- Eu in Hc. simpl in Hc.
  injection Hc as Hc0 Hcq. split_and!.
  - split; [done|]. split; [apply u32_range|]. split; [done|]. split; [done|].
    rewrite Ee. split; [lia|done].
  - rewrite <- Hc0, <- at_buf_cell, Z.add_0_r. by rewrite u32_small.
  - rewrite <- Hcq, <- fmap_S_seq, <- list_fmap_compose. apply list_fmap_ext. intros i j _. apply Hcell.
  - done.
Qed.

Lemma unread x : is_u32 (ir x) -> set_r (u32 (ir (set_r (u32 (ir x + 1)) x) - 1)) (set_r (u32 (ir x + 1)) x) = x.
Proof.
  destruct x as [b r w e]. unfold is_u32, set_r. simpl. intros.
  rewrite u32_sub, Z.add_simpl_r. by rewrite u32_small.
Qed.

Lemma read_wait_ready fuel s c q :
  input_ok (inp s) -> committed (inp s) = c :: q -> exec (read_wait (S fuel)) s = Done true tt s.
Proof.
  intros Hok Hc. cbn [read_wait]. kexec.
  assert (ir (inp s) =? iw (inp s) = false) as ->; [|by kexec].
  apply Z.eqb_neq. intros E. apply (f_equal length) in Hc. rewrite length_committed in Hc.
  unfold used in Hc. by rewrite E, Z.sub_diag in Hc.
Qed.

Lemma read_loop_run u fuel n first q l d q' target dst s :
  holds u (q, l) s -> read_spec n first q = Some (d, q') ->
  (if first then target = Z.of_nat n else Z.of_nat n < target) ->
  exists s', exec (read_loop (S fuel) n target dst) s =
               Done (target - Z.of_nat n + Z.of_nat (length d), dst ++ (u8 <$> d)) tt s' /\
             holds u (q', l) s'.
Proof.
  revert first q d dst s. induction n as [|n IH]; intros first q d dst s Hh Hr Ht.
  { destruct q; simpl in Hr; simplify_eq; (exists s; split; [|done]); cbn [read_loop]; kexec;
      rewrite app_nil_r, !Z.sub_0_r; simpl; by rewrite Z.add_0_r. }
  destruct q as [|c q]; [done|]. pose proof Hh as (Hlv & Hok & Ha). injection Ha as Hc He.
  destruct (set_r_ok (inp s) c q Hok Hc) as (Hok' & Hat & Hc' & He').
  assert (holds u (q, l) (set_inp (set_r (u32 (ir (inp s) + 1)) (inp s)) s)) as Hh'.
  { split; [done|]. split; [done|]. unfold abs. cbn [inp set_inp]. by rewrite Hc', He', He. }
  cbn [read_loop]. kexec. rewrite (read_wait_ready fuel s c q) by done. kexec.
  cbn [negb]. kexec. rewrite Hat. unfold on_inp. kexec. cbn [read_spec] in Hr.
  destruct (c =? Kbd.C 68) eqn:E1; [|destruct (c =? 10) eqn:E2].
  - simplify_eq. destruct first.
    + assert (Z.of_nat (S n) <? target = false) as -> by (apply Z.ltb_ge; lia). kexec.
      eexists. rewrite app_nil_r, Z.add_0_r. split; [done|exact Hh'].
    + assert (Z.of_nat (S n) <? target = true) as -> by (apply Z.ltb_lt; lia). kexec.
      eexists. rewrite app_nil_r, Z.add_0_r. split; [done|].
      cbn [inp set_inp]. rewrite unread by apply Hok. by destruct s.
  - simplify_eq. kexec. eexists. split; [|exact Hh']. f_equal. f_equal. simpl length. lia.
  - destruct (read_spec n false q) as [[d' q'']|] eqn:E3; [|done]. injection Hr as <- <-.
    destruct (IH false q d' (dst ++ [u8 c]) _ Hh' E3) as (s' & E & H'); [destruct first; lia|].
    exists s'. split; [|done]. rewrite E. f_equal.
    rewrite fmap_cons, <- app_assoc. cbn [length]. f_equal. lia.
Qed.

(** A read of the console takes committed characters only: at most [n], up
    to and including the first newline, or up to a control-D, which is consumed
    when nothing was read (end of file) and kept for the next read otherwise;
    the line being edited is untouched.  (When the committed characters do not
    determine the result the read sleeps.) *)
Theorem consoleread_spec u fuel n q l d q' s :
  holds u (q, l) s -> (0 < n)%nat -> read_spec n true q = Some (d, q') ->
  exists s', exec (consoleread_locked (S fuel) (Z.of_nat n)) s =
               Done (Z.of_nat (length d), u8 <$> d) tt s' /\
             holds u (q', l) s'.
Proof.
  intros Hh Hn Hr.
  destruct (read_loop_run u fuel n true q l d q' (Z.of_nat n) [] s Hh Hr eq_refl) as (s' & E & H').
  exists s'. split; [|done]. unfold consoleread_locked. kexec.
  assert (Z.of_nat n <=? 0 = false) as -> by (apply Z.leb_gt; lia).
  by rewrite Nat2Z.id, E, Z.sub_diag.
Qed.

Definition console1 : console :=
  set_inp (mkinput ([104; 111; 10; 4] ++ replicate 124 0) 0 4 4) console0.

Lemma consoleread_spec_witness :
  exists s', exec (consoleread_locked 1 100) console1 = Done (3, [104; 111; 10]) tt s' /\
    abs (inp s') = ([4], []).
Proof.
  destruct (consoleread_spec true 0 100 [104; 111; 10; 4] [] [104; 111; 10] [4] console1)
    as (s' & E & _ & _ & H).
  - split; [done|]. split; [|done]. unfold input_ok, is_u32.
    change (used (inp console1)) with 4%nat. change (filled (inp console1)) with 4%nat.
    change (editing (inp console1)) with (@nil Z). simpl. split_and!; (done || lia || constructor).
  - lia.
  - done.
  - by exists s'.
Defined.
End InputSpec.

(** ** The screen *)

Module ScreenSpec.
Import Console.

(** The cursor registers of the CGA controller: the index written to CRTPORT
    selects register 14 (high byte) or 15 (low byte) of the data port. *)
Record crtc : Type := mkcrtc { idx : Z; hi : Z; lo : Z }.

Definition cursor (w : crtc) : Z := 256 * hi w + lo w.

Definition cga : handler crtc console := fun e w s =>
  match e as e0 return option (ans e0 * crtc * console) with
  | EInb p => if p =? CRTPORT + 1 then Some (if idx w =? 14 then hi w else lo w, w, s) else None
  | EOutb p v =>
      if p =? CRTPORT then Some (tt, mkcrtc v (hi w) (lo w), s)
      else if p =? CRTPORT + 1 then
        Some (tt, if idx w =? 14 then mkcrtc 14 v (lo w) else mkcrtc (idx w) (hi w) v, s)
      else None
  | _ => None
  end.

(** The screen and cursor after a character: the visible effect of cgaputc. *)
Definition cga_step (c pos : Z) (t : list Z) : Z * list Z :=
  let '(pos, t) := cga_char c pos t in
  let '(pos, t) := cga_scroll pos t in
  (pos, put_crt pos (Z.lor 32 0x0700) t).

(** The first 24 rows hold all writes. *)
Lemma cga_step_bounds c pos t :
  0 <= pos < 1920 -> length t = 2000%nat ->
  let '(pos', t') := cga_step c pos t in
  0 <= pos' < 1920 /\ length t' = 2000%nat /\
  forall i, (1920 <= i)%nat -> t' !! i = t !! i.
Proof.
  intros Hp Ht. unfold cga_step.
  assert (forall i v (l : list Z), 0 <= i < 1920 ->
    length (put_crt i v l) = length l /\
    forall j, (1920 <= j)%nat -> put_crt i v l !! j = l !! j) as Hput.
  { intros i v l Hi. unfold put_crt. split; [by rewrite length_insert|].
    intros j Hj. apply list_lookup_insert_ne. lia. }
  destruct (cga_char c pos t) as [p1 t1] eqn:E1.
  assert (0 <= p1 <= 1920 /\ length t1 = 2000%nat /\
          forall i, (1920 <= i)%nat -> t1 !! i = t !! i) as (Hp1 & Ht1 & Hs1).
  { unfold cga_char in E1. destruct (c =? 10).
    - simplify_eq. rewrite Z.rem_mod_nonneg by lia. split; [dlia|done].
    - destruct (c =? BACKSPACE); [destruct (0 <? pos) eqn:E; bool_prop|]; simplify_eq;
        try (destruct (Hput (pos - 1) (Z.lor 32 0x0700) t) as [-> H]; [lia|]);
        try (destruct (Hput pos (Z.lor (Z.land c 0xff) 0x0700) t) as [-> H]; [lia|]);
        (split; [lia|done]). }
  destruct (cga_scroll p1 t1) as [p2 t2] eqn:E2.
  assert (0 <= p2 < 1920 /\ length t2 = 2000%nat /\
          forall i, (1920 <= i)%nat -> t2 !! i = t1 !! i) as (Hp2 & Ht2 & Hs2).
  { unfold cga_scroll in E2. destruct (24 <=? p1 / 80) eqn:E; bool_prop; simplify_eq.
    - split; [dlia|]. unfold scroll.
      set (row := slice t1 80 (Z.to_nat (23 * 80))).
      assert (length row = 1840%nat) as Hr by (apply length_slice; lia).
      assert (length (splice t1 0 row) = 2000%nat) as Hs by (rewrite length_splice; lia).
      assert (1840 <= p1 - 80) by dlia.
      split; [rewrite length_splice; rewrite ?length_replicate; lia|].
      intros i Hi. rewrite lookup_splice_out by (rewrite length_replicate; lia).
      apply lookup_splice_out; lia.
    - split; [dlia|done]. }
  destruct (Hput p2 (Z.lor 32 0x0700) t2) as [-> H]; [lia|].
  split; [done|]. split; [done|]. intros i Hi. by rewrite H, Hs2, Hs1.
Qed.

(** The screen driver: with the cursor inside the first 24 rows, cgaputc
    draws the character, moves the cursor registers to the new position
    (which is inside the first 24 rows again, after scrolling if necessary) and
    marks it; it writes to no cell of the screen memory from row 24 on. *)
Theorem cgaputc_spec c w s :
  is_byte (hi w) -> is_byte (lo w) -> cursor w < 1920 -> length (crt s) = 2000%nat ->
  let '(pos, t) := cga_step c (cursor w) (crt s) in
  exists w', run cga w (cgaputc c s) = Done tt w' (set_crt t s) /\ cursor w' = pos /\
    0 <= pos < 1920 /\ length t = 2000%nat /\ forall i, (1920 <= i)%nat -> t !! i = crt s !! i.
Proof.
  intros Hh Hl Hw Ht. unfold is_byte, cursor in *.
  pose proof (cga_step_bounds c (256 * hi w + lo w) (crt s) ltac:(lia) Ht) as Hb.
  destruct (cga_step c (256 * hi w + lo w) (crt s)) as [pos t] eqn:E.
  destruct Hb as (Hp & Hlen & Hi). exists (mkcrtc 15 (u8 (Z.shiftr pos 8)) (u8 pos)).
  split; [|split; [|done]].
  - unfold cga_step in E. unfold cgaputc, kbind, modify, gets, outb, inb, trigger. simpl.
    change (Z.lor (Z.shiftl (hi w) 8) (lo w)) with (Z.lor (Z.shiftl (hi w) 8) (lo w)).
    rewrite lor_shiftl by (change (2 ^ 8) with 256; lia). change (2 ^ 8) with 256.
    destruct (cga_char c (256 * hi w + lo w) (crt s)) as [p1 t1].
    destruct (cga_scroll p1 t1) as [p2 t2]. injection E as <- <-. by destruct s.
  - simpl. unfold u8. rewrite Z.shiftr_div_pow2 by lia. change (2 ^ 8) with 256. dlia.
Qed.

(** A newline on the last row scrolls. *)
Lemma cgaputc_spec_witness :
  exists w', run cga (mkcrtc 0 7 100) (cgaputc 10 InputSpec.console0) =
    Done tt w' (set_crt (cga_step 10 1892 (replicate 2000 0)).2 InputSpec.console0) /\ cursor w' = 1840.
Proof.
  pose proof (cgaputc_spec 10 (mkcrtc 0 7 100) InputSpec.console0) as H.
  change (cga_step 10 (cursor (mkcrtc 0 7 100)) (crt InputSpec.console0)) with
    (cga_step 10 1892 (replicate 2000 0)) in H.
  destruct (cga_step 10 1892 (replicate 2000 0)) as [pos t] eqn:E.
  destruct H as (w' & E' & Hc & _); [by vm_compute..|by vm_compute|done|].
  exists w'. split; [done|]. rewrite Hc. by vm_compute in E; simplify_eq.
Defined.
End ScreenSpec.
