(* ===== verification/Irq.v ===== *)
(** * Irq: the interrupt controllers and the processors
      (lapic.c, ioapic.c, picirq.c, timer.c, mp.c, mp.h)

    The local APIC and the I/O APIC are memory-mapped devices, the 8259A and
    the timer are behind I/O ports; the MP tables are in the memory that the
    BIOS leaves. *)
From S2P Require Import Prelude Kmonad Cstring Console.
From stdpp Require Import options.

Module Irq.

Definition NCPU : nat := 8.
Abbreviation IRQ_OFFSET := (32)%Z (only parsing).
Abbreviation IRQ_TIMER := (0)%Z (only parsing).
Abbreviation IRQ_KBD := (1)%Z (only parsing).
Abbreviation IRQ_COM1 := (4)%Z (only parsing).
Abbreviation IRQ_IDE := (14)%Z (only parsing).
Abbreviation IRQ_ERROR := (19)%Z (only parsing).
Abbreviation IRQ_SPURIOUS := (31)%Z (only parsing).

(** The variables of the interrupt code: lapic, ismp, ioapicid, ioapic,
    irqmask, the apicid fields of cpus, ncpu, bcpu; %eflags of this processor
    and the static counter of cpu(). *)
Record irq : Type := mkirq {
  lapic : Z; ismp : bool; ioapicid : Z; ioapic : Z; irqmask : Z; cpus : list Z; ncpu : nat;
  bcpu : nat; ieflags : Z; ncalls : Z
}.

Definition set_lapic v s := mkirq v (ismp s) (ioapicid s) (ioapic s) (irqmask s) (cpus s) (ncpu s)
  (bcpu s) (ieflags s) (ncalls s).
Definition set_ismp v s := mkirq (lapic s) v (ioapicid s) (ioapic s) (irqmask s) (cpus s) (ncpu s)
  (bcpu s) (ieflags s) (ncalls s).
Definition set_ioapicid v s := mkirq (lapic s) (ismp s) v (ioapic s) (irqmask s) (cpus s) (ncpu s)
  (bcpu s) (ieflags s) (ncalls s).
Definition set_ioapic v s := mkirq (lapic s) (ismp s) (ioapicid s) v (irqmask s) (cpus s) (ncpu s)
  (bcpu s) (ieflags s) (ncalls s).
Definition set_irqmask v s := mkirq (lapic s) (ismp s) (ioapicid s) (ioapic s) v (cpus s) (ncpu s)
  (bcpu s) (ieflags s) (ncalls s).
Definition set_cpu (id : Z) s := mkirq (lapic s) (ismp s) (ioapicid s) (ioapic s) (irqmask s)
  (<[ncpu s := id]> (cpus s)) (ncpu s) (bcpu s) (ieflags s) (ncalls s).
Definition set_ncpu v s := mkirq (lapic s) (ismp s) (ioapicid s) (ioapic s) (irqmask s) (cpus s) v
  (bcpu s) (ieflags s) (ncalls s).
Definition set_bcpu v s := mkirq (lapic s) (ismp s) (ioapicid s) (ioapic s) (irqmask s) (cpus s)
  (ncpu s) v (ieflags s) (ncalls s).
Definition set_ncalls v s := mkirq (lapic s) (ismp s) (ioapicid s) (ioapic s) (irqmask s) (cpus s)
  (ncpu s) (bcpu s) (ieflags s) v.

(** ** lapic.c *)

Abbreviation ID := (0x20 / 4)%Z (only parsing).
Abbreviation VER := (0x30 / 4)%Z (only parsing).
Abbreviation TPR := (0x80 / 4)%Z (only parsing).
Abbreviation EOI := (0xB0 / 4)%Z (only parsing).
Abbreviation SVR := (0xF0 / 4)%Z (only parsing).
Abbreviation ESR := (0x280 / 4)%Z (only parsing).
Abbreviation ICRLO := (0x300 / 4)%Z (only parsing).
Abbreviation ICRHI := (0x310 / 4)%Z (only parsing).
Abbreviation TIMER := (0x320 / 4)%Z (only parsing).
Abbreviation PCINT := (0x340 / 4)%Z (only parsing).
Abbreviation LINT0 := (0x350 / 4)%Z (only parsing).
Abbreviation LINT1 := (0x360 / 4)%Z (only parsing).
Abbreviation ERROR := (0x370 / 4)%Z (only parsing).
Abbreviation TICR := (0x380 / 4)%Z (only parsing).
Abbreviation TDCR := (0x3E0 / 4)%Z (only parsing).

Abbreviation ENABLE := (0x100)%Z (only parsing).
Abbreviation INIT := (0x500)%Z (only parsing).
Abbreviation STARTUP := (0x600)%Z (only parsing).
Abbreviation DELIVS := (0x1000)%Z (only parsing).
Abbreviation ASSERT := (0x4000)%Z (only parsing).
Abbreviation LEVEL := (0x8000)%Z (only parsing).
Abbreviation BCAST := (0x80000)%Z (only parsing).
Abbreviation X1 := (0xB)%Z (only parsing).
Abbreviation PERIODIC := (0x20000)%Z (only parsing).
Abbreviation MASKED := (0x10000)%Z (only parsing).

Definition lapicr (index : Z) : K irq Z :=
  l <- gets lapic ;; mmr (u32 (l + 4 * index)).

Definition lapicw (index value : Z) : K irq unit :=
  l <- gets lapic ;;
  mmw (u32 (l + 4 * index)) (u32 value) ;;
  lapicr ID ;;
  kret tt.

Fixpoint deliv_wait (fuel : nat) : K irq unit :=
  match fuel with
  | O => diverge
  | S fuel' =>
      v <- lapicr ICRLO ;;
      if Z.land v DELIVS =? 0 then kret tt else deliv_wait fuel'
  end.

Definition lapicinit (fuel : nat) (c : Z) : K irq unit :=
  l <- gets lapic ;;
  if l =? 0 then kret tt
  else
    lapicw SVR (Z.lor ENABLE (IRQ_OFFSET + IRQ_SPURIOUS)) ;;
    lapicw TDCR X1 ;;
    lapicw TIMER (Z.lor PERIODIC (IRQ_OFFSET + IRQ_TIMER)) ;;
    lapicw TICR 10000000 ;;
    lapicw LINT0 MASKED ;;
    lapicw LINT1 MASKED ;;
    v <- lapicr VER ;;
    (if 4 <=? Z.land (Z.shiftr v 16) 0xFF then lapicw PCINT MASKED else kret tt) ;;
    lapicw ERROR (IRQ_OFFSET + IRQ_ERROR) ;;
    lapicw ESR 0 ;;
    lapicw ESR 0 ;;
    lapicw EOI 0 ;;
    lapicw ICRHI 0 ;;
    lapicw ICRLO (Z.lor BCAST (Z.lor INIT LEVEL)) ;;
    deliv_wait fuel ;;
    lapicw TPR 0.

Definition cpu : K irq Z :=
  fl <- gets ieflags ;;
  (if negb (Z.land fl 512 =? 0) then
     n <- gets ncalls ;;
     modify (set_ncalls (i32 (n + 1))) ;;
     if n =? 0 then cprintf "cpu called from %x with interrupts enabled\n" else kret tt
   else kret tt) ;;
  l <- gets lapic ;;
  if l =? 0 then kret 0
  else id <- lapicr ID ;; kret (Z.shiftr id 24).

Definition lapiceoi : K irq unit :=
  l <- gets lapic ;;
  if l =? 0 then kret tt else lapicw EOI 0.

(** The warm reset vector at 0x467 is memory; microdelay only spins. *)
Definition startup_ipi (apicid addr : Z) : K irq unit :=
  lapicw ICRHI (Z.shiftl apicid 24) ;;
  lapicw ICRLO (Z.lor STARTUP (Z.shiftr addr 12)).

Definition lapicstartap (apicid addr : Z) : K irq unit :=
  outb 0x70 0xF ;;
  outb 0x71 0x0A ;;
  mmw (Z.lor (Z.shiftl 0x40 4) 0x67) 0 ;;
  mmw (Z.lor (Z.shiftl 0x40 4) 0x67 + 2) (u16 (Z.shiftr addr 4)) ;;
  lapicw ICRHI (Z.shiftl apicid 24) ;;
  lapicw ICRLO (Z.lor INIT (Z.lor LEVEL ASSERT)) ;;
  lapicw ICRLO (Z.lor INIT LEVEL) ;;
  startup_ipi apicid addr ;;
  startup_ipi apicid addr.

(** ** ioapic.c *)

Abbreviation IOAPIC := (0xFEC00000)%Z (only parsing).
Abbreviation REG_ID := (0)%Z (only parsing).
Abbreviation REG_VER := (1)%Z (only parsing).
Abbreviation REG_TABLE := (0x10)%Z (only parsing).
Abbreviation INT_DISABLED := (0x10000)%Z (only parsing).

Definition ioapicread (reg : Z) : K irq Z :=
  a <- gets ioapic ;;
  mmw a reg ;;
  mmr (a + 16).

Definition ioapicwrite (reg data : Z) : K irq unit :=
  a <- gets ioapic ;;
  mmw a reg ;;
  mmw (a + 16) data.

Fixpoint ioapic_mask (n : nat) (i : Z) : K irq unit :=
  match n with
  | O => kret tt
  | S n' =>
      ioapicwrite (REG_TABLE + 2 * i) (Z.lor INT_DISABLED (IRQ_OFFSET + i)) ;;
      ioapicwrite (REG_TABLE + 2 * i + 1) 0 ;;
      ioapic_mask n' (i + 1)
  end.

Definition ioapicinit : K irq unit :=
  mp <- gets ismp ;;
  if negb mp then kret tt
  else
    modify (set_ioapic IOAPIC) ;;
    v <- ioapicread REG_VER ;;
    let maxintr := Z.land (Z.shiftr v 16) 0xFF in
    w <- ioapicread REG_ID ;;
    id <- gets ioapicid ;;
    (if negb (Z.shiftr w 24 =? id) then
       cprintf "ioapicinit: id isn't equal to ioapicid; not a MP\n" else kret tt) ;;
    ioapic_mask (Z.to_nat (maxintr + 1)) 0.

Definition ioapicenable (n cpunum : Z) : K irq unit :=
  mp <- gets ismp ;;
  if negb mp then kret tt
  else
    ioapicwrite (REG_TABLE + 2 * n) (IRQ_OFFSET + n) ;;
    ioapicwrite (REG_TABLE + 2 * n + 1) (u32 (Z.shiftl cpunum 24)).

(** ** picirq.c and timer.c *)

Abbreviation IO_PIC1 := (0x20)%Z (only parsing).
Abbreviation IO_PIC2 := (0xA0)%Z (only parsing).
Abbreviation IRQ_SLAVE := (2)%Z (only parsing).
Definition irqmask0 : Z := Z.land 0xFFFF (Z.lnot (Z.shiftl 1 IRQ_SLAVE)).

Definition picsetmask (mask : Z) : K irq unit :=
  modify (set_irqmask mask) ;;
  outb (IO_PIC1 + 1) (u8 mask) ;;
  outb (IO_PIC2 + 1) (u8 (Z.shiftr mask 8)).

Definition picenable (n : Z) : K irq unit :=
  m <- gets irqmask ;;
  picsetmask (u16 (Z.land m (Z.lnot (Z.shiftl 1 n)))).

Definition picinit : K irq unit :=
  outb (IO_PIC1 + 1) 0xFF ;;
  outb (IO_PIC2 + 1) 0xFF ;;
  outb IO_PIC1 0x11 ;;
  outb (IO_PIC1 + 1) IRQ_OFFSET ;;
  outb (IO_PIC1 + 1) (Z.shiftl 1 IRQ_SLAVE) ;;
  outb (IO_PIC1 + 1) 0x3 ;;
  outb IO_PIC2 0x11 ;;
  outb (IO_PIC2 + 1) (IRQ_OFFSET + 8) ;;
  outb (IO_PIC2 + 1) IRQ_SLAVE ;;
  outb (IO_PIC2 + 1) 0x3 ;;
  outb IO_PIC1 0x68 ;;
  outb IO_PIC1 0x0a ;;
  outb IO_PIC2 0x68 ;;
  outb IO_PIC2 0x0a ;;
  m <- gets irqmask ;;
  if negb (m =? 0xFFFF) then picsetmask m else kret tt.

Abbreviation IO_TIMER1 := (0x40)%Z (only parsing).
Definition TIMER_DIV (x : Z) : Z := (1193182 + x / 2) / x.

Definition timerinit : K irq unit :=
  outb (IO_TIMER1 + 3) (Z.lor (Z.lor 0 4) 0x30) ;;
  outb IO_TIMER1 (TIMER_DIV 100 mod 256) ;;
  outb IO_TIMER1 (TIMER_DIV 100 / 256) ;;
  picenable IRQ_TIMER.

(** ** mp.c: [m] is physical memory *)

Section Mp.
Variable (m : Z -> Z).

Fixpoint sum_bytes (n : nat) (a acc : Z) : Z :=
  match n with O => acc | S n' => sum_bytes n' (a + 1) (acc + m a) end.

Definition sum (addr len : Z) : Z := u8 (sum_bytes (Z.to_nat len) addr 0).

Definition word16 (a : Z) : Z := m a + 256 * m (a + 1).
Definition word32 (a : Z) : Z := word16 a + 65536 * word16 (a + 2).

Definition has_sig (a : Z) (sig : bytes) : bool :=
  Cstring.memcmp (Cstring.rd m a) (byte_at sig) 4 =? 0.

(** sizeof(struct mp) is 16. *)
Fixpoint mpsearch_loop (n : nat) (p : Z) : option Z :=
  match n with
  | O => None
  | S n' =>
      if has_sig p (chars "_MP_") && (sum p 16 =? 0) then Some p else mpsearch_loop n' (p + 16)
  end.

Definition mpsearch1 (addr len : Z) : option Z := mpsearch_loop (Z.to_nat ((len + 15) / 16)) addr.

Definition mpsearch : option Z :=
  let bda := 0x400 in
  let p := Z.shiftl (Z.lor (Z.shiftl (m (bda + 0x0F)) 8) (m (bda + 0x0E))) 4 in
  let found :=
    if negb (p =? 0) then mpsearch1 p 1024
    else
      let p := Z.lor (Z.shiftl (m (bda + 0x14)) 8) (m (bda + 0x13)) * 1024 in
      mpsearch1 (p - 1024) 1024 in
  match found with
  | Some mp => Some mp
  | None => mpsearch1 0xF0000 0x10000
  end.

(** mpconfig: the floating pointer structure and the configuration table;
    physaddr is at offset 4, length at 4, version at 6. *)
Definition mpconfig : option (Z * Z) :=
  match mpsearch with
  | None => None
  | Some mp =>
      if word32 (mp + 4) =? 0 then None
      else
        let conf := word32 (mp + 4) in
        if negb (has_sig conf (chars "PCMP")) then None
        else if negb (m (conf + 6) =? 1) && negb (m (conf + 6) =? 4) then None
        else if negb (sum conf (word16 (conf + 4)) =? 0) then None
        else Some (mp, conf)
  end.

(** The loop of mpinit over the entries from [p] to [e]; every entry is at
    least 8 bytes long. *)
Fixpoint mp_entries (n : nat) (p e : Z) : K irq unit :=
  match n with
  | O => diverge
  | S n' =>
      if e <=? p then kret tt
      else if m p =? 0 then
        modify (set_cpu (m (p + 1))) ;;
        nc <- gets ncpu ;;
        (if negb (Z.land (m (p + 3)) 2 =? 0) then modify (set_bcpu nc) else kret tt) ;;
        modify (set_ncpu (nc + 1)) ;;
        mp_entries n' (p + 20) e
      else if m p =? 2 then
        modify (set_ioapicid (m (p + 1))) ;;
        mp_entries n' (p + 8) e
      else if (m p =? 1) || (m p =? 3) || (m p =? 4) then mp_entries n' (p + 8) e
      else
        cprintf "mpinit: unknown config type %x\n" ;;
        panic "mpinit"
  end.

(** sizeof(struct mpconf) is 44 and its lapicaddr is at offset 36; imcrp is at
    offset 12 of struct mp. *)
Definition mpinit : K irq unit :=
  n <- gets ncpu ;;
  modify (set_bcpu n) ;;
  match mpconfig with
  | None => kret tt
  | Some (mp, conf) =>
      modify (set_ismp true) ;;
      modify (set_lapic (word32 (conf + 36))) ;;
      let len := word16 (conf + 4) in
      mp_entries (Z.to_nat len + 1) (conf + 44) (conf + len) ;;
      if negb (m (mp + 12) =? 0) then
        outb 0x22 0x70 ;;
        v <- inb 0x23 ;;
        outb 0x23 (Z.lor v 1)
      else kret tt
  end.

Definition mpbcpu : K irq Z := gets (fun s => Z.of_nat (bcpu s)).
End Mp.
End Irq.

(** ** What the code does to the devices *)

Module IrqSpec.
Import Irq.

(** A handler that records the port writes. *)
Definition ports_log : handler (list (Z * Z)) irq := fun e w s =>
  match e as e0 return option (ans e0 * list (Z * Z) * irq) with
  | EOutb p v => Some (tt, w ++ [(p, v)], s)
  | _ => None
  end.

(** picenable clears the mask bit of its interrupt and no other, in
    irqmask and in the two controllers, whose mask registers (ports 0x21 and
    0xA1) get the low and the high byte. *)
Theorem picenable_spec n w s :
  0 <= n < 16 -> 0 <= irqmask s < 65536 ->
  exists mask, run ports_log w (picenable n s) =
      Done tt (w ++ [(0x21, u8 mask); (0xA1, mask / 256)]) (set_irqmask mask s) /\
    0 <= mask < 65536 /\
    forall i, 0 <= i -> Z.testbit mask i = Z.testbit (irqmask s) i && negb (i =? n).
Proof.
  intros Hn Hm. set (x := Z.land (irqmask s) (Z.lnot (Z.shiftl 1 n))).
  assert (forall i, 0 <= i -> Z.testbit x i = Z.testbit (irqmask s) i && negb (i =? n)) as Hb.
  { intros i Hi. by apply testbit_clear; lia. }
  assert (0 <= x < 65536) as Hx.
  { assert (x = Z.land x (Z.ones 16)) as ->.
    - unfold x. rewrite <- Z.land_assoc, (Z.land_comm (Z.lnot _)), Z.land_assoc, Z.land_ones by lia.
      by rewrite (Z.mod_small (irqmask s)) by (change (2 ^ 16) with 65536; lia).
    - rewrite Z.land_ones by lia. apply Z.mod_pos_bound. lia. }
  exists x. split; [|done]. unfold picenable, picsetmask. krun. fold x.
  assert (u16 x = x) as -> by (by apply Z.mod_small). unfold outb, trigger. simpl.
  rewrite <- app_assoc. simpl. rewrite Z.shiftr_div_pow2 by lia.
  assert (u8 (x / 2 ^ 8) = x / 256) as -> by (change (2 ^ 8) with 256; unfold u8; dlia). done.
Qed.

Definition irq0 : irq := mkirq 0 false 0 0 irqmask0 (replicate NCPU 0) 0 0 0 0.

Lemma picenable_spec_witness :
  exists mask, run ports_log [] (picenable IRQ_IDE irq0) =
      Done tt ([] ++ [(0x21, u8 mask); (0xA1, mask / 256)]) (set_irqmask mask irq0) /\
    Z.testbit mask 14 = false /\ Z.testbit mask 4 = true.
Proof.
  destruct (picenable_spec IRQ_IDE [] irq0) as (mask & E & _ & H); [by vm_compute..|].
  exists mask. split; [done|]. by rewrite !H by lia.
Defined.

(** The I/O APIC: a register select word at its base and a data word at
    base + 16. *)
Record ioapic_dev : Type := mkdev { dsel : Z; dregs : Z -> Z }.

Definition ioapic_hw : handler ioapic_dev irq := fun e w s =>
  match e as e0 return option (ans e0 * ioapic_dev * irq) with
  | EMmw a v =>
      if a =? IOAPIC then Some (tt, mkdev v (dregs w), s)
      else if a =? IOAPIC + 16 then
        Some (tt, mkdev (dsel w) (fun r => if r =? dsel w then v else dregs w r), s)
      else None
  | EMmr a => if a =? IOAPIC + 16 then Some (dregs w (dsel w), w, s) else None
  | ECprintf _ => Some (tt, w, s)
  | _ => None
  end.

(** The redirection entry of interrupt [i]: its vector word and its target. *)
Definition redirect (w : ioapic_dev) (i : Z) : Z * Z :=
  (dregs w (REG_TABLE + 2 * i), dregs w (REG_TABLE + 2 * i + 1)).

Lemma ioapicwrite_run r v w s :
  ioapic s = IOAPIC ->
  run ioapic_hw w (ioapicwrite r v s) =
    Done tt (mkdev r (fun x => if x =? r then v else dregs w x)) s.
Proof. intros H. unfold ioapicwrite, mmw, trigger. krun. rewrite H. done. Qed.

Lemma ioapicread_run r w s :
  ioapic s = IOAPIC ->
  run ioapic_hw w (ioapicread r s) = Done (dregs w r) (mkdev r (dregs w)) s.
Proof. intros H. unfold ioapicread, mmw, mmr, trigger. krun. rewrite H. done. Qed.

Lemma ioapic_mask_run n i w s :
  ioapic s = IOAPIC ->
  exists w', run ioapic_hw w (ioapic_mask n i s) = Done tt w' s /\
    (forall j, redirect w' j = if decide (i <= j < i + Z.of_nat n)
       then (Z.lor INT_DISABLED (IRQ_OFFSET + j), 0) else redirect w j).
Proof.
  intros H. revert i w. induction n as [|n IH]; intros i w; cbn [ioapic_mask].
  - exists w. split; [done|]. intros j. by rewrite decide_False by lia.
  - krun. rewrite ioapicwrite_run by done. krun. rewrite ioapicwrite_run by done. krun.
    destruct (IH (i + 1) (mkdev (REG_TABLE + 2 * i + 1)
      (fun x => if x =? REG_TABLE + 2 * i + 1 then 0
                else if x =? REG_TABLE + 2 * i then Z.lor INT_DISABLED (IRQ_OFFSET + i)
                else dregs w x))) as (w' & E & Hw).
    exists w'. split; [exact E|]. intros j. rewrite Hw. unfold redirect. simpl.
    destruct (decide (i = j)) as [<-|Hne].
    + rewrite decide_False by lia. rewrite decide_True by lia.
      rewrite Z.eqb_refl. destruct (Z.eqb_spec (16 + 2 * i) (16 + 2 * i + 1)); [lia|].
      by rewrite Z.eqb_refl.
    + destruct (decide (i + 1 <= j < i + 1 + Z.of_nat n)).
      { rewrite decide_True by lia. done. }
      rewrite decide_False by lia.
      repeat match goal with |- context [?a =? ?b] => destruct (Z.eqb_spec a b); [lia|] end. done.
Qed.

Lemma ioapicenable_run n c w s :
  ismp s = true -> ioapic s = IOAPIC ->
  exists w', run ioapic_hw w (ioapicenable n c s) = Done tt w' s /\
    forall j, redirect w' j = if decide (j = n) then (IRQ_OFFSET + n, u32 (Z.shiftl c 24)) else redirect w j.
Proof.
  intros Hm Ha. unfold ioapicenable. krun. rewrite Hm. cbn [negb]. krun.
  rewrite ioapicwrite_run by done. krun. rewrite ioapicwrite_run by done.
  eexists. split; [done|]. intros j. unfold redirect. simpl. case_decide as Hj.
  - subst j. rewrite Z.eqb_refl. destruct (Z.eqb_spec (16 + 2 * n) (16 + 2 * n + 1)); [lia|].
    by rewrite Z.eqb_refl.
  - repeat match goal with |- context [?a =? ?b] => destruct (Z.eqb_spec a b); [lia|] end. done.
Qed.

(** The routing that a list of (interrupt, processor) pairs asks for. *)
Fixpoint route (l : list (Z * Z)) (f : Z -> Z * Z) : Z -> Z * Z :=
  match l with
  | [] => f
  | (n, c) :: r =>
      route r (fun j => if decide (j = n) then (IRQ_OFFSET + n, u32 (Z.shiftl c 24)) else f j)
  end.

Lemma route_ext l f g i : f i = g i -> route l f i = route l g i.
Proof.
  revert f g. induction l as [|[n c] l IH]; intros f g H; simpl; [done|].
  apply IH. by case_decide.
Qed.

Lemma enables_run l w s :
  ismp s = true -> ioapic s = IOAPIC ->
  exists w', run ioapic_hw w (kforeach l (fun p => ioapicenable (fst p) (snd p)) s) = Done tt w' s /\
    forall j, redirect w' j = route l (redirect w) j.
Proof.
  intros Hm Ha. revert w. induction l as [|[n c] l IH]; intros w; simpl; [by exists w|].
  krun. destruct (ioapicenable_run n c w s Hm Ha) as (w1 & E1 & H1). rewrite E1. krun.
  destruct (IH w1) as (w2 & E2 & H2). exists w2. split; [done|]. intros j. rewrite H2.
  by apply route_ext.
Qed.

(** The I/O APIC after ioapicinit and a list of ioapicenable calls: the
    interrupts of the list are enabled on their vector and routed to the given
    processor (the last call for an interrupt counts), and every other
    interrupt of the device is disabled and routed nowhere. *)
Theorem ioapic_routing w s l i :
  ismp s = true ->
  let maxintr := Z.land (Z.shiftr (dregs w REG_VER) 16) 0xFF in
  0 <= i <= maxintr ->
  exists w', run ioapic_hw w ((ioapicinit ;; kforeach l (fun p => ioapicenable (fst p) (snd p))) s) =
      Done tt w' (set_ioapic IOAPIC s) /\
    redirect w' i = route l (fun j => (Z.lor INT_DISABLED (IRQ_OFFSET + j), 0)) i.
Proof.
  intros Hm maxintr Hi. unfold ioapicinit. krun. rewrite Hm. cbn [negb]. krun.
  set (s1 := set_ioapic IOAPIC s). rewrite !ioapicread_run by done. krun.
  rewrite !ioapicread_run by done. krun. cbn [dregs]. fold maxintr.
  assert (forall w0, run ioapic_hw w0
            ((if negb (Z.shiftr (dregs w REG_ID) 24 =? ioapicid s1)
              then cprintf "ioapicinit: id isn't equal to ioapicid; not a MP\n" else kret tt) s1) =
          Done tt w0 s1) as Hp by (by intros; case_match).
  rewrite Hp. krun.
  destruct (ioapic_mask_run (Z.to_nat (maxintr + 1)) 0 (mkdev REG_ID (dregs w)) s1 eq_refl)
    as (w1 & E1 & H1). rewrite E1. krun.
  destruct (enables_run l w1 s1 Hm eq_refl) as (w2 & E2 & H2).
  exists w2. split; [done|]. rewrite H2. apply route_ext. rewrite H1.
  by rewrite decide_True by lia.
Qed.

(** The keyboard and the disk enabled on a device with 24 interrupts. *)
Lemma ioapic_routing_witness :
  exists w', run ioapic_hw (mkdev 0 (fun r => if r =? 1 then 0x170011 else 0))
      ((ioapicinit ;; kforeach [(IRQ_KBD, 0); (IRQ_IDE, 1)] (fun p => ioapicenable (fst p) (snd p)))
         (set_ismp true irq0)) = Done tt w' (set_ioapic IOAPIC (set_ismp true irq0)) /\
    redirect w' 14 = (46, 0x1000000).
Proof.
  destruct (ioapic_routing (mkdev 0 (fun r => if r =? 1 then 0x170011 else 0)) (set_ismp true irq0)
    [(IRQ_KBD, 0); (IRQ_IDE, 1)] 14) as (w' & E & H); [done|by vm_compute|].
  exists w'. split; [done|]. by rewrite H.
Defined.

(** ** The MP configuration table *)

(** A table entry: a processor (APIC id, flags), an I/O APIC, or one of the
    entries that mpinit skips. *)
Inductive mpentry : Type :=
| MPProc (id flags : Z) | MPIoapic (id : Z) | MPOther (t : Z).

Definition esize (x : mpentry) : Z := match x with MPProc _ _ => 20 | _ => 8 end.

(** The bytes of [m] at [p] are the entry. *)
Definition is_entry (m : Z -> Z) (p : Z) (x : mpentry) : Prop :=
  match x with
  | MPProc id flags => m p = 0 /\ m (p + 1) = id /\ m (p + 3) = flags
  | MPIoapic id => m p = 2 /\ m (p + 1) = id
  | MPOther t => m p = t /\ (t = 1 \/ t = 3 \/ t = 4)
  end.

Fixpoint is_table (m : Z -> Z) (p : Z) (l : list mpentry) : Prop :=
  match l with
  | [] => True
  | x :: r => is_entry m p x /\ is_table m (p + esize x) r
  end.

Definition table_size (l : list mpentry) : Z := foldr (fun x n => esize x + n) 0 l.

(** What an entry does to the variables. *)
Definition scan_entry (s : irq) (x : mpentry) : irq :=
  match x with
  | MPProc id flags =>
      let s := set_cpu id s in
      let s := if negb (Z.land flags 2 =? 0) then set_bcpu (ncpu s) s else s in
      set_ncpu (ncpu s + 1) s
  | MPIoapic id => set_ioapicid id s
  | MPOther _ => s
  end.

Definition procs (l : list mpentry) : list Z :=
  omap (fun x => match x with MPProc id _ => Some id | _ => None end) l.

Lemma table_size_length l : 8 * Z.of_nat (length l) <= table_size l.
Proof. induction l as [|x l IH]; [done|]. simpl length. simpl table_size. destruct x; simpl; lia. Qed.

Lemma mp_entries_run m l n p s :
  is_table m p l -> (length l < n)%nat ->
  exec (mp_entries m n p (p + table_size l)) s = Done tt tt (foldl scan_entry s l).
Proof.
  revert n p s. induction l as [|x l IH]; intros [|n] p s Ht Hn; simpl length in Hn; try lia;
    cbn [mp_entries].
  { assert (p + table_size [] <=? p = true) as -> by (apply Z.leb_le; simpl; lia). done. }
  pose proof (table_size_length l) as Hl. destruct Ht as [He Ht].
  assert (p + table_size (x :: l) <=? p = false) as ->
    by (apply Z.leb_gt; simpl; destruct x; simpl; lia).
  destruct x as [id flags|id|t]; simpl in He.
  - destruct He as (-> & -> & ->). cbn [Z.eqb]. kexec.
    simpl table_size. rewrite Z.add_assoc. cbn [foldl scan_entry].
    destruct (negb (Z.land flags 2 =? 0)); kexec; by apply IH; [|lia].
  - destruct He as (-> & ->). cbn [Z.eqb Pos.eqb]. kexec. simpl table_size. rewrite Z.add_assoc.
    by apply IH; [|lia].
  - destruct He as (-> & H). simpl table_size. rewrite Z.add_assoc. cbn [foldl scan_entry].
    destruct H as [->|[->| ->]]; cbn [Z.eqb Pos.eqb orb]; by apply IH; [|lia].
Qed.

Lemma scan_procs l s :
  ncpu (foldl scan_entry s l) = (ncpu s + length (procs l))%nat /\
  length (cpus (foldl scan_entry s l)) = length (cpus s) /\
  ((ncpu s + length (procs l) <= length (cpus s))%nat ->
   forall i, cpus (foldl scan_entry s l) !! i =
     if decide (ncpu s <= i < ncpu s + length (procs l))%nat
     then procs l !! (i - ncpu s)%nat else cpus s !! i).
Proof.
  revert s. induction l as [|x l IH]; intros s.
  { simpl. split; [lia|]. split; [done|]. intros _ i. by rewrite decide_False by lia. }
  cbn [foldl]. destruct (IH (scan_entry s x)) as (H1 & H2 & H3). destruct x as [id flags|id|t];
    [|exact (conj H1 (conj H2 H3))..].
  assert (ncpu (scan_entry s (MPProc id flags)) = S (ncpu s)) as En by (simpl; case_match; simpl; lia).
  assert (cpus (scan_entry s (MPProc id flags)) = <[ncpu s := id]> (cpus s)) as Ec
    by (by simpl; case_match).
  change (procs (MPProc id flags :: l)) with (id :: procs l). cbn [length].
  rewrite H1, H2, En, Ec, length_insert. split; [lia|]. split; [done|].
  intros Hlen i. rewrite H3, En, Ec by (rewrite En, Ec, length_insert; lia).
  destruct (decide (i = ncpu s)) as [->|Hi].
  - rewrite decide_False, decide_True by lia. rewrite Nat.sub_diag. simpl.
    apply list_lookup_insert_eq. lia.
  - case_decide.
    + rewrite decide_True by lia. replace (i - ncpu s)%nat with (S (i - S (ncpu s))) by lia. done.
    + rewrite decide_False by lia. by rewrite list_lookup_insert_ne by lia.
Qed.

(** The walk over the MP configuration table: on a table with the entries
    [l] the loop of mpinit ends, counts exactly the processors of the table and
    records their APIC ids in order, provided there are at most NCPU of them. *)
Theorem mp_entries_spec m l p s :
  is_table m p l -> length (cpus s) = NCPU -> ncpu s = 0%nat -> (length (procs l) <= NCPU)%nat ->
  exists s', exec (mp_entries m (Z.to_nat (44 + table_size l) + 1) p (p + table_size l)) s = Done tt tt s' /\
    ncpu s' = length (procs l) /\ take (length (procs l)) (cpus s') = procs l.
Proof.
  intros Ht Hc H0 Hl. exists (foldl scan_entry s l). pose proof (table_size_length l).
  split; [apply mp_entries_run; [done|lia]|].
  destruct (scan_procs l s) as (H1 & H2 & H3). split; [by rewrite H1, H0|].
  apply list_eq. intros i. destruct (decide (i < length (procs l))%nat).
  - rewrite lookup_take_lt, H3, H0, decide_True by lia. by rewrite Nat.sub_0_r.
  - rewrite lookup_take_ge, lookup_ge_None_2 by lia. done.
Qed.

Definition mem_of (d : bytes) : Z -> Z := fun a => byte_at d (Z.to_nat a).
Definition proc_bytes (id flags : Z) : bytes := [0; id; 0; flags] ++ replicate 16 0.

Lemma mp_entries_spec_witness :
  exists s', exec (mp_entries (mem_of (proc_bytes 7 2 ++ [2; 9; 0; 0; 0; 0; 0; 0] ++ proc_bytes 8 0))
                     93 0 48) irq0 = Done tt tt s' /\
    ncpu s' = 2%nat /\ take 2 (cpus s') = [7; 8].
Proof.
  apply (mp_entries_spec (mem_of (proc_bytes 7 2 ++ [2; 9; 0; 0; 0; 0; 0; 0] ++ proc_bytes 8 0))
           [MPProc 7 2; MPIoapic 9; MPProc 8 0] 0 irq0); [by vm_compute|done|done|].
  vm_compute. lia.
Defined.

(** A table with more than NCPU processors makes mpinit index past the
    array cpus: the count ends above the length of the array. *)
Theorem mpinit_overflows_cpus m l p s :
  is_table m p l -> length (cpus s) = NCPU -> (NCPU < ncpu s + length (procs l))%nat ->
  exists s', exec (mp_entries m (Z.to_nat (44 + table_size l) + 1) p (p + table_size l)) s = Done tt tt s' /\
    (length (cpus s') < ncpu s')%nat.
Proof.
  intros Ht Hc Hl. exists (foldl scan_entry s l). pose proof (table_size_length l).
  split; [apply mp_entries_run; [done|lia]|].
  destruct (scan_procs l s) as (H1 & H2 & _). lia.
Qed.

Lemma mpinit_overflows_cpus_witness :
  exists s', exec (mp_entries (fun _ => 0) 225 0 180) irq0 = Done tt tt s' /\
    (length (cpus s') < ncpu s')%nat.
Proof.
  apply (mpinit_overflows_cpus (fun _ => 0) (replicate 9 (MPProc 0 0)) 0 irq0);
    [by vm_compute|done|vm_compute; lia].
Defined.
End IrqSpec.
