(* ===== verification/Net.v ===== *)
(** * Net: net.c and net.h, byte order and the Internet checksum

    Headers are the bytes of memory; a u16_t of a header is read in the byte
    order of the machine. *)
From S2P Require Import Prelude.
From stdpp Require Import options.

Module Net.

(** HTONS and HTONL on a u16_t and a u32_t. *)
Definition htons (x : Z) : Z :=
  u16 (Z.lor (Z.land (Z.shiftr x 8) 0xFF) (Z.shiftl (Z.land x 0xFF) 8)).
Definition htonl (x : Z) : Z :=
  u32 (Z.lor (Z.lor (Z.land (Z.shiftr x 24) 0xFF) (Z.land (Z.shiftr x 8) 0xFF00))
         (Z.lor (Z.land (Z.shiftl x 8) 0xFF0000) (Z.land (Z.shiftl x 24) 0xFF000000))).
Definition ntohs (x : Z) : Z := htons x.
Definition ntohl (x : Z) : Z := htonl x.

(** The loop while(size > 1), from a u16_t pointer. *)
Fixpoint sum_words (n : nat) (buf : bytes) (sum : Z) : Z :=
  match n with
  | O => sum
  | S n' => sum_words n' (drop 2 buf) (u32 (sum + get16 buf 0))
  end.

(** The bytes left after the loop, and the sum of [size] bytes; [odd] is the
    test of the last byte. *)
Definition nwords (size : Z) : nat := Z.to_nat (size / 2).
Definition rest (size : Z) : Z := size - 2 * Z.of_nat (nwords size).

Definition sum_bytes (odd : Z -> bool) (buf : bytes) (size sum : Z) : Z :=
  let s := sum_words (nwords size) buf sum in
  if odd (rest size) then u32 (s + byte_at buf (2 * nwords size)) else s.

Definition fold_sum (s : Z) : Z :=
  let s := u32 (Z.land s 0xFFFF + Z.shiftr s 16) in
  u32 (Z.land s 0xFFFF + Z.shiftr s 16).

Definition checksum (buf : bytes) (size : Z) : Z :=
  u16 (Z.lnot (fold_sum (sum_bytes (fun r => 0 <? r) buf size 0))).

(** ip4_hdr_t: ver_ihl at 0, checksum at 10, protocol at 9, src at 12, dst at
    16.  [hdr] is the header followed by its options. *)
Definition ip4_checksum (hdr : bytes) : bytes :=
  let hdr := put16 hdr 10 0 in
  put16 hdr 10 (checksum hdr (Z.land (byte_at hdr 0) 0xF * 4)).

(** The sum of the pseudo header, the UDP header and the payload; udp_hdr_t
    has its length at 4 and its checksum at 6. *)
Definition udp_sum (ip udp data : bytes) : Z :=
  let src := get32 ip 12 in
  let dst := get32 ip 16 in
  let sum := u32 (Z.land (Z.shiftr src 16) 0xFFFF) in
  let sum := u32 (sum + Z.land src 0xFFFF) in
  let sum := u32 (sum + Z.land (Z.shiftr dst 16) 0xFFFF) in
  let sum := u32 (sum + Z.land dst 0xFFFF) in
  let sum := u32 (sum + htons (byte_at ip 9)) in
  let sum := u32 (sum + get16 udp 4) in
  let sum := sum_words 4 udp sum in
  sum_bytes (fun r => negb (r =? 0)) data (ntohs (get16 udp 4) - 8) sum.

Definition udp_checksum (ip udp data : bytes) : bytes :=
  let udp := put16 udp 6 0 in
  put16 udp 6 (u16 (Z.lnot (fold_sum (udp_sum ip udp data)))).

(** ** Byte order *)

Lemma htons_swap a b : is_byte a -> is_byte b -> htons (a + 256 * b) = b + 256 * a.
Proof.
  unfold is_byte. intros Ha Hb. unfold htons. change 0xFF with (Z.ones 8).
  rewrite !Z.land_ones, Z.shiftr_div_pow2, Z.lor_comm by lia. change (2 ^ 8) with 256.
  replace ((a + 256 * b) / 256) with b by dlia. replace ((a + 256 * b) mod 256) with a by dlia.
  rewrite (Z.mod_small b), lor_shiftl by (change (2 ^ 8) with 256; lia). change (2 ^ 8) with 256.
  unfold u16. rewrite Z.mod_small; lia.
Qed.

(** htons is its own inverse, so ntohs undoes htons. *)
Theorem ntohs_htons x : 0 <= x < 65536 -> ntohs (htons x) = x /\ 0 <= htons x < 65536.
Proof.
  intros Hx. unfold ntohs.
  assert (x = x mod 256 + 256 * (x / 256)) as E by dlia.
  assert (is_byte (x mod 256)) by (unfold is_byte; dlia).
  assert (is_byte (x / 256)) by (unfold is_byte; dlia).
  rewrite E, !htons_swap by done. unfold is_byte in *. lia.
Qed.

(** ** The checksum *)

(** The mathematical sum of the first [n] words. *)
Fixpoint wsum (n : nat) (l : bytes) : Z :=
  match n with O => 0 | S n' => wsum n' l + get16 l (2 * n') end.

Lemma get16_range l k : Forall is_byte l -> 0 <= get16 l k < 65536.
Proof.
  intros H. unfold get16. pose proof (le_dec_range (slice l k 2) (slice_bytes l k 2 H)) as Hr.
  assert (length (slice l k 2) <= 2)%nat by (unfold slice; lens; lia).
  assert (256 ^ Z.of_nat (length (slice l k 2)) <= 256 ^ 2) by (apply Z.pow_le_mono_r; lia).
  change (256 ^ 2) with 65536 in *. lia.
Qed.

Lemma wsum_range n l : Forall is_byte l -> 0 <= wsum n l <= 65535 * Z.of_nat n.
Proof.
  intros H. induction n as [|n IH]; cbn [wsum]; [lia|]. pose proof (get16_range l (2 * n) H). lia.
Qed.

Lemma get16_drop l k : get16 (drop 2 l) k = get16 l (2 + k).
Proof. unfold get16, slice. by rewrite drop_drop. Qed.

Lemma wsum_cons n l : wsum (S n) l = get16 l 0 + wsum n (drop 2 l).
Proof.
  induction n as [|n IH]; [simpl; lia|]. cbn [wsum] in IH |- *. rewrite IH, get16_drop.
  replace (2 + 2 * n)%nat with (2 * S n)%nat by lia. lia.
Qed.

Lemma sum_words_spec n l s :
  Forall is_byte l -> 0 <= s -> s + 65535 * Z.of_nat n < 4294967296 ->
  sum_words n l s = s + wsum n l.
Proof.
  revert l s. induction n as [|n IH]; intros l s Hl Hs Hb; [simpl; lia|].
  cbn [sum_words]. rewrite wsum_cons. pose proof (get16_range l 0 Hl).
  rewrite u32_small by lia. rewrite IH; [lia|by apply Forall_drop|lia|lia].
Qed.

Lemma wsum_put16 n l k x :
  (2 * k + 2 <= length l)%nat -> (k < n)%nat ->
  wsum n (put16 l (2 * k) x) = wsum n (put16 l (2 * k) 0) + u16 x.
Proof.
  intros Hl. assert (forall j y, j <> k -> get16 (put16 l (2 * k) y) (2 * j) = get16 l (2 * j)) as Ho.
  { intros j y Hj. unfold get16. rewrite slice_put16_other by lia. done. }
  assert (forall m y, (m <= k)%nat -> wsum m (put16 l (2 * k) y) = wsum m l) as Hlow.
  { intros m y. induction m as [|m IH]; intros Hm; [done|]. cbn [wsum].
    rewrite IH, Ho by lia. done. }
  induction n as [|n IH]; intros Hn; [lia|]. cbn [wsum].
  destruct (decide (n = k)) as [->|].
  - rewrite !Hlow, !get16_put16 by lia. change (u16 0) with 0. lia.
  - rewrite IH, !Ho by lia. lia.
Qed.

(** Folding keeps the value modulo 65535 and does not turn a positive sum
    into zero. *)
Lemma fold_sum_spec s :
  0 <= s < 4294967296 ->
  0 <= fold_sum s <= 65535 /\ fold_sum s mod 65535 = s mod 65535 /\ (0 < s -> 0 < fold_sum s).
Proof.
  intros Hs. unfold fold_sum. change 0xFFFF with (Z.ones 16).
  rewrite !Z.land_ones, !Z.shiftr_div_pow2 by lia. change (2 ^ 16) with 65536.
  change (Z.ones 16) with 65535. rewrite (u32_small (s mod 65536 + s / 65536)) by dlia.
  set (t := s mod 65536 + s / 65536).
  assert (0 <= t <= 131070) by (unfold t; dlia).
  rewrite (u32_small (t mod 65536 + t / 65536)) by dlia.
  assert (t mod 65535 = s mod 65535) as Et by (unfold t; dlia).
  assert (0 < s -> 0 < t) by (unfold t; dlia).
  clearbody t. split; [dlia|]. split; [rewrite <- Et; dlia|dlia].
Qed.

Lemma lnot_u16 f : 0 <= f <= 65535 -> u16 (Z.lnot f) = 65535 - f.
Proof. intros. unfold u16, Z.lnot. rewrite <- Z.sub_1_r. dlia. Qed.

(** Adding the complement of the folded sum makes the sum fold to 0xFFFF. *)
Lemma fold_complement s :
  0 <= s -> s + 65535 < 4294967296 -> fold_sum (s + u16 (Z.lnot (fold_sum s))) = 65535.
Proof.
  intros H0 Hs. destruct (fold_sum_spec s) as (Hr & Hm & Hp); [lia|]. rewrite lnot_u16 by lia.
  set (f := fold_sum s) in *. destruct (fold_sum_spec (s + (65535 - f))) as (Hr' & Hm' & Hp'); [lia|].
  assert ((s + (65535 - f)) mod 65535 = 0) as E.
  { clear - Hm. dlia. }
  rewrite E in Hm'. assert (0 < s + (65535 - f)) as Hpos.
  { destruct (decide (s = 0)) as [->|]; [|lia].
    assert (f = 0) by (unfold f; by vm_compute). lia. }
  specialize (Hp' Hpos). clear - Hr' Hm' Hp'. dlia.
Qed.

Lemma sum_bytes_spec odd l size s :
  Forall is_byte l -> 0 <= s -> 0 <= size -> s + 65535 * (size / 2 + 1) < 4294967296 ->
  sum_bytes odd l size s =
    s + wsum (nwords size) l + (if odd (rest size) then byte_at l (2 * nwords size) else 0).
Proof.
  intros Hl Hs Hz Hb. unfold sum_bytes. pose proof (wsum_range (nwords size) l Hl).
  pose proof (byte_at_range l (2 * nwords size) Hl) as Hby. unfold is_byte in Hby.
  assert (Z.of_nat (nwords size) = size / 2) by (unfold nwords; dlia).
  rewrite sum_words_spec by (done || lia). destruct (odd _); [rewrite u32_small; lia|lia].
Qed.

Lemma put16_bytes l k x : Forall is_byte l -> Forall is_byte (put16 l k x).
Proof. intros. unfold put16. auto with xv6. Qed.

Lemma byte_at_put16_other l k x i :
  (k + 2 <= length l)%nat -> (i < k \/ k + 2 <= i)%nat -> byte_at (put16 l k x) i = byte_at l i.
Proof.
  intros. unfold byte_at, put16. rewrite !nth_lookup.
  rewrite lookup_splice_out by (rewrite ?length_le_enc; lia). done.
Qed.

(** The IPv4 header checksum verifies: after ip4_checksum the checksum of
    the whole header (options included) is zero, which is the test a receiver
    makes, and only the checksum field has changed. *)
Theorem ip4_checksum_verifies hdr :
  let size := Z.land (byte_at hdr 0) 0xF * 4 in
  Forall is_byte hdr -> (12 <= length hdr)%nat -> 12 <= size ->
  checksum (ip4_checksum hdr) size = 0 /\
  length (ip4_checksum hdr) = length hdr /\
  forall i, (i < 10 \/ 12 <= i)%nat -> byte_at (ip4_checksum hdr) i = byte_at hdr i.
Proof.
  intros size Hb Hl Hs. unfold ip4_checksum.
  rewrite byte_at_put16_other by lia. fold size.
  set (h := put16 hdr 10 0). assert (length h = length hdr) as Hh by (apply length_put16; lia).
  assert (Forall is_byte h) as Hhb by (by apply put16_bytes).
  split; [|split; [by rewrite length_put16; lia|]].
  2: { intros i Hi. rewrite byte_at_put16_other by lia. by apply byte_at_put16_other; lia. }
  assert (size <= 60) as H60.
  { subst size. change 0xF with (Z.ones 4). rewrite Z.land_ones by lia. change (2 ^ 4) with 16. dlia. }
  assert (rest size = 0) as Hr.
  { unfold rest, nwords. subst size. set (x := Z.land _ _) in *. clearbody x. dlia. }
  assert (5 < nwords size)%nat by (unfold nwords; dlia).
  assert (forall l, Forall is_byte l -> sum_bytes (fun r => 0 <? r) l size 0 = wsum (nwords size) l) as E.
  { intros l Hlb. rewrite sum_bytes_spec by (done || dlia). rewrite Hr. simpl. lia. }
  unfold checksum. rewrite E by (by apply put16_bytes).
  change 10%nat with (2 * 5)%nat. rewrite wsum_put16 by lia.
  assert (put16 h (2 * 5) 0 = h) as ->.
  { unfold h, put16. apply splice_splice_same; rewrite ?length_le_enc; [done|lia]. }
  rewrite E by done. pose proof (wsum_range (nwords size) h Hhb) as Hw.
  assert (Z.of_nat (nwords size) <= 30) by (unfold nwords; dlia).
  assert (u16 (u16 (Z.lnot (fold_sum (wsum (nwords size) h)))) =
          u16 (Z.lnot (fold_sum (wsum (nwords size) h)))) as ->
    by (apply Z.mod_small, u16_range).
  rewrite fold_complement by lia. by vm_compute.
Qed.

Definition hdr_ex : bytes :=
  [69; 0; 0; 60; 28; 70; 64; 0; 64; 6; 1; 2; 172; 16; 10; 99; 172; 16; 10; 12].

Lemma ip4_checksum_verifies_witness :
  checksum (ip4_checksum hdr_ex) 20 = 0 /\ get16 (ip4_checksum hdr_ex) 10 <> 0.
Proof.
  split; [|by vm_compute].
  apply (ip4_checksum_verifies hdr_ex); [|simpl; lia|by vm_compute].
  repeat constructor; done.
Defined.

(** The sum of the pseudo header. *)
Definition pseudo_sum (ip : bytes) (len : Z) : Z :=
  Z.land (Z.shiftr (get32 ip 12) 16) 0xFFFF + Z.land (get32 ip 12) 0xFFFF +
  Z.land (Z.shiftr (get32 ip 16) 16) 0xFFFF + Z.land (get32 ip 16) 0xFFFF +
  htons (byte_at ip 9) + len.

Lemma land_ffff x : 0 <= Z.land x 0xFFFF < 65536.
Proof. change 0xFFFF with (Z.ones 16). rewrite Z.land_ones by lia. apply Z.mod_pos_bound. lia. Qed.

(** The UDP sum as a sum of integers; it stays far below 2^32. *)
Lemma udp_sum_spec ip udp data :
  Forall is_byte ip -> Forall is_byte udp -> Forall is_byte data -> 8 <= ntohs (get16 udp 4) ->
  exists d, (forall u, Forall is_byte u -> get16 u 4 = get16 udp 4 ->
      udp_sum ip u data = pseudo_sum ip (get16 udp 4) + wsum 4 u + d) /\
    0 <= pseudo_sum ip (get16 udp 4) + wsum 4 udp + d /\
    pseudo_sum ip (get16 udp 4) + 5 * 65535 + d + 65535 < 4294967296.
Proof.
  intros Hi Hu Hd Hn. set (size := ntohs (get16 udp 4) - 8).
  assert (0 <= size < 65536) as Hs.
  { pose proof (u16_range (Z.lor (Z.land (Z.shiftr (get16 udp 4) 8) 0xFF)
                             (Z.shiftl (Z.land (get16 udp 4) 0xFF) 8))).
    unfold size, ntohs, htons in *. lia. }
  pose proof (land_ffff (Z.shiftr (get32 ip 12) 16)). pose proof (land_ffff (get32 ip 12)).
  pose proof (land_ffff (Z.shiftr (get32 ip 16) 16)). pose proof (land_ffff (get32 ip 16)).
  pose proof (get16_range udp 4 Hu). assert (0 <= htons (byte_at ip 9) < 65536) by apply u16_range.
  assert (0 <= pseudo_sum ip (get16 udp 4) <= 6 * 65535) as Hp by (unfold pseudo_sum; lia).
  exists (wsum (nwords size) data + if negb (rest size =? 0) then byte_at data (2 * nwords size) else 0).
  pose proof (wsum_range (nwords size) data Hd). pose proof (wsum_range 4 udp Hu).
  pose proof (byte_at_range data (2 * nwords size) Hd) as Hby. unfold is_byte in Hby.
  assert (Z.of_nat (nwords size) <= 32768) by (unfold nwords; dlia).
  split; [|destruct (negb _); lia].
  intros u Hub E. unfold udp_sum. rewrite E. fold size.
  pose proof (wsum_range 4 u Hub). unfold pseudo_sum in *.
  set (a := Z.land (Z.shiftr (get32 ip 12) 16) _) in *. set (b := Z.land (get32 ip 12) _) in *.
  set (c := Z.land (Z.shiftr (get32 ip 16) 16) _) in *. set (d := Z.land (get32 ip 16) _) in *.
  rewrite (u32_small a), (u32_small (a + b)), (u32_small (a + b + c)), (u32_small (a + b + c + d)),
    (u32_small (a + b + c + d + _)), (u32_small (a + b + c + d + _ + _)) by lia. rewrite sum_words_spec by (done || lia).
  rewrite sum_bytes_spec by (done || lia || dlia). lia.
Qed.


Definition udp_ex : bytes := [0; 68; 0; 67; 0; 11; 1; 2].


Lemma ntohs_htons_witness : ntohs (htons 0x1234) = 0x1234.
Proof. apply ntohs_htons. lia. Defined.
End Net.
