(* ===== verification/Ne.v ===== *)
(** * Ne: the NE2000 Ethernet driver (eth/ne.c, eth/ne.h, eth/eth.c)

    The driver talks to a DP8390 controller through I/O ports; the rep ins and
    rep outs instructions are block events that carry the width and the count
    of the transfer.  ne_t is a record; a buffer that the driver fills is
    returned as the bytes it holds afterwards. *)
From S2P Require Import Prelude Kmonad Console Irq.
From stdpp Require Import options.

Module Ne.

Definition DP_PAGESIZE : Z := 256.
Definition SENDQ_PAGES : Z := 6.
Definition SENDQ_LEN : Z := 2.

Abbreviation DP_CR := (0x00)%Z (only parsing).
Abbreviation DP_PSTART := (0x01)%Z (only parsing).
Abbreviation DP_PSTOP := (0x02)%Z (only parsing).
Abbreviation DP_BNRY := (0x03)%Z (only parsing).
Abbreviation DP_TPSR := (0x04)%Z (only parsing).
Abbreviation DP_TBCR0 := (0x05)%Z (only parsing).
Abbreviation DP_TBCR1 := (0x06)%Z (only parsing).
Abbreviation DP_ISR := (0x07)%Z (only parsing).
Abbreviation DP_CRDA0 := (0x08)%Z (only parsing).
Abbreviation DP_CRDA1 := (0x09)%Z (only parsing).
Abbreviation DP_RSAR0 := (0x08)%Z (only parsing).
Abbreviation DP_RSAR1 := (0x09)%Z (only parsing).
Abbreviation DP_RBCR0 := (0x0A)%Z (only parsing).
Abbreviation DP_RBCR1 := (0x0B)%Z (only parsing).
Abbreviation DP_RCR := (0x0C)%Z (only parsing).
Abbreviation DP_CNTR0 := (0x0D)%Z (only parsing).
Abbreviation DP_TCR := (0x0D)%Z (only parsing).
Abbreviation DP_DCR := (0x0E)%Z (only parsing).
Abbreviation DP_IMR := (0x0F)%Z (only parsing).

Abbreviation DP_PAR0 := (0x01)%Z (only parsing).
Abbreviation DP_CURR := (0x07)%Z (only parsing).
Abbreviation DP_MAR0 := (0x08)%Z (only parsing).
Abbreviation DP_MAR5 := (0x0D)%Z (only parsing).

Abbreviation CR_STP := (0x01)%Z (only parsing).
Abbreviation CR_STA := (0x02)%Z (only parsing).
Abbreviation CR_TXP := (0x04)%Z (only parsing).
Abbreviation CR_DM_RR := (0x08)%Z (only parsing).
Abbreviation CR_DM_RW := (0x10)%Z (only parsing).
Abbreviation CR_NO_DMA := (0x20)%Z (only parsing).
Abbreviation CR_PS_P0 := (0x00)%Z (only parsing).
Abbreviation CR_PS_P1 := (0x40)%Z (only parsing).

Abbreviation ISR_PRX := (0x01)%Z (only parsing).
Abbreviation ISR_PTX := (0x02)%Z (only parsing).
Abbreviation RSR_PRX := (0x01)%Z (only parsing).

Abbreviation NE_DATA := (0x10)%Z (only parsing).
Abbreviation NE_RESET := (0x1F)%Z (only parsing).
Abbreviation NE1000_START := (0x2000)%Z (only parsing).
Abbreviation NE1000_SIZE := (0x2000)%Z (only parsing).
Abbreviation NE2000_START := (0x4000)%Z (only parsing).
Abbreviation NE2000_SIZE := (0x4000)%Z (only parsing).

Definition ETH_MIN_SIZE : Z := 60.
Definition ETH_MAX_SIZE : Z := 1514.

(** ne_t; sendq is the list of (filled, sendpage). *)
Record ne_t : Type := mkne {
  nname : bytes; nirq : Z; base : Z; address : bytes; is16bit : bool; ramsize : Z; pages : Z;
  startaddr : Z; send_startpage : Z; send_stoppage : Z; recv_startpage : Z; recv_stoppage : Z;
  sendq : list (bool * Z); sendq_head : Z; sendq_tail : Z
}.

Definition ne0 : ne_t :=
  mkne (replicate 8 0) 0 0 (replicate 6 0) false 0 0 0 0 0 0 0 [(false, 0); (false, 0)] 0 0.

Definition set_16bit (b : bool) (n : ne_t) : ne_t :=
  mkne (nname n) (nirq n) (base n) (address n) b (ramsize n) (pages n) (startaddr n)
    (send_startpage n) (send_stoppage n) (recv_startpage n) (recv_stoppage n) (sendq n)
    (sendq_head n) (sendq_tail n).
Definition set_address (a : bytes) (n : ne_t) : ne_t :=
  mkne (nname n) (nirq n) (base n) a (is16bit n) (ramsize n) (pages n) (startaddr n)
    (send_startpage n) (send_stoppage n) (recv_startpage n) (recv_stoppage n) (sendq n)
    (sendq_head n) (sendq_tail n).
Definition set_sendq (q : list (bool * Z)) (h t : Z) (n : ne_t) : ne_t :=
  mkne (nname n) (nirq n) (base n) (address n) (is16bit n) (ramsize n) (pages n) (startaddr n)
    (send_startpage n) (send_stoppage n) (recv_startpage n) (recv_stoppage n) q h t.

Definition reg (r : Z) : K ne_t Z := b <- gets base ;; inb (b + r).
Definition wreg (r v : Z) : K ne_t unit := b <- gets base ;; outb (b + r) (u8 v).
Definition wregs (l : list (Z * Z)) : K ne_t unit := kforeach l (fun p => wreg (fst p) (snd p)).

(** insb, insw, outsb and outsw on the data port: [cnt] items of the width. *)
Definition ins (width cnt : Z) : K ne_t bytes := b <- gets base ;; trigger (EIns (b + NE_DATA) width cnt).
Definition outs (width : Z) (data : bytes) : K ne_t unit :=
  b <- gets base ;; trigger (EOuts (b + NE_DATA) width data).

(** ** ne_probe *)

(** The wait for the reset interrupt; the counter gives up after 10002 polls. *)
Fixpoint reset_wait (n : nat) : K ne_t bool :=
  match n with
  | O => kret false
  | S n' => v <- reg DP_ISR ;; if v =? 0 then reset_wait n' else kret true
  end.

(** The PROM, two reads per round: the bytes, and whether all pairs agree. *)
Fixpoint read_prom (n : nat) (acc : bytes) (same : bool) : K ne_t (bytes * bool) :=
  match n with
  | O => kret (acc, same)
  | S n' =>
      a <- reg NE_DATA ;;
      b <- reg NE_DATA ;;
      read_prom n' (acc ++ [a; b]) (same && (a =? b))
  end.

(** for(i < 16) eprom[i] = eprom[i*2] *)
Definition normalize (eprom : bytes) : bytes :=
  foldl (fun e i => <[i := byte_at e (i * 2)]> e) eprom (seq 0 16).

Definition probe_seq : list (Z * Z) :=
  [(DP_CR, Z.lor CR_NO_DMA (Z.lor CR_PS_P0 CR_STP)); (DP_DCR, Z.lor 0x08 0x40);
   (DP_RBCR0, 0); (DP_RBCR1, 0); (DP_RCR, 0x20); (DP_TCR, 0x02); (DP_ISR, 0xFF); (DP_IMR, 0);
   (DP_RBCR0, 32); (DP_RBCR1, 0); (DP_RSAR0, 0); (DP_RSAR1, 0);
   (DP_CR, Z.lor CR_PS_P0 (Z.lor CR_DM_RR CR_STA))].

Definition ne_probe : K ne_t bool :=
  reg0 <- reg DP_CR ;;
  if reg0 =? 0xFF then kret false
  else
    wreg DP_CR (Z.lor CR_STP (Z.lor CR_NO_DMA CR_PS_P1)) ;;
    regd <- reg DP_MAR5 ;;
    wreg DP_MAR5 0xFF ;;
    wreg DP_CR (Z.lor CR_NO_DMA CR_PS_P0) ;;
    reg DP_CNTR0 ;;
    c <- reg DP_CNTR0 ;;
    if negb (c =? 0) then
      wreg DP_CR reg0 ;;
      wreg DP_TCR regd ;;
      cprintf "%s: This is not NEx000.\n" ;;
      kret false
    else
      v <- reg NE_RESET ;;
      wreg NE_RESET v ;;
      ok <- reset_wait 10002 ;;
      if negb (ok : bool) then cprintf "%s: NIC reset failure\n" ;; kret false
      else
        wreg DP_ISR 0xFF ;;
        wregs probe_seq ;;
        let* (eprom, same) <- read_prom 16 [] true ;;
        modify (set_16bit same) ;;
        let eprom := if (same : bool) then normalize eprom else eprom in
        if negb (byte_at eprom 14 =? 0x57) || negb (byte_at eprom 15 =? 0x57) then kret false
        else modify (set_address (take 6 eprom)) ;; kret true.

(** ** ne_init *)

(** The page computations and the empty send queue. *)
Definition layout (n : ne_t) : ne_t :=
  let ram := if is16bit n then NE2000_SIZE else NE1000_SIZE in
  let start := if is16bit n then NE2000_START else NE1000_START in
  let pg := ram / DP_PAGESIZE in
  let sstart := start / DP_PAGESIZE in
  let sstop := sstart + SENDQ_PAGES * SENDQ_LEN - 1 in
  mkne (nname n) (nirq n) (base n) (address n) (is16bit n) ram pg start sstart sstop
    (sstop + 1) (sstart + pg)
    ((fun i => (false, sstart + Z.of_nat i * SENDQ_PAGES)) <$> seq 0 (Z.to_nat SENDQ_LEN))
    0 (SENDQ_LEN - 1).

Definition init_seq (n : ne_t) : list (Z * Z) :=
  [(DP_CR, Z.lor CR_PS_P0 (Z.lor CR_STP CR_NO_DMA));
   (DP_DCR, Z.lor (if is16bit n then 0x01 else 0x00) (Z.lor 0x40 0x08));
   (DP_RCR, 0x20); (DP_RBCR0, 0); (DP_RBCR1, 0); (DP_TCR, 0x02);
   (DP_PSTART, recv_startpage n); (DP_PSTOP, recv_stoppage n); (DP_BNRY, recv_startpage n);
   (DP_ISR, 0xFF); (DP_IMR, 0x3F); (DP_CR, Z.lor CR_PS_P1 CR_NO_DMA)]
  ++ ((fun i => (DP_PAR0 + Z.of_nat i, byte_at (address n) i)) <$> seq 0 6)
  ++ ((fun i => (DP_MAR0 + Z.of_nat i, 0xFF)) <$> seq 0 8)
  ++ [(DP_CURR, recv_startpage n + 1); (DP_CR, Z.lor CR_STA CR_NO_DMA); (DP_TCR, 0); (DP_RCR, 0x10)].

Definition ne_init : K ne_t unit :=
  modify layout ;;
  cprintf "%s: NE%d000 (%dkB RAM) at 0x%x:%d - " ;;
  kforeach (seq 0 6) (fun _ => cprintf "%x%s") ;;
  n <- gets (fun n => n) ;;
  wregs (init_seq n).

(** ** Remote DMA *)

(** The registers for a transfer of [size] bytes at [addr] of the NIC's RAM. *)
Definition rdma_regs (mode addr size : Z) : K ne_t unit :=
  wreg DP_RSAR0 (Z.land addr 0xFF) ;;
  wreg DP_RSAR1 (Z.land (Z.shiftr addr 8) 0xFF) ;;
  wreg DP_RBCR0 (Z.land size 0xFF) ;;
  wreg DP_RBCR1 (Z.land (Z.shiftr size 8) 0xFF) ;;
  wreg DP_CR (Z.lor mode (Z.lor CR_PS_P0 CR_STA)).

(** ne_getblock with the setup of a read, which has no dummy transfer: the
    bytes stored at dst.  [size] is the count of the rep instruction whatever
    its width. *)
Definition ne_getblock (addr size : Z) : K ne_t bytes :=
  rdma_regs CR_DM_RR (u16 addr) size ;;
  w <- gets is16bit ;;
  if (w : bool) then ins 2 size else ins 1 size.

Definition crda : K ne_t Z :=
  lo <- reg DP_CRDA0 ;;
  hi <- reg DP_CRDA1 ;;
  kret (Z.lor lo (Z.land (Z.shiftl hi 8) 0xFF00)).

(** do ... while(oldcrda == newcrda) *)
Fixpoint crda_wait (fuel : nat) (old : Z) : K ne_t unit :=
  match fuel with
  | O => diverge
  | S fuel' => new <- crda ;; if old =? new then crda_wait fuel' old else kret tt
  end.

Definition ne_rdma_setup (fuel : nat) (mode addr size : Z) : K ne_t unit :=
  (if mode =? CR_DM_RW then
     safeloc <- gets (fun n => u16 (startaddr n - 4)) ;;
     old <- crda ;;
     ne_getblock safeloc 4 ;;
     crda_wait fuel old
   else kret tt) ;;
  rdma_regs mode (u16 addr) size.

Definition ne_start_xmit (page size : Z) : K ne_t unit :=
  wreg DP_TPSR page ;;
  wreg DP_TBCR0 (Z.land size 0xFF) ;;
  wreg DP_TBCR1 (Z.land (Z.shiftr size 8) 0xFF) ;;
  wreg DP_CR (Z.lor CR_PS_P0 (Z.lor CR_NO_DMA (Z.lor CR_STA CR_TXP))).

(** ** Sending; [packet] is the memory from the packet on *)

Definition slot (n : ne_t) (q : Z) : bool * Z := nth (Z.to_nat q) (sendq n) (false, 0).

Definition set_filled (q : Z) (b : bool) (n : ne_t) : list (bool * Z) :=
  <[Z.to_nat q := (b, snd (slot n q))]> (sendq n).

Definition ne_pio_write (fuel : nat) (packet : nat -> Z) (size : Z) : K ne_t Z :=
  n <- gets (fun n => n) ;;
  let q := Z.rem (sendq_head n) SENDQ_LEN in
  if fst (slot n q) || (sendq_tail n <? sendq_head n) then
    cprintf "%s: all transmitting buffers in NIC are busy.\n" ;;
    kret 0
  else
    ne_rdma_setup fuel CR_DM_RW (snd (slot n q) * DP_PAGESIZE) size ;;
    (if is16bit n then outs 2 (packet <$> seq 0 (2 * Z.to_nat size))
     else outs 1 (packet <$> seq 0 (Z.to_nat size))) ;;
    modify (fun n => set_sendq (set_filled q true n) (sendq_head n) (sendq_tail n) n) ;;
    ne_start_xmit (snd (slot n q)) size ;;
    modify (fun n => set_sendq (sendq n) (i32 (sendq_head n + 1)) (sendq_tail n) n) ;;
    kret size.

(** ** Receiving *)

Definition recv_page (n : ne_t) (bnry : Z) : Z :=
  if bnry + 1 =? recv_stoppage n then recv_startpage n else bnry + 1.

(** The new value of BNRY: one page before the next packet. *)
Definition next_bnry (n : ne_t) (next : Z) : Z :=
  let bnry := u32 (next - 1) in
  if bnry <? u32 (recv_startpage n) then recv_stoppage n - 1 else bnry.

(** The copy of a packet of [pktsize] bytes at [page] into buf, and the move
    of BNRY; [next] is the header's next page. *)
Definition read_packet (n : ne_t) (page pktsize next : Z) (b : bytes) : K ne_t (Z * option bytes) :=
  let remain := (recv_stoppage n - page) * DP_PAGESIZE in
  b' <- (if u32 remain <? pktsize then
           d1 <- ne_getblock (page * DP_PAGESIZE + 4) remain ;;
           d2 <- ne_getblock (recv_startpage n * DP_PAGESIZE) (pktsize - remain) ;;
           kret (splice (splice b 0 d1) 0 d2)
         else
           d <- ne_getblock (page * DP_PAGESIZE + 4) pktsize ;;
           kret (splice b 0 d)) ;;
  wreg DP_BNRY (next_bnry n next) ;;
  kret (pktsize, Some b').

(** ne_pio_read: the value, and the contents of buf ([None] is buf == 0). *)
Definition ne_pio_read (buf : option bytes) (bufsize : Z) : K ne_t (Z * option bytes) :=
  wreg DP_CR CR_PS_P1 ;;
  curr <- reg DP_CURR ;;
  wreg DP_CR (Z.lor CR_PS_P0 (Z.lor CR_NO_DMA CR_STA)) ;;
  bnry <- reg DP_BNRY ;;
  n <- gets (fun n => n) ;;
  let page := recv_page n bnry in
  if page =? curr then cprintf "%s: no packet to read\n" ;; kret (0, buf)
  else
    h <- ne_getblock (page * DP_PAGESIZE) 4 ;;
    let pktsize := u32 (Z.lor (byte_at h 2) (Z.shiftl (byte_at h 3) 8) - 4) in
    if (pktsize <? ETH_MIN_SIZE) || (ETH_MAX_SIZE <? pktsize) then
      cprintf "%s: Packet with strange length arrived: %d\n" ;; kret (-1, buf)
    else if Z.land (byte_at h 0) RSR_PRX =? 0 then
      cprintf "%s: Bad status: %d\n" ;; kret (-1, buf)
    else
      match buf with
      | None => kret (pktsize, buf)
      | Some b =>
          if u32 bufsize <? pktsize then kret (pktsize, buf)
          else read_packet n page pktsize (byte_at h 1) b
      end.

(** One round of the loop of ne_interrupt. *)
Definition ne_event (isr : Z) : K ne_t unit :=
  wreg DP_ISR isr ;;
  (if negb (Z.land isr ISR_PTX =? 0) then
     modify (fun n => set_sendq (sendq n) (sendq_head n) (i32 (sendq_tail n + 1)) n) ;;
     modify (fun n => set_sendq (set_filled (Z.rem (sendq_tail n) SENDQ_LEN) false n)
                        (sendq_head n) (sendq_tail n) n) ;;
     cprintf "%s: packet transmitted with no error.\n"
   else kret tt) ;;
  if negb (Z.land isr ISR_PRX =? 0) then cprintf "%s: packet received with no error.\n" else kret tt.

Fixpoint ne_interrupt (fuel : nat) : K ne_t unit :=
  match fuel with
  | O => diverge
  | S fuel' =>
      isr <- reg DP_ISR ;;
      if isr =? 0 then kret tt else ne_event isr ;; ne_interrupt fuel'
  end.

(** ** eth.c *)

Definition ethintr (fuel : nat) : K ne_t unit := ne_interrupt fuel.

Definition ethioctl (request : Z) : K ne_t Z :=
  (if request =? 1 then
     cprintf "%s: ETH_IPC_SETUP isn't still implemented because of no IPC\n" else kret tt) ;;
  kret 0.

Definition ethread (p : bytes) (n : Z) : K ne_t (Z * option bytes) := ne_pio_read (Some p) n.

Definition ethwrite (fuel : nat) (p : nat -> Z) (n : Z) : K ne_t Z := ne_pio_write fuel p n.

Definition ports : list Z := [0x300; 0xC100; 0x240; 0x280; 0x320; 0x340; 0x360].

(** The loop of ethinit, from port [i] on; [enable] is picenable and
    ioapicenable for IRQ_ETH. *)
Fixpoint ethinit_loop (enable : Z -> K ne_t unit) (l : list Z) (i : Z) : K ne_t unit :=
  match l with
  | [] => kret tt
  | port :: r =>
      cprintf "Ethernet: Initialize port %d.\n" ;;
      modify (fun _ => mkne (splice (replicate 8 0) 0 (chars "eth" ++ [48 + i; 0])) 11 port
                         (replicate 6 0) false 0 0 0 0 0 0 0 [(false, 0); (false, 0)] 0 0) ;;
      found <- ne_probe ;;
      if (found : bool) then ne_init ;; enable 11
      else ethinit_loop enable r (i + 1)
  end.

Definition ethinit (enable : Z -> K ne_t unit) : K ne_t unit := ethinit_loop enable ports 0.
End Ne.
