(* ===== verification/NeSpec.v ===== *)
(** * NeSpec: the Ethernet driver against a DP8390 controller

    The layout of the NIC's memory, the send queue, and the transfer of
    packets; [nic] is the controller's documented behaviour: a register file
    with pages selected by the command register, remote DMA through the data
    port, a transmit command, and an interrupt status cleared by writing ones.
    The last section records where the 16-bit transfers and the wrap-around of
    the receive ring go wrong. *)
From S2P Require Import Prelude Kmonad Ne.
From stdpp Require Import options.

Module NeSpec.
Import Ne.

(** ** The layout of the NIC's memory *)

(** The buffer pages that ne_init computes: all lie in the NIC's memory,
    the send slots do not overlap and each holds a packet of the maximal size,
    and the receive ring begins after the send slots and ends with the memory;
    page numbers fit the controller's 8-bit registers. *)
Theorem layout_spec n :
  let n' := layout n in
  let first := startaddr n' / DP_PAGESIZE in
  let last := (startaddr n' + ramsize n') / DP_PAGESIZE in
  length (sendq n') = 2%nat /\
  (forall i, (i < 2)%nat ->
     fst (slot n' (Z.of_nat i)) = false /\
     first <= snd (slot n' (Z.of_nat i)) /\
     snd (slot n' (Z.of_nat i)) + SENDQ_PAGES <= recv_startpage n') /\
  snd (slot n' 0) + SENDQ_PAGES <= snd (slot n' 1) /\
  ETH_MAX_SIZE <= SENDQ_PAGES * DP_PAGESIZE /\
  send_stoppage n' < recv_startpage n' /\ recv_startpage n' + 6 <= recv_stoppage n' /\
  recv_stoppage n' = last /\ last < 256 /\ sendq_head n' <= sendq_tail n'.
Proof.
  destruct n as [nm irq b ad w rs pg sa ss sp rst rsp q h t]. destruct w; vm_compute;
    (split_and!; try done); intros [|[|i]] Hi; try lia; by split_and!.
Qed.

(** ** The controller *)

(** cr; the remote DMA address and count; the NIC's memory; CURR, BNRY and
    ISR; TPSR and TBCR; the frames given to the transmitter. *)
Record nic : Type := mknic {
  cr : Z; rsar : Z; rbcr : Z; nram : Z -> Z; ncurr : Z; nbnry : Z; nisr : Z;
  tpsr : Z; tbcr : Z; sent : list bytes
}.

Definition page1 (w : nic) : bool := negb (Z.land (cr w) 0xC0 =? 0).

Definition ram_bytes (f : Z -> Z) (a : Z) (n : nat) : bytes := (fun i => f (a + Z.of_nat i)) <$> seq 0 n.

Definition nic_in (r : Z) (w : nic) : Z :=
  if r =? DP_CR then cr w
  else if r =? DP_ISR then if page1 w then ncurr w else nisr w
  else if page1 w then 0
  else if r =? DP_BNRY then nbnry w
  else if r =? DP_CRDA0 then rsar w mod 256
  else if r =? DP_CRDA1 then rsar w / 256
  else 0.

Definition with_cr v w := mknic v (rsar w) (rbcr w) (nram w) (ncurr w) (nbnry w) (nisr w) (tpsr w)
  (tbcr w) (sent w).
Definition with_dma a n w := mknic (cr w) a n (nram w) (ncurr w) (nbnry w) (nisr w) (tpsr w)
  (tbcr w) (sent w).
Definition with_ram m w := mknic (cr w) (rsar w) (rbcr w) m (ncurr w) (nbnry w) (nisr w) (tpsr w)
  (tbcr w) (sent w).
Definition with_ring c b w := mknic (cr w) (rsar w) (rbcr w) (nram w) c b (nisr w) (tpsr w)
  (tbcr w) (sent w).
Definition with_isr i w := mknic (cr w) (rsar w) (rbcr w) (nram w) (ncurr w) (nbnry w) i (tpsr w)
  (tbcr w) (sent w).
Definition with_tx p n w := mknic (cr w) (rsar w) (rbcr w) (nram w) (ncurr w) (nbnry w) (nisr w) p n
  (sent w).
Definition with_sent l w := mknic (cr w) (rsar w) (rbcr w) (nram w) (ncurr w) (nbnry w) (nisr w)
  (tpsr w) (tbcr w) l.

(** A write to the command register with TXP set sends TBCR bytes from page
    TPSR. *)
Definition nic_out (r v : Z) (w : nic) : nic :=
  if r =? DP_CR then
    with_cr v (if Z.land v CR_TXP =? 0 then w
      else with_sent (sent w ++ [ram_bytes (nram w) (tpsr w * DP_PAGESIZE) (Z.to_nat (tbcr w))]) w)
  else if page1 w then if r =? DP_CURR then with_ring v (nbnry w) w else w
  else if r =? DP_BNRY then with_ring (ncurr w) v w
  else if r =? DP_TPSR then with_tx v (tbcr w) w
  else if r =? DP_TBCR0 then with_tx (tpsr w) (tbcr w / 256 * 256 + v) w
  else if r =? DP_TBCR1 then with_tx (tpsr w) (v * 256 + tbcr w mod 256) w
  else if r =? DP_ISR then with_isr (Z.land (nisr w) (Z.lnot v)) w
  else if r =? DP_RSAR0 then with_dma (rsar w / 256 * 256 + v) (rbcr w) w
  else if r =? DP_RSAR1 then with_dma (v * 256 + rsar w mod 256) (rbcr w) w
  else if r =? DP_RBCR0 then with_dma (rsar w) (rbcr w / 256 * 256 + v) w
  else if r =? DP_RBCR1 then with_dma (rsar w) (v * 256 + rbcr w mod 256) w
  else w.

(** A block read gives the bytes the DMA count allows, then zeros; a block
    write stores at most the count.  The address advances by what moved. *)
Definition nic_ins (width cnt : Z) (w : nic) : bytes * nic :=
  let want := Z.to_nat (width * cnt) in
  let n := Nat.min want (Z.to_nat (rbcr w)) in
  (ram_bytes (nram w) (rsar w) n ++ replicate (want - n) 0,
   with_dma (rsar w + Z.of_nat n) (rbcr w - Z.of_nat n) w).

Definition nic_outs (data : bytes) (w : nic) : nic :=
  let n := Nat.min (length data) (Z.to_nat (rbcr w)) in
  with_ram (fun a => if (rsar w <=? a) && (a <? rsar w + Z.of_nat n)
                     then byte_at data (Z.to_nat (a - rsar w)) else nram w a)
    (with_dma (rsar w + Z.of_nat n) (rbcr w - Z.of_nat n) w).

Section Nic.
Variable (b0 : Z).

Definition nic_hw : handler nic ne_t := fun e w s =>
  match e as e0 return option (ans e0 * nic * ne_t) with
  | EInb p => Some (nic_in (p - b0) w, w, s)
  | EOutb p v => Some (tt, nic_out (p - b0) v w, s)
  | EIns p width cnt => let (d, w') := nic_ins width cnt w in Some (d, w', s)
  | EOuts p width data => Some (tt, nic_outs data w, s)
  | ECprintf _ => Some (tt, w, s)
  | _ => None
  end.

Lemma reg_run r w s : base s = b0 -> run nic_hw w (reg r s) = Done (nic_in r w) w s.
Proof.
  intros Hb. unfold reg, inb, trigger. krun. rewrite Hb. simpl.
  by replace (b0 + r - b0) with r by lia.
Qed.

Lemma wreg_run r v w s : base s = b0 -> run nic_hw w (wreg r v s) = Done tt (nic_out r (u8 v) w) s.
Proof.
  intros Hb. unfold wreg, outb, trigger. krun. rewrite Hb. simpl.
  by replace (b0 + r - b0) with r by lia.
Qed.

Lemma ins_run width cnt w s :
  base s = b0 -> run nic_hw w (ins width cnt s) = Done (nic_ins width cnt w).1 (nic_ins width cnt w).2 s.
Proof. intros Hb. unfold ins, trigger. krun. done. Qed.

Lemma outs_run width d w s :
  base s = b0 -> run nic_hw w (outs width d s) = Done tt (nic_outs d w) s.
Proof. intros Hb. unfold outs, trigger. krun. done. Qed.

Lemma cprintf_run m w s : run nic_hw w (cprintf m s) = Done tt w s.
Proof. done. Qed.
End Nic.

(** Page 0 writes. *)
Section Page0.
Context (w : nic) (Hp : page1 w = false).

Lemma out_rsar0 v : nic_out DP_RSAR0 v w = with_dma (rsar w / 256 * 256 + v) (rbcr w) w.
Proof using Hp. unfold nic_out. by rewrite Hp. Qed.
Lemma out_rsar1 v : nic_out DP_RSAR1 v w = with_dma (v * 256 + rsar w mod 256) (rbcr w) w.
Proof using Hp. unfold nic_out. by rewrite Hp. Qed.
Lemma out_rbcr0 v : nic_out DP_RBCR0 v w = with_dma (rsar w) (rbcr w / 256 * 256 + v) w.
Proof using Hp. unfold nic_out. by rewrite Hp. Qed.
Lemma out_rbcr1 v : nic_out DP_RBCR1 v w = with_dma (rsar w) (v * 256 + rbcr w mod 256) w.
Proof using Hp. unfold nic_out. by rewrite Hp. Qed.
Lemma out_tpsr v : nic_out DP_TPSR v w = with_tx v (tbcr w) w.
Proof using Hp. unfold nic_out. by rewrite Hp. Qed.
Lemma out_tbcr0 v : nic_out DP_TBCR0 v w = with_tx (tpsr w) (tbcr w / 256 * 256 + v) w.
Proof using Hp. unfold nic_out. by rewrite Hp. Qed.
Lemma out_tbcr1 v : nic_out DP_TBCR1 v w = with_tx (tpsr w) (v * 256 + tbcr w mod 256) w.
Proof using Hp. unfold nic_out. by rewrite Hp. Qed.
Lemma out_bnry v : nic_out DP_BNRY v w = with_ring (ncurr w) v w.
Proof using Hp. unfold nic_out. by rewrite Hp. Qed.
Lemma out_isr v : nic_out DP_ISR v w = with_isr (Z.land (nisr w) (Z.lnot v)) w.
Proof using Hp. unfold nic_out. by rewrite Hp. Qed.
End Page0.

Lemma out_cr v w : Z.land v CR_TXP = 0 -> nic_out DP_CR v w = with_cr v w.
Proof. intros H. unfold nic_out. simpl. by rewrite H. Qed.

Lemma u8_land x : u8 (Z.land x 0xFF) = x mod 256.
Proof. change 0xFF with (Z.ones 8). rewrite Z.land_ones by lia. unfold u8. change (2 ^ 8) with 256. dlia. Qed.

Lemma rdma_regs_run b0 mode addr size w s :
  base s = b0 -> page1 w = false -> mode = CR_DM_RR \/ mode = CR_DM_RW ->
  0 <= addr < 65536 -> 0 <= size < 65536 ->
  run (nic_hw b0) w (rdma_regs mode addr size s) =
    Done tt (with_cr (Z.lor mode CR_STA) (with_dma addr size w)) s.
Proof.
  intros Hb Hp Hm Ha Hs. unfold rdma_regs. krun. do 5 (rewrite wreg_run by done; krun). f_equal.
  rewrite !u8_land, !Z.shiftr_div_pow2 by lia. change (2 ^ 8) with 256.
  rewrite (out_rsar0 w), out_rsar1, out_rbcr0, out_rbcr1 by done.
  rewrite out_cr by (by destruct Hm as [-> | ->]).
  replace (u8 (Z.lor mode (Z.lor CR_PS_P0 CR_STA))) with (Z.lor mode CR_STA)
    by (by destruct Hm as [-> | ->]).
  f_equal. unfold with_dma. cbn [rsar rbcr cr nram ncurr nbnry nisr tpsr tbcr sent]. f_equal; dlia.
Qed.

Lemma length_ram_bytes f a n : length (ram_bytes f a n) = n.
Proof. unfold ram_bytes. by rewrite length_fmap, length_seq. Qed.

Lemma byte_at_ram_bytes f a n i : (i < n)%nat -> byte_at (ram_bytes f a n) i = f (a + Z.of_nat i).
Proof.
  intros. apply byte_at_lookup. unfold ram_bytes. by rewrite list_lookup_fmap, lookup_seq_lt.
Qed.

(** A read of [size] bytes on an 8-bit NIC. *)
Lemma getblock_run b0 addr size w s :
  base s = b0 -> is16bit s = false -> page1 w = false -> 0 <= addr < 65536 -> 0 <= size < 65536 ->
  run (nic_hw b0) w (ne_getblock addr size s) =
    Done (ram_bytes (nram w) addr (Z.to_nat size))
      (with_cr (Z.lor CR_DM_RR CR_STA) (with_dma (addr + size) 0 w)) s.
Proof.
  intros Hb H16 Hp Ha Hs. unfold ne_getblock. krun.
  assert (u16 addr = addr) as -> by (by apply Z.mod_small).
  rewrite rdma_regs_run by auto. krun. rewrite H16, ins_run by done.
  unfold nic_ins. cbn [rbcr rsar nram with_cr with_dma cr]. rewrite Z.mul_1_l, Nat.min_id, Nat.sub_diag.
  cbn [replicate fst snd]. rewrite app_nil_r. rewrite Z2Nat.id by lia.
  by rewrite Z.sub_diag.
Qed.

(** The start of a read: CURR and BNRY are fetched, page 0 is selected. *)
Definition read_start (w : nic) : nic := with_cr (Z.lor CR_NO_DMA CR_STA) w.

(** A well-formed packet of [size] bytes at the head of the ring of an 8-bit
    NIC, and a buffer with room for it. *)
Record ready (b0 : Z) (w : nic) (s : ne_t) (buf : bytes) (size : Z) : Prop := mkready {
  r_base : base s = b0;
  r_8bit : is16bit s = false;
  r_some : recv_page s (nbnry w) <> ncurr w;
  r_page : 0 <= recv_page s (nbnry w) < recv_stoppage s;
  r_stop : recv_stoppage s < 255;
  r_start : 0 <= recv_startpage s < 255;
  r_size : ETH_MIN_SIZE <= size <= ETH_MAX_SIZE;
  r_ram : forall x, is_byte (nram w x);
  r_len : let a := recv_page s (nbnry w) * DP_PAGESIZE in
          nram w (a + 2) + 256 * nram w (a + 3) = size + 4;
  r_status : Z.land (nram w (recv_page s (nbnry w) * DP_PAGESIZE)) RSR_PRX <> 0;
  r_room : size <= Z.of_nat (length buf) < 2147483648
}.

(** The checks of ne_pio_read pass. *)
Lemma read_head b0 w s buf size :
  ready b0 w s buf size ->
  let page := recv_page s (nbnry w) in
  exists w', run (nic_hw b0) w (ne_pio_read (Some buf) (Z.of_nat (length buf)) s) =
      run (nic_hw b0) w' (read_packet s page size (nram w (page * DP_PAGESIZE + 1)) buf s) /\
    page1 w' = false /\ nram w' = nram w /\ ncurr w' = ncurr w.
Proof.
  intros [Hb H16 Hne Hpg Hstop Hstart Hsz Hram Hlen Hst Hbuf] page.
  set (a := page * DP_PAGESIZE). cbv zeta in Hlen. fold page in Hne, Hpg, Hlen, Hst. fold a in Hlen, Hst.
  assert (0 <= a /\ a + 4 < 65536) as Ha by (unfold a, DP_PAGESIZE; lia).
  unfold ETH_MIN_SIZE, ETH_MAX_SIZE in Hsz.
  unfold ne_pio_read. krun. rewrite wreg_run by done. krun. rewrite reg_run by done. krun.
  rewrite wreg_run by done. krun. rewrite reg_run by done. krun.
  change (nic_in DP_CURR (nic_out DP_CR (u8 CR_PS_P1) w)) with (ncurr w).
  change (nic_out DP_CR (u8 (Z.lor CR_PS_P0 (Z.lor CR_NO_DMA CR_STA)))
            (nic_out DP_CR (u8 CR_PS_P1) w)) with (read_start w).
  change (nic_in DP_BNRY (read_start w)) with (nbnry w). fold page.
  assert (page =? ncurr w = false) as -> by (by apply Z.eqb_neq). krun.
  fold a. rewrite getblock_run by (done || lia). krun.
  change (nram (read_start w)) with (nram w).
  rewrite !byte_at_ram_bytes by lia. change (Z.of_nat 0) with 0. change (Z.of_nat 1) with 1.
  change (Z.of_nat 2) with 2. change (Z.of_nat 3) with 3. rewrite Z.add_0_r.
  pose proof (Hram (a + 2)) as Hb2. pose proof (Hram (a + 3)) as Hb3. unfold is_byte in Hb2, Hb3.
  rewrite (Z.lor_comm (nram w (a + 2))), lor_shiftl by (change (2 ^ 8) with 256; lia).
  change (2 ^ 8) with 256. replace (256 * nram w (a + 3) + nram w (a + 2) - 4) with size by lia.
  rewrite (u32_small size) by lia.
  assert ((size <? ETH_MIN_SIZE) || (ETH_MAX_SIZE <? size) = false) as ->.
  { apply orb_false_intro; apply Z.ltb_ge; unfold ETH_MIN_SIZE, ETH_MAX_SIZE; lia. }
  assert (Z.land (nram w a) RSR_PRX =? 0 = false) as -> by (by apply Z.eqb_neq). krun.
  assert (u32 (Z.of_nat (length buf)) <? size = false) as ->.
  { apply Z.ltb_ge. rewrite u32_small; lia. }
  by eexists.
Qed.


(** ** The send queue *)

(** [k] packets are being transmitted: the slots before sendq_head are filled
    and sendq_tail is one round ahead of the oldest. *)
Definition send_inv (k : Z) (n : ne_t) : Prop :=
  length (sendq n) = 2%nat /\ 0 <= k <= 2 /\ 0 <= sendq_head n < 2147483647 /\
  sendq_tail n = sendq_head n + 1 - k /\ k <= sendq_head n /\
  forall j, sendq_head n - k <= j < sendq_head n - k + 2 ->
    fst (slot n (j mod 2)) = (j <? sendq_head n).

Lemma send_inv_layout n : send_inv 0 (layout n).
Proof.
  unfold send_inv, layout. destruct n as [nm irq b ad w rs pg sa ss sp rst rsp q h t]. simpl.
  split_and!; try lia; [done|]. intros j Hj. assert (j = 0 \/ j = 1) as [-> | ->] by lia; done.
Qed.

Lemma slot_set_filled q b n j :
  length (sendq n) = 2%nat -> 0 <= q < 2 -> 0 <= j < 2 ->
  forall h t, fst (slot (set_sendq (set_filled q b n) h t n) j) = (if decide (j = q) then b else fst (slot n j)) /\
    snd (slot (set_sendq (set_filled q b n) h t n) j) = snd (slot n j).
Proof.
  intros Hl Hq Hj h t. unfold slot, set_filled. cbn [sendq set_sendq]. rewrite !nth_lookup.
  case_decide as E.
  - subst j. rewrite list_lookup_insert_eq by lia. unfold slot. rewrite nth_lookup. by split.
  - by rewrite list_lookup_insert_ne by lia.
Qed.

(** Filling the slot at the head, and freeing the oldest one. *)
Lemma send_inv_push k n :
  send_inv k n -> k < 2 -> sendq_head n + 1 < 2147483647 ->
  send_inv (k + 1) (set_sendq (set_filled (sendq_head n mod 2) true n) (sendq_head n + 1) (sendq_tail n) n).
Proof.
  intros (Hl & Hk & Hh & Ht & Hkh & Hf) Hlt Hb. unfold send_inv. cbn [sendq sendq_head sendq_tail set_sendq].
  split; [unfold set_filled; by rewrite length_insert|]. split_and!; try lia.
  intros j Hj. destruct (slot_set_filled (sendq_head n mod 2) true n (j mod 2) Hl) with
    (h := sendq_head n + 1) (t := sendq_tail n) as [-> _]; [dlia|dlia|].
  case_decide as E.
  - symmetry. apply Z.ltb_lt. clear - E Hj Hk Hlt. dlia.
  - assert (j <> sendq_head n) by congruence. rewrite Hf by lia.
    apply eq_bool_prop_intro. rewrite !Is_true_true, !Z.ltb_lt. lia.
Qed.

Lemma send_inv_pop k n :
  send_inv k n -> 0 < k ->
  send_inv (k - 1) (set_sendq (set_filled ((sendq_tail n + 1) mod 2) false n) (sendq_head n) (sendq_tail n + 1) n).
Proof.
  intros (Hl & Hk & Hh & Ht & Hkh & Hf) Hlt. unfold send_inv. cbn [sendq sendq_head sendq_tail set_sendq].
  split; [unfold set_filled; by rewrite length_insert|]. split_and!; try lia.
  intros j Hj. destruct (slot_set_filled ((sendq_tail n + 1) mod 2) false n (j mod 2) Hl) with
    (h := sendq_head n) (t := sendq_tail n + 1) as [-> _]; [dlia|dlia|].
  case_decide as E.
  - symmetry. apply Z.ltb_ge. rewrite Ht in E. clear - E Hj Hlt Hk. dlia.
  - rewrite Ht in E. rewrite <- Hf; [done|]. clear - Hj E. dlia.
Qed.

Lemma slot_head k n :
  send_inv k n -> fst (slot n (sendq_head n mod 2)) || (sendq_tail n <? sendq_head n) = (k =? 2).
Proof.
  intros (Hl & Hk & Hh & Ht & Hkh & Hf). destruct (Z.eqb_spec k 2) as [->|].
  - assert (sendq_tail n <? sendq_head n = true) as -> by (apply Z.ltb_lt; lia). by rewrite orb_true_r.
  - rewrite Hf by lia. rewrite Z.ltb_irrefl. apply Z.ltb_ge. lia.
Qed.

(** The current DMA address read back. *)
Lemma crda_run b0 w s :
  base s = b0 -> page1 w = false -> 0 <= rsar w < 65536 ->
  run (nic_hw b0) w (crda s) = Done (rsar w) w s.
Proof.
  intros Hb Hp Hr. unfold crda. krun. rewrite reg_run by done. krun. rewrite reg_run by done. krun.
  unfold nic_in. simpl. rewrite Hp. f_equal.
  assert (Z.land (Z.shiftl (rsar w / 256) 8) 0xFF00 = Z.shiftl (rsar w / 256) 8) as ->.
  { change 0xFF00 with (Z.shiftl (Z.ones 8) 8). rewrite <- Z.shiftl_land, Z.land_ones by lia.
    f_equal. apply Z.mod_small. change (2 ^ 8) with 256. dlia. }
  rewrite Z.lor_comm, lor_shiftl by (change (2 ^ 8) with 256; dlia). change (2 ^ 8) with 256. dlia.
Qed.

(** The dummy read before a write ends when the DMA address has moved. *)
Lemma rdma_setup_run b0 fuel addr size w s :
  base s = b0 -> is16bit s = false -> page1 w = false -> 0 <= rsar w < 65536 ->
  4 <= startaddr s < 65536 -> rsar w <> startaddr s -> 0 <= addr < 65536 -> 0 <= size < 65536 ->
  run (nic_hw b0) w (ne_rdma_setup (S fuel) CR_DM_RW addr size s) =
    Done tt (with_cr (Z.lor CR_DM_RW CR_STA) (with_dma addr size w)) s.
Proof.
  intros Hb H16 Hp Hr Hs Hne Ha Hz. unfold ne_rdma_setup.
  change (CR_DM_RW =? CR_DM_RW) with true. krun. rewrite crda_run by done. krun.
  assert (u16 (startaddr s - 4) = startaddr s - 4) as -> by (apply Z.mod_small; lia).
  rewrite getblock_run by (done || lia). krun. cbn [crda_wait]. krun.
  rewrite crda_run by (simpl; (done || lia)). krun.
  cbn [rsar with_cr with_dma]. replace (startaddr s - 4 + 4) with (startaddr s) by lia.
  assert (rsar w =? startaddr s = false) as -> by (by apply Z.eqb_neq). krun.
  assert (u16 addr = addr) as -> by (apply Z.mod_small; lia).
  by rewrite rdma_regs_run by auto.
Qed.

Lemma start_xmit_run b0 page size w s :
  base s = b0 -> page1 w = false -> 0 <= page < 256 -> 0 <= size < 65536 ->
  run (nic_hw b0) w (ne_start_xmit page size s) =
    Done tt (with_cr 0x26 (with_sent (sent w ++ [ram_bytes (nram w) (page * DP_PAGESIZE) (Z.to_nat size)])
               (with_tx page size w))) s.
Proof.
  intros Hb Hp Hg Hs. unfold ne_start_xmit. krun. do 4 (rewrite wreg_run by done; krun). f_equal.
  rewrite !u8_land, !Z.shiftr_div_pow2 by lia. change (2 ^ 8) with 256.
  rewrite (out_tpsr w), out_tbcr0, out_tbcr1 by done.
  assert (u8 page = page) as -> by (apply Z.mod_small; lia).
  unfold with_tx. cbn [rsar rbcr cr nram ncurr nbnry nisr tpsr tbcr sent].
  assert ((size / 256) mod 256 * 256 + (tbcr w / 256 * 256 + size mod 256) mod 256 = size) as E by dlia.
  rewrite E. done.
Qed.

(** The driver of an 8-bit NIC whose controller is idle on page 0. *)
Definition idle (b0 : Z) (w : nic) (s : ne_t) : Prop :=
  base s = b0 /\ is16bit s = false /\ page1 w = false /\ 0 <= rsar w < 65536 /\
  4 <= startaddr s < 65536 /\ rsar w <> startaddr s.

(** The memory after the packet is stored. *)
Lemma outs_packet d w :
  rbcr w = Z.of_nat (length d) -> ram_bytes (nram (nic_outs d w)) (rsar w) (length d) = d.
Proof.
  intros Hr. apply list_eq. intros i. destruct (decide (i < length d)%nat) as [Hi|Hi].
  - unfold ram_bytes. rewrite list_lookup_fmap, lookup_seq_lt by done. simpl.
    rewrite Hr, Nat2Z.id, Nat.min_id.
    assert ((rsar w <=? rsar w + Z.of_nat i) &&
            (rsar w + Z.of_nat i <? rsar w + Z.of_nat (length d)) = true) as ->.
    { apply andb_true_iff. rewrite Z.leb_le, Z.ltb_lt. lia. }
    destruct (lookup_lt_is_Some_2 d i Hi) as [x Hx]. rewrite Hx. f_equal.
    apply byte_at_lookup. by rewrite Z.add_simpl_l, Nat2Z.id.
  - rewrite !lookup_ge_None_2; rewrite ?length_ram_bytes; auto; lia.
Qed.


(** The transmit interrupt: an interrupt that reports a transmitted packet
    is acknowledged and frees the slot of the oldest packet in transmission. *)
Theorem ne_interrupt_spec b0 fuel w s k :
  base s = b0 -> page1 w = false -> send_inv k s -> 0 < k -> sendq_head s + 2 < 2147483647 ->
  0 < nisr w < 256 -> Z.land (nisr w) ISR_PTX <> 0 ->
  exists s', run (nic_hw b0) w (ne_interrupt (S (S fuel)) s) = Done tt (with_isr 0 w) s' /\
    send_inv (k - 1) s'.
Proof.
  intros Hb Hp Hinv Hk Hov Hisr Hptx. pose proof Hinv as (Hl & Hk2 & Hh & Ht & Hkh & Hf).
  cbn [ne_interrupt]. krun. rewrite reg_run by done. krun.
  assert (nic_in DP_ISR w = nisr w) as -> by (unfold nic_in; by rewrite Hp).
  assert (nisr w =? 0 = false) as -> by (apply Z.eqb_neq; lia). unfold ne_event. krun.
  rewrite wreg_run by done. krun. rewrite out_isr by done.
  assert (u8 (nisr w) = nisr w) as -> by (apply Z.mod_small; lia). rewrite Z.land_lnot_diag.
  assert (negb (Z.land (nisr w) ISR_PTX =? 0) = true) as -> by (by apply negb_true_iff, Z.eqb_neq).
  krun. rewrite cprintf_run. krun. cbn [sendq sendq_head sendq_tail set_sendq].
  rewrite i32_small by lia. rewrite Z.rem_mod_nonneg by (unfold SENDQ_LEN; lia).
  change (set_filled ((sendq_tail s + 1) mod SENDQ_LEN) false
            (set_sendq (sendq s) (sendq_head s) (sendq_tail s + 1) s))
    with (set_filled ((sendq_tail s + 1) mod 2) false s).
  set (s' := set_sendq _ _ _ (set_sendq _ _ _ s)).
  assert (base s' = b0) as Hb' by done.
  assert (nic_in DP_ISR (with_isr 0 w) = 0) as Hz.
  { unfold nic_in. change (page1 (with_isr 0 w)) with (page1 w). by rewrite Hp. }
  eexists. split; [|exact (send_inv_pop k s Hinv Hk)].
  destruct (negb (Z.land (nisr w) ISR_PRX =? 0)); [rewrite cprintf_run|]; krun;
    rewrite reg_run, Hz by done; done.
Qed.

(** ** Where the driver goes wrong *)

(** On a 16-bit NIC ne_getblock passes the byte count to rep insw, which
    counts words: it stores twice as many bytes as the caller asked for, and as
    the destination has room for. *)
Theorem getblock_16bit_overrun b0 addr size w s :
  base s = b0 -> is16bit s = true -> page1 w = false -> 0 <= addr < 65536 -> 0 < size < 65536 ->
  exists d w', run (nic_hw b0) w (ne_getblock addr size s) = Done d w' s /\
    Z.of_nat (length d) = 2 * size.
Proof.
  intros Hb H16 Hp Ha Hs. unfold ne_getblock. krun.
  assert (u16 addr = addr) as -> by (by apply Z.mod_small).
  rewrite rdma_regs_run by (auto || lia). krun. rewrite H16, ins_run by done.
  do 2 eexists. split; [done|]. unfold nic_ins. cbn [fst rbcr with_cr with_dma].
  rewrite length_app, length_ram_bytes, length_replicate. lia.
Qed.

(** A packet that wraps around the end of the receive ring: its second part
    is stored at the start of the buffer instead of behind its first part, so
    the buffer starts with the packet's last bytes; and the first part ends
    with four bytes from beyond the ring. *)
Theorem ne_pio_read_wrap b0 w s buf size :
  let page := recv_page s (nbnry w) in
  let a := page * DP_PAGESIZE in
  let remain := (recv_stoppage s - page) * DP_PAGESIZE in
  ready b0 w s buf size -> remain < size ->
  exists w' b', run (nic_hw b0) w (ne_pio_read (Some buf) (Z.of_nat (length buf)) s) =
      Done (size, Some b') w' s /\
    (forall i, 0 <= i < size - remain ->
       byte_at b' (Z.to_nat i) = nram w (recv_startpage s * DP_PAGESIZE + i)) /\
    (forall i, size - remain <= i < remain -> byte_at b' (Z.to_nat i) = nram w (a + 4 + i)) /\
    a + 4 + remain = recv_stoppage s * DP_PAGESIZE + 4.
Proof.
  intros page a remain Hrd Hwrap. destruct (read_head _ _ _ _ _ Hrd) as (w1 & -> & Hp & Hr & Hc).
  destruct Hrd as [Hb H16 _ Hpg Hstop Hstart Hsz _ _ _ Hroom]. fold page in Hpg.
  unfold ETH_MIN_SIZE, ETH_MAX_SIZE in Hsz. unfold read_packet. fold page remain a. krun.
  assert (u32 remain <? size = true) as ->.
  { apply Z.ltb_lt. rewrite u32_small; [done|]. unfold remain, DP_PAGESIZE. lia. }
  assert (0 <= remain /\ a + 4 + remain < 65536) as Hrem by (unfold remain, a, DP_PAGESIZE; lia).
  krun. rewrite getblock_run by (done || (unfold a, DP_PAGESIZE in *; lia)). krun.
  rewrite getblock_run by (done || (unfold DP_PAGESIZE in *; lia)). krun.
  rewrite wreg_run by done. krun. do 2 eexists. split; [done|]. rewrite !Hr.
  change (nram (with_cr (Z.lor CR_DM_RR CR_STA) (with_dma (a + 4 + remain) 0 w1))) with (nram w1).
  rewrite !Hr. set (d1 := ram_bytes (nram w) (a + 4) (Z.to_nat remain)).
  assert (length d1 = Z.to_nat remain) as Hd1 by apply length_ram_bytes.
  assert (length (splice buf 0 d1) = length buf) as Hb1 by (apply length_splice; lia).
  split_and!.
  - intros i Hi. unfold byte_at. rewrite nth_lookup, lookup_splice_in;
      rewrite ?length_ram_bytes; [|lia|lia].
    rewrite Nat.sub_0_r, <- nth_lookup. fold (byte_at (ram_bytes (nram w)
      (recv_startpage s * DP_PAGESIZE) (Z.to_nat (size - remain))) (Z.to_nat i)).
    rewrite byte_at_ram_bytes by lia. by rewrite Z2Nat.id by lia.
  - intros i Hi. unfold byte_at. rewrite nth_lookup, lookup_splice_out;
      rewrite ?length_ram_bytes; [|lia|lia].
    rewrite lookup_splice_in by lia. rewrite Nat.sub_0_r, <- nth_lookup.
    fold (byte_at d1 (Z.to_nat i)). unfold d1. rewrite byte_at_ram_bytes by lia.
    by rewrite Z2Nat.id by lia.
  - unfold a, remain, DP_PAGESIZE. lia.
Qed.

(** ** Instances: an NE1000 at port 0x300 *)

Definition ne8 : ne_t :=
  layout (mkne (replicate 8 0) 11 0x300 (replicate 6 0) false 0 0 0 0 0 0 0 [] 0 0).
Definition ne16 : ne_t := layout (set_16bit true ne8).

(** A ring with a packet of [size] bytes at page [p]. *)
Definition nic_with (p size : Z) : nic :=
  mknic 0x22 0 0
    (fun x => if x =? p * 256 then 1 else if x =? p * 256 + 2 then (size + 4) mod 256
              else if x =? p * 256 + 3 then (size + 4) / 256 else x mod 7)
    50 (p - 1) 2 0 0 [].

Lemma ready_ex p size :
  45 <= p < 64 -> p <> 50 -> 60 <= size <= 1514 ->
  ready 0x300 (nic_with p size) ne8 (replicate 2000 0) size.
Proof.
  intros Hp Hne Hs. assert (recv_page ne8 (nbnry (nic_with p size)) = p) as E.
  { unfold recv_page. change (recv_stoppage ne8) with 64. simpl. rewrite Z.sub_add.
    destruct (Z.eqb_spec p 64); [lia|done]. }
  constructor; rewrite ?E; try done; change (recv_stoppage ne8) with 64;
    change (recv_startpage ne8) with 44; try lia.
  - intros x. unfold is_byte. simpl. repeat case_match; bool_prop; dlia.
  - unfold DP_PAGESIZE. simpl.
    repeat match goal with |- context [?a =? ?b] => destruct (Z.eqb_spec a b); [try lia|try lia] end. dlia.
  - unfold DP_PAGESIZE. simpl. by rewrite Z.eqb_refl.
  - rewrite length_replicate. lia.
Qed.


Lemma ne_pio_read_wrap_witness :
  exists w' b', run (nic_hw 0x300) (nic_with 63 300) (ne_pio_read (Some (replicate 2000 0)) 2000 ne8) =
      Done (300, Some b') w' ne8 /\
    byte_at b' 0 = nram (nic_with 63 300) (44 * 256) /\
    byte_at b' 0 <> nram (nic_with 63 300) (63 * 256 + 4).
Proof.
  destruct (ne_pio_read_wrap 0x300 (nic_with 63 300) ne8 (replicate 2000 0) 300)
    as (w' & b' & E & H & _); [apply ready_ex; lia|by vm_compute|].
  exists w', b'. assert (byte_at b' 0 = nram (nic_with 63 300) (44 * 256)) as Hb
    by (apply (H 0); vm_compute; by split).
  split; [done|]. split; [done|]. rewrite Hb. by vm_compute.
Defined.


Lemma ne_interrupt_spec_witness :
  exists s', run (nic_hw 0x300) (nic_with 45 60)
      (ne_interrupt 2 (set_sendq (set_filled 0 true ne8) 1 1 ne8)) =
    Done tt (with_isr 0 (nic_with 45 60)) s' /\ send_inv 0 s'.
Proof.
  apply (ne_interrupt_spec 0x300 0 (nic_with 45 60) (set_sendq (set_filled 0 true ne8) 1 1 ne8) 1);
    try (by vm_compute).
  apply (send_inv_push 0 ne8); [apply send_inv_layout|lia|by vm_compute].
Defined.

Lemma getblock_16bit_overrun_witness :
  exists d w', run (nic_hw 0x300) (nic_with 45 60) (ne_getblock 11520 4 ne16) = Done d w' ne16 /\
    Z.of_nat (length d) = 8.
Proof.
  apply (getblock_16bit_overrun 0x300 11520 4 (nic_with 45 60) ne16); try done; lia.
Defined.
End NeSpec.
