(* ===== verification/Trap.v ===== *)
(** * Trap: syscall() of syscall.c, trap() of trap.c, and procdump of proc.c

    The state is the kernel's with the console and the interrupt controllers;
    the disk driver's interrupt routine ([Ide.Ide.ideintr]) acts on the state
    that the block layer hides and comes in as a parameter. *)
From S2P Require Import Prelude Kmonad Spinlock Kalloc Pipe Proc Segment Block FsLayout Fs File Syscall Process Exec Sysfile Console Irq.
From stdpp Require Import options.

Module Trap.
Import FsLayout Fs File Syscall Process Sysfile.

(** ** procdump *)

Definition state_name (st : Proc.procstate) : bytes :=
  match st with
  | Proc.UNUSED => chars "unused"
  | Proc.EMBRYO => chars "embryo"
  | Proc.SLEEPING => chars "sleep "
  | Proc.RUNNABLE => chars "runble"
  | Proc.RUNNING => chars "run   "
  | Proc.ZOMBIE => chars "zombie"
  end.

Fixpoint dump_pcs (n : nat) (pcs : list Z) : K Console.console unit :=
  match n, pcs with
  | S n', pc :: r =>
      if pc =? 0 then kret tt
      else Console.cprintf (chars " %p") (fun _ => pc) (fun _ => []) ;; dump_pcs n' r
  | _, _ => kret tt
  end.

(** The line of process [i]; [pcs i] is the call stack of its saved context. *)
Definition dump_proc (t : Proc.ptable) (pcs : nat -> list Z) (i : nat) : K Console.console unit :=
  let p := Proc.proc_at t i in
  if Proc.in_state Proc.UNUSED p then kret tt
  else
    Console.cprintf (chars "%d %s %s") (fun k => nth k [Proc.pid p; 1; 2] 0)
      (fun a => if a =? 1 then state_name (Proc.state p) else Proc.name p) ;;
    (if Proc.in_state Proc.SLEEPING p then dump_pcs 10 (pcs i) else kret tt) ;;
    Console.cprintf [10] (fun _ => 0) (fun _ => []).

Definition procdump (t : Proc.ptable) (pcs : nat -> list Z) : K Console.console unit :=
  kforeach (seq 0 Proc.NPROC) (dump_proc t pcs).

(** ** The machine *)

Record mach (B : Type) : Type := mkmach {
  mkern : kern B; mcons : Console.console; mirq : Irq.irq
}.
Arguments mkmach {B}.
Arguments mkern {B}.
Arguments mcons {B}.
Arguments mirq {B}.

(** System call numbers (syscall.h) and trap numbers (traps.h). *)
Definition NSYSCALLS : Z := 21.
Definition T_SYSCALL : Z := 64.
Definition T_IRQ0 : Z := 32.

Section Trap.
Context {B : Type} `{BlockOps B}.
Variable (fuel : nat).
Variable (dev_read : Z -> option (nat -> Z -> K (fstate B) (Z * bytes))).
Variable (dev_write : Z -> option (nat -> bytes -> Z -> K (fstate B) Z)).
Variable (elf0 : bytes).
Variable (ideintr : K (mach B) unit).
Variable (pcs : nat -> list Z).

Definition on_kern {A} (m : K (kern B) A) : K (mach B) A :=
  zoom mkern (fun k s => mkmach k (mcons s) (mirq s)) m.
Definition on_cons {A} (m : K Console.console A) : K (mach B) A :=
  zoom mcons (fun c s => mkmach (mkern s) c (mirq s)) m.
Definition on_irq {A} (m : K Irq.irq A) : K (mach B) A :=
  zoom mirq (fun q s => mkmach (mkern s) (mcons s) q) m.

(** The table syscalls[]. *)
Definition syscalls (cp : nat) (num : Z) : option (K (kern B) Z) :=
  match num with
  | 1 => Some (sys_fork cp)
  | 2 => Some (sys_exit cp)
  | 3 => Some (sys_wait fuel cp)
  | 4 => Some (sys_pipe cp)
  | 5 => Some (sys_write fuel dev_write cp)
  | 6 => Some (sys_read fuel dev_read cp)
  | 7 => Some (sys_close cp)
  | 8 => Some (sys_kill cp)
  | 9 => Some (sys_exec fuel dev_read elf0 cp)
  | 10 => Some (sys_open fuel dev_read dev_write cp)
  | 11 => Some (sys_mknod fuel dev_read dev_write cp)
  | 12 => Some (sys_unlink fuel dev_read dev_write cp)
  | 13 => Some (sys_fstat fuel cp)
  | 14 => Some (sys_link fuel dev_read dev_write cp)
  | 15 => Some (sys_mkdir fuel dev_read dev_write cp)
  | 16 => Some (sys_chdir fuel cp)
  | 17 => Some (sys_dup cp)
  | 18 => Some (sys_getpid cp)
  | 19 => Some (sys_sbrk cp)
  | 20 => Some (sys_sleep fuel cp)
  | _ => None
  end.

Definition set_eax (v : Z) (p : Proc.proc) : Proc.proc := set_tf (tf_set_eax (u32 v) (Proc.tf p)) p.

Definition syscall (cp : nat) : K (kern B) unit :=
  num <- pget cp (fun p => i32 (Proc.tf_eax (Proc.tf p))) ;;
  match (if (0 <=? num) && (num <? NSYSCALLS) then syscalls cp num else None) with
  | Some f => r <- f ;; pupd cp (set_eax r)
  | None =>
      cprintf "%d %s: unknown sys call %d\n" ;;
      pupd cp (set_eax (-1))
  end.

(** cp, and cp->killed. *)
Definition cur : K (mach B) (option nat) := gets (fun s => Seg.cur (kcpu (mkern s))).
Definition killed (cp : nat) : K (mach B) bool :=
  gets (fun s => negb (Proc.killed (Proc.proc_at (ktab (mkern s)) cp) =? 0)).
Definition exit_if_killed (cp : nat) : K (mach B) unit :=
  k <- killed cp ;; if (k : bool) then on_kern (exit cp) else kret tt.

(** The timer interrupt of processor 0. *)
Definition tick : K (mach B) unit :=
  acquire Lk_ticks ;;
  on_kern (modify (fun s => with_ticks (i32 (kticks s + 1)) s)) ;;
  wakeup Ch_ticks ;;
  release Lk_ticks.

(** The switch on tf->trapno. *)
Definition trap_irq (tf : Proc.trapframe) (cp : option nat) : K (mach B) unit :=
  let no := Proc.tf_trapno tf in
  if no =? T_IRQ0 + Irq.IRQ_TIMER then
    c <- on_irq Irq.cpu ;;
    (if c =? 0 then tick else kret tt) ;;
    on_irq Irq.lapiceoi
  else if no =? T_IRQ0 + Irq.IRQ_IDE then ideintr ;; on_irq Irq.lapiceoi
  else if no =? T_IRQ0 + Irq.IRQ_KBD then
    t <- gets (fun s => ktab (mkern s)) ;;
    on_cons (Console.kbdintr fuel (procdump t pcs)) ;;
    on_irq Irq.lapiceoi
  else if no =? T_IRQ0 + Irq.IRQ_COM1 then
    t <- gets (fun s => ktab (mkern s)) ;;
    on_cons (Console.uartintr fuel (procdump t pcs)) ;;
    on_irq Irq.lapiceoi
  else if (no =? T_IRQ0 + 7) || (no =? T_IRQ0 + Irq.IRQ_SPURIOUS) then
    on_irq Irq.cpu ;;
    cprintf "cpu%d: spurious interrupt at %x:%x\n" ;;
    on_irq Irq.lapiceoi
  else
    match cp with
    | Some p =>
        if Z.land (Proc.tf_cs tf) 3 =? 0 then
          on_irq Irq.cpu ;;
          cprintf "unexpected trap %d from cpu %d eip %x\n" ;;
          panic "trap"
        else
          on_irq Irq.cpu ;;
          cprintf "pid %d %s: trap %d err %d on cpu %d eip %x -- kill proc\n" ;;
          on_kern (pupd p (Proc.set_killed 1))
    | None =>
        on_irq Irq.cpu ;;
        cprintf "unexpected trap %d from cpu %d eip %x\n" ;;
        panic "trap"
    end.

(** if(cp && cp->killed && (tf->cs&3) == DPL_USER) exit(); *)
Definition exit_user (tf : Proc.trapframe) (cp : option nat) : K (mach B) unit :=
  match cp with
  | Some p => if Z.land (Proc.tf_cs tf) 3 =? Seg.DPL_USER then exit_if_killed p else kret tt
  | None => kret tt
  end.

Definition trap (tf : Proc.trapframe) : K (mach B) unit :=
  cp <- cur ;;
  if Proc.tf_trapno tf =? T_SYSCALL then
    match cp with
    | None => panic "null dereference"
    | Some p =>
        exit_if_killed p ;;
        on_kern (pupd p (set_tf tf)) ;;
        on_kern (syscall p) ;;
        exit_if_killed p
    end
  else
    trap_irq tf cp ;;
    exit_user tf cp ;;
    (match cp with
     | Some p =>
         st <- gets (fun s => Proc.in_state Proc.RUNNING (Proc.proc_at (ktab (mkern s)) p)) ;;
         if st && (Proc.tf_trapno tf =? T_IRQ0 + Irq.IRQ_TIMER)
         then on_kern (on_proc (Proc.yield p)) else kret tt
     | None => kret tt
     end) ;;
    exit_user tf cp.
End Trap.
End Trap.
