(* ===== verification/Machine.v ===== *)
(** * Machine: a small machine

    The state that the witnesses of the theorems on system calls start from,
    and the reading of the result of a run. *)
From S2P Require Import Prelude Kmonad Kalloc Pipe Proc Segment Block Fs FsImage FsFile File Syscall Process.
From stdpp Require Import options.

Module Machine.
Export FsImage.

#[global] Instance disk_ops : BlockOps disk := _.

Definition returns {S} (v : Z) (r : result unit S Z) : bool :=
  match r with Done a _ _ => a =? v | _ => false end.
Definition final {S A} (d : S) (r : result unit S A) : S :=
  match r with Done _ _ s | Blocked _ _ s => s | _ => d end.

Lemma returns_final {S} v (d : S) r : returns v r = true -> r = Done v tt (final d r).
Proof. destruct r as [a [] s| | |]; simpl; intros E; bool_prop; by subst. Qed.

Definition finishes {S} (r : result unit S unit) : bool :=
  match r with Done _ _ _ => true | _ => false end.

Lemma finishes_final {S} (d : S) r : finishes r = true -> r = Done tt tt (final d r).
Proof. by destruct r as [[] [] s| | |]. Qed.

(** Code of proc.c inside a system call runs on the process table and the
    allocator of the kernel. *)
Section Calls.
Context {B : Type} `{BlockOps B}.
Import File.

Lemma exec_on_proc {A} (m : K Proc.pstate A) (s : kern B) :
  exec (on_proc m) s = rput with_proc s (exec m (Proc.mkpstate (ktab s) (Pipe.pkmem (kpipes s)))).
Proof. unfold on_proc. rewrite exec_zoom; [done| |]; by intros [] ?. Qed.

Lemma exec_pupd i f (s : kern B) :
  exec (Process.pupd i f) s =
    Done tt tt (with_proc (Proc.mkpstate (Proc.upd i f (ktab s)) (Pipe.pkmem (kpipes s))) s).
Proof. unfold Process.pupd, Proc.upd_proc. by rewrite exec_on_proc, exec_modify. Qed.
End Calls.

(** One process, in slot 0, with a page of memory at 0x20000, the argument
    0x100 on its stack and the root directory as its current directory; four
    pages are free. *)
Definition proc1 : Proc.proc :=
  Proc.set_files (replicate Proc.NOFILE None) (Some 0%nat)
    (Proc.set_state Proc.RUNNING (Proc.set_pid 1 (Proc.set_mem 0x20000 4096 Proc.proc0))).

Definition kmem1 : Kalloc.kmem :=
  Kalloc.mkkmem (Kalloc.freelist Kalloc.kmem_ex) (Kalloc.runs Kalloc.kmem_ex)
    (Syscall.mem_write 0x20004 (le_enc 4 0x100) (fun _ => 0)).

Definition kern0 : File.kern disk :=
  File.mkkern (boot 100 [63] [FsFile.dir0 0 1]) (replicate File.NFILE File.file0)
    (Pipe.mkpstate kmem1 ∅)
    (Proc.mkptable (proc1 :: replicate 63 Proc.proc0) 2 (Some 0%nat)) Seg.cpu0 0.
End Machine.
