(* ===== verification/FileRefs.v ===== *)
(** * FileRefs: the reference counts of open files

    A partial-correctness logic for system calls over the file table and the
    process table, and the invariant of file.c: the reference count of an
    entry of ftable is the number of descriptors that point at it.  It holds
    across every system call of the table in syscall.c that runs to its end,
    whatever the file system, the pipes and the allocator do meanwhile. *)
From S2P Require Import Prelude Kmonad Kalloc Pipe Proc Segment Block FsLayout Fs File Syscall Process Exec Sysfile Console Irq Trap Machine.
From stdpp Require Import options.

Create HintDb neutral.

Module FileRefs.
Import Fs File Process Sysfile.

(** ** Counting descriptors *)

Definition fd_count (f : nat) (l : list (option nat)) : nat :=
  length (filter (fun o => o = Some f) l).

Definition refs (t : Proc.ptable) (f : nat) : nat :=
  sum_list_with (fun p => fd_count f (Proc.ofile p)) (Proc.procs t).

Definition one (o : option nat) (f : nat) : nat := if decide (o = Some f) then 1%nat else 0%nat.

Lemma fd_count_insert f l fd o o' :
  l !! fd = Some o -> (fd_count f (<[fd := o']> l) + one o f = fd_count f l + one o' f)%nat.
Proof.
  unfold fd_count, one. revert fd. induction l as [|x l IH]; intros [|fd] H; simplify_eq/=.
  - rewrite !filter_cons. repeat case_decide; simpl; lia.
  - rewrite !filter_cons. specialize (IH fd H). repeat case_decide; simpl in *; lia.
Qed.

Lemma fd_count_le f l : (fd_count f l <= length l)%nat.
Proof. unfold fd_count. apply length_filter. Qed.

Lemma fd_count_none f n : fd_count f (replicate n None) = 0%nat.
Proof. induction n; [done|]. unfold fd_count in *. simpl. rewrite filter_cons. by case_decide. Qed.

Lemma fd_count_pos f l fd : l !! fd = Some (Some f) -> (1 <= fd_count f l)%nat.
Proof. intros H. pose proof (fd_count_insert f l fd _ None H). unfold one in *. repeat case_decide; naive_solver lia. Qed.

Lemma sum_list_with_alter {A} (g : A -> nat) (h : A -> A) (l : list A) i x :
  l !! i = Some x -> (sum_list_with g (alter h i l) + g x = sum_list_with g l + g (h x))%nat.
Proof.
  revert i. induction l as [|y l IH]; intros [|i] H; simplify_eq/=; [lia|].
  specialize (IH i H). unfold alter in *. lia.
Qed.

Lemma sum_list_with_le {A} (g : A -> nat) (l : list A) b :
  Forall (fun x => (g x <= b)%nat) l -> (sum_list_with g l <= length l * b)%nat.
Proof. induction 1; simpl; lia. Qed.

Lemma sum_list_with_lookup {A} (g : A -> nat) (l : list A) i x :
  l !! i = Some x -> (g x <= sum_list_with g l)%nat.
Proof. revert i. induction l as [|y l IH]; intros [|i] H; simplify_eq/=; [lia|]. specialize (IH i H). lia. Qed.

Lemma alter_alter {A} (g h : A -> A) i (l : list A) : alter g i (alter h i l) = alter (g ∘ h) i l.
Proof.
  apply list_eq. intros j. destruct (decide (j = i)) as [->|].
  - rewrite !list_lookup_alter_eq. by destruct (l !! i).
  - by rewrite !list_lookup_alter_ne.
Qed.

(** ** The invariant *)

(** A slot of the process table that owns no files. *)
Definition dead (p : Proc.proc) : Prop := Proc.state p = Proc.UNUSED \/ Proc.state p = Proc.ZOMBIE.

Definition slot_ok (p : Proc.proc) : Prop :=
  length (Proc.ofile p) = Proc.NOFILE /\
  (forall fd f, Proc.ofile p !! fd = Some (Some f) -> (f < NFILE)%nat) /\
  (dead p -> Proc.ofile p = replicate Proc.NOFILE None).

(** [pend f] is the number of references to [f] that a call holds outside the
    descriptor tables; the entries of [fresh] are allocated and not yet given
    a type. *)
Record inv (pend : nat -> Z) (fresh : list nat) (fs : list file) (t : Proc.ptable) : Prop := mkinv {
  inv_len : length fs = NFILE;
  inv_tab : length (Proc.procs t) = Proc.NPROC;
  inv_slots : Forall slot_ok (Proc.procs t);
  inv_ref : forall f x, fs !! f = Some x -> ref x = Z.of_nat (refs t f) + pend f;
  inv_type : forall f x, fs !! f = Some x ->
    if decide (f ∈ fresh) then ref x = 1 else 0 < ref x -> ftype x <> FD_NONE
}.

Definition none : nat -> Z := fun _ => 0.
Definition padd (f : nat) (d : Z) (pend : nat -> Z) : nat -> Z :=
  fun g => pend g + if decide (g = f) then d else 0.

(** What holds between system calls. *)
Definition files_ok (fs : list file) (t : Proc.ptable) : Prop := inv none [] fs t.

Definition alive (cp : nat) (t : Proc.ptable) : Prop := ~ dead (Proc.proc_at t cp).

Lemma inv_pend pend pend' fresh fs t :
  (forall g, pend' g = pend g) -> inv pend fresh fs t -> inv pend' fresh fs t.
Proof. intros E [? ? ? Hr ?]. constructor; auto. intros f x Hx. rewrite E. auto. Qed.

Lemma refs_bound t f :
  length (Proc.procs t) = Proc.NPROC -> Forall slot_ok (Proc.procs t) -> (refs t f <= 1024)%nat.
Proof.
  intros Hl Hs. unfold refs. etrans.
  - apply (sum_list_with_le _ _ Proc.NOFILE). eapply Forall_impl; [exact Hs|].
    intros p (Hp & _). simpl. rewrite <- Hp. apply fd_count_le.
  - rewrite Hl. reflexivity.
Qed.

(** Changes of the process table that neither touch descriptors nor kill. *)
Definition tab_le (t t' : Proc.ptable) : Prop :=
  Forall2 (fun p p' => Proc.ofile p' = Proc.ofile p /\ (dead p' -> dead p)) (Proc.procs t) (Proc.procs t').

#[global] Instance tab_le_preorder : PreOrder tab_le.
Proof.
  split.
  - intros t. unfold tab_le. apply Forall2_same_length_lookup_2; [done|]. intros. by simplify_eq.
  - intros t1 t2 t3. unfold tab_le.
    generalize (Proc.procs t1) (Proc.procs t2) (Proc.procs t3). intros l1 l2 l3 H1. revert l3.
    induction H1 as [|x y l1 l2 [? ?] _ IH]; inversion 1; subst; constructor; naive_solver congruence.
Qed.

Lemma tab_le_upd i f t :
  (forall p, Proc.procs t !! i = Some p -> Proc.ofile (f p) = Proc.ofile p /\ (dead (f p) -> dead p)) ->
  tab_le t (Proc.upd i f t).
Proof.
  intros Hf. unfold tab_le, Proc.upd. simpl. apply Forall2_same_length_lookup_2; [by rewrite length_alter|].
  intros j x y Hx Hy. destruct (decide (j = i)) as [->|].
  - rewrite list_lookup_alter_eq, Hx in Hy. simplify_eq/=. by apply Hf.
  - rewrite list_lookup_alter_ne in Hy by done. by simplify_eq.
Qed.

Lemma refs_tab_le t t' f : tab_le t t' -> refs t' f = refs t f.
Proof.
  unfold tab_le, refs. generalize (Proc.procs t) (Proc.procs t').
  induction 1 as [|p p' l l' [Ho _] _ IH]; simpl; [done|]. by rewrite Ho, IH.
Qed.

Lemma inv_tab_le pend fresh fs t t' : inv pend fresh fs t -> tab_le t t' -> inv pend fresh fs t'.
Proof.
  intros [Hl Ht Hs Hr Hy] Hle. pose proof (Forall2_length _ _ _ Hle) as Hlen.
  constructor; auto; [by rewrite <- Hlen| |].
  - unfold tab_le in Hle. revert Hs Hle. clear. generalize (Proc.procs t) (Proc.procs t').
    induction 2 as [|p p' l l' [Ho Hd] _ IH]; [done|]. inversion Hs as [|? ? (H1 & H2 & H3) Hs']; subst.
    constructor; [|by apply IH]. unfold slot_ok. rewrite Ho. auto.
  - intros f x Hx. rewrite (refs_tab_le _ _ _ Hle). auto.
Qed.

Lemma tab_le_proc_at t t' i :
  tab_le t t' -> Proc.ofile (Proc.proc_at t' i) = Proc.ofile (Proc.proc_at t i) /\
    (dead (Proc.proc_at t' i) -> dead (Proc.proc_at t i)).
Proof.
  intros H. unfold Proc.proc_at. destruct (Proc.procs t !! i) as [p|] eqn:E.
  - destruct (Forall2_lookup_l _ _ _ _ _ H E) as (p' & E' & Hp). by rewrite E'.
  - apply lookup_ge_None in E. rewrite (Forall2_length _ _ _ H) in E.
    apply lookup_ge_None in E. by rewrite E.
Qed.

Lemma alive_tab_le cp t t' : alive cp t -> tab_le t t' -> alive cp t'.
Proof. intros H Hle Hd. by apply H, (tab_le_proc_at _ _ _ Hle). Qed.

Lemma alive_running cp t : Proc.state (Proc.proc_at t cp) = Proc.RUNNING -> alive cp t.
Proof. intros E [?|?]; congruence. Qed.

Lemma alive_lookup cp t : alive cp t -> Proc.procs t !! cp = Some (Proc.proc_at t cp).
Proof.
  intros H. unfold alive, Proc.proc_at in *. destruct (Proc.procs t !! cp); [done|].
  destruct H. by left.
Qed.

(** A change of one entry of ftable. *)
Lemma inv_alter pend fresh fresh' fs t f x g d :
  inv pend fresh fs t -> fs !! f = Some x -> ref (g x) = ref x + d ->
  (forall h, h <> f -> h ∈ fresh' <-> h ∈ fresh) ->
  (if decide (f ∈ fresh') then ref (g x) = 1 else 0 < ref (g x) -> ftype (g x) <> FD_NONE) ->
  inv (padd f d pend) fresh' (alter g f fs) t.
Proof.
  intros [Hl Ht Hs Hr Hy] Hx Hd Hf Hty. constructor; auto; [by rewrite length_alter| |].
  - intros h y Hh. unfold padd. destruct (decide (h = f)) as [->|].
    + rewrite list_lookup_alter_eq, Hx in Hh. simplify_eq/=. rewrite Hd, (Hr _ _ Hx). lia.
    + rewrite list_lookup_alter_ne in Hh by done. rewrite Z.add_0_r. auto.
  - intros h y Hh. destruct (decide (h = f)) as [->|Hne].
    + rewrite list_lookup_alter_eq, Hx in Hh. by simplify_eq/=.
    + rewrite list_lookup_alter_ne in Hh by done. specialize (Hy _ _ Hh). specialize (Hf h Hne).
      repeat case_decide; tauto.
Qed.

(** A change that keeps the count and the type of an entry that has one. *)
Lemma inv_alter_same pend fresh fs t f g :
  inv pend fresh fs t -> (forall x, ref (g x) = ref x /\ (ftype x <> FD_NONE -> ftype (g x) <> FD_NONE)) ->
  inv pend fresh (alter g f fs) t.
Proof.
  intros Hi Hg. destruct (fs !! f) as [x|] eqn:Hx.
  - apply (inv_pend (padd f 0 pend)); [intros h; unfold padd; case_decide; lia|].
    destruct (Hg x) as [Hr Ht]. eapply inv_alter; [done..|lia|done|].
    pose proof (inv_type _ _ _ _ Hi _ _ Hx). rewrite Hr. case_decide; auto.
  - assert (alter g f fs = fs) as ->; [|done]. apply list_eq. intros h.
    destruct (decide (h = f)) as [->|]; [by rewrite list_lookup_alter_eq, Hx|by rewrite list_lookup_alter_ne].
Qed.

(** A fresh entry is given its type. *)
Lemma inv_typed pend fresh fs t f g :
  inv pend fresh fs t -> (forall x, ref (g x) = ref x /\ ftype (g x) <> FD_NONE) -> (f < NFILE)%nat ->
  inv pend (filter (.≠ f) fresh) (alter g f fs) t.
Proof.
  intros Hi Hg Hf. rewrite <- (inv_len _ _ _ _ Hi) in Hf.
  destruct (lookup_lt_is_Some_2 _ _ Hf) as [x Hx].
  apply (inv_pend (padd f 0 pend)); [intros h; unfold padd; case_decide; lia|].
  destruct (Hg x) as [Hr Ht]. eapply inv_alter; [done..|lia| |].
  - intros h Hh. rewrite list_elem_of_filter. tauto.
  - rewrite decide_False by (rewrite list_elem_of_filter; tauto). auto.
Qed.

(** A descriptor is set. *)
Lemma inv_set_ofile pend fresh fs t i p fd o o' :
  inv pend fresh fs t -> Proc.procs t !! i = Some p -> Proc.ofile p !! fd = Some o ->
  (forall f, o' = Some f -> (f < NFILE)%nat /\ ~ dead p) ->
  inv (fun g => pend g + Z.of_nat (one o g) - Z.of_nat (one o' g)) fresh fs (Proc.upd i (set_ofile fd o') t).
Proof.
  intros [Hl Ht Hs Hr Hy] Hp Ho Hn. constructor; auto.
  - by rewrite Proc.length_upd.
  - apply Forall_lookup. intros j q Hq. unfold Proc.upd in Hq. simpl in Hq.
    pose proof (proj1 (Forall_lookup _ _) Hs) as Hsl.
    destruct (decide (j = i)) as [->|]; [|rewrite list_lookup_alter_ne in Hq by done; eauto].
    rewrite list_lookup_alter_eq, Hp in Hq. simplify_eq/=.
    destruct (Hsl _ _ Hp) as (H1 & H2 & H3). unfold slot_ok. simpl.
    rewrite length_insert. split_and!; [done| |].
    + intros fd' f Hf. destruct (decide (fd' = fd)) as [->|].
      * rewrite list_lookup_insert_eq in Hf by (by eapply lookup_lt_Some). simplify_eq. by apply Hn.
      * rewrite list_lookup_insert_ne in Hf by done. eauto.
    + intros Hd. destruct o' as [f|]; [by destruct (Hn f eq_refl)|]. rewrite H3 by done.
      rewrite insert_replicate. done.
  - intros f x Hx. rewrite (Hr _ _ Hx). unfold refs, Proc.upd. simpl.
    pose proof (sum_list_with_alter (fun p => fd_count f (Proc.ofile p)) (set_ofile fd o') _ _ _ Hp) as E.
    pose proof (fd_count_insert f _ _ _ o' Ho) as E2. simpl in *. lia.
Qed.

(** ** A logic for the file table and the process table *)

Section Logic.
Context {B : Type} `{BlockOps B}.

(** [pt P m Q]: if [m] runs to its end from tables that satisfy [P], its value
    and the tables then satisfy [Q]. *)
Definition pt {A} (P : list file -> Proc.ptable -> Prop) (m : K (kern B) A)
    (Q : A -> list file -> Proc.ptable -> Prop) : Prop :=
  forall s, P (kfiles s) (ktab s) ->
    match exec m s with Done a _ s' => Q a (kfiles s') (ktab s') | _ => True end.

Lemma pt_bind {A C} P (m : K (kern B) A) R (f : A -> K (kern B) C) Q :
  pt P m R -> (forall a, pt (R a) (f a) Q) -> pt P (kbind m f) Q.
Proof.
  intros Hm Hf s Hs. rewrite exec_kbind. specialize (Hm s Hs).
  destruct (exec m s) as [a [] s'| | |]; simpl; try done. by apply Hf.
Qed.

Lemma pt_pre {A} (P P' : list file -> Proc.ptable -> Prop) (m : K (kern B) A) Q :
  (forall fs t, P fs t -> P' fs t) -> pt P' m Q -> pt P m Q.
Proof. intros HP Hm s Hs. by apply Hm, HP. Qed.

Lemma pt_post {A} P (m : K (kern B) A) (Q Q' : A -> list file -> Proc.ptable -> Prop) :
  pt P m Q -> (forall a fs t, Q a fs t -> Q' a fs t) -> pt P m Q'.
Proof. intros Hm HQ s Hs. specialize (Hm s Hs). destruct (exec m s); auto. Qed.

Lemma pt_ret {A} (P : list file -> Proc.ptable -> Prop) (a : A) Q :
  (forall fs t, P fs t -> Q a fs t) -> pt P (kret a : K (kern B) A) Q.
Proof. intros HQ s Hs. rewrite exec_kret. auto. Qed.

Lemma pt_pure {A} (φ : Prop) (P : list file -> Proc.ptable -> Prop) (m : K (kern B) A) Q :
  (forall fs t, P fs t -> φ) -> (φ -> pt P m Q) -> pt P m Q.
Proof. intros Hφ Hm s Hs. apply Hm; [by eapply Hφ|done]. Qed.

Lemma pt_gets {A} P (g : kern B -> A) :
  pt P (gets g) (fun _ => P).
Proof. intros s Hs. by rewrite exec_gets. Qed.

Lemma pt_pget {A} P i (g : Proc.proc -> A) :
  pt P (pget i g) (fun a fs t => P fs t /\ a = g (Proc.proc_at t i)).
Proof. intros s Hs. unfold pget. by rewrite exec_gets. Qed.

Lemma pt_panic {A} P msg (Q : A -> _) : pt P (panic msg) Q.
Proof. intros s Hs. by rewrite exec_panic. Qed.

Lemma pt_diverge {A} P (Q : A -> _) : pt P diverge Q.
Proof. done. Qed.

(** An event: execution goes on with the same state or not at all. *)
Lemma pt_trigger P e : pt P (trigger e) (fun _ => P).
Proof. intros s Hs. unfold exec, trigger. simpl. by destruct e. Qed.

(** Code of a component that the tables are not part of. *)
Lemma pt_zoom {T A} P (get : kern B -> T) put (m : K T A) :
  (forall u s, get (put u s) = u) -> (forall u u' s, put u' (put u s) = put u' s) ->
  (forall u s, kfiles (put u s) = kfiles s /\ ktab (put u s) = ktab s) ->
  pt P (zoom get put m) (fun _ => P).
Proof.
  intros Hg Hp Hk s Hs. rewrite exec_zoom by done.
  destruct (exec m (get s)) as [a w u| | |]; simpl; try done. by destruct (Hk u s) as [-> ->].
Qed.

Lemma pt_on_fs {A} P (m : K (fstate B) A) : pt P (on_fs m) (fun _ => P).
Proof. by apply pt_zoom. Qed.
Lemma pt_on_pipes {A} P (m : K Pipe.pstate A) : pt P (on_pipes m) (fun _ => P).
Proof. by apply pt_zoom. Qed.
Lemma pt_on_kmem {A} P (m : K Kalloc.kmem A) : pt P (on_kmem m) (fun _ => P).
Proof. by apply pt_zoom. Qed.
Lemma pt_on_cpu {A} P (m : K Seg.scpu A) : pt P (on_cpu m) (fun _ => P).
Proof. by apply pt_zoom. Qed.

(** Predicates on the tables that [tab_le] preserves. *)
Definition stable (P : list file -> Proc.ptable -> Prop) : Prop :=
  forall fs t t', P fs t -> tab_le t t' -> P fs t'.

(** Code of proc.c that leaves the descriptors alone. *)
Definition harmless {A} (m : K Proc.pstate A) : Prop :=
  forall s, match exec m s with
            | Done _ _ s' => tab_le (Proc.ptab s) (Proc.ptab s') | _ => True end.

Lemma pt_on_proc {A} P (m : K Proc.pstate A) :
  stable P -> harmless m -> pt P (on_proc m) (fun _ => P).
Proof.
  intros HP Hm s Hs. rewrite Machine.exec_on_proc.
  specialize (Hm (Proc.mkpstate (ktab s) (Pipe.pkmem (kpipes s)))).
  destruct (exec m _) as [a w u| | |]; simpl in *; try done. eauto.
Qed.

Lemma pt_pupd P i f :
  stable P -> (forall p, Proc.ofile (f p) = Proc.ofile p /\ (dead (f p) -> dead p)) ->
  pt P (pupd i f) (fun _ => P).
Proof.
  intros HP Hf. apply pt_on_proc; [done|]. intros s. unfold Proc.upd_proc. rewrite exec_modify.
  apply tab_le_upd. auto.
Qed.

(** A change of an entry of ftable that keeps its count and its being open. *)
Lemma pt_fset P f g :
  (forall fs t, P fs t -> P (alter g f fs) t) -> pt P (fset f g : K (kern B) unit) (fun _ => P).
Proof. intros HP s Hs. unfold fset. rewrite exec_modify. by apply HP. Qed.

(** ** file.c *)

Lemma free_file_spec l i k :
  free_file l i = Some k -> (i <= k)%nat /\ exists x, l !! (k - i)%nat = Some x /\ ref x = 0.
Proof.
  revert i. induction l as [|x l IH]; intros i E; [done|]. simpl in E.
  destruct (ref x =? 0) eqn:Ex; bool_prop.
  - simplify_eq. split; [lia|]. exists x. by rewrite Nat.sub_diag.
  - apply IH in E as (Hk & y & Hy & Hr). split; [lia|]. exists y.
    by replace (k - i)%nat with (S (k - S i)) by lia.
Qed.

Lemma file_at_lookup (s : kern B) f x : kfiles s !! f = Some x -> file_at s f = x.
Proof. intros E. unfold file_at. by apply nth_lookup_Some. Qed.

Lemma pt_filealloc pend fresh (T : Proc.ptable -> Prop) :
  pt (fun fs t => inv pend fresh fs t /\ T t) filealloc (fun r fs t =>
    match r with
    | Some f => (f < NFILE)%nat /\ f ∉ fresh /\ inv (padd f 1 pend) (f :: fresh) fs t /\ T t
    | None => inv pend fresh fs t /\ T t
    end).
Proof.
  intros s [Hi HT]. unfold filealloc. kexec. destruct (free_file (kfiles s) 0) as [f|] eqn:E; kexec; [|done].
  apply free_file_spec in E as (_ & x & Hx & Hr). rewrite Nat.sub_0_r in Hx.
  pose proof (lookup_lt_Some _ _ _ Hx) as Hlt. rewrite (inv_len _ _ _ _ Hi) in Hlt.
  pose proof (inv_type _ _ _ _ Hi _ _ Hx) as Hy. unfold fset. kexec. simpl. split_and!; try done.
  - intros Hf. rewrite decide_True in Hy by done. lia.
  - eapply inv_alter; [done..| | |].
    + simpl. lia.
    + intros h Hh. rewrite elem_of_cons. tauto.
    + rewrite decide_True by (apply elem_of_cons; tauto). done.
Qed.

Lemma pt_filedup pend fresh (T : Proc.ptable -> Prop) f :
  f ∉ fresh -> (forall g, pend g <= 1000) ->
  pt (fun fs t => inv pend fresh fs t /\ T t) (filedup f) (fun r fs t =>
    r = f /\ inv (padd f 1 pend) fresh fs t /\ T t).
Proof.
  intros Hf Hp s [Hi HT]. unfold filedup, fget. kexec. destruct (ref (file_at s f) <? 1) eqn:E; bool_prop; kexec; [done|].
  unfold fset. kexec. simpl. split_and!; try done. unfold file_at in *.
  destruct (kfiles s !! f) as [x|] eqn:Hx.
  - rewrite (nth_lookup_Some _ _ _ _ Hx) in *. pose proof (inv_ref _ _ _ _ Hi _ _ Hx) as Hr.
    pose proof (refs_bound (ktab s) f (inv_tab _ _ _ _ Hi) (inv_slots _ _ _ _ Hi)). specialize (Hp f).
    pose proof (inv_type _ _ _ _ Hi _ _ Hx) as Hy. rewrite decide_False in Hy by done.
    rewrite i32_small by lia.
    eapply inv_alter; [done..|simpl; lia|done|]. simpl. rewrite decide_False by done. intros. apply Hy. lia.
  - rewrite nth_overflow in E by (by apply lookup_ge_None). simpl in E. lia.
Qed.

Lemma pt_fileclose pend fresh (T : Proc.ptable -> Prop) f :
  (f < NFILE)%nat ->
  pt (fun fs t => inv pend fresh fs t /\ T t) (fileclose f) (fun _ fs t =>
    inv (padd f (-1) pend) (filter (.≠ f) fresh) fs t /\ T t).
Proof.
  intros Hf s [Hi HT]. rewrite <- (inv_len _ _ _ _ Hi) in Hf.
  destruct (lookup_lt_is_Some_2 _ _ Hf) as [x Hx]. pose proof (inv_type _ _ _ _ Hi _ _ Hx) as Hy.
  assert (Hother : forall h, h <> f -> h ∈ filter (.≠ f) fresh <-> h ∈ fresh).
  { intros h Hh. rewrite list_elem_of_filter. tauto. }
  assert (Hme : ~ (f ∈ filter (.≠ f) fresh)) by (rewrite list_elem_of_filter; tauto).
  unfold fileclose, fget. kexec. rewrite (file_at_lookup s f x Hx).
  destruct (ref x <? 1) eqn:E; bool_prop; kexec; [done|]. unfold fset. kexec.
  destruct (0 <? ref x - 1) eqn:E1; bool_prop; kexec.
  - simpl. split; [|done]. eapply inv_alter; [done..|simpl; lia|done|].
    rewrite decide_False by done. simpl. destruct (decide (f ∈ fresh)); [lia|]. intros. apply Hy. lia.
  - set (ff := file_at _ f). simpl. rewrite !alter_alter.
    match goal with |- match exec ?m ?s with _ => _ end => 
      enough (HH : pt (fun fs t => inv (padd f (-1) pend) (filter (.≠ f) fresh) fs t /\ T t) m
        (fun _ fs t => inv (padd f (-1) pend) (filter (.≠ f) fresh) fs t /\ T t)) end.
    + apply HH. simpl. split; [|done]. eapply inv_alter; [done..|simpl; lia|done|].
      rewrite decide_False by done. simpl. lia.
    + destruct (ftype ff); [by apply pt_ret|apply pt_on_pipes|apply pt_on_fs].
Qed.

(** ** Descriptors *)

Lemma alive_set_ofile cp i fd o t : alive cp t -> alive cp (Proc.upd i (set_ofile fd o) t).
Proof. unfold alive. intros Ha. rewrite Proc.proc_at_upd. case_decide as E; [|done]. by destruct E as [-> _]. Qed.

Lemma pt_set_ofile pend fresh cp i fd o o' :
  (forall f, o' = Some f -> (f < NFILE)%nat) ->
  pt (fun fs t => inv pend fresh fs t /\ alive cp t /\ alive i t /\ Proc.ofile (Proc.proc_at t i) !! fd = Some o)
    (pupd i (set_ofile fd o')) (fun _ fs t =>
    inv (fun g => pend g + Z.of_nat (one o g) - Z.of_nat (one o' g)) fresh fs t /\ alive cp t /\ alive i t /\
    Proc.ofile (Proc.proc_at t i) !! fd = Some o').
Proof.
  intros Ho s (Hi & Ha & Hai & Hfd). rewrite Machine.exec_pupd. simpl. pose proof (alive_lookup _ _ Hai) as Hl.
  split_and!; [|by apply alive_set_ofile..|].
  - eapply inv_set_ofile; eauto.
  - rewrite Proc.proc_at_upd_eq by (by eapply lookup_lt_Some). simpl.
    apply list_lookup_insert_eq. by eapply lookup_lt_Some.
Qed.

Lemma ofile_at_lookup fs t pend fresh cp fd :
  inv pend fresh fs t -> alive cp t -> (fd < Proc.NOFILE)%nat ->
  Proc.ofile (Proc.proc_at t cp) !! fd = Some (ofile_at (Proc.proc_at t cp) fd).
Proof.
  intros Hi Ha Hfd. destruct (proj1 (Forall_lookup _ _) (inv_slots _ _ _ _ Hi) _ _ (alive_lookup _ _ Ha)) as (Hl & _).
  rewrite <- Hl in Hfd. destruct (lookup_lt_is_Some_2 _ _ Hfd) as [o Ho].
  unfold ofile_at. by rewrite (nth_lookup_Some _ _ _ _ Ho).
Qed.

Lemma pt_fdalloc_loop pend fresh cp f (T : Proc.ptable -> Prop) n fd :
  (f < NFILE)%nat -> (n + fd = Proc.NOFILE)%nat ->
  pt (fun fs t => inv pend fresh fs t /\ alive cp t /\ T t) (fdalloc_loop n fd cp f) (fun fd fs t =>
    if fd <? 0 then inv pend fresh fs t /\ alive cp t /\ T t
    else inv (padd f (-1) pend) fresh fs t /\ alive cp t /\
         Proc.ofile (Proc.proc_at t cp) !! Z.to_nat fd = Some (Some f)).
Proof.
  intros Hf. revert fd. induction n as [|n IH]; intros fd Hn; [by apply pt_ret|]. simpl fdalloc_loop.
  intros s (Hi & Ha & HT). unfold pget. kexec.
  pose proof (ofile_at_lookup _ _ _ _ cp fd Hi Ha ltac:(lia)) as Ho.
  destruct (ofile_at (Proc.proc_at (ktab s) cp) fd) as [g|]; [by apply (IH (S fd)); [lia|]|].
  rewrite exec_kbind, Machine.exec_pupd. kexec.
  destruct (Z.of_nat fd <? 0) eqn:E; bool_prop; [lia|]. rewrite Nat2Z.id.
  pose proof (pt_set_ofile pend fresh cp cp fd None (Some f) ltac:(naive_solver) s) as HH.
  rewrite Machine.exec_pupd in HH. destruct HH as (Hi' & Ha' & _ & Ho'); [done|]. split_and!; [|done..].
  eapply inv_pend; [|exact Hi']. intros g. unfold padd, one. repeat case_decide; naive_solver lia.
Qed.

Lemma pt_fdalloc pend fresh cp f (T : Proc.ptable -> Prop) :
  (f < NFILE)%nat ->
  pt (fun fs t => inv pend fresh fs t /\ alive cp t /\ T t) (fdalloc cp f) (fun fd fs t =>
    if fd <? 0 then inv pend fresh fs t /\ alive cp t /\ T t
    else inv (padd f (-1) pend) fresh fs t /\ alive cp t /\
         Proc.ofile (Proc.proc_at t cp) !! Z.to_nat fd = Some (Some f)).
Proof. intros. by apply pt_fdalloc_loop. Qed.

(** ** proc.c *)

(** Tables that differ at one slot. *)
Lemma tab_le_slot t t' i p g :
  Proc.procs t !! i = Some p -> Proc.procs t' = alter g i (Proc.procs t) ->
  Proc.ofile (g p) = Proc.ofile p -> (dead (g p) -> dead p) -> tab_le t t'.
Proof.
  intros Hp Ht Ho Hd. unfold tab_le. rewrite Ht.
  apply (tab_le_upd i g t). intros q Hq. by simplify_eq.
Qed.

Lemma exec_proc_kmem {A} (m : K Kalloc.kmem A) (s : Proc.pstate) :
  exec (Proc.on_kmem m) s = rput (fun k s => Proc.mkpstate (Proc.ptab s) k) s (exec m (Proc.pkmem s)).
Proof. unfold Proc.on_kmem. by rewrite exec_zoom. Qed.

Lemma upd_upd i f g t : Proc.upd i f (Proc.upd i g t) = Proc.upd i (f ∘ g) t.
Proof. unfold Proc.upd. simpl. by rewrite alter_alter. Qed.

(** allocproc: the slot it gives was unused. *)
Lemma allocproc_tab s :
  match exec Proc.allocproc s with
  | Done r _ s' => tab_le (Proc.ptab s) (Proc.ptab s') /\
      match r with
      | Some np => dead (Proc.proc_at (Proc.ptab s) np) /\ alive np (Proc.ptab s')
      | None => True
      end
  | _ => True
  end.
Proof.
  unfold Proc.allocproc. kexec. rewrite ProcSpec.exec_section. kexec. unfold Proc.alloc_slot.
  destruct (Proc.find_from _ 0 _) as [i|] eqn:E; cbn [fst snd]; kexec; [|done].
  apply Proc.find_from_spec in E as (p & _ & Hp & Hst). rewrite Nat.sub_0_r in Hp. apply Proc.in_state_true in Hst.
  rewrite exec_proc_kmem. destruct (exec (Kalloc.kalloc _) _) as [k w km| | |]; cbn; try done.
  assert (Hd : dead p) by (by left). unfold Proc.upd_proc. kexec. destruct (k =? 0); kexec; cbn.
  - split; [|done]. eapply tab_le_slot; [exact Hp|unfold Proc.upd; cbn [Proc.procs]; by rewrite !alter_alter|done|done].
  - assert (Hat : Proc.proc_at (Proc.ptab s) i = p) by (unfold Proc.proc_at; by rewrite Hp).
    split_and!; [|by rewrite Hat|].
    + eapply tab_le_slot; [exact Hp|unfold Proc.upd; cbn [Proc.procs]; by rewrite !alter_alter|done|done].
    + unfold alive, Proc.proc_at. cbn. rewrite !list_lookup_alter_eq, Hp. cbn.
      intros [?|?]; done.
Qed.

Lemma harmless_kill id : harmless (Proc.kill id).
Proof.
  intros s. unfold Proc.kill. kexec. rewrite ProcSpec.exec_section. kexec. cbn. unfold Proc.kill_section.
  destruct (Proc.find_from _ 0 _) as [i|]; [|done]. apply tab_le_upd. intros p _.
  destruct (Proc.in_state _ _) eqn:E; cbn; [|done]. split; [done|]. intros [?|?]; done.
Qed.

Lemma wait_scan_reap cp l i hk k :
  Proc.wait_scan cp i hk l = Proc.WReap k ->
  (i <= k)%nat /\ exists p, l !! (k - i)%nat = Some p /\ Proc.state p = Proc.ZOMBIE.
Proof.
  revert i hk. induction l as [|p l IH]; intros i hk E; [done|]. simpl in E.
  assert (Hrec : forall hk, Proc.wait_scan cp (S i) hk l = Proc.WReap k ->
    (i <= k)%nat /\ exists q, (p :: l) !! (k - i)%nat = Some q /\ Proc.state q = Proc.ZOMBIE).
  { intros hk' E'. apply IH in E' as (Hk & q & Hq & Hs). split; [lia|]. exists q.
    by replace (k - i)%nat with (S (k - S i)) by lia. }
  destruct (Proc.in_state Proc.UNUSED p); [eauto|]. destruct (bool_decide _); [|eauto].
  destruct (Proc.in_state Proc.ZOMBIE p) eqn:Ez; [|eauto]. injection E as <-. split; [lia|].
  exists p. rewrite Nat.sub_diag. split; [done|]. by apply Proc.in_state_true.
Qed.

Lemma harmless_wait fuel cp : harmless (Proc.wait fuel cp).
Proof.
  intros s. unfold Proc.wait. kexec. destruct fuel as [|fuel]; [done|]. simpl Proc.wait_loop. kexec.
  destruct (Proc.wait_scan _ _ _ _) as [i|hk] eqn:E.
  - apply wait_scan_reap in E as (_ & p & Hp & Hs). rewrite Nat.sub_0_r in Hp.
    unfold Proc.my. kexec. rewrite exec_proc_kmem.
    destruct (exec (Kalloc.kfree _ _) _) as [? [] k1| | |]; cbn [rput rbind]; try done. kexec. rewrite exec_proc_kmem.
    destruct (exec (Kalloc.kfree _ _) _) as [? [] k2| | |]; cbn [rput rbind]; try done. kexec. cbn.
    eapply tab_le_slot; [exact Hp|done|done|]. intros _. by right.
  - unfold Proc.my. kexec. destruct (negb hk || _); kexec; [done|].
    unfold Proc.proc_sleep, Proc.upd_proc, Proc.sched, Proc.my.
    destruct (decide (Lk_ptable = Lk_ptable)) as [_|[]]; [|done]. kexec.
    destruct (decide (Proc.state _ = _)); kexec; done.
Qed.

(** ** System calls that leave the descriptors alone *)

(** The state of a call that holds no references of its own. *)
Definition ok (cp : nat) (fs : list file) (t : Proc.ptable) : Prop := files_ok fs t /\ alive cp t.

Lemma stable_ok cp : stable (ok cp).
Proof. intros fs t t' [Hi Ha] Hle. split; [by eapply inv_tab_le|by eapply alive_tab_le]. Qed.

Lemma ok_fset_off cp f o fs t : ok cp fs t -> ok cp (alter (fun y => set_off (o y) y) f fs) t.
Proof. intros [Hi Ha]. split; [|done]. by apply inv_alter_same. Qed.

Definition neutral {A} (m : K (kern B) A) : Prop := forall cp, pt (ok cp) m (fun _ => ok cp).

Lemma neutral_pt {A} cp (m : K (kern B) A) : neutral m -> pt (ok cp) m (fun _ => ok cp).
Proof. auto. Qed.

Ltac neutral_step :=
  match goal with
  | |- pt ?P (kbind ?m ?f) _ => apply (pt_bind P m (fun _ => P)); [|intros ?]
  | |- pt _ (kret _) _ => apply pt_ret; by auto
  | |- pt _ (match ?x with _ => _ end) _ => destruct x
  | |- pt _ (panic _) _ => apply pt_panic
  | |- pt _ diverge _ => apply pt_diverge
  | |- pt _ (gets _) _ => apply pt_gets
  | |- pt _ (on_fs _) _ => apply pt_on_fs
  | |- pt _ (on_pipes _) _ => apply pt_on_pipes
  | |- pt _ (on_kmem _) _ => apply pt_on_kmem
  | |- pt _ (on_cpu _) _ => apply pt_on_cpu
  | |- pt _ (pupd _ _) _ => apply pt_pupd; [by apply stable_ok|done]
  | |- pt _ (on_proc (Proc.wait _ _)) _ => apply pt_on_proc; [by apply stable_ok|apply harmless_wait]
  | |- pt _ (on_proc (Proc.kill _)) _ => apply pt_on_proc; [by apply stable_ok|apply harmless_kill]
  | |- pt _ (fset _ _) _ => apply pt_fset; intros; by apply ok_fset_off
  | |- pt _ (trigger _) _ => apply pt_trigger
  | |- pt (ok _) _ _ => apply neutral_pt; solve [auto with neutral nocore]
  end.
Ltac neutral :=
  unfold arg, mem, mupd, pget, fget, acquire, release, sleep, wakeup, cp_killed, cprintf;
  repeat neutral_step.

Lemma neutral_arg {A} p (g : Proc.proc -> (Z -> Z) -> option A) : neutral (arg p g).
Proof. intros cp. neutral. Qed.

(** ** System calls on descriptors *)

(** The descriptor of process [cp] that argfd finds. *)
Definition has_fd (cp : nat) (t : Proc.ptable) (fd f : nat) : Prop :=
  Proc.ofile (Proc.proc_at t cp) !! fd = Some (Some f).

Lemma has_fd_lt pend fresh fs t cp fd f :
  inv pend fresh fs t -> alive cp t -> has_fd cp t fd f -> (f < NFILE)%nat.
Proof.
  intros Hi Ha Hf.
  destruct (proj1 (Forall_lookup _ _) (inv_slots _ _ _ _ Hi) _ _ (alive_lookup _ _ Ha)) as (_ & Hl & _).
  by eapply Hl.
Qed.

Lemma pt_argfd cp n :
  pt (ok cp) (argfd cp n) (fun r fs t => ok cp fs t /\
    match r with Some (fd, f) => (f < NFILE)%nat /\ has_fd cp t fd f | None => True end).
Proof.
  intros s [Hi Ha]. unfold argfd, arg, mem, pget. kexec.
  destruct (Syscall.argint _ _ _) as [fd|]; kexec; [|done].
  destruct (fd <? 0) eqn:E1, (Z.of_nat Proc.NOFILE <=? fd) eqn:E2; bool_prop; simpl; kexec; try done.
  destruct (ofile_at _ _) as [f|] eqn:Ef; kexec; [|done].
  pose proof (ofile_at_lookup _ _ _ _ cp (Z.to_nat fd) Hi Ha ltac:(lia)) as Ho. rewrite Ef in Ho.
  split; [done|]. split; [|done]. by eapply has_fd_lt.
Qed.

Lemma pt_dup cp : pt (ok cp) (sys_dup cp) (fun _ => ok cp).
Proof.
  unfold sys_dup. eapply pt_bind; [apply pt_argfd|]. intros [[fd f]|]; [|apply pt_ret; tauto].
  apply (pt_pure (f < NFILE)%nat); [tauto|]. intros Hf.
  eapply pt_bind; [eapply pt_pre; [|apply (pt_fdalloc none [] cp f (fun _ => True) Hf)]; unfold ok, files_ok; tauto|].
  intros d. cbv beta. destruct (d <? 0); [apply pt_ret; by intros fs t (? & ? & _)|].
  eapply pt_bind; [eapply pt_pre; [|apply (pt_filedup (padd f (-1) none) [] (alive cp))]|].
  - by intros fs t (? & ? & _).
  - set_solver.
  - intros g. unfold padd, none. case_decide; lia.
  - intros r. apply pt_ret. intros fs t (_ & Hi & Ha). split; [|done].
    eapply inv_pend; [|exact Hi]. intros g. unfold padd, none. case_decide; lia.
Qed.

Lemma pt_close cp : pt (ok cp) (sys_close cp) (fun _ => ok cp).
Proof.
  unfold sys_close. eapply pt_bind; [apply pt_argfd|]. intros [[fd f]|]; [|apply pt_ret; tauto].
  apply (pt_pure (f < NFILE)%nat); [tauto|]. intros Hf.
  eapply pt_bind; [eapply pt_pre; [|apply (pt_set_ofile none [] cp cp fd (Some f) None)]|].
  - unfold ok, files_ok, has_fd. tauto.
  - done.
  - intros []. eapply pt_bind; [eapply pt_pre; [|eapply (pt_fileclose _ [] (alive cp) f Hf)]; intros fs t (Hi & Ha & _); split; [exact Hi|exact Ha]|].
    intros []. apply pt_ret. intros fs t (Hi & Ha). split; [|done].
    eapply inv_pend; [|exact Hi]. intros g. unfold padd, none, one. repeat case_decide; naive_solver lia.
Qed.

(** A file is allocated and given a descriptor, or neither. *)
Lemma pt_alloc_fd cp :
  pt (ok cp) (alloc_fd cp) (fun r fs t =>
    match r with
    | Some (f, _) => (f < NFILE)%nat /\ inv none [f] fs t /\ alive cp t
    | None => ok cp fs t
    end).
Proof.
  unfold alloc_fd. eapply pt_bind; [apply (pt_filealloc none [] (alive cp))|].
  intros [f|]; [|by apply pt_ret]. apply (pt_pure (f < NFILE)%nat); [tauto|]. intros Hf.
  eapply pt_bind; [eapply pt_pre; [|apply (pt_fdalloc (padd f 1 none) [f] cp f (fun _ => True) Hf)]; tauto|].
  intros d. cbv beta. destruct (d <? 0).
  - eapply pt_bind; [eapply pt_pre; [|eapply (pt_fileclose _ [f] (alive cp) f Hf)]; intros fs t (Hi & Ha & _); split; [exact Hi|exact Ha]|].
    intros []. apply pt_ret. intros fs t (Hi & Ha). split; [|done].
    rewrite filter_cons_False in Hi by auto. eapply inv_pend; [|exact Hi].
    intros g. unfold padd, none. case_decide; lia.
  - apply pt_ret. intros fs t (Hi & Ha & _). split_and!; [done| |done].
    eapply inv_pend; [|exact Hi]. intros g. unfold padd, none. case_decide; lia.
Qed.

(** The references to both ends of a new pipe. *)
Definition ends (rf wf : nat) : nat -> Z := padd wf 1 (padd rf 1 none).

Lemma ends_close rf wf g : padd wf (-1) (padd rf (-1) (ends rf wf)) g = none g.
Proof. unfold ends, padd, none. repeat case_decide; lia. Qed.

Lemma pt_close2 {A} cp rf wf (pend : nat -> Z) fresh (m : K (kern B) A) Q :
  (rf < NFILE)%nat -> (wf < NFILE)%nat -> (forall g, pend g = ends rf wf g) ->
  (forall g, g ∈ fresh -> g = rf \/ g = wf) -> pt (ok cp) m Q ->
  pt (fun fs t => inv pend fresh fs t /\ alive cp t) (fileclose rf ;; fileclose wf ;; m)%K Q.
Proof.
  intros Hr Hw He Hf Hm. eapply pt_bind; [apply (pt_fileclose pend fresh (alive cp) rf Hr)|]. intros [].
  eapply pt_bind; [apply (pt_fileclose _ _ (alive cp) wf Hw)|]. intros []. eapply pt_pre; [|exact Hm].
  intros fs t [Hi Ha]. split; [|done].
  assert (filter (.≠ wf) (filter (.≠ rf) fresh) = []) as E.
  { apply elem_of_nil_inv. intros g. rewrite !list_elem_of_filter. naive_solver. }
  rewrite E in Hi. eapply inv_pend; [|exact Hi]. intros g. rewrite <- (ends_close rf wf).
  unfold padd. by rewrite He.
Qed.

Lemma pt_pipealloc cp :
  pt (ok cp) pipealloc (fun r fs t =>
    match r with
    | Some (rf, wf) => ((rf < NFILE)%nat /\ (wf < NFILE)%nat) /\ inv (ends rf wf) [] fs t /\ alive cp t
    | None => ok cp fs t
    end).
Proof.
  unfold pipealloc. eapply pt_bind; [apply (pt_filealloc none [] (alive cp))|].
  intros [rf|]; [|unfold pipealloc_bad; neutral]. apply (pt_pure (rf < NFILE)%nat); [tauto|]. intros Hr.
  eapply pt_bind; [eapply pt_pre; [|apply (pt_filealloc (padd rf 1 none) [rf] (alive cp))]; tauto|].
  intros [wf|]; cbv beta iota.
  - apply (pt_pure (wf < NFILE)%nat); [tauto|]. intros Hw. eapply pt_bind; [apply pt_on_kmem|]. intros p.
    destruct (p =? 0).
    + eapply pt_pre; [|eapply (pt_close2 cp rf wf (ends rf wf) [wf; rf]); try done].
      * tauto.
      * set_solver.
      * by apply pt_ret.
    + eapply pt_bind; [apply pt_gets|]. intros junk. eapply pt_bind; [apply pt_on_pipes|]. intros [].
      intros s (_ & _ & Hi & Ha). unfold fset. kexec. simpl. split_and!; try done.
      eapply (inv_typed _ _ _ _ rf (set_pipe true false p)) in Hi; [|done|done].
      eapply (inv_typed _ _ _ _ wf (set_pipe false true p)) in Hi; [|done|done].
      assert (filter (.≠ wf) (filter (.≠ rf) [wf; rf]) = []) as E.
      { apply elem_of_nil_inv. intros g. rewrite !list_elem_of_filter. set_solver. }
      by rewrite E in Hi.
  - unfold pipealloc_bad. eapply pt_bind; [apply (pt_fileclose _ _ (alive cp) rf Hr)|]. intros [].
    apply (pt_bind _ _ (fun _ => ok cp)); [|intros []; by apply pt_ret]. apply pt_ret.
    intros fs t [Hi Ha]. split; [|done]. rewrite filter_cons_False in Hi by auto.
    eapply inv_pend; [|exact Hi]. intros g. unfold padd, none. case_decide; lia.
Qed.

Lemma pt_pipe cp : pt (ok cp) (sys_pipe cp) (fun _ => ok cp).
Proof.
  unfold sys_pipe. eapply pt_bind; [apply neutral_arg|]. intros [a|]; [|by apply pt_ret].
  eapply pt_bind; [apply pt_pipealloc|]. intros [[rf wf]|]; cbv beta iota; [|by apply pt_ret].
  apply (pt_pure ((rf < NFILE)%nat /\ (wf < NFILE)%nat)); [tauto|]. intros [Hr Hw].
  eapply pt_bind; [eapply pt_pre; [|apply (pt_fdalloc (ends rf wf) [] cp rf (fun _ => True) Hr)]; tauto|].
  intros fd0. cbv beta. destruct (fd0 <? 0).
  - eapply pt_pre; [|eapply (pt_close2 cp rf wf (ends rf wf) []); try done; [set_solver|by apply pt_ret]].
    tauto.
  - eapply pt_bind.
    { apply (pt_fdalloc (padd rf (-1) (ends rf wf)) [] cp wf (fun t => has_fd cp t (Z.to_nat fd0) rf) Hw). }
    intros fd1. cbv beta. destruct (fd1 <? 0).
    + eapply pt_bind.
      { eapply pt_pre; [|apply (pt_set_ofile (padd rf (-1) (ends rf wf)) [] cp cp (Z.to_nat fd0) (Some rf) None); done].
        unfold has_fd. tauto. }
      intros [].
      eapply pt_pre; [|eapply (pt_close2 cp rf wf (fun g => padd rf (-1) (ends rf wf) g + Z.of_nat (one (Some rf) g)
        - Z.of_nat (one None g)) []); [done|done| |set_solver|by apply pt_ret]].
      * intros fs t (Hi & Ha & _). split; [exact Hi|exact Ha].
      * intros g. unfold ends, padd, one. repeat case_decide; naive_solver lia.
    + eapply pt_pre; [|neutral]. intros fs t (Hi & Ha & _). split; [|done].
      eapply inv_pend; [|exact Hi]. intros g. by rewrite <- (ends_close rf wf).
Qed.

(** ** fork *)

(** A child in the making: it has no files from descriptor [fd] on. *)
Definition child (cp np fd : nat) (fs : list file) (t : Proc.ptable) : Prop :=
  ok cp fs t /\ alive np t /\ np <> cp /\
  forall d, (fd <= d < Proc.NOFILE)%nat -> Proc.ofile (Proc.proc_at t np) !! d = Some None.

Lemma stable_child cp np fd : stable (child cp np fd).
Proof.
  intros fs t t' (Hok & Ha & Hne & Ho) Hle. split_and!; [by eapply stable_ok|by eapply alive_tab_le|done|].
  destruct (tab_le_proc_at _ _ np Hle) as [-> _]. done.
Qed.

Lemma pt_allocproc cp :
  pt (ok cp) (on_proc Proc.allocproc) (fun r fs t =>
    match r with Some np => child cp np 0 fs t | None => ok cp fs t end).
Proof.
  intros s [Hi Ha]. rewrite Machine.exec_on_proc. set (ps := Proc.mkpstate _ _).
  pose proof (allocproc_tab ps) as Hp. destruct (exec Proc.allocproc ps) as [r w s'| | |]; simpl; try done.
  destruct Hp as [Hle Hr]. pose proof (stable_ok cp _ _ _ (conj Hi Ha) Hle) as Hok.
  destruct r as [np|]; [|done]. destruct Hr as [Hd Hnp]. split_and!; [done..| |].
  - intros ->. by apply Ha.
  - intros d Hdl. destruct (tab_le_proc_at _ _ np Hle) as [-> _].
    assert (Hin : (np < length (Proc.procs (ktab s)))%nat).
    { pose proof (Forall2_length _ _ _ Hle) as E. simpl in E. rewrite E.
      eapply lookup_lt_Some, alive_lookup, Hnp. }
    destruct (lookup_lt_is_Some_2 _ _ Hin) as [p Hp].
    destruct (proj1 (Forall_lookup _ _) (inv_slots _ _ _ _ Hi) _ _ Hp) as (_ & _ & Hz).
    assert (Hpa : Proc.proc_at (Proc.ptab ps) np = p) by (unfold Proc.proc_at; simpl; by rewrite Hp).
    rewrite Hpa in *. rewrite Hz by done. apply lookup_replicate_2. lia.
Qed.

Lemma pt_child_file cp np fd f :
  (fd < Proc.NOFILE)%nat ->
  pt (fun fs t => child cp np fd fs t /\ has_fd cp t fd f)
    (f' <- filedup f ;; pupd np (set_ofile fd (Some f')))%K (fun _ => child cp np (S fd)).
Proof.
  intros Hfd s [Hc Hf]. rewrite exec_kbind.
  pose proof (pt_filedup none [] (fun t => child cp np fd (kfiles s) t /\ has_fd cp t fd f) f
    ltac:(set_solver) ltac:(done) s) as Hd.
  destruct (exec (filedup f) s) as [f' [] s1| | |]; simpl; try done.
  destruct Hd as (-> & Hi & ((Hok & Hnp & Hne & Ho) & Hh)); [by destruct Hc as [[? ?] ?]|].
  assert (Hlt : (f < NFILE)%nat) by (eapply has_fd_lt; [exact Hi|apply Hok|exact Hh]).
  pose proof (pt_set_ofile (padd f 1 none) [] cp np fd None (Some f) ltac:(naive_solver) s1) as Hset.
  rewrite Machine.exec_pupd in *. destruct Hset as (Hi2 & Ha2 & Hnp2 & _).
  { split_and!; [done|apply Hok|done|apply Ho; lia]. }
  split_and!; [split; [|done]|done|done|].
  - eapply inv_pend; [|exact Hi2]. intros g. unfold padd, none, one. repeat case_decide; naive_solver lia.
  - intros d Hdl. simpl. rewrite Proc.proc_at_upd_eq by (eapply lookup_lt_Some, alive_lookup, Hnp).
    simpl. rewrite list_lookup_insert_ne by lia. apply Ho. lia.
Qed.

Lemma pt_fork_files n fd cp np :
  (n + fd = Proc.NOFILE)%nat ->
  pt (child cp np fd) (fork_files n fd cp np) (fun _ => child cp np Proc.NOFILE).
Proof.
  revert fd. induction n as [|n IH]; intros fd Hn; [apply pt_ret; simpl in Hn; by rewrite Hn|].
  simpl fork_files. eapply pt_bind; [apply pt_pget|]. intros o. cbv beta.
  apply (pt_bind _ _ (fun _ => child cp np (S fd))); [|intros []; apply IH; lia].
  destruct o as [f|].
  - eapply pt_pre; [|apply (pt_child_file cp np fd f); lia]. intros fs t [Hc Ho]. split; [done|].
    destruct Hc as ((Hi & Ha) & _). unfold has_fd. rewrite Ho.
    eapply ofile_at_lookup; [exact Hi|done|lia].
  - apply pt_ret. intros fs t [(Hok & Hnp & Hne & Hd) _]. split_and!; try done. intros. apply Hd. lia.
Qed.

(** A process without files may die. *)
Lemma inv_without_files pend fresh fs t np g :
  inv pend fresh fs t -> (forall d, (d < Proc.NOFILE)%nat -> Proc.ofile (Proc.proc_at t np) !! d = Some None) ->
  (forall p, Proc.ofile (g p) = Proc.ofile p) -> inv pend fresh fs (Proc.upd np g t).
Proof.
  intros [Hl Ht Hs Hr Hy] Ho Hg. constructor; auto; [by rewrite Proc.length_upd| |].
  - apply Forall_lookup. intros j q Hq. unfold Proc.upd in Hq. simpl in Hq.
    pose proof (proj1 (Forall_lookup _ _) Hs) as Hsl.
    destruct (decide (j = np)) as [->|]; [|rewrite list_lookup_alter_ne in Hq by done; eauto].
    rewrite list_lookup_alter_eq in Hq. destruct (Proc.procs t !! np) as [p|] eqn:Hp; [|done].
    injection Hq as <-. destruct (Hsl _ _ Hp) as (H1 & H2 & H3). unfold slot_ok. rewrite Hg.
    split_and!; [done|done|]. intros _.
    assert (Hpa : Proc.proc_at t np = p) by (unfold Proc.proc_at; by rewrite Hp). rewrite Hpa in Ho.
    apply list_eq. intros d. destruct (decide (d < Proc.NOFILE)%nat).
    + rewrite Ho by done. by rewrite lookup_replicate_2.
    + rewrite !lookup_ge_None_2; [done|rewrite length_replicate; lia|lia].
  - intros f x Hx. rewrite (Hr _ _ Hx). f_equal. f_equal. unfold refs, Proc.upd. simpl.
    destruct (Proc.procs t !! np) as [p|] eqn:Hp.
    + pose proof (sum_list_with_alter (fun p => fd_count f (Proc.ofile p)) g _ _ _ Hp) as E.
      simpl in *. rewrite Hg in E. lia.
    + f_equal. apply list_eq. intros j. destruct (decide (j = np)) as [->|];
        [by rewrite list_lookup_alter_eq, Hp|by rewrite list_lookup_alter_ne].
Qed.

Lemma pt_fork_fail cp np :
  pt (child cp np 0) (pupd np (Proc.set_state Proc.UNUSED)) (fun _ => ok cp).
Proof.
  intros s ((Hi & Ha) & Hnp & Hne & Ho). rewrite Machine.exec_pupd. simpl. split.
  - apply inv_without_files; [done| |done]. intros. apply Ho. lia.
  - unfold alive. by rewrite Proc.proc_at_upd_ne.
Qed.

(** Steps of fork that leave the child as it is. *)
Ltac child_step :=
  match goal with
  | |- pt ?P (kbind ?m ?f) _ => apply (pt_bind P m (fun _ => P)); [|intros ?]
  | |- pt _ (gets _) _ => apply pt_gets
  | |- pt _ (on_fs _) _ => apply pt_on_fs
  | |- pt _ (on_kmem _) _ => apply pt_on_kmem
  | |- pt _ (pupd _ _) _ => apply pt_pupd; [by apply stable_child|]; intros ?; split; [done|first [done|by intros [?|?]]]
  end.

Lemma pt_fork cp : pt (ok cp) (fork cp) (fun _ => ok cp).
Proof.
  unfold fork. eapply pt_bind; [apply pt_allocproc|]. intros [np|]; [|by apply pt_ret].
  unfold pget, mupd. do 3 child_step; [child_step|]. destruct (a0 =? 0).
  - do 3 child_step; [child_step|]. apply (pt_bind _ _ (fun _ => ok cp)); [apply pt_fork_fail|].
    intros []. by apply pt_ret.
  - do 5 (child_step; [child_step|]). apply (pt_bind _ _ (fun _ => child cp np Proc.NOFILE)).
    { apply pt_fork_files. done. }
    intros []. do 5 (child_step; [child_step|]). apply pt_ret. by intros fs t [? _].
Qed.

(** ** exit *)

(** A process that has closed its files below [fd]. *)
Definition closed (cp fd : nat) (fs : list file) (t : Proc.ptable) : Prop :=
  ok cp fs t /\ forall d, (d < fd)%nat -> (d < Proc.NOFILE)%nat -> Proc.ofile (Proc.proc_at t cp) !! d = Some None.

Lemma stable_closed cp fd : stable (closed cp fd).
Proof.
  intros fs t t' [Hok Hd] Hle. split; [by eapply stable_ok|].
  destruct (tab_le_proc_at _ _ cp Hle) as [-> _]. done.
Qed.

Lemma pt_close_files n fd cp :
  (n + fd = Proc.NOFILE)%nat ->
  pt (closed cp fd) (close_files n fd cp) (fun _ => closed cp Proc.NOFILE).
Proof.
  revert fd. induction n as [|n IH]; intros fd Hn; [apply pt_ret; simpl in Hn; by rewrite Hn|].
  simpl close_files. eapply pt_bind; [apply pt_pget|]. intros o. cbv beta.
  apply (pt_bind _ _ (fun _ => closed cp (S fd))); [|intros []; apply IH; lia].
  destruct o as [f|].
  - intros s [[[Hi Ha] Hc] Ho]. pose proof (ofile_at_lookup _ _ _ _ cp fd Hi Ha ltac:(lia)) as Hl.
    rewrite <- Ho in Hl. assert (Hf : (f < NFILE)%nat) by (by eapply has_fd_lt). rewrite exec_kbind.
    pose proof (pt_fileclose none [] (eq (ktab s)) f Hf s ltac:(done)) as Hx.
    destruct (exec (fileclose f) s) as [[] [] s1| | |]; simpl; try done. destruct Hx as [Hi1 Ht].
    pose proof (pt_set_ofile (padd f (-1) none) [] cp cp fd (Some f) None ltac:(done) s1) as Hset. rewrite Machine.exec_pupd in *.
    destruct Hset as (Hi2 & Ha2 & _ & Hl2); [split_and!; [exact Hi1|by rewrite <- Ht..]|].
    split; [split; [|done]|].
    + eapply inv_pend; [|exact Hi2]. intros g. unfold padd, none, one. repeat case_decide; naive_solver lia.
    + intros d Hd Hdn. destruct (decide (d = fd)) as [->|]; [done|]. simpl.
      rewrite <- Ht, Proc.proc_at_upd_eq by (by eapply lookup_lt_Some, alive_lookup).
      simpl. rewrite list_lookup_insert_ne by done. apply Hc; lia.
  - apply pt_ret. intros fs t [[[Hi Ha] Hc] Ho]. split; [done|]. intros d Hd Hdn.
    destruct (decide (d = fd)) as [->|]; [|apply Hc; lia]. rewrite Ho. by eapply ofile_at_lookup.
Qed.

Lemma tab_le_wakeup1 c t : tab_le t (Proc.wakeup1 c t).
Proof.
  unfold tab_le, Proc.wakeup1. simpl. apply Forall2_fmap_r, Forall2_same_length_lookup_2; [done|].
  intros i p p' E E'. simplify_eq. unfold compose, Proc.wakeup1_proc. case_match; [|done].
  split; [done|]. intros [?|?]; done.
Qed.

Lemma tab_le_wakeup1_parent q t : tab_le t (Proc.wakeup1_parent q t).
Proof. destruct q; [apply tab_le_wakeup1|done]. Qed.

Lemma tab_le_reparent n i cp t : tab_le t (Proc.reparent n i cp t).
Proof.
  revert i t. induction n as [|n IH]; intros i t; [done|]. simpl. etrans; [|apply IH].
  destruct (bool_decide _); [|done]. etrans; [by apply (tab_le_upd i (Proc.set_parent (Proc.initproc t)))|].
  destruct (Proc.in_state _ _); [apply tab_le_wakeup1_parent|done].
Qed.

Lemma exit_section_ok cp fs t : closed cp Proc.NOFILE fs t -> files_ok fs (Proc.exit_section cp t).
Proof.
  intros [[Hi Ha] Hc]. unfold Proc.exit_section.
  set (t1 := Proc.wakeup1_parent _ t). set (t2 := Proc.reparent _ _ _ t1).
  assert (Hle : tab_le t t2) by (etrans; [apply tab_le_wakeup1_parent|apply tab_le_reparent]).
  apply inv_without_files; [by eapply inv_tab_le| |done].
  intros d Hd. destruct (tab_le_proc_at _ _ cp Hle) as [-> _]. auto.
Qed.

(** While it closes its files a process does not die, also if it blocks. *)
Definition stays {A} (cp : nat) (m : K (kern B) A) : Prop :=
  forall s, alive cp (ktab s) ->
    match exec m s with
    | Done _ _ s' | Blocked _ _ s' => alive cp (ktab s')
    | _ => True
    end.

Lemma stays_bind {A C} cp (m : K (kern B) A) (f : A -> K (kern B) C) :
  stays cp m -> (forall a, stays cp (f a)) -> stays cp (kbind m f).
Proof.
  intros Hm Hf s Hs. rewrite exec_kbind. specialize (Hm s Hs).
  destruct (exec m s) as [a [] s'| | |]; simpl; try done. by apply Hf.
Qed.

Lemma stays_zoom {T A} cp (get : kern B -> T) put (m : K T A) :
  (forall u s, get (put u s) = u) -> (forall u u' s, put u' (put u s) = put u' s) ->
  (forall u s, ktab (put u s) = ktab s) -> stays cp (zoom get put m).
Proof.
  intros Hg Hp Hk s Hs. rewrite exec_zoom by done.
  destruct (exec m (get s)); simpl; try done; by rewrite Hk.
Qed.

Lemma stays_fileclose cp f : stays cp (fileclose f).
Proof.
  unfold fileclose, fget. repeat first
    [ apply stays_bind; [|intros ?] | case_match
    | (intros s Hs; first [rewrite exec_acquire|rewrite exec_release|rewrite exec_gets|rewrite exec_panic
                          |rewrite exec_kret|unfold fset; rewrite exec_modify]; done)
    | (by apply stays_zoom) ].
Qed.

Lemma stays_close_files n fd cp : stays cp (close_files n fd cp).
Proof.
  revert fd. induction n as [|n IH]; intros fd; simpl; [intros s Hs; by rewrite exec_kret|].
  apply stays_bind; [intros s Hs; unfold pget; by rewrite exec_gets|]. intros o.
  apply stays_bind; [|intros _; apply IH]. destruct o as [f|]; [|intros s Hs; by rewrite exec_kret].
  apply stays_bind; [apply stays_fileclose|]. intros _ s Hs. rewrite Machine.exec_pupd. by apply alive_set_ofile.
Qed.

Lemma exit_ok cp (s s' : kern B) e :
  ok cp (kfiles s) (ktab s) -> exec (exit cp) s = Blocked e tt s' -> ~ alive cp (ktab s') ->
  files_ok (kfiles s') (ktab s').
Proof.
  intros Hok. unfold exit. kexec. destruct (decide _); kexec; [done|].
  pose proof (pt_close_files Proc.NOFILE 0 cp ltac:(done) s) as Hc.
  pose proof (stays_close_files Proc.NOFILE 0 cp s ltac:(apply Hok)) as Ha.
  destruct (exec (close_files _ _ _) s) as [[] [] s1| | |]; cbn [rbind]; try done; [|intros E; by simplify_eq].
  specialize (Hc ltac:(split; [done|lia])). unfold pget. kexec.
  unfold on_fs at 1. rewrite exec_zoom by done.
  destruct (exec (iput _) _) as [[] [] u| | |]; cbn [rput rbind]; try done; [|intros E; by simplify_eq].
  rewrite exec_kbind, Machine.exec_pupd. cbn [rbind]. rewrite Machine.exec_on_proc. unfold Proc.exit_locked. kexec.
  set (s2 := Proc.with_tab _ _). unfold Proc.sched, Proc.my. kexec. destruct (decide _); kexec; [done|].
  cbn. intros E _. simplify_eq/=. apply exit_section_ok.
  eapply stable_closed; [exact Hc|]. by apply tab_le_upd.
Qed.

(** exit does not return. *)
Lemma pt_exit P cp : pt P (exit cp) (fun _ _ _ => False).
Proof.
  assert (Hany : forall A P (m : K (kern B) A), pt P m (fun _ _ _ => True)) by (intros; intros s Hs; by case_match).
  unfold exit. eapply pt_bind; [apply Hany|]. intros i. case_decide; [apply pt_panic|].
  do 4 (eapply pt_bind; [apply Hany|intros ?]). intros s _. rewrite Machine.exec_on_proc.
  unfold Proc.exit_locked, Proc.sched, Proc.my. kexec. case_decide; kexec; done.
Qed.

Section Calls.
Variable (fuel : nat).
Variable (dev_read : Z -> option (nat -> Z -> K (fstate B) (Z * bytes))).
Variable (dev_write : Z -> option (nat -> bytes -> Z -> K (fstate B) Z)).
Variable (elf0 : bytes).

Lemma neutral_fileread f n : neutral (fileread fuel dev_read f n).
Proof. intros cp. unfold fileread. neutral. Qed.
Lemma neutral_filewrite f a n : neutral (filewrite fuel dev_write f a n).
Proof. intros cp. unfold filewrite. neutral. Qed.
Lemma neutral_filestat f : neutral (filestat fuel f).
Proof. intros cp. unfold filestat. neutral. Qed.
Lemma neutral_argfd p n : neutral (argfd p n).
Proof. intros cp. unfold argfd. neutral. Qed.
Lemma neutral_usegment p : neutral (usegment p).
Proof. intros cp. unfold usegment. neutral. Qed.
Lemma neutral_cwd_of p : neutral (cwd_of p).
Proof. intros cp. unfold cwd_of. neutral. Qed.
Lemma neutral_strarg p n : neutral (strarg p n).
Proof. intros cp. unfold strarg. neutral. Qed.
Lemma neutral_sleep_loop k n t0 : neutral (sleep_loop k n t0).
Proof. intros cp. induction k as [|k IH]; simpl; neutral. exact IH. Qed.
Lemma neutral_exec_args n p u i acc : neutral (exec_args n p u i acc).
Proof. intros cp. revert i acc. induction n as [|n IH]; intros i acc; simpl; neutral. apply IH. Qed.
Lemma neutral_read_ph ip off : neutral (Exec.read_ph dev_read ip off).
Proof. intros cp. unfold Exec.read_ph. neutral. Qed.
#[local] Hint Resolve neutral_fileread neutral_filewrite neutral_filestat neutral_argfd neutral_usegment neutral_cwd_of neutral_strarg neutral_sleep_loop neutral_exec_args neutral_read_ph : neutral.

Lemma neutral_size_loop n ip off sz : neutral (Exec.size_loop dev_read n ip off sz).
Proof. intros cp. revert off sz. induction n as [|n IH]; intros; simpl; neutral; apply IH. Qed.
Lemma neutral_load_loop n ip off sz m : neutral (Exec.load_loop dev_read n ip off sz m).
Proof. intros cp. revert off. induction n as [|n IH]; intros; simpl; neutral; apply IH. Qed.
Lemma neutral_exec_bad ip m n : neutral (Exec.exec_bad ip m n).
Proof. intros cp. unfold Exec.exec_bad. neutral. Qed.
Lemma neutral_exec_commit p path argv e m n a : neutral (Exec.exec_commit p path argv e m n a).
Proof. intros cp. unfold Exec.exec_commit. neutral. Qed.
#[local] Hint Resolve neutral_size_loop neutral_load_loop neutral_exec_bad neutral_exec_commit : neutral.
Lemma neutral_exec p path argv : neutral (Exec.exec fuel dev_read elf0 p path argv).
Proof. intros cp. unfold Exec.exec. neutral. Qed.

Lemma neutral_create p path ty mj mn : neutral (create fuel dev_read dev_write p path ty mj mn).
Proof. intros cp. unfold create. neutral. Qed.
Lemma neutral_rwargs p : neutral (rwargs p).
Proof. intros cp. unfold rwargs. neutral. Qed.
Lemma neutral_growproc p n : neutral (growproc p n).
Proof. intros cp. unfold growproc. neutral. Qed.
Lemma neutral_link_bad ip : neutral (sys_link_bad fuel ip).
Proof. intros cp. unfold sys_link_bad. neutral. Qed.
#[local] Hint Resolve neutral_exec neutral_create neutral_rwargs neutral_growproc neutral_link_bad : neutral.

Lemma neutral_open_inode p path m : neutral (open_inode fuel dev_read dev_write p path m).
Proof. intros cp. unfold open_inode. neutral. Qed.

#[local] Hint Resolve neutral_open_inode : neutral.

(** The calls that neither make nor drop descriptors. *)
Lemma neutral_sys_wait p : neutral (sys_wait fuel p).
Proof. intros cp. unfold sys_wait. neutral. Qed.
Lemma neutral_sys_kill p : neutral (sys_kill p).
Proof. intros cp. unfold sys_kill. neutral. Qed.
Lemma neutral_sys_getpid p : neutral (sys_getpid p).
Proof. intros cp. unfold sys_getpid. neutral. Qed.
Lemma neutral_sys_sbrk p : neutral (sys_sbrk p).
Proof. intros cp. unfold sys_sbrk. neutral. Qed.
Lemma neutral_sys_sleep p : neutral (sys_sleep fuel p).
Proof. intros cp. unfold sys_sleep. neutral. Qed.
Lemma neutral_sys_read p : neutral (sys_read fuel dev_read p).
Proof. intros cp. unfold sys_read. neutral. Qed.
Lemma neutral_sys_write p : neutral (sys_write fuel dev_write p).
Proof. intros cp. unfold sys_write. neutral. Qed.
Lemma neutral_sys_fstat p : neutral (sys_fstat fuel p).
Proof. intros cp. unfold sys_fstat. neutral. Qed.
Lemma neutral_sys_link p : neutral (sys_link fuel dev_read dev_write p).
Proof. intros cp. unfold sys_link. neutral. Qed.
Lemma neutral_sys_unlink p : neutral (sys_unlink fuel dev_read dev_write p).
Proof. intros cp. unfold sys_unlink. neutral. Qed.
Lemma neutral_sys_mknod p : neutral (sys_mknod fuel dev_read dev_write p).
Proof. intros cp. unfold sys_mknod. neutral. Qed.
Lemma neutral_sys_mkdir p : neutral (sys_mkdir fuel dev_read dev_write p).
Proof. intros cp. unfold sys_mkdir. neutral. Qed.
Lemma neutral_sys_chdir p : neutral (sys_chdir fuel p).
Proof. intros cp. unfold sys_chdir. neutral. Qed.
Lemma neutral_sys_exec p : neutral (sys_exec fuel dev_read elf0 p).
Proof. intros cp. unfold sys_exec. neutral. Qed.
#[local] Hint Resolve neutral_sys_wait neutral_sys_kill neutral_sys_getpid neutral_sys_sbrk neutral_sys_sleep neutral_sys_read neutral_sys_write neutral_sys_fstat neutral_sys_link neutral_sys_unlink neutral_sys_mknod neutral_sys_mkdir neutral_sys_chdir neutral_sys_exec : neutral.

Lemma neutral_call p num m :
  Trap.syscalls fuel dev_read dev_write elf0 p num = Some m -> num ∉ [1; 2; 4; 7; 10; 17] -> neutral m.
Proof.
  intros E Hn. unfold Trap.syscalls in E.
  destruct num as [|q|q]; try discriminate;
    do 5 (try destruct q as [q|q|]; try discriminate); injection E as <-;
    first [solve [auto with neutral nocore] | exfalso; apply Hn; set_solver].
Qed.

Lemma pt_open cp : pt (ok cp) (sys_open fuel dev_read dev_write cp) (fun _ => ok cp).
Proof.
  unfold sys_open. eapply pt_bind; [apply neutral_strarg|]. intros [path|]; [|by apply pt_ret].
  eapply pt_bind; [apply neutral_arg|]. intros [omode|]; [|by apply pt_ret].
  eapply pt_bind; [apply neutral_open_inode|]. intros [ip|]; [|by apply pt_ret].
  eapply pt_bind; [apply pt_alloc_fd|]. intros [[f fd]|].
  - apply (pt_pure (f < NFILE)%nat); [tauto|]. intros Hf. eapply pt_bind; [apply pt_on_fs|]. intros [].
    apply (pt_bind _ _ (fun _ => ok cp)); [|intros []; by apply pt_ret]. intros s (_ & Hi & Ha). unfold fset. rewrite exec_modify.
    split; [|done].
    match goal with |- context [alter ?g f _] => pose proof (inv_typed _ _ _ _ f g Hi ltac:(done) Hf) as Hi' end.
    by rewrite filter_cons_False in Hi' by auto.
  - eapply pt_bind; [apply pt_on_fs|]. intros []. by apply pt_ret.
Qed.


(** ** Runs of the system *)

Definition files_of (s : kern B) : Prop := files_ok (kfiles s) (ktab s).

(** One step: a system call of a live process that runs to its end, the exit
    of one, which ends in the scheduler, or a change of the process table by
    others (wakeups, the scheduler) that touches no descriptor. *)
Inductive sysstep (s s' : kern B) : Prop :=
| step_call cp num m v :
    alive cp (ktab s) -> Trap.syscalls fuel dev_read dev_write elf0 cp num = Some m ->
    exec m s = Done v tt s' -> sysstep s s'
| step_exit cp :
    alive cp (ktab s) -> exec (sys_exit cp) s = Blocked (ESwtch None) tt s' ->
    Proc.state (Proc.proc_at (ktab s') cp) = Proc.ZOMBIE -> sysstep s s'
| step_sched :
    kfiles s' = kfiles s -> tab_le (ktab s) (ktab s') -> sysstep s s'.

Lemma pt_call cp num m :
  Trap.syscalls fuel dev_read dev_write elf0 cp num = Some m -> pt (ok cp) m (fun _ => ok cp).
Proof.
  intros E. destruct (decide (num ∈ [1; 2; 4; 7; 10; 17])) as [Hin|Hn]; [|by apply (neutral_call cp num)].
  repeat (apply elem_of_cons in Hin as [->|Hin]); [..|by apply not_elem_of_nil in Hin]; injection E as <-.
  - apply pt_fork.
  - eapply pt_bind; [apply pt_exit|]. intros ?. by apply pt_ret.
  - apply pt_pipe.
  - apply pt_close.
  - apply pt_open.
  - apply pt_dup.
Qed.

(** C5. The reference count of every open file is the number of descriptors
    that refer to it, and a file that is referred to is open, in every state
    that system calls reach from one where this is so. *)
Theorem file_refs_invariant (s s' : kern B) :
  files_of s -> rtc sysstep s s' ->
  forall f x, kfiles s' !! f = Some x ->
    ref x = Z.of_nat (refs (ktab s') f) /\ (0 < ref x -> ftype x <> FD_NONE).
Proof.
  intros Hs Hr. assert (files_of s') as [_ _ _ Href Hty].
  { induction Hr as [s|s s1 s2 Hst _ IH]; [done|]. apply IH.
    destruct Hst as [cp num m v Ha E Hx|cp Ha Hx Hz|Hf Ht].
    - pose proof (pt_call cp num m E s (conj Hs Ha)) as Hp. rewrite Hx in Hp. apply Hp.
    - unfold sys_exit in Hx. rewrite exec_kbind in Hx. destruct (exec (exit cp) s) as [[] [] s3| | |e [] s3] eqn:Ex; try done.
      cbn [rbind] in Hx. simplify_eq. eapply exit_ok; [by split|exact Ex|]. intros Hal. apply Hal. by right.
    - unfold files_of. rewrite Hf. by eapply inv_tab_le. }
  intros f x Hx. specialize (Href f x Hx). specialize (Hty f x Hx). unfold none in Href.
  rewrite decide_False in Hty by set_solver. split; [lia|done].
Qed.
End Calls.
End Logic.


(** ** Witness: pipe, then fork *)

Definition kern1 := Machine.final Machine.kern0 (exec (sys_pipe 0) Machine.kern0).
Definition kern2 := Machine.final Machine.kern0 (exec (sys_fork 0) kern1).

Lemma kern0_ok : files_of Machine.kern0.
Proof.
  constructor; [done|done| | |].
  - change (Proc.procs (ktab Machine.kern0)) with (Machine.proc1 :: replicate 63 Proc.proc0).
    assert (Hz : forall p, Proc.ofile p = replicate Proc.NOFILE None -> slot_ok p).
    { intros p E. unfold slot_ok. rewrite E. split_and!; [done| |done].
      intros fd f Hf. by apply lookup_replicate in Hf as [? _]. }
    constructor; [by apply Hz|]. apply Forall_replicate. by apply Hz.
  - intros f x Hx. apply lookup_replicate in Hx as [-> Hf]. unfold refs, none.
    assert (E : sum_list_with (fun p => fd_count f (Proc.ofile p)) (Proc.procs (ktab Machine.kern0)) = 0%nat); [|by rewrite E].
    apply Nat.le_0_r. etrans; [apply (sum_list_with_le _ _ 0)|lia].
    change (Proc.procs (ktab Machine.kern0)) with (Machine.proc1 :: replicate 63 Proc.proc0).
    constructor; [|apply Forall_replicate]; apply Nat.eq_le_incl, (fd_count_none f 16).
  - intros f x Hx. apply lookup_replicate in Hx as [-> Hf]. simpl. lia.
Qed.

Lemma file_refs_invariant_witness :
  rtc (sysstep 1 (fun _ => None) (fun _ => None) []) Machine.kern0 kern2 /\
  refs (ktab kern2) 0 = 2%nat /\ (forall x, kfiles kern2 !! 0%nat = Some x -> ref x = 2).
Proof.
  assert (Hr : rtc (sysstep 1 (fun _ => None) (fun _ => None) []) Machine.kern0 kern2).
  { apply (rtc_l _ _ kern1); [|apply (rtc_l _ _ kern2); [|done]].
    - eapply (step_call _ _ _ _ _ _ 0 4 _ 0); [apply alive_running; by vm_compute|reflexivity|].
      apply Machine.returns_final. by vm_compute.
    - eapply (step_call _ _ _ _ _ _ 0 1 _ 2); [apply alive_running; by vm_compute|reflexivity|].
      apply Machine.returns_final. by vm_compute. }
  assert (Hn : refs (ktab kern2) 0 = 2%nat) by by vm_compute.
  split_and!; [done|done|]. intros x Hx.
  destruct (file_refs_invariant 1 (fun _ => None) (fun _ => None) [] _ _ kern0_ok Hr 0 x Hx) as [E _].
  by rewrite E, Hn.
Defined.
End FileRefs.
