(* ===== verification/ProcessSpec.v ===== *)
(** * ProcessSpec: the memory of processes

    growproc and sbrk against the allocator's contract: what a process sees of
    its memory when it grows, what happens to the rest of memory, and what the
    code does with sizes it does not expect. *)
From S2P Require Import Prelude Kmonad Spinlock Cstring Kalloc Pipe Proc Segment Block FsLayout Fs File Syscall Process FsImage Machine.
From stdpp Require Import options.

Module ProcessSpec.
Import Fs File Syscall Process.
Import Kalloc(mem_free, block, PAGE, ram, kmem).

(** ** The allocator and the contents of memory *)

Definition keeps_ram {A} (P : Z -> Prop) (m : K kmem A) : Prop :=
  forall k, match exec m k with
            | Done _ _ k' => forall x, P x -> ram k' x = ram k x | _ => True end.

Lemma keeps_ram_bind {A C} P (m : K kmem A) (f : A -> K kmem C) :
  keeps_ram P m -> (forall a, keeps_ram P (f a)) -> keeps_ram P (kbind m f).
Proof.
  intros Hm Hf k. rewrite exec_kbind. specialize (Hm k). destruct (exec m k) as [a [] k1| | |]; simpl; try done.
  specialize (Hf a k1). destruct (exec (f a) k1); try done. intros x Hx. by rewrite Hf, Hm.
Qed.

Lemma keeps_ram_modify P f : (forall k x, P x -> ram (f k) x = ram k x) -> keeps_ram P (modify f).
Proof. intros Hf k. rewrite exec_modify. auto. Qed.

Ltac keeps_ram :=
  repeat first
    [ apply keeps_ram_bind; [|intros ?]
    | match goal with |- keeps_ram _ (match ?x with _ => _ end) => destruct x end
    | apply keeps_ram_modify; intros ? ? ?; by rewrite ?Kalloc.ram_store
    | (intros ?; autorewrite with kexec; done) ].

Lemma kalloc_loop_ram P fuel n rp : keeps_ram P (Kalloc.kalloc_loop fuel n rp).
Proof. revert rp. induction fuel as [|fuel IH]; intros rp; simpl; [done|]. keeps_ram. apply IH. Qed.

Lemma kalloc_ram P n : keeps_ram P (Kalloc.kalloc n).
Proof. unfold Kalloc.kalloc. keeps_ram. apply kalloc_loop_ram. Qed.

Lemma kfree_loop_ram P fuel p pend len rp : keeps_ram P (Kalloc.kfree_loop fuel p pend len rp).
Proof.
  revert rp. induction fuel as [|fuel IH]; intros rp; simpl; [done|]. unfold when. keeps_ram; try apply IH.
Qed.

Lemma kfree_ram p n : keeps_ram (fun x => ~ block p n x) (Kalloc.kfree p n).
Proof.
  unfold Kalloc.kfree. keeps_ram; try apply kfree_loop_ram.
  apply keeps_ram_modify. intros k x Hx. unfold Kalloc.memset_junk, block in *. simpl.
  destruct ((p <=? x) && (x <? p + n)) eqn:E; [|done]. bool_prop. lia.
Qed.

Lemma chain_with_ram f k rp l : Kalloc.chain (with_ram f k) rp l <-> Kalloc.chain k rp l.
Proof.
  revert rp. induction l as [|[s n] l IH]; intros rp; simpl; [by destruct rp|].
  rewrite IH. by destruct rp.
Qed.

Lemma kmem_ok_with_ram f k l : Kalloc.kmem_ok k l -> Kalloc.kmem_ok (with_ram f k) l.
Proof. intros [Hc Hw]. split; [by apply chain_with_ram|done]. Qed.

Lemma mem_free_with_ram f k F : mem_free (with_ram f k) F <-> mem_free k F.
Proof.
  unfold Kalloc.mem_free, Kalloc.kmem_ok.
  split; intros (l & (Hc & Hw) & HF); exists l; (split; [split|]; [|done..]); by apply chain_with_ram in Hc || apply chain_with_ram.
Qed.

(** ** Running the parts of a call *)

Section Calls.
Context {B : Type} `{BlockOps B}.

Abbreviation kmem_of s := (Pipe.pkmem (kpipes s)).
Abbreviation ram_of s := (ram (Pipe.pkmem (kpipes s))).

Lemma exec_kern_kmem {A} (m : K kmem A) (s : kern B) :
  exec (on_kmem m) s = rput with_kmem s (exec m (kmem_of s)).
Proof. unfold on_kmem. by rewrite exec_zoom. Qed.

Lemma exec_mupd f (s : kern B) : exec (mupd f) s = Done tt tt (with_kmem (with_ram f (kmem_of s)) s).
Proof. unfold mupd. by rewrite exec_kern_kmem, exec_modify. Qed.

Lemma exec_usegment cp (s : kern B) on0 d :
  Cli.cli_inv on0 d (Seg.cli (kcpu s)) -> d < 2147483647 ->
  exists c, exec (usegment cp) s = Done tt tt (with_cpu c s).
Proof.
  intros Hi Hd. destruct (Seg.usegment_run (Some (Proc.proc_at (ktab s) cp)) (kcpu s) on0 d Hi Hd) as (l & E & _).
  unfold usegment, pget, on_cpu. eexists. kexec. rewrite exec_zoom by done. by rewrite E.
Qed.

(** The memory of a process: whole pages, none of them free. *)
Definition owns (F : Z -> Prop) (p : Proc.proc) : Prop :=
  0 < Proc.pmem p /\ Proc.pmem p mod PAGE = 0 /\ 0 < Proc.sz p /\ Proc.sz p mod PAGE = 0 /\
  Proc.pmem p + Proc.sz p <= 2147483648 /\ forall x, block (Proc.pmem p) (Proc.sz p) x -> ~ F x.

(** What growproc leaves: process [p] in slot [cp] has [n] more bytes, and its
    memory is now at [a]. *)
Record grown (F : Z -> Prop) (cp : nat) (p : Proc.proc) (n a : Z) (s s' : kern B) : Prop := mkgrown {
  g_proc : ktab s' = Proc.upd cp (Proc.set_mem a (Proc.sz p + n)) (ktab s);
  g_was_free : forall x, block a (Proc.sz p + n) x -> F x;
  g_kept : forall i, 0 <= i < Proc.sz p -> ram_of s' (a + i) = ram_of s (Proc.pmem p + i);
  g_zero : forall i, Proc.sz p <= i < Proc.sz p + n -> ram_of s' (a + i) = 0;
  g_rest : forall x, ~ block a (Proc.sz p + n) x -> ~ block (Proc.pmem p) (Proc.sz p) x ->
    ram_of s' x = ram_of s x;
  g_free : mem_free (kmem_of s') (fun x =>
    (F x /\ ~ block a (Proc.sz p + n) x) \/ block (Proc.pmem p) (Proc.sz p) x);
  g_fs : kfs s' = kfs s;
  g_files : kfiles s' = kfiles s
}.

Lemma with_kmem_id (s : kern B) : with_kmem (kmem_of s) s = s.
Proof. by destruct s as [? ? []]. Qed.

Lemma kmem_of_with k (s : kern B) : kmem_of (with_kmem k s) = k.
Proof. done. Qed.
Lemma with_kmem_with k k' (s : kern B) : with_kmem k (with_kmem k' s) = with_kmem k s.
Proof. done. Qed.

(** The copy that growproc makes: the old bytes, then zeros. *)
Lemma grow_copy (m : Z -> Z) a old sz n x :
  0 <= sz -> 0 <= n -> (forall y, block a (sz + n) y -> ~ block old sz y) ->
  Cstring.memset (a + sz) 0 n (Cstring.memmove a old sz m) x =
    if decide (block a sz x) then m (old + (x - a))
    else if decide (block a (sz + n) x) then 0 else m x.
Proof.
  intros Hs Hn Hd. rewrite Cstring.memset_spec, Cstring.memmove_spec by done. unfold block in *.
  destruct ((a + sz <=? x) && (x <? a + sz + n)) eqn:E1, ((a <=? x) && (x <? a + sz)) eqn:E2;
    bool_prop; repeat case_decide; try lia; try done.
Qed.

Lemma growproc_ok cp n F on0 d (s : kern B) :
  let p := Proc.proc_at (ktab s) cp in
  mem_free (kmem_of s) F -> owns F p -> Cli.cli_inv on0 d (Seg.cli (kcpu s)) -> d < 2147483647 ->
  0 <= n -> (Proc.sz p + n) mod PAGE = 0 -> Proc.sz p + n < 2147483648 ->
  exec (growproc cp n) s = Done (-1) tt s \/
  exists a s', exec (growproc cp n) s = Done 0 tt s' /\ grown F cp p n a s s'.
Proof.
  intros p HF (Hp0 & Hpm & Hs0 & Hsm & Hb & Hnf) Hcli Hd Hn Hm Hlt. unfold growproc, pget. kexec. fold p.
  rewrite u32_small, i32_small by lia. rewrite exec_kern_kmem.
  destruct (Kalloc.kalloc_client _ F (Proc.sz p + n) HF ltac:(lia) Hm) as (a & k1 & Ex & Hcase).
  pose proof (kalloc_ram (fun _ => True) (Proc.sz p + n) (kmem_of s)) as Hram. rewrite Ex in *. cbn [rput rbind].
  destruct Hcase as [(-> & ->)|(Ha & Ham & Hab & Hfree & HF1)].
  { left. rewrite Z.eqb_refl. kexec. by rewrite with_kmem_id. }
  right. exists a. destruct (a =? 0) eqn:E; bool_prop; [lia|].
  rewrite exec_kbind, exec_mupd. cbn [rbind]. rewrite exec_kbind, exec_mupd. cbn [rbind].
  rewrite exec_kbind, exec_kern_kmem, !kmem_of_with, !with_kmem_with, !u32_small, i32_small by lia.
  set (k2 := with_ram _ (with_ram _ k1)).
  assert (HF2 : mem_free k2 (fun x => F x /\ ~ block a (Proc.sz p + n) x)).
  { unfold k2. by rewrite !mem_free_with_ram. }
  destruct (Kalloc.kfree_client k2 _ (Proc.pmem p) (Proc.sz p) HF2 Hp0 Hpm Hs0 Hsm Hb) as (k3 & Ex3 & HF3).
  { intros x Hx [HFx _]. by apply (Hnf x). }
  pose proof (kfree_ram (Proc.pmem p) (Proc.sz p) k2) as Hram3. rewrite Ex3 in *. cbn [rput rbind].
  rewrite exec_kbind, Machine.exec_pupd, with_kmem_with. cbn [rbind].
  match goal with |- context [exec _ ?s0] => destruct (exec_usegment cp s0 on0 d Hcli Hd) as (c & Ec) end.
  rewrite exec_kbind, Ec. cbn [rbind]. kexec. eexists. split; [done|].
  assert (Hdisj : forall x, block a (Proc.sz p + n) x -> ~ block (Proc.pmem p) (Proc.sz p) x).
  { intros x Hx Hy. by apply (Hnf x Hy), Hfree. }
  assert (Hk2 : forall x, ram k2 x = if decide (block a (Proc.sz p) x) then ram_of s (Proc.pmem p + (x - a))
    else if decide (block a (Proc.sz p + n) x) then 0 else ram_of s x).
  { intros x. unfold k2. cbn [with_ram ram Kalloc.ram]. rewrite grow_copy by (done || lia).
    repeat case_decide; by rewrite ?Hram. }
  constructor; cbn; try done.
  - intros i Hi. rewrite Hram3 by (apply Hdisj; unfold block; lia).
    rewrite Hk2, decide_True by (unfold block; lia). f_equal. lia.
  - intros i Hi. rewrite Hram3 by (apply Hdisj; unfold block; lia).
    rewrite Hk2, decide_False, decide_True by (unfold block; lia). done.
  - intros x Hx Hy. rewrite Hram3 by done. rewrite Hk2, !decide_False; [done|done|].
    unfold block in *. lia.
Qed.

(** C10. sbrk(n) with a number of pages that is not negative: either memory is
    out and nothing changes but the result -1, or the old size is returned and
    the process has [n] more bytes of memory: its old bytes, then zeros, in
    memory that was free before; its old memory is free again, and no other
    byte of memory, no other process, no file and no inode has changed. *)
Theorem sbrk_grows cp n F on0 d (s : kern B) :
  let p := Proc.proc_at (ktab s) cp in
  mem_free (kmem_of s) F -> owns F p -> Cli.cli_inv on0 d (Seg.cli (kcpu s)) -> d < 2147483647 ->
  argint p (ram_of s) 0 = Some n -> 0 <= n -> n mod PAGE = 0 -> Proc.sz p + n < 2147483648 ->
  exec (sys_sbrk cp) s = Done (-1) tt s \/
  exists a s', exec (sys_sbrk cp) s = Done (Proc.sz p) tt s' /\ grown F cp p n a s s'.
Proof.
  intros p HF Ho Hcli Hd Harg Hn Hm Hlt. unfold sys_sbrk, arg, mem, pget. kexec. fold p. rewrite Harg. kexec.
  assert (Hpm : (Proc.sz p + n) mod PAGE = 0).
  { destruct Ho as (_ & _ & _ & Hsm & _). unfold PAGE in *. dlia. }
  destruct (growproc_ok cp n F on0 d s HF Ho Hcli Hd Hn Hpm Hlt) as [->|(a & s' & -> & Hg)]; kexec; [by left|].
  right. exists a, s'. rewrite i32_small; [done|]. destruct Ho as (_ & _ & Hs0 & _). unfold p in *. lia.
Qed.

(** C38. sbrk(n) with a number of bytes that is not a multiple of the page size
    panics the kernel, whatever the state of memory: kalloc takes the size of
    the process for its caller's error. *)
Theorem sbrk_partial_page_panics cp n (s : kern B) :
  let p := Proc.proc_at (ktab s) cp in
  Proc.sz p mod PAGE = 0 -> argint p (ram_of s) 0 = Some n -> n mod PAGE <> 0 ->
  exec (sys_sbrk cp) s = Panicked "kalloc".
Proof.
  intros p Hs Harg Hn. unfold sys_sbrk, arg, mem, pget. kexec. fold p. rewrite Harg. kexec.
  unfold growproc, pget. kexec. rewrite exec_kern_kmem. unfold Kalloc.kalloc.
  assert (Z.rem (i32 (u32 (Proc.sz p + n))) PAGE <> 0) as Hr.
  { unfold i32, u32, PAGE in *. fold p. dlia. }
  fold p. destruct (Z.rem _ PAGE =? 0) eqn:E; bool_prop; [done|]. cbn [negb orb]. kexec. done.
Qed.
End Calls.

(** ** Witnesses: sbrk on the small machine, with 0 and with 0x100 bytes *)

Lemma owns_proc1 : owns (fun x => Kalloc.is_free [(4096, 4096); (16384, 12288)] x) Machine.proc1.
Proof. split_and!; try done. intros x Hx. unfold block in Hx. cbn in Hx |- *. lia. Qed.

Lemma mem_free_kmem1 : mem_free Machine.kmem1 (fun x => Kalloc.is_free [(4096, 4096); (16384, 12288)] x).
Proof. exists [(4096, 4096); (16384, 12288)]. split; [|done]. apply Kalloc.kmem_ex_ok. Qed.

(** The same machine, whose process asks for one more page. *)
Definition kern_page : kern FsImage.disk :=
  with_kmem (with_ram (mem_write 0x20004 (le_enc 4 4096)) Machine.kmem1) Machine.kern0.

Lemma sbrk_grows_witness :
  exec (sys_sbrk 0) kern_page = Done (-1) tt kern_page \/
  exists a s', exec (sys_sbrk 0) kern_page = Done 4096 tt s' /\
    grown (fun x => Kalloc.is_free [(4096, 4096); (16384, 12288)] x) 0 Machine.proc1 4096 a kern_page s'.
Proof.
  apply (sbrk_grows 0 4096 _ true 0 kern_page); try done.
  - cbn. rewrite mem_free_with_ram. apply mem_free_kmem1.
  - apply owns_proc1.
Defined.

Lemma sbrk_partial_page_panics_witness : exec (sys_sbrk 0) Machine.kern0 = Panicked "kalloc".
Proof. by apply (sbrk_partial_page_panics 0 0x100 Machine.kern0). Defined.
End ProcessSpec.
