(* ===== verification/ExecSpec.v ===== *)
(** * ExecSpec: the stack that exec builds, and what a failed exec changes *)
From S2P Require Import Prelude Kmonad Kalloc Pipe Proc Segment Block FsLayout Fs File Syscall Process Exec Sysfile Machine FileRefs.
From stdpp Require Import options.

Module ExecSpec.
Import Syscall Exec.

(** ** Sizes *)

(** The bytes of the strings of argv, with their terminators. *)
Fixpoint total (argv : list bytes) : Z :=
  match argv with [] => 0 | a :: r => Z.of_nat (length a) + 1 + total r end.

Lemma total_nonneg argv : 0 <= total argv.
Proof. induction argv; simpl; lia. Qed.

Lemma total_app l l' : total (l ++ l') = total l + total l'.
Proof. induction l; simpl; lia. Qed.

Lemma arg_bytes_total argv n : 0 <= n -> n + total argv < 2147483648 -> arg_bytes argv n = n + total argv.
Proof.
  revert n. induction argv as [|a r IH]; intros n Hn Hb; simpl in *; [lia|].
  pose proof (total_nonneg r). rewrite i32_small by lia. rewrite IH; lia.
Qed.

Lemma round4_spec n : 0 <= n -> n <= round4 n < n + 4 /\ round4 n mod 4 = 0.
Proof.
  intros Hn. unfold round4.
  assert (E : Z.land (n + 3) (Z.lnot 3) = (n + 3) / 4 * 4).
  { rewrite <- Z.ldiff_land. change 3 with (Z.ones 2) at 2. rewrite Z.ldiff_ones_r, Z.shiftl_mul_pow2, Z.shiftr_div_pow2 by lia. done. }
  rewrite E. dlia.
Qed.

Lemma image_size_spec sz arglen argc :
  0 <= sz -> 0 <= arglen -> 0 <= argc -> sz + arglen + 4 * (argc + 1) + 2 * Kalloc.PAGE <= 4294967296 ->
  let n := sz + arglen + 4 * (argc + 1) + Kalloc.PAGE in
  n <= image_size sz arglen argc < n + Kalloc.PAGE /\ image_size sz arglen argc mod Kalloc.PAGE = 0.
Proof.
  unfold image_size, Kalloc.PAGE. intros H1 H2 H3 Hb. simpl.
  rewrite (u32_small (sz + arglen + 4 * (argc + 1))) by lia.
  rewrite (u32_small (sz + arglen + 4 * (argc + 1) + 4096)) by lia.
  rewrite u32_small by lia. set (x := sz + arglen + 4 * (argc + 1) + 4096 + 4096 - 1).
  assert (E : Z.land x (4294967296 - 4096) = x / 4096 * 4096).
  { change (4294967296 - 4096) with (Z.land (Z.ones 32) (Z.lnot (Kalloc.PAGE - 1))).
    rewrite Z.land_assoc, Z.land_ones, Z.mod_small by (unfold x; lia). apply Kalloc.page_round. unfold x. lia. }
  rewrite E. unfold x. dlia.
Qed.

(** ** The stack *)

Lemma mem_word_write m a v : is_u32 v -> mem_word (mem_write a (le_enc 4 v) m) a = v.
Proof.
  intros Hv. unfold mem_word. pose proof (mem_bytes_write a (le_enc 4 v) m) as E.
  rewrite length_le_enc in E. rewrite E, le_dec_enc. by apply Z.mod_small.
Qed.

Lemma mem_word_ext m m' a : (forall x, a <= x < a + 4 -> m x = m' x) -> mem_word m a = mem_word m' a.
Proof. intros E. unfold mem_word. f_equal. by apply mem_bytes_ext. Qed.

(** What argv looks like in memory: pointer [i] leads to string [i]; the
    strings end at [sp]. *)
Definition argv_at (m : Z -> Z) (mem argp sp : Z) (argv : list bytes) : Prop :=
  forall i a, argv !! i = Some a ->
    let ptr := sp - total (drop i argv) in
    mem_word m (mem + argp + 4 * Z.of_nat i) = ptr /\ mem_bytes m (mem + ptr) (S (length a)) = a ++ [0].

Lemma zip_seq_snoc (l : list bytes) a :
  rev (zip (seq 0 (length (l ++ [a]))) (l ++ [a])) = (length l, a) :: rev (zip (seq 0 (length l)) l).
Proof.
  rewrite length_app, seq_app. simpl. rewrite zip_with_app by (by rewrite length_seq).
  rewrite rev_app_distr. done.
Qed.

Lemma push_args_spec mem argp argv sp m :
  0 <= argp -> argp + 4 * Z.of_nat (length argv) <= sp - total argv -> sp < 4294967296 ->
  let m' := snd (push_args mem argp (rev (zip (seq 0 (length argv)) argv)) sp m) in
  argv_at m' mem argp sp argv /\
  forall x, ~ (mem + argp <= x < mem + argp + 4 * Z.of_nat (length argv)) ->
    ~ (mem + sp - total argv <= x < mem + sp) -> m' x = m x.
Proof.
  revert sp m. induction argv as [|a argv IH] using rev_ind; intros sp m H0 Hr Hs; [by split|].
  rewrite zip_seq_snoc. cbn [push_args].
  rewrite total_app, length_app in *. cbn [total length] in *. pose proof (total_nonneg argv).
  rewrite u32_small by lia.
  set (len := Z.of_nat (length a) + 1). set (m1 := mem_write _ _ (mem_write _ _ m)).
  destruct (IH (sp - len) m1) as [Hat Hout]; [lia..|]. set (m' := snd _) in *.
  assert (Hm1 : forall x, ~ (mem + argp + 4 * Z.of_nat (length argv) <= x < mem + argp + 4 * Z.of_nat (length argv) + 4) ->
    ~ (mem + (sp - len) <= x < mem + sp) -> m1 x = m x).
  { intros x H1 H2. unfold m1. rewrite !mem_write_out; [done| |].
    - rewrite length_app. cbn [length]. lia.
    - rewrite length_le_enc. lia. }
  split; [|intros x H1 H2; rewrite Hout, Hm1; [done|lia..]].
  intros i b Hi. destruct (decide (i < length argv)%nat) as [Hlt|Hge].
  - rewrite lookup_app_l in Hi by done. rewrite drop_app_le, total_app by lia. cbn [total].
    destruct (Hat i b Hi) as [Hp Hb]. cbn zeta in *.
    replace (sp - (total (drop i argv) + (Z.of_nat (length a) + 1 + 0))) with (sp - len - total (drop i argv)) by lia.
    done.
  - rewrite lookup_app_r in Hi by lia. destruct (i - length argv)%nat as [|k] eqn:Ek; [|done].
    injection Hi as <-. assert (i = length argv) as -> by lia.
    rewrite drop_app_length. cbn [total]. replace (sp - (Z.of_nat (length a) + 1 + 0)) with (sp - len) by lia.
    cbn zeta. split.
    + rewrite (mem_word_ext m' m1) by (intros; apply Hout; lia). apply mem_word_write. unfold is_u32. lia.
    + rewrite (mem_bytes_ext m' m1) by (intros; apply Hout; lia). unfold m1.
      rewrite mem_bytes_write_out by (rewrite length_le_enc; lia).
      replace (S (length a)) with (length (a ++ [0])) by (rewrite length_app; simpl; lia). apply mem_bytes_write.
Qed.

Lemma total_drop argv i a :
  argv !! i = Some a -> Z.of_nat (length a) + 1 <= total (drop i argv) <= total argv.
Proof.
  intros Hi. split.
  - rewrite (drop_S _ a i Hi). cbn [total]. pose proof (total_nonneg (drop (S i) argv)). lia.
  - rewrite <- (take_drop i argv) at 2. rewrite total_app. pose proof (total_nonneg (take i argv)). lia.
Qed.

Lemma argv_at_ext m m' mem argp sp argv :
  argp + 4 * Z.of_nat (length argv) <= sp - total argv ->
  (forall x, mem + argp <= x < mem + sp -> m' x = m x) ->
  argv_at m mem argp sp argv -> argv_at m' mem argp sp argv.
Proof.
  intros Hb E Hat i a Hi. destruct (Hat i a Hi) as [Hp Hs]. pose proof (total_drop argv i a Hi).
  pose proof (lookup_lt_Some _ _ _ Hi). pose proof (total_nonneg argv). split.
  - rewrite <- Hp. apply mem_word_ext. intros. apply E. lia.
  - rewrite <- Hs. apply mem_bytes_ext. intros. apply E. lia.
Qed.

(** The frame of main below argp. *)
Definition main_frame (mem argp argc : Z) (m : Z -> Z) : Z -> Z :=
  mem_write (mem + (argp - 12)) (le_enc 4 0xffffffff)
    (mem_write (mem + (argp - 8)) (le_enc 4 argc) (mem_write (mem + (argp - 4)) (le_enc 4 argp) m)).

Lemma main_frame_spec mem argp argc m :
  is_u32 argp -> is_u32 argc ->
  let m' := main_frame mem argp argc m in
  mem_word m' (mem + (argp - 12)) = 0xffffffff /\ mem_word m' (mem + (argp - 8)) = argc /\
  mem_word m' (mem + (argp - 4)) = argp /\
  forall x, ~ (mem + argp - 12 <= x < mem + argp) -> m' x = m x.
Proof.
  intros Hp Hc. unfold main_frame. set (m2 := mem_write (mem + (argp - 4)) _ m).
  set (m3 := mem_write (mem + (argp - 8)) _ m2).
  assert (H3 : forall x, ~ (mem + (argp - 12) <= x < mem + (argp - 12) + 4) ->
    mem_write (mem + (argp - 12)) (le_enc 4 0xffffffff) m3 x = m3 x).
  { intros. apply mem_write_out. rewrite length_le_enc. lia. }
  assert (H2 : forall x, ~ (mem + (argp - 8) <= x < mem + (argp - 8) + 4) -> m3 x = m2 x).
  { intros. apply mem_write_out. rewrite length_le_enc. lia. }
  split_and!.
  - by apply mem_word_write.
  - rewrite (mem_word_ext _ m3) by (intros; apply H3; lia). by apply mem_word_write.
  - rewrite (mem_word_ext _ m2) by (intros; rewrite H3, H2 by lia; done). by apply mem_word_write.
  - intros x Hx. rewrite H3, H2 by lia. apply mem_write_out. rewrite length_le_enc. lia.
Qed.

(** C9. The stack of a new program: an image of [seg] bytes of segments with
    the arguments [argv], loaded at [mem], starts main with a stack pointer
    [sp] that leaves a page above the segments, below which the stack can
    grow; at [sp] there are a return address, argc and a pointer argp; argp is
    an array of argc pointers to the strings of argv, each with its NUL, all of
    them inside the image, and a null pointer; nothing below [sp] is written. *)
Theorem exec_stack mem seg argv m :
  let argc := Z.of_nat (length argv) in
  let arglen := round4 (arg_bytes argv 0) in
  let sz := image_size seg arglen argc in
  0 <= seg -> total argv < 2147483648 ->
  seg + total argv + 4 * (argc + 2) + 2 * Kalloc.PAGE <= 4294967296 ->
  exists sp m', init_stack mem sz arglen argv m = (sp, m') /\
    seg + Kalloc.PAGE <= sp + 12 /\
    mem_word m' (mem + sp) = 0xffffffff /\
    mem_word m' (mem + sp + 4) = argc /\
    mem_word m' (mem + sp + 8) = sp + 12 /\
    argv_at m' mem (sp + 12) sz argv /\
    mem_word m' (mem + (sp + 12) + 4 * argc) = 0 /\
    sp + 12 + 4 * (argc + 1) <= sz - total argv /\
    (forall x, x < mem + sp \/ mem + sz <= x -> m' x = m x).
Proof.
  intros argc arglen sz Hseg Ht Hb. pose proof (total_nonneg argv) as Hn.
  assert (Hal : total argv <= arglen < total argv + 4).
  { unfold arglen. rewrite arg_bytes_total by lia. apply round4_spec. lia. }
  assert (Hargc : 0 <= argc) by lia.
  destruct (image_size_spec seg arglen argc) as [Hsz Hmod]; [lia..|]. fold sz in Hsz, Hmod.
  assert (Hmax : sz < 4294967296) by (unfold Kalloc.PAGE in *; dlia).
  unfold init_stack. fold argc. rewrite (u32_small (sz - arglen - 4 * (argc + 1))) by lia.
  set (argp := sz - arglen - 4 * (argc + 1)). set (m0 := mem_write _ (le_enc 4 0) m).
  assert (Hargp : seg + Kalloc.PAGE <= argp) by lia. unfold Kalloc.PAGE in Hargp.
  destruct (push_args_spec mem argp argv sz m0) as [Hat Hout]; [lia..|].
  destruct (push_args _ _ _ _ _) as [sp0 m1]. cbn [snd] in *.
  rewrite !u32_small by lia. fold (main_frame mem argp argc m1).
  destruct (main_frame_spec mem argp argc m1) as (W1 & W2 & W3 & Hframe); [unfold is_u32; lia..|].
  do 2 eexists. split; [done|].
  replace (mem + (argp - 12) + 4) with (mem + (argp - 8)) by lia.
  replace (mem + (argp - 12) + 8) with (mem + (argp - 4)) by lia.
  replace (argp - 12 + 12) with argp by lia.
  split_and!; try done.
  - apply (argv_at_ext m1); [lia| |exact Hat]. intros. apply Hframe. lia.
  - rewrite (mem_word_ext _ m0); [by apply mem_word_write|].
    intros x Hx. rewrite Hframe by lia. apply Hout; lia.
  - lia.
  - intros x Hx. rewrite Hframe by lia. rewrite Hout by lia. apply mem_write_out. rewrite length_le_enc. lia.
Qed.

(** main(2, {"ls", "-l"}) over 5000 bytes of segments. *)
Lemma exec_stack_witness :
  exists sp m', init_stack 0x20000 12288 8 [[108; 115]; [45; 108]] (fun _ => 0) = (sp, m') /\
    mem_word m' (0x20000 + sp + 4) = 2 /\ argv_at m' 0x20000 (sp + 12) 12288 [[108; 115]; [45; 108]].
Proof.
  destruct (exec_stack 0x20000 5000 [[108; 115]; [45; 108]] (fun _ => 0)) as (sp & m' & E & _ & _ & Hc & _ & Ha & _);
    [done|done|done|].
  exists sp, m'. split; [exact E|]. split; [exact Hc|exact Ha].
Defined.

(** ** Failure *)

Section Failure.
Import Fs File Process FileRefs.
Context {B : Type} `{BlockOps B}.
Variable (fuel : nat).
Variable (dev_read : Z -> option (nat -> Z -> K (fstate B) (Z * bytes))).
Variable (elf0 : bytes).

(** The steps of exec before it commits do not touch the tables. *)
Ltac keep :=
  repeat match goal with
  | |- pt ?P (kbind ?m ?f) (fun _ => ?P) => apply (pt_bind P m (fun _ => P)); [|intros ?]
  | |- pt _ (kret _) _ => apply pt_ret; by auto
  | |- pt _ (match ?x with _ => _ end) _ => destruct x
  | |- pt _ (on_fs _) _ => apply pt_on_fs
  | |- pt _ (on_kmem _) _ => apply pt_on_kmem
  | |- pt _ (mupd _) _ => apply pt_on_kmem
  end.

Lemma keep_read_ph P ip off : pt P (read_ph dev_read ip off) (fun _ => P).
Proof. unfold read_ph. keep. Qed.

Lemma keep_size_loop P n ip off sz : pt P (size_loop dev_read n ip off sz) (fun _ => P).
Proof. revert off sz. induction n as [|n IH]; intros; simpl; keep; [apply keep_read_ph|apply IH..]. Qed.

Lemma keep_load_loop P n ip off sz m : pt P (load_loop dev_read n ip off sz m) (fun _ => P).
Proof. revert off. induction n as [|n IH]; intros; simpl; keep; [apply keep_read_ph|apply IH..]. Qed.

Lemma pt_exec_bad P ip m n : pt P (exec_bad ip m n) (fun v fs t => v = -1 /\ P fs t).
Proof.
  unfold exec_bad. eapply pt_bind; [destruct (negb _); [apply pt_on_kmem|by apply pt_ret]|]. intros ?.
  eapply pt_bind; [apply pt_on_fs|]. intros []. by apply pt_ret.
Qed.

(** exec_commit does not fail. *)
Lemma pt_exec_commit P cp path argv e m n a :
  pt P (exec_commit cp path argv e m n a : K (kern B) Z) (fun v _ _ => v = 0).
Proof.
  assert (Hany : forall A P (m : K (kern B) A), pt P m (fun _ _ _ => True)) by (intros; intros s Hs; by case_match).
  unfold exec_commit. eapply pt_bind; [apply Hany|]. intros m0. destruct (init_stack _ _ _ _ _).
  repeat (eapply pt_bind; [apply Hany|intros ?]). by apply pt_ret.
Qed.

Lemma pt_exec P cp path argv :
  pt P (Exec.exec fuel dev_read elf0 cp path argv) (fun v fs t => v = 0 \/ v = -1 /\ P fs t).
Proof.
  assert (Hbad : forall ip m n, pt P (exec_bad ip m n) (fun v fs t => v = 0 \/ v = -1 /\ P fs t)).
  { intros. eapply pt_post; [apply pt_exec_bad|]. auto. }
  unfold Exec.exec. eapply pt_bind; [apply pt_gets|]. intros wd.
  eapply pt_bind; [apply pt_on_fs|]. intros [ip|]; [|apply pt_ret; auto].
  eapply pt_bind; [apply pt_on_fs|]. intros []. eapply pt_bind; [apply pt_on_fs|]. intros [r d].
  destruct (_ <? _); [apply Hbad|]. destruct (negb _); [apply Hbad|].
  eapply pt_bind; [apply keep_size_loop|]. intros [sz|]; [|apply Hbad].
  eapply pt_bind; [apply pt_on_kmem|]. intros m. destruct (m =? 0); [apply Hbad|].
  eapply pt_bind; [apply pt_on_kmem|]. intros []. eapply pt_bind; [apply keep_load_loop|]. intros ok.
  destruct (negb ok); [apply Hbad|]. eapply pt_bind; [apply pt_on_fs|]. intros [].
  eapply pt_post; [apply pt_exec_commit|]. auto.
Qed.

(** exec gives 0 or -1; where it gives -1, the process table and the open
    files are as they were: the process keeps its memory, its registers, its
    name and its size. *)
Theorem exec_failure_keeps_process cp path argv (s s' : kern B) v :
  Kmonad.exec (Exec.exec fuel dev_read elf0 cp path argv) s = Done v tt s' ->
  v = 0 \/ (v = -1 /\ ktab s' = ktab s /\ kfiles s' = kfiles s).
Proof.
  intros E. pose proof (pt_exec (fun fs t => t = ktab s /\ fs = kfiles s) cp path argv s ltac:(done)) as Hp.
  rewrite E in Hp. tauto.
Qed.
End Failure.

(** There is no /x on the small machine. *)
Lemma exec_failure_keeps_process_witness :
  exists s', Kmonad.exec (Exec.exec 3 (fun _ => None) [] 0 [47; 120] []) Machine.kern0 = Done (-1) tt s' /\
    File.ktab s' = File.ktab Machine.kern0.
Proof.
  eexists. assert (E : Kmonad.exec (Exec.exec 3 (fun _ => None) [] 0 [47; 120] []) Machine.kern0 =
    Done (-1) tt (Machine.final Machine.kern0 (Kmonad.exec (Exec.exec 3 (fun _ => None) [] 0 [47; 120] []) Machine.kern0))).
  { apply Machine.returns_final. by vm_compute. }
  split; [exact E|]. by destruct (exec_failure_keeps_process 3 (fun _ => None) [] 0 [47; 120] [] _ _ _ E) as [?|(_ & Ht & _)].
Defined.
End ExecSpec.
