(* ===== verification/SysfileSpec.v ===== *)
(** * SysfileSpec: read and write through a descriptor

    fileread, filewrite and sys_read over the file system's contract: what a
    process gets, where the offset goes, and where the bytes are stored. *)
From S2P Require Import Prelude Kmonad Kalloc Pipe Proc Segment Block FsLayout Fs FsLogic FsImage FsAlloc FsFile FsDir File Syscall Process Sysfile Machine.
From stdpp Require Import options.

Module SysfileSpec.
Import FsDir File Syscall Process Sysfile.

Section Spec.
Context (dev : Z) (sb : superblock).
Context {B : Type} `{BO : BlockOps B} `{BL : !BlockLayer B}.
Context (dev_read : Z -> option (nat -> Z -> K (fstate B) (Z * bytes))).
Context (dev_write : Z -> option (nat -> bytes -> Z -> K (fstate B) Z)).

Lemma tri_run {A} V H I (m : K (fstate B) A) Q s :
  tri (fun _ => False) V H I m Q -> frep s V H I ->
  exists a s' V' H' I', exec m s = Done a tt s' /\ frep s' V' H' I' /\ Q a V' H' I'.
Proof using Type.
  intros Ht Hs. specialize (Ht s Hs). destruct (exec m s) as [a [] s'| | |]; simpl in Ht; try done.
  destruct Ht as (V' & H' & I' & ? & ?). by exists a, s', V', H', I'.
Qed.

(** A cached inode that nobody has locked. *)
Definition at_rest (x : inode) : Prop := flag x I_BUSY = false /\ flag x I_VALID = true /\ 1 <= iref x.

Definition locked (x : inode) : inode := set_iflags (Z.lor (iflags x) I_BUSY) x.

Lemma unlock_locked x :
  flag x I_BUSY = false -> set_iflags (Z.land (iflags (locked x)) (Z.lnot I_BUSY)) (locked x) = x.
Proof using Type.
  intros Hb. unfold flag in Hb. bool_prop. unfold locked. cbn [iflags set_iflags].
  assert (E : Z.land (Z.lor (iflags x) I_BUSY) (Z.lnot I_BUSY) = iflags x).
  { rewrite Z.land_lor_distr_l, Z.land_lnot_diag, Z.lor_0_r, <- Z.ldiff_land.
    apply Z.bits_inj'. intros n Hn. rewrite Z.ldiff_spec.
    assert (Hz : Z.testbit (Z.land (iflags x) I_BUSY) n = false) by (by rewrite Hb, Z.bits_0).
    rewrite Z.land_spec in Hz. by destruct (Z.testbit (iflags x) n), (Z.testbit I_BUSY n). }
  rewrite E. by destruct x.
Qed.

Lemma file_ok_locked V x : file_ok dev sb V x -> file_ok dev sb V (locked x).
Proof using Type.
  intros [Hfs [Hd Hl Hi Ho] [Hs Hn] Hin Ht H16].
  split; [exact Hfs|split; [exact Hd|exact Hl|exact Hi|exact Ho]|split; [exact Hs|exact Hn]|exact Hin|exact Ht|exact H16].
Qed.

Lemma ilock_run fuel V I ip x s :
  (0 < fuel)%nat -> I !! ip = Some x -> at_rest x -> file_ok dev sb V x -> frep s V [] I ->
  exists s', exec (ilock fuel ip) s = Done tt tt s' /\ frep s' V [] (<[ip := locked x]> I).
Proof using BL.
  intros Hf HI (Hb & Hv & Hr) Hfo Hs.
  pose proof (ilock_spec dev sb fuel V I ip x Hf HI Hr Hb (wf_dev _ _ _ _ (fo_wf _ _ _ _ Hfo))
    (fo_inum _ _ _ _ Hfo) (fo_fs _ _ _ _ Hfo) s Hs) as Ht.
  destruct (exec (ilock fuel ip) s) as [[] [] s'|msg| |]; simpl in Ht; try done.
  - destruct Ht as (V' & H' & I' & Hr' & -> & -> & x' & -> & _ & _ & Hx). rewrite Hv in Hx. subst x'.
    by exists s'.
  - destruct Ht as (_ & Ht & _). congruence.
Qed.

Lemma iunlock_run V I ip x s :
  I !! ip = Some (locked x) -> at_rest x -> frep s V [] I ->
  exists s', exec (iunlock ip) s = Done tt tt s' /\ frep s' V [] (<[ip := x]> I).
Proof using BL.
  intros HI (Hb & Hv & Hr) Hs.
  assert (Hl : flag (locked x) I_BUSY = true).
  { unfold flag, locked. cbn [iflags set_iflags]. apply negb_true_iff, Z.eqb_neq. intros E.
    apply (f_equal (fun z => Z.testbit z 0)) in E. rewrite Z.land_spec, Z.lor_spec in E. cbn in E.
    by rewrite orb_true_r in E. }
  assert (Ht : tri (fun _ => False) V [] I (iunlock ip) (fun _ V' H' I' => V' = V /\ H' = [] /\ I' = <[ip := x]> I)).
  { unfold iunlock. tstep. rewrite (nth_lookup_Some _ _ _ _ HI), Hl.
    destruct (iref (locked x) <? 1) eqn:E; [bool_prop; unfold locked in E; cbn in E; lia|].
    cbn [negb orb]. do 2 tstep. rewrite (alter_lookup _ _ _ _ HI), unlock_locked by done.
    tstep. apply tri_tail. tstep. by apply tri_ret. }
  destruct (tri_run _ _ _ _ _ _ Ht Hs) as (a & s' & V' & H' & I' & E & Hf & -> & -> & ->).
  destruct a. by exists s'.
Qed.

Lemma exec_on_fs {A} (m : K (fstate B) A) (s : kern B) :
  exec (on_fs m) s = rput with_fs s (exec m (kfs s)).
Proof using Type. unfold on_fs. by rewrite exec_zoom. Qed.

(** An open file on inode [x] that is at rest, as a descriptor finds it. *)
Record open_file (s : kern B) (V : contents) (I : list inode) (f : nat) (x : file) (y : inode) : Prop := mkopen {
  of_file : kfiles s !! f = Some x;
  of_type : ftype x = FD_INODE;
  of_off : is_u32 (off x);
  of_inode : I !! fip x = Some y;
  of_rest : at_rest y;
  of_ok : file_ok dev sb V y;
  of_rep : frep (kfs s) V [] I
}.

Lemma alter_set_off (fs : list file) f x o :
  fs !! f = Some x -> o = off x -> alter (set_off o) f fs = fs.
Proof using Type.
  intros Hf ->. apply list_eq. intros g. destruct (decide (g = f)) as [->|].
  - rewrite list_lookup_alter_eq, Hf. by destruct x.
  - by rewrite list_lookup_alter_ne.
Qed.

Lemma fileread_ok fuel V I f x y n (s : kern B) :
  (0 < fuel)%nat -> open_file s V I f x y -> readable x = true ->
  exists fs', frep fs' V [] I /\ exec (fileread fuel dev_read f n) s =
    if (isize y <? off x) || (4294967296 <=? off x + u32 n) then Done (-1, []) tt (with_fs fs' s)
    else let r := read_len y (off x) (u32 n) in
      Done (r, fbyte dev V y <$> seqZ (off x) r) tt
        (with_files (alter (set_off (off x + r)) f (kfiles s)) (with_fs fs' s)).
Proof using BL.
  intros Hfu [Hf Ht Ho HI Hrest Hfo Hrep] Hr. unfold fileread, fget, file_at. kexec.
  rewrite (nth_lookup_Some _ _ _ _ Hf), Hr, Ht. cbn [negb].
  destruct (ilock_run fuel V I (fip x) y _ Hfu HI Hrest Hfo Hrep) as (s1 & E1 & R1).
  kexec. rewrite exec_on_fs, E1. cbn [rput rbind]. kexec. cbn [kfiles with_fs].
  rewrite (nth_lookup_Some _ _ _ _ Hf).
  assert (HI1 : <[fip x := locked y]> I !! fip x = Some (locked y)) by (by eapply list_lookup_insert_eq, lookup_lt_Some).
  destruct (file_ok_locked V y Hfo) as [L1 L2 L3 _ L5 _].
  destruct (tri_run _ _ _ _ _ s1 (readi_ok dev sb dev_read (fun _ => False) V _ (fip x) (locked y) (off x) (u32 n)
    HI1 L1 L2 L3 L5 Ho (u32_range _)) R1) as (rd & s2 & V2 & H2 & I2 & E2 & R2 & Hrd & -> & -> & ->).
  rewrite exec_on_fs. cbn [kfs with_fs]. rewrite E2. cbn [rput rbind].
  change (isize (locked y)) with (isize y) in Hrd.
  change (read_len (locked y)) with (read_len y) in Hrd.
  change (fbyte dev V (locked y)) with (fbyte dev V y) in Hrd.
  destruct (iunlock_run V _ (fip x) y s2 HI1 Hrest R2) as (s3 & E3 & R3).
  rewrite list_insert_insert_eq, list_insert_id in R3 by done.
  exists s3. split; [done|]. destruct ((isize y <? off x) || _) eqn:Eb; subst rd.
  - change (0 <? i32 (-1)) with false. cbv iota. kexec.
    rewrite exec_on_fs. cbn [kfs with_fs]. rewrite E3. cbn [rput rbind]. kexec. done.
  - bool_prop. destruct L3 as [Hsz _]. change (isize (locked y)) with (isize y) in Hsz.
    pose proof (u32_range n). set (r := read_len y (off x) (u32 n)).
    assert (0 <= r <= isize y - off x) by (unfold r, read_len; lia). unfold is_u32 in Ho.
    rewrite (i32_small r) by lia. cbv zeta. destruct (0 <? r) eqn:E0; bool_prop; unfold fset; kexec.
    + rewrite exec_on_fs. cbn [kfs with_fs with_files kfiles]. rewrite E3. cbn [rput rbind]. kexec.
      unfold with_files, with_fs. cbn. do 2 f_equal.
      apply list_eq. intros g. destruct (decide (g = f)) as [->|]; [|by rewrite !list_lookup_alter_ne].
      rewrite !list_lookup_alter_eq, Hf. cbn. by rewrite u32_small by lia.
    + rewrite exec_on_fs. cbn [kfs with_fs]. rewrite E3. cbn [rput rbind]. kexec.
      rewrite (alter_set_off _ _ _ _ Hf) by lia. by destruct s.
Qed.

Abbreviation ram_of s := (Kalloc.ram (Pipe.pkmem (kpipes s))).

(** The arguments of read and write that the checks accept. *)
Definition rw_args (s : kern B) (cp f : nat) (n p : Z) : Prop :=
  let q := Proc.proc_at (ktab s) cp in
  exists fd, argint q (ram_of s) 0 = Some fd /\ 0 <= fd < Z.of_nat Proc.NOFILE /\
    ofile_at q (Z.to_nat fd) = Some f /\ argint q (ram_of s) 2 = Some n /\ argptr q (ram_of s) 1 n = Some p.

Lemma rwargs_ok (s : kern B) cp f n p : rw_args s cp f n p -> exec (rwargs cp) s = Done (Some (f, n, p)) tt s.
Proof using Type.
  intros (fd & H0 & Hfd & Hf & H2 & H1). unfold rwargs, argfd, arg, mem, pget. kexec. rewrite H0. kexec.
  destruct (fd <? 0) eqn:E1, (Z.of_nat Proc.NOFILE <=? fd) eqn:E2; bool_prop; try lia. cbn [orb]. kexec.
  rewrite Hf. kexec. rewrite H2. kexec. rewrite H1. by kexec.
Qed.

Lemma sys_read_ok fuel V I f x y n p cp (s : kern B) :
  (0 < fuel)%nat -> rw_args s cp f n p -> open_file s V I f x y -> readable x = true ->
  off x <= isize y -> off x + u32 n < 4294967296 ->
  let r := read_len y (off x) (u32 n) in
  exists s', exec (sys_read fuel dev_read cp) s = Done r tt s' /\ frep (kfs s') V [] I /\
    kfiles s' = alter (set_off (off x + r)) f (kfiles s) /\ ktab s' = ktab s /\
    ram_of s' = mem_write p (fbyte dev V y <$> seqZ (off x) r) (ram_of s).
Proof using BL.
  intros Hfu Ha Hof Hr Ho Hn. cbv zeta. unfold sys_read. rewrite exec_kbind, (rwargs_ok _ _ _ _ _ Ha). cbn [rbind].
  destruct (fileread_ok fuel V I f x y n s Hfu Hof Hr) as (fs' & Hrep & E).
  destruct (isize y <? off x) eqn:E1, (4294967296 <=? off x + u32 n) eqn:E2; bool_prop; try lia. cbn [orb] in E.
  rewrite exec_kbind, E. cbn [rbind]. rewrite exec_kbind. unfold mupd, on_kmem. rewrite exec_zoom by done.
  rewrite exec_modify. cbn [rput rbind]. kexec. eexists. split; [done|]. done.
Qed.

(** Storing [r] bytes of a file at [p]. *)
Lemma mem_write_file V y o r p m a :
  0 <= r ->
  mem_write p (fbyte dev V y <$> seqZ o r) m a = if decide (p <= a < p + r) then fbyte dev V y (o + (a - p)) else m a.
Proof using Type.
  intros Hr. case_decide.
  - rewrite mem_write_in by (rewrite length_fmap, length_seqZ; lia). unfold byte_at.
    rewrite nth_lookup, list_lookup_fmap, lookup_seqZ_lt by lia. cbn. f_equal. lia.
  - apply mem_write_out. rewrite length_fmap, length_seqZ. lia.
Qed.

(** C6. read(fd, buf, n) on a file: the value is the number of bytes left from
    the offset on, at most [n]; those bytes of the file are stored at buf, which
    lies inside the process's memory, and no other byte of memory changes; the
    offset moves past them; the disk and the inodes are as before. *)
Theorem sys_read_spec fuel V I f x y n p cp (s : kern B) :
  (0 < fuel)%nat -> rw_args s cp f n p -> open_file s V I f x y -> readable x = true ->
  off x <= isize y -> 0 <= n -> off x + n < 4294967296 ->
  let q := Proc.proc_at (ktab s) cp in
  0 <= Proc.sz q <= 2147483648 -> 0 <= Proc.pmem q -> Proc.pmem q + Proc.sz q <= 4294967296 ->
  let r := Z.min n (isize y - off x) in
  exists s', exec (sys_read fuel dev_read cp) s = Done r tt s' /\ frep (kfs s') V [] I /\
    kfiles s' = alter (set_off (off x + r)) f (kfiles s) /\ ktab s' = ktab s /\
    Proc.pmem q <= p /\ p + n < Proc.pmem q + Proc.sz q /\
    forall a, ram_of s' a = if decide (p <= a < p + r) then fbyte dev V y (off x + (a - p)) else ram_of s a.
Proof using BL.
  intros Hfu Ha Hof Hr Ho Hn0 Hn q Hsz Hpm Hps. cbv zeta.
  pose proof Ha as (fd & _ & _ & _ & H2 & H1). pose proof (argint_range _ _ _ _ H2) as Hni.
  fold q in H1, H2. destruct (argint q (ram_of s) 1) as [i|] eqn:Ei; [|unfold argptr in H1; by rewrite Ei in H1].
  rewrite (argptr_ok q (ram_of s) 1 n i Ei) in H1 by lia. case_decide as Hd; [|done]. injection H1 as <-.
  destruct (sys_read_ok fuel V I f x y n _ cp s Hfu Ha Hof Hr Ho) as (s' & E & Hrep & Hfs & Ht & Hram);
    [by rewrite u32_small by lia|].
  assert (En : u32 n = n) by (apply u32_small; lia). rewrite En in *. fold (read_len y (off x) n). set (r := read_len y (off x) n) in *.
  assert (0 <= r <= n) by (unfold r, read_len; lia). pose proof (u32_range i).
  exists s'. split_and!; try done; try lia. intros a. rewrite Hram. apply mem_write_file. lia.
Qed.

(** C37. read(fd, buf, -1) from the start of a file: the count passes the check
    of the buffer, and readi takes it for the largest unsigned number, so that
    the whole file is stored at buf, past the end of the process's memory if the
    file is longer than what is left of it. *)
Theorem sys_read_negative_overruns fuel V I f x y fd i cp (s : kern B) :
  let q := Proc.proc_at (ktab s) cp in
  (0 < fuel)%nat -> open_file s V I f x y -> readable x = true -> off x = 0 ->
  argint q (ram_of s) 0 = Some fd -> 0 <= fd < Z.of_nat Proc.NOFILE -> ofile_at q (Z.to_nat fd) = Some f ->
  argint q (ram_of s) 1 = Some i -> argint q (ram_of s) 2 = Some (-1) ->
  1 <= i < Proc.sz q -> Proc.sz q <= 2147483648 -> 0 <= Proc.pmem q -> Proc.pmem q + Proc.sz q <= 4294967296 ->
  exists s', exec (sys_read fuel dev_read cp) s = Done (isize y) tt s' /\
    forall k, 0 <= k < isize y -> ram_of s' (Proc.pmem q + i + k) = fbyte dev V y k.
Proof using BL.
  intros q Hfu Hof Hr Ho H0 Hfd Hf H1 H2 Hi Hsz Hpm Hps.
  pose proof (argint_range _ _ _ _ H1) as Hir.
  assert (Ha : rw_args s cp f (-1) (Proc.pmem q + i)).
  { exists fd. split_and!; try done; try lia. fold q. rewrite (argptr_negative_size q (ram_of s) 1 (-1) i H1); try lia.
    - rewrite u32_small; [done|lia].
    - rewrite (u32_small i) by lia. lia. }
  pose proof (of_ok _ _ _ _ _ _ Hof) as Hfo. destruct (fo_dense _ _ _ _ Hfo) as [Hs _].
  destruct (sys_read_ok fuel V I f x y (-1) _ cp s Hfu Ha Hof Hr) as (s' & E & _ & _ & _ & Hram);
    [lia|rewrite Ho; by vm_compute|].
  change (u32 (-1)) with 4294967295 in *. rewrite Ho in *.
  assert (Hlen : read_len y 0 4294967295 = isize y) by (unfold read_len; lia). rewrite Hlen in *.
  exists s'. split; [done|]. intros k Hk. rewrite Hram, mem_write_file by lia.
  rewrite decide_True by lia. f_equal. lia.
Qed.
End Spec.

(** ** Witnesses: the root directory of the small machine, open for reading *)

Definition file1 : file := mkfile FD_INODE 1 true false 0 0 0.

(** A process with descriptor 0 on it, and the arguments [args] of a call. *)
Definition kern_read (args : bytes) : kern disk :=
  mkkern (boot 100 [63] [dir0 2 1]) (file1 :: replicate 99 File.file0)
    (Pipe.mkpstate (with_ram (mem_write 0x20004 args) Machine.kmem1) ∅)
    (Proc.mkptable (set_ofile 0 (Some 0%nat) Machine.proc1 :: replicate 63 Proc.proc0) 2 (Some 0%nat)) Seg.cpu0 0.

Lemma open_file1 args : open_file 1 sb0 (kern_read args) V0 [dir0 2 1] 0 file1 (dir0 2 1).
Proof.
  split; [done|done|done|done|by split_and!|by apply file_ok_dir0|]. apply frep_boot.
Qed.

(** read(0, 0x100, 16) *)
Lemma sys_read_spec_witness :
  let s := kern_read (le_enc 4 0 ++ le_enc 4 0x100 ++ le_enc 4 16) in
  exists s', exec (sys_read 1 (fun _ => None) 0) s = Done 16 tt s' /\
    kfiles s' = alter (set_off 16) 0%nat (kfiles s) /\
    Kalloc.ram (Pipe.pkmem (kpipes s')) 0x20102 = fbyte 1 V0 (dir0 2 1) 2.
Proof.
  intros s.
  destruct (sys_read_spec 1 sb0 (fun _ => None) 1 V0 [dir0 2 1] 0 file1 (dir0 2 1) 16 0x20100 0 s)
    as (s' & E & _ & Hf & _ & _ & _ & Hram); [lia| |apply open_file1|reflexivity|by vm_compute..|].
  - exists 0. split_and!; by vm_compute.
  - exists s'. split_and!; [exact E|exact Hf|]. rewrite Hram, decide_True; [|split; [lia|reflexivity]].
    change (off file1 + (0x20102 - 0x20100)) with 2. reflexivity.
Defined.

(** read(0, 0xff0, -1): the directory has 32 bytes, the process's memory ends
    at 0x21000. *)
Lemma sys_read_negative_overruns_witness :
  let s := kern_read (le_enc 4 0 ++ le_enc 4 0xff0 ++ le_enc 4 0xffffffff) in
  exists s', exec (sys_read 1 (fun _ => None) 0) s = Done 32 tt s' /\
    Kalloc.ram (Pipe.pkmem (kpipes s')) 0x21002 = fbyte 1 V0 (dir0 2 1) 18.
Proof.
  intros s.
  destruct (sys_read_negative_overruns 1 sb0 (fun _ => None) 1 V0 [dir0 2 1] 0 file1 (dir0 2 1) 0 0xff0 0 s)
    as (s' & E & Hram); [lia|apply open_file1|reflexivity|reflexivity|by vm_compute..|].
  exists s'. split; [exact E|].
  assert (Ea : Proc.pmem (Proc.proc_at (ktab s) 0) + 0xff0 + 18 = 0x21002) by (by vm_compute).
  rewrite <- Ea. apply (Hram 18). split; [lia|reflexivity].
Defined.
End SysfileSpec.
