(* ===== verification/TrapSpec.v ===== *)
(** * TrapSpec: what a trap leaves of a process

    The theorem is about runs with an arbitrary handler of events: whatever the
    hardware answers, and whatever other processes and processors do to the
    state of the machine where the code waits or switches away. *)
From S2P Require Import Prelude Kmonad Kalloc Pipe Proc Segment Block FsLayout Fs File Syscall Process Exec Sysfile Console ConsoleSpec Irq Trap Machine.
From stdpp Require Import options.

Module TrapSpec.
Import Fs File Process Trap.

(** ** Code that does not return *)

Fixpoint never {S A} (o : outcome S A) : Prop :=
  match o with
  | Ret _ _ => False
  | Panic _ | Diverge => True
  | Vis e s k => forall z s', never (k z s')
  end.

Lemma never_bind {S A C} (o : outcome S A) (f : A -> K S C) : (forall a s, never (f a s)) -> never (obind o f).
Proof. intros Hf. induction o; simpl; auto. Qed.

Lemma never_zoom {S T A} (get : S -> T) (put : T -> S -> S) (o : outcome T A) s :
  never o -> never (ozoom get put s o).
Proof. revert s. induction o as [| | |e t k IH]; intros u Hn; simpl in *; auto. Qed.

Lemma never_run {W S A} (h : handler W S) w (o : outcome S A) a w' s' :
  never o -> run h w o <> Done a w' s'.
Proof.
  revert w. induction o as [| | |e s k IH]; intros w Hn; simpl in *; try done.
  destruct (h e w s) as [[[z w1] s1]|]; [by apply IH|done].
Qed.

Section Trap.
Context {B : Type} `{BlockOps B}.
Variable (fuel : nat).
Variable (dev_read : Z -> option (nat -> Z -> K (fstate B) (Z * bytes))).
Variable (dev_write : Z -> option (nat -> bytes -> Z -> K (fstate B) Z)).
Variable (elf0 : bytes).
Variable (ideintr : K (mach B) unit).
Variable (pcs : nat -> list Z).
Context {W : Type} (h : handler W (mach B)).

Lemma exit_never p (s : kern B) : never (exit p s).
Proof.
  unfold exit. apply never_bind. intros i s1. case_decide; [done|].
  do 4 (apply never_bind; intros ? ?). apply never_zoom.
  unfold Proc.exit_locked. do 3 (apply never_bind; intros ? ?). done.
Qed.

Lemma bind_done {A C} (m : K (mach B) A) (f : A -> K (mach B) C) w s c w' s' :
  run h w (kbind m f s) = Done c w' s' -> exists a w1 s1, run h w1 (f a s1) = Done c w' s'.
Proof. rewrite run_kbind. destruct (run h w (m s)) as [a w1 s1| | |]; simpl; try done. eauto. Qed.

Lemma exit_if_killed_done p w w' (s s' : mach B) :
  run h w (exit_if_killed p s) = Done tt w' s' -> Proc.killed (Proc.proc_at (ktab (mkern s')) p) = 0.
Proof.
  unfold exit_if_killed, killed. rewrite run_kbind, run_gets. cbn [rbind].
  destruct (Proc.killed (Proc.proc_at (ktab (mkern s)) p) =? 0) eqn:E; bool_prop; cbn [negb].
  - rewrite run_kret. by intros [= _ <-].
  - intros Hd. exfalso. revert Hd. apply never_run, never_zoom, exit_never.
Qed.

(** C25. A trap from user mode returns to the process only if the process has not
    been killed: by the trap itself, by another process or by a system call
    while it was in the kernel. *)
Theorem trap_return_not_killed tf p w w' (s s' : mach B) :
  Seg.cur (kcpu (mkern s)) = Some p -> Z.land (Proc.tf_cs tf) 3 = Seg.DPL_USER ->
  run h w (trap fuel dev_read dev_write elf0 ideintr pcs tf s) = Done tt w' s' ->
  Proc.killed (Proc.proc_at (ktab (mkern s')) p) = 0.
Proof.
  intros Hc Hu. unfold trap, cur. rewrite run_kbind, run_gets. cbn [rbind]. rewrite Hc.
  destruct (_ =? T_SYSCALL); intros E; do 3 apply bind_done in E as (? & ? & ? & E).
  - by eapply exit_if_killed_done.
  - unfold exit_user in E. rewrite Hu in E. by eapply exit_if_killed_done.
Qed.
End Trap.

(** ** Witness: getpid() on the small machine *)

Definition mach0 : mach FsImage.FsImage.disk :=
  mkmach (with_cpu (Seg.set_cur (Some 0%nat) Seg.cpu0) Machine.kern0) InputSpec.console0 IrqSpec.irq0.
Definition tf_getpid : Proc.trapframe := Proc.mktf 0 0 0 0 0 0 0 18 0 0 0 0 64 0 0 35 0 0 0.

Lemma trap_return_not_killed_witness :
  exists s', exec (trap 1 (fun _ => None) (fun _ => None) [] (kret tt) (fun _ => []) tf_getpid) mach0 = Done tt tt s' /\
    Proc.killed (Proc.proc_at (ktab (mkern s')) 0) = 0 /\
    Proc.tf_eax (Proc.tf (Proc.proc_at (ktab (mkern s')) 0)) = 1.
Proof.
  set (m := trap 1 (fun _ => None) (fun _ => None) [] (kret tt) (fun _ => []) tf_getpid).
  assert (E : exec m mach0 = Done tt tt (Machine.final mach0 (exec m mach0))).
  { apply Machine.finishes_final. by vm_compute. }
  eexists. split; [exact E|]. split; [|by vm_compute].
  by apply (trap_return_not_killed 1 (fun _ => None) (fun _ => None) [] (kret tt) (fun _ => []) quiet tf_getpid 0 tt tt mach0).
Defined.
End TrapSpec.
