(* ===== verification/User.v ===== *)
(** * User: the interface of user programs, ulib.c and printf.c

    A user program is a tree of system calls: it returns, exits, or makes a
    call ([req], one constructor per stub of usys.S that the programs use) and
    continues with the kernel's answer.  [Fuel] marks a loop whose fuel is used
    up and [Undef] an access outside of the memory the program owns.  A [char *]
    that is only read is the list of the bytes from the pointer on; a list
    without a NUL is a string that ends with the list. *)
From S2P Require Import Prelude.
From stdpp Require Import options.

Module User.

(** struct statv6, as fstat fills it in. *)
Record ustat := mkustat { st_type : Z; st_dev : Z; st_ino : Z; st_nlink : Z; st_size : Z }.

Inductive req : Type :=
| RFork | RWait | RPipe
| RRead (fd n : Z)
| RWrite (fd : Z) (data : bytes)
| RClose (fd : Z)
| RKill (pid : Z)
| RExec (path : bytes) (argv : list bytes)
| ROpen (path : bytes) (mode : Z)
| RMknod (path : bytes) (major minor : Z)
| RUnlink (path : bytes)
| RFstat (fd : Z)
| RLink (old new : bytes)
| RMkdir (path : bytes)
| RChdir (path : bytes)
| RDup (fd : Z)
| RSbrk (n : Z)
| RSleep (n : Z).

(** The answer: the value of %eax and what the kernel stored in the program's
    memory, if anything (bytes read, descriptors of a pipe, a stat). *)
Definition rep (r : req) : Type :=
  match r with
  | RRead _ _ => Z * bytes
  | RPipe => Z * (Z * Z)
  | RFstat _ => Z * ustat
  | _ => Z
  end.

Inductive prog (A : Type) : Type :=
| Ret (a : A)
| Exit
| Fuel
| Undef
| Call (r : req) (k : rep r -> prog A).
Arguments Ret {A} a.
Arguments Exit {A}.
Arguments Fuel {A}.
Arguments Undef {A}.
Arguments Call {A} r k.

Fixpoint pbind {A B} (p : prog A) (f : A -> prog B) : prog B :=
  match p with
  | Ret a => f a
  | Exit => Exit
  | Fuel => Fuel
  | Undef => Undef
  | Call r k => Call r (fun z => pbind (k z) f)
  end.

Definition call (r : req) : prog (rep r) := Call r Ret.

Declare Scope user_scope.
Delimit Scope user_scope with U.
Bind Scope user_scope with prog.
Notation "x <- m ;; k" := (pbind m%U (fun x => k%U))
  (at level 100, m at next level, right associativity) : user_scope.
Notation "'let*' p <- m ;; k" := (pbind m%U (fun x => match x with p => k%U end))
  (at level 100, p pattern, m at next level, right associativity) : user_scope.
Notation "m ;; k" := (pbind m%U (fun _ => k%U))
  (at level 100, k at level 200, right associativity) : user_scope.
#[global] Open Scope user_scope.

(** The stubs of usys.S. *)
Definition fork : prog Z := call RFork.
Definition wait : prog Z := call RWait.
Definition pipe : prog (Z * (Z * Z)) := call RPipe.
Definition read (fd n : Z) : prog (Z * bytes) := call (RRead fd n).
Definition write (fd : Z) (data : bytes) : prog Z := call (RWrite fd data).
Definition close (fd : Z) : prog Z := call (RClose fd).
Definition kill (pid : Z) : prog Z := call (RKill pid).
Definition exec (path : bytes) (argv : list bytes) : prog Z := call (RExec path argv).
Definition open (path : bytes) (mode : Z) : prog Z := call (ROpen path mode).
Definition mknod (path : bytes) (major minor : Z) : prog Z := call (RMknod path major minor).
Definition unlink (path : bytes) : prog Z := call (RUnlink path).
Definition fstat (fd : Z) : prog (Z * ustat) := call (RFstat fd).
Definition link (old new : bytes) : prog Z := call (RLink old new).
Definition mkdir (path : bytes) : prog Z := call (RMkdir path).
Definition chdir (path : bytes) : prog Z := call (RChdir path).
Definition dup (fd : Z) : prog Z := call (RDup fd).
Definition sbrk (n : Z) : prog Z := call (RSbrk n).
Definition usleep (n : Z) : prog Z := call (RSleep n).
Definition exit {A} : prog A := Exit.

(** ** Running a program against a kernel *)

Inductive ures (W A : Type) : Type :=
| UDone (a : A) (w : W)
| UExited (w : W)
| UFuel
| UUndef
| UBlocked (w : W).
Arguments UDone {W A} a w.
Arguments UExited {W A} w.
Arguments UFuel {W A}.
Arguments UUndef {W A}.
Arguments UBlocked {W A} w.

Definition uhandler (W : Type) : Type := forall r : req, W -> option (rep r * W).

Fixpoint urun {W A} (h : uhandler W) (w : W) (p : prog A) : ures W A :=
  match p with
  | Ret a => UDone a w
  | Exit => UExited w
  | Fuel => UFuel
  | Undef => UUndef
  | Call r k => match h r w with
                | Some (z, w') => urun h w' (k z)
                | None => UBlocked w
                end
  end.

Definition ubind {W A B} (r : ures W A) (f : A -> W -> ures W B) : ures W B :=
  match r with
  | UDone a w => f a w
  | UExited w => UExited w
  | UFuel => UFuel
  | UUndef => UUndef
  | UBlocked w => UBlocked w
  end.

Lemma urun_pbind {W A B} (h : uhandler W) (p : prog A) (f : A -> prog B) w :
  urun h w (pbind p f) = ubind (urun h w p) (fun a w' => urun h w' (f a)).
Proof.
  revert w. induction p as [a| | | |r k IH]; intros w; simpl; auto.
  destruct (h r w) as [[z w']|]; simpl; auto.
Qed.

(** ** ulib.c *)

(** *s, where [s] is the memory from the pointer on. *)
Definition deref (s : bytes) : Z := hd 0 s.

Fixpoint strlen (s : bytes) : Z :=
  match s with
  | [] => 0
  | c :: r => if c =? 0 then 0 else 1 + strlen r
  end.

(** The bytes strcpy stores at its destination, up to and with the NUL. *)
Fixpoint strcpy (t : bytes) : bytes :=
  match t with
  | [] => [0]
  | c :: r => if c =? 0 then [0] else c :: strcpy r
  end.

Fixpoint strcmp (p q : bytes) : Z :=
  match p with
  | c :: p' =>
      if negb (c =? 0) && (c =? deref q) then strcmp p' (tl q) else u8 c - u8 (deref q)
  | [] => 0 - u8 (deref q)
  end.

(** strchr: the memory from the first [c] on. *)
Fixpoint strchr (s : bytes) (c : Z) : option bytes :=
  match s with
  | [] => None
  | x :: r => if x =? 0 then None else if x =? c then Some s else strchr r c
  end.

Definition has (s : bytes) (c : Z) : bool :=
  match strchr s c with Some _ => true | None => false end.

(** atoi: 48 is the digit 0; int arithmetic wraps. *)
Fixpoint atoi_loop (n : Z) (s : bytes) : Z :=
  match s with
  | c :: r => if (48 <=? c) && (c <=? 57) then atoi_loop (i32 (n * 10 + c - 48)) r else n
  | [] => n
  end.

Definition atoi (s : bytes) : Z := atoi_loop 0 s.

(** memmove of ulib.c copies upwards only. *)
Fixpoint memmove_loop (m : Z -> Z) (dst src : Z) (n : nat) : Z -> Z :=
  match n with
  | O => m
  | S n' => memmove_loop (fun x => if x =? dst then m src else m x) (dst + 1) (src + 1) n'
  end.

Definition memmove (dst src n : Z) (m : Z -> Z) : Z -> Z :=
  memmove_loop m dst src (Z.to_nat n).

(** gets: the bytes it stores in front of the NUL; every pass but the last
    stores one, so that [max] passes are enough. *)
Fixpoint gets_loop (fuel : nat) (max : Z) (acc : bytes) : prog bytes :=
  match fuel with
  | O => Fuel
  | S fuel' =>
      if Z.of_nat (length acc) + 1 <? max then
        let* (cc, d) <- read 0 1 ;;
        if cc <? 1 then Ret acc
        else
          let c := deref d in
          if (c =? 10) || (c =? 13) then Ret (acc ++ [c]) else gets_loop fuel' max (acc ++ [c])
      else Ret acc
  end.

Definition gets (max : Z) : prog bytes := gets_loop (S (Z.to_nat max)) max [].

Definition stat (n : bytes) : prog (Z * option ustat) :=
  fd <- open n 0 ;;
  if fd <? 0 then Ret (-1, None)
  else
    let* (r, st) <- fstat fd ;;
    close fd ;;
    Ret (r, if r <? 0 then None else Some st).

(** ** printf.c *)

Definition putc (fd c : Z) : prog unit := write fd [u8 c] ;; Ret tt.

Fixpoint puts (fd : Z) (l : bytes) : prog unit :=
  match l with
  | [] => Ret tt
  | c :: r => putc fd c ;; puts fd r
  end.

Definition digits : bytes := chars "0123456789ABCDEF".

(** buf[i++] = digits[x % base] while((x /= base) != 0): at most 32 digits. *)
Fixpoint int_digits (fuel : nat) (x base : Z) : bytes :=
  match fuel with
  | O => []
  | S fuel' =>
      nth (Z.to_nat (x mod base)) digits 0 ::
        if x / base =? 0 then [] else int_digits fuel' (x / base) base
  end.

Arguments int_digits : simpl never.

Definition printint (fd xx base : Z) (sgn : bool) : prog unit :=
  let neg := sgn && (xx <? 0) in
  let x := if neg then u32 (- xx) else u32 xx in
  puts fd (rev (int_digits 32 x base ++ (if neg then [45] else []))).

(** An argument of printf: a word, or a string that is a null pointer or points
    to bytes. *)
Inductive uarg : Type := ANum (x : Z) | AStr (s : option bytes).

Fixpoint cstr (s : bytes) : bytes :=
  match s with
  | [] => []
  | c :: r => if c =? 0 then [] else c :: cstr r
  end.

(** The loop over fmt; [pct] is state == '%', [ap] the arguments left.  37 is
    '%'; 100, 120, 112, 115 and 99 are d, x, p, s and c. *)
Fixpoint printf_loop (fd : Z) (pct : bool) (fmt : bytes) (ap : list uarg) : prog unit :=
  match fmt with
  | [] => Ret tt
  | c :: fmt' =>
      if negb pct then
        if c =? 37 then printf_loop fd true fmt' ap
        else putc fd c ;; printf_loop fd false fmt' ap
      else if (c =? 100) || (c =? 120) || (c =? 112) then
        match ap with
        | ANum x :: ap' =>
            (if c =? 100 then printint fd (i32 x) 10 true else printint fd (i32 x) 16 false) ;;
            printf_loop fd false fmt' ap'
        | _ => Undef
        end
      else if c =? 115 then
        match ap with
        | AStr s :: ap' =>
            puts fd (match s with None => chars "(null)" | Some s => cstr s end) ;;
            printf_loop fd false fmt' ap'
        | _ => Undef
        end
      else if c =? 99 then
        match ap with
        | ANum x :: ap' => putc fd x ;; printf_loop fd false fmt' ap'
        | _ => Undef
        end
      else if c =? 37 then putc fd c ;; printf_loop fd false fmt' ap
      else putc fd 37 ;; putc fd c ;; printf_loop fd false fmt' ap
  end.

Definition printf (fd : Z) (fmt : string) (ap : list uarg) : prog unit :=
  printf_loop fd false (chars fmt) ap.

End User.
