(* ===== verification/Coreutils.v ===== *)
(** * Coreutils: the small user programs

    cat.c, wc.c, echo.c, ls.c, mkdir.c, rm.c, ln.c, kill.c, init.c, zombie.c and
    forktest.c as trees of system calls.  A program takes the strings of argv
    (argc is their number).  Loops that end only when a call says so take fuel;
    the theorems on cat and wc give enough of it.  [Pipeline] is the kernel that
    these theorems are about: it hands out the input in pieces of any size. *)
From S2P Require Import Prelude User.
From stdpp Require Import options.

Module Coreutils.
Import User.

Definition argv_at (argv : list bytes) (i : nat) : bytes := nth i argv [].

(** for(i = from; i < argc; i++) body(argv[i]) *)
Fixpoint for_args (args : list bytes) (body : bytes -> prog unit) : prog unit :=
  match args with
  | [] => Ret tt
  | a :: r => body a ;; for_args r body
  end.

(** ** cat.c *)

(** The loop gives the last result of read. *)
Fixpoint cat_loop (fuel : nat) (fd : Z) (buf : bytes) : prog Z :=
  match fuel with
  | O => Fuel
  | S fuel' =>
      let* (n, d) <- read fd 512 ;;
      let buf := splice buf 0 d in
      if 0 <? n then write 1 (take (Z.to_nat n) buf) ;; cat_loop fuel' fd buf
      else Ret n
  end.

Definition cat (fuel : nat) (fd : Z) : prog unit :=
  n <- cat_loop fuel fd (replicate 512 0) ;;
  if n <? 0 then printf 1 "cat: read error
" [] ;; exit
  else Ret tt.

Definition cat_main (fuel : nat) (argv : list bytes) : prog unit :=
  if Z.of_nat (length argv) <=? 1 then cat fuel 0 ;; exit
  else
    for_args (tail argv) (fun a =>
      fd <- open a 0 ;;
      if fd <? 0 then printf 1 "cat: cannot open %s
" [AStr (Some a)] ;; exit
      else cat fuel fd ;; close fd ;; Ret tt) ;;
    exit.

(** ** wc.c *)

Record counts := mkcounts { wc_l : Z; wc_w : Z; wc_c : Z; inword : bool }.

(** The body of for(i=0; i<n; i++). *)
Definition wc_char (x : counts) (b : Z) : counts :=
  let c := i32 (wc_c x + 1) in
  let l := if b =? 10 then i32 (wc_l x + 1) else wc_l x in
  if has [32; 13; 9; 10; 11] b then mkcounts l (wc_w x) c false
  else if negb (inword x) then mkcounts l (i32 (wc_w x + 1)) c true
  else mkcounts l (wc_w x) c (inword x).

Fixpoint wc_loop (fuel : nat) (fd : Z) (buf : bytes) (x : counts) : prog (Z * counts) :=
  match fuel with
  | O => Fuel
  | S fuel' =>
      let* (n, d) <- read fd 512 ;;
      let buf := splice buf 0 d in
      if 0 <? n then wc_loop fuel' fd buf (foldl wc_char x (take (Z.to_nat n) buf))
      else Ret (n, x)
  end.

Definition wc (fuel : nat) (fd : Z) (name : bytes) : prog unit :=
  let* (n, x) <- wc_loop fuel fd (replicate 512 0) (mkcounts 0 0 0 false) ;;
  if n <? 0 then printf 1 "wc: read error
" [] ;; exit
  else printf 1 "%d %d %d %s
" [ANum (wc_l x); ANum (wc_w x); ANum (wc_c x); AStr (Some name)].

Definition wc_main (fuel : nat) (argv : list bytes) : prog unit :=
  if Z.of_nat (length argv) <=? 1 then wc fuel 0 [] ;; exit
  else
    for_args (tail argv) (fun a =>
      fd <- open a 0 ;;
      if fd <? 0 then printf 1 "cat: cannot open %s
" [AStr (Some a)] ;; exit
      else wc fuel fd a ;; close fd ;; Ret tt) ;;
    exit.

(** ** echo.c *)

Fixpoint echo_loop (args : list bytes) : prog unit :=
  match args with
  | [] => Ret tt
  | a :: r =>
      printf 1 "%s%s" [AStr (Some a); AStr (Some (match r with [] => [10] | _ => [32] end))] ;;
      echo_loop r
  end.

Definition echo_main (argv : list bytes) : prog unit := echo_loop (tail argv) ;; exit.

(** ** mkdir.c, rm.c, ln.c, kill.c *)

Fixpoint until_error (args : list bytes) (f : bytes -> prog Z) (msg : string) : prog unit :=
  match args with
  | [] => Ret tt
  | a :: r =>
      n <- f a ;;
      if n <? 0 then printf 2 msg [AStr (Some a)] else until_error r f msg
  end.

Definition mkdir_main (argv : list bytes) : prog unit :=
  if Z.of_nat (length argv) <? 2 then printf 2 "Usage: mkdir files...
" [] ;; exit
  else until_error (tail argv) mkdir "mkdir: %s failed to create
" ;; exit.

Definition rm_main (argv : list bytes) : prog unit :=
  if Z.of_nat (length argv) <? 2 then printf 2 "Usage: rm files...
" [] ;; exit
  else until_error (tail argv) unlink "rm: %s failed to delete
" ;; exit.

Definition ln_main (argv : list bytes) : prog unit :=
  if negb (Z.of_nat (length argv) =? 3) then printf 2 "Usage: ln old new
" [] ;; exit
  else
    n <- link (argv_at argv 1) (argv_at argv 2) ;;
    (if n <? 0 then printf 2 "link %s %s: failed
" [AStr (Some (argv_at argv 1)); AStr (Some (argv_at argv 2))] else Ret tt) ;;
    exit.

Definition kill_main (argv : list bytes) : prog unit :=
  if Z.of_nat (length argv) <? 1 then printf 2 "usage: kill pid...
" [] ;; exit
  else for_args (tail argv) (fun a => kill (atoi a) ;; Ret tt) ;; exit.

(** ** ls.c *)

Abbreviation DIRSIZ := (14)%nat (only parsing).

(** for(p=path+strlen(path); p >= path && *p != '/'; p--); p++ *)
Fixpoint after_slash (path : bytes) : bytes :=
  match path with
  | [] => []
  | c :: r => if has r 47 then after_slash r else if c =? 47 then r else path
  end.

(** The name, padded with blanks to DIRSIZ characters. *)
Definition fmtname (path : bytes) : bytes :=
  let p := after_slash path in
  if Z.of_nat DIRSIZ <=? strlen p then p
  else take (Z.to_nat (strlen p)) p ++ replicate (DIRSIZ - Z.to_nat (strlen p)) 32.

Definition ls_line (name : bytes) (st : ustat) : prog unit :=
  printf 1 "%s %d %d %d
" [AStr (Some (fmtname name)); ANum (st_type st); ANum (st_ino st); ANum (st_size st)].

(** The entries of a directory: [buf] holds the path and the slash, [p] is
    where the names go. *)
Fixpoint ls_dir (fuel : nat) (fd : Z) (buf : bytes) (p : nat) : prog unit :=
  match fuel with
  | O => Fuel
  | S fuel' =>
      let* (n, de) <- read fd 16 ;;
      if negb (n =? 16) then Ret tt
      else if get16 de 0 =? 0 then ls_dir fuel' fd buf p
      else if (512 <? p + DIRSIZ + 1)%nat then Undef
      else
        let buf := splice (splice buf p (slice de 2 DIRSIZ)) (p + DIRSIZ) [0] in
        let* (r, st) <- stat (cstr buf) ;;
        match st with
        | None => printf 1 "ls: cannot stat %s
" [AStr (Some buf)]
        | Some st => ls_line (cstr buf) st
        end ;;
        ls_dir fuel' fd buf p
  end.

Abbreviation T_DIR := (1)%Z (only parsing).
Abbreviation T_FILE := (2)%Z (only parsing).

Definition ls (fuel : nat) (path : bytes) : prog unit :=
  fd <- open path 0 ;;
  if fd <? 0 then printf 2 "ls: cannot open %s
" [AStr (Some path)]
  else
    let* (r, st) <- fstat fd ;;
    if r <? 0 then printf 2 "ls: cannot stat %s
" [AStr (Some path)] ;; close fd ;; Ret tt
    else
      (if st_type st =? T_FILE then ls_line path st
       else if st_type st =? T_DIR then
         if 512 <? strlen path + 1 + Z.of_nat DIRSIZ + 1 then printf 1 "ls: path too long
" []
         else
           let buf := splice (replicate 512 0) 0 (strcpy path) in
           let p := Z.to_nat (strlen buf) in
           ls_dir fuel fd (splice buf p [47]) (S p)
       else Ret tt) ;;
      close fd ;; Ret tt.

Definition ls_main (fuel : nat) (argv : list bytes) : prog unit :=
  if Z.of_nat (length argv) <? 2 then ls fuel (chars ".") ;; exit
  else for_args (tail argv) (ls fuel) ;; exit.

(** ** init.c, zombie.c, forktest.c *)

Abbreviation O_RDWR := (2)%Z (only parsing).

(** while((wpid=wait()) >= 0 && wpid != pid) *)
Fixpoint init_wait (fuel : nat) (pid : Z) : prog unit :=
  match fuel with
  | O => Fuel
  | S fuel' =>
      wpid <- wait ;;
      if (0 <=? wpid) && negb (wpid =? pid) then printf 1 "zombie!
" [] ;; init_wait fuel' pid
      else Ret tt
  end.

Fixpoint init_loop (fuel : nat) : prog unit :=
  match fuel with
  | O => Fuel
  | S fuel' =>
      printf 1 "init: starting sh
" [] ;;
      pid <- fork ;;
      if pid <? 0 then printf 1 "init: fork failed
" [] ;; exit
      else if pid =? 0 then
        exec (chars "sh") [chars "sh"] ;;
        printf 1 "init: exec sh failed
" [] ;; exit
      else init_wait fuel' pid ;; init_loop fuel'
  end.

Definition init_main (fuel : nat) : prog unit :=
  fd <- open (chars "console") O_RDWR ;;
  (if fd <? 0 then mknod (chars "console") 1 1 ;; open (chars "console") O_RDWR ;; Ret tt
   else Ret tt) ;;
  dup 0 ;;
  dup 0 ;;
  fd <- open (chars "eth") O_RDWR ;;
  (if fd <? 0 then mknod (chars "eth") 2 0 ;; Ret tt else close fd ;; Ret tt) ;;
  init_loop fuel.

Definition zombie_main : prog unit :=
  pid <- fork ;;
  (if 0 <? pid then usleep 5 ;; Ret tt else Ret tt) ;;
  exit.

(** printf of forktest.c. *)
Definition fprint (fd : Z) (s : string) : prog unit := write fd (chars s) ;; Ret tt.

(** for(n=0; n<1000; n++): gives n. *)
Fixpoint forks (k n : nat) : prog nat :=
  match k with
  | O => Ret n
  | S k' =>
      pid <- fork ;;
      if pid <? 0 then Ret n
      else if pid =? 0 then exit
      else forks k' (S n)
  end.

Fixpoint waits (n : nat) : prog unit :=
  match n with
  | O => Ret tt
  | S n' =>
      r <- wait ;;
      if r <? 0 then fprint 1 "wait stopped early
" ;; exit
      else waits n'
  end.

Definition forktest : prog unit :=
  fprint 1 "fork test
" ;;
  n <- forks 1000 0 ;;
  if (n =? 1000)%nat then fprint 1 "fork claimed to work 1000 times!
" ;; exit
  else
    waits n ;;
    r <- wait ;;
    if negb (r =? -1) then fprint 1 "wait got too many
" ;; exit
    else fprint 1 "fork test OK
".

Definition forktest_main : prog unit := forktest ;; exit.

(** ** A kernel that delivers the input in pieces

    read hands out the input in pieces of at least one byte and at most what
    was asked for; [sizes] is how much the kernel would like to give each time
    (everything that fits when it is used up), so that a theorem for all
    [sizes] holds for files, pipes and terminals alike.  Writes are logged. *)
Module Pipeline.

Record world := mkworld { input : bytes; sizes : list nat; log : list (Z * bytes) }.

Definition sent (fd : Z) (w : world) : bytes :=
  concat (snd <$> filter (fun e => fst e = fd) (log w)).

Definition piece (n : nat) (w : world) : nat :=
  Nat.min n (Nat.max 1 (hd n (sizes w))).

Definition pipeline : uhandler world := fun r w =>
  match r as r0 return option (rep r0 * world) with
  | RRead _ n =>
      let d := take (piece (Z.to_nat n) w) (input w) in
      Some ((Z.of_nat (length d), d), mkworld (drop (piece (Z.to_nat n) w) (input w)) (tl (sizes w)) (log w))
  | RWrite fd d => Some (Z.of_nat (length d), mkworld (input w) (sizes w) (log w ++ [(fd, d)]))
  | _ => None
  end.

Lemma sent_snoc fd w i z d :
  sent fd (mkworld i z (log w ++ [(fd, d)])) = sent fd w ++ d.
Proof.
  unfold sent. simpl. rewrite filter_app, fmap_app, concat_app.
  rewrite filter_cons_True by done. simpl. by rewrite app_nil_r.
Qed.

(** Printing appends to the log of its descriptor and touches nothing else. *)
Definition prints (fd : Z) (d : bytes) (w w' : world) : Prop :=
  input w' = input w /\ sizes w' = sizes w /\ sent fd w' = sent fd w ++ d.

Lemma prints_trans fd d1 d2 w w1 w2 :
  prints fd d1 w w1 -> prints fd d2 w1 w2 -> prints fd (d1 ++ d2) w w2.
Proof.
  intros (Hi1 & Hs1 & H1) (Hi2 & Hs2 & H2). split_and!; [congruence..|].
  by rewrite H2, H1, app_assoc.
Qed.

Definition outputs (fd : Z) (p : prog unit) (d : bytes) : Prop :=
  forall w, exists w', urun pipeline w p = UDone tt w' /\ prints fd d w w'.

Lemma outputs_ret fd : outputs fd (Ret tt) [].
Proof. intros w. exists w. split; [done|]. unfold prints. by rewrite app_nil_r. Qed.

Lemma outputs_seq fd p q d1 d2 :
  outputs fd p d1 -> outputs fd q d2 -> outputs fd (p ;; q) (d1 ++ d2).
Proof.
  intros Hp Hq w. destruct (Hp w) as (w1 & E1 & P1). destruct (Hq w1) as (w2 & E2 & P2).
  exists w2. rewrite urun_pbind, E1. simpl. split; [done|]. by eapply prints_trans.
Qed.

Lemma outputs_putc fd c : outputs fd (putc fd c) [u8 c].
Proof. intros w. eexists. split; [done|]. split_and!; [done..|]. apply sent_snoc. Qed.

Lemma outputs_puts fd l : outputs fd (puts fd l) (u8 <$> l).
Proof.
  induction l as [|c l IH]; [apply outputs_ret|].
  apply (outputs_seq fd (putc fd c) (puts fd l) [u8 c]); [apply outputs_putc|done].
Qed.

(** The text of a format string and its arguments. *)
Definition dec (x : Z) : bytes :=
  rev (int_digits 32 (if x <? 0 then u32 (- x) else u32 x) 10 ++ (if x <? 0 then [45] else [])).

Definition hex (x : Z) : bytes := rev (int_digits 32 (u32 x) 16).

(** What a conversion prints, given its character and the arguments left. *)
Definition convert (k : Z) (ap : list uarg) : option (bytes * list uarg) :=
  if k =? 100 then match ap with ANum x :: ap' => Some (dec (i32 x), ap') | _ => None end
  else if (k =? 120) || (k =? 112) then match ap with ANum x :: ap' => Some (hex (i32 x), ap') | _ => None end
  else if k =? 115 then
    match ap with
    | AStr None :: ap' => Some (chars "(null)", ap')
    | AStr (Some s) :: ap' => Some (cstr s, ap')
    | _ => None
    end
  else if k =? 99 then match ap with ANum x :: ap' => Some ([x], ap') | _ => None end
  else if k =? 37 then Some ([37], ap)
  else Some ([37; k], ap).

Fixpoint render (fmt : bytes) (ap : list uarg) : option bytes :=
  match fmt with
  | [] => Some []
  | c :: r =>
      if c =? 37 then
        match r with
        | [] => Some []
        | k :: r' => '(d, ap') ← convert k ap; (d ++.) <$> render r' ap'
        end
      else (c ::.) <$> render r ap
  end.

Lemma outputs_printint fd x base sgn :
  outputs fd (printint fd x base sgn)
    (u8 <$> (if sgn && (x <? 0) then rev (int_digits 32 (u32 (- x)) base ++ [45])
             else rev (int_digits 32 (u32 x) base))).
Proof. unfold printint. destruct (sgn && (x <? 0)); rewrite ?app_nil_r; apply outputs_puts. Qed.

(** One conversion. *)
Lemma printf_convert fd k r ap d ap' e :
  convert k ap = Some (d, ap') -> outputs fd (printf_loop fd false r ap') e ->
  outputs fd (printf_loop fd true (k :: r) ap) ((u8 <$> d) ++ e).
Proof.
  unfold convert. intros Hc He. cbn [printf_loop negb].
  destruct (k =? 100) eqn:E1; [|destruct ((k =? 120) || (k =? 112)) eqn:E2;
    [|destruct (k =? 115) eqn:E3; [|destruct (k =? 99) eqn:E4; [|destruct (k =? 37) eqn:E5]]]]; cbn [orb].
  - destruct ap as [|[x|] ap1]; simplify_eq. eapply outputs_seq; [|done].
    unfold dec. pose proof (outputs_printint fd (i32 x) 10 true) as H. cbn [andb] in H.
    destruct (i32 x <? 0); rewrite ?app_nil_r in *; exact H.
  - rewrite E2. destruct ap as [|[x|] ap1]; simplify_eq. eapply outputs_seq; [|done].
    exact (outputs_printint fd (i32 x) 16 false).
  - rewrite E2. destruct ap as [|[|[s|]] ap1]; simplify_eq; (eapply outputs_seq; [apply outputs_puts|done]).
  - rewrite E2. destruct ap as [|[x|] ap1]; simplify_eq. eapply outputs_seq; [apply outputs_putc|done].
  - rewrite E2. simplify_eq. bool_prop; subst k. eapply outputs_seq; [apply (outputs_putc fd 37)|done].
  - rewrite E2. simplify_eq. apply (outputs_seq fd _ _ [u8 37] ([u8 k] ++ e)); [apply outputs_putc|].
    eapply outputs_seq; [apply outputs_putc|done].
Qed.

Lemma printf_outputs fd fmt ap d :
  render fmt ap = Some d -> outputs fd (printf_loop fd false fmt ap) (u8 <$> d).
Proof.
  remember (length fmt) as n eqn:Hn. revert fmt ap d Hn.
  induction (lt_wf n) as [n _ IH]. intros [|c fmt] ap d -> H; simpl in H.
  - simplify_eq. apply outputs_ret.
  - cbn [printf_loop negb]. destruct (c =? 37) eqn:E.
    + destruct fmt as [|k r]; [simplify_eq; apply outputs_ret|].
      destruct (convert k ap) as [[d1 ap']|] eqn:Ec; [|done]. simpl in H.
      destruct (render r ap') as [e|] eqn:Er; [|done]. simplify_eq/=. rewrite fmap_app.
      eapply printf_convert; [done|]. eapply IH; [|done|done]. simpl; lia.
    + destruct (render fmt ap) as [e|] eqn:Er; simplify_eq/=.
      apply (outputs_seq fd (putc fd c) (printf_loop fd false fmt ap) [u8 c]); [apply outputs_putc|].
      eapply IH; [|done|done]. simpl; lia.
Qed.

(** ** cat *)

Lemma piece_pos n w : (0 < n)%nat -> (0 < piece n w)%nat.
Proof. unfold piece. lia. Qed.

(** One read: a nonempty piece of the input, or its end. *)
Lemma run_read {A} fd n w (k : Z * bytes -> prog A) :
  let m := piece (Z.to_nat n) w in
  urun pipeline w (pbind (read fd n) k) =
    urun pipeline (mkworld (drop m (input w)) (tl (sizes w)) (log w))
      (k (Z.of_nat (length (take m (input w))), take m (input w))).
Proof. done. Qed.

Lemma run_write {A} fd d w (k : Z -> prog A) :
  urun pipeline w (pbind (write fd d) k) =
    urun pipeline (mkworld (input w) (sizes w) (log w ++ [(fd, d)])) (k (Z.of_nat (length d))).
Proof. done. Qed.

Lemma read_into (buf d : bytes) :
  (length d <= length buf)%nat -> take (Z.to_nat (Z.of_nat (length d))) (splice buf 0 d) = d.
Proof. intros. unfold splice. rewrite Nat2Z.id. simpl. by rewrite take_app_length. Qed.

Lemma cat_loop_copies fd fuel w buf :
  (length (input w) < fuel)%nat -> length buf = 512%nat ->
  exists w', urun pipeline w (cat_loop fuel fd buf) = UDone 0 w' /\
    input w' = [] /\ sent 1 w' = sent 1 w ++ input w.
Proof.
  revert w buf. induction fuel as [|fuel IH]; intros w buf Hf Hb; [lia|].
  cbn [cat_loop]. rewrite run_read. cbv beta iota.
  pose proof (piece_pos 512 w ltac:(lia)) as Hp. change (Z.to_nat 512) with 512%nat.
  set (d := take (piece 512 w) (input w)).
  assert (length d <= 512)%nat as Hd by (subst d; lens; unfold piece; lia).
  destruct (0 <? Z.of_nat (length d)) eqn:E; bool_prop.
  - rewrite run_write, read_into by lia.
    destruct (IH (mkworld (drop (piece 512 w) (input w)) (tl (sizes w)) (log w ++ [(1, d)])) (splice buf 0 d))
      as (w' & Er & Hi & Hs).
    + cbn [input]. subst d. lens. lia.
    + rewrite length_splice; simpl; lia.
    + exists w'. split; [exact Er|]. split; [done|]. cbn [input] in Hs.
      rewrite Hs. unfold sent in *. cbn [log] in *.
      rewrite filter_app, fmap_app, concat_app, <- app_assoc. f_equal.
      rewrite filter_cons_True by done. simpl. rewrite app_nil_r. apply take_drop.
  - assert (input w = []) as Hw by (destruct (input w); [done|]; subst d; revert E; lens; simpl; lia).
    assert (length d = 0)%nat as Hd0 by lia. eexists. cbv zeta.
    rewrite Hd0. split; [reflexivity|]. cbn [input]. rewrite Hw, drop_nil. split; [done|].
    by rewrite app_nil_r.
Qed.

(** cat copies its input to descriptor 1, however the kernel cuts the input
    into pieces, and stops at its end. *)
Theorem cat_copies fd fuel w :
  (length (input w) < fuel)%nat ->
  exists w', urun pipeline w (cat fuel fd) = UDone tt w' /\ input w' = [] /\
    sent 1 w' = sent 1 w ++ input w.
Proof.
  intros Hf. destruct (cat_loop_copies fd fuel w (replicate 512 0)) as (w' & E & H); [done| |].
  - apply length_replicate.
  - exists w'. split; [|done]. unfold cat. by rewrite urun_pbind, E.
Qed.

(** ** wc *)

Definition blank (b : Z) : bool := has [32; 13; 9; 10; 11] b.

(** The pieces of [l] between blanks; [cur] is the piece being read. *)
Fixpoint fields (cur l : bytes) : list bytes :=
  match l with
  | [] => [cur]
  | b :: r => if blank b then cur :: fields [] r else fields (cur ++ [b]) r
  end.

Definition words (l : bytes) : nat := length (filter (.≠ []) (fields [] l)).
Definition lines (l : bytes) : nat := length (filter (.= 10) l).

Definition nonempty (l : bytes) : bool := match l with [] => false | _ => true end.

Lemma wc_chars l cur nl nw nc :
  0 <= nl -> 0 <= nw -> 0 <= nc -> nl + Z.of_nat (length l) < 2147483648 ->
  nw + Z.of_nat (length l) < 2147483648 -> nc + Z.of_nat (length l) < 2147483648 ->
  exists iw, foldl wc_char (mkcounts nl nw nc (nonempty cur)) l =
    mkcounts (nl + Z.of_nat (lines l))
      (nw + Z.of_nat (length (filter (.≠ []) (fields cur l))) - b2z (nonempty cur))
      (nc + Z.of_nat (length l)) iw.
Proof.
  unfold lines. revert cur nl nw nc. induction l as [|b l IH]; intros cur nl nw nc H1 H2 H3 H4 H5 H6.
  - exists (nonempty cur). destruct cur; simpl; f_equal; lia.
  - cbn [foldl fields length] in *. unfold wc_char at 2. cbn [wc_l wc_w wc_c inword]. fold (blank b).
    rewrite !i32_small by lia. rewrite filter_cons.
    set (nl' := if b =? 10 then nl + 1 else nl).
    assert (nl' + Z.of_nat (length (filter (.= 10) l)) =
      nl + Z.of_nat (length (if decide (b = 10) then b :: filter (.= 10) l else filter (.= 10) l))) as Hl.
    { subst nl'. destruct (b =? 10) eqn:E; bool_prop; case_decide; try done; simpl; lia. }
    assert (0 <= nl' /\ nl' + Z.of_nat (length l) < 2147483648) as [Hl1 Hl2] by (subst nl'; destruct (b =? 10); lia).
    destruct (blank b); simpl.
    + destruct (IH [] nl' nw (nc + 1)) as [iw E]; [lia..|]. exists iw. simpl in E. rewrite E, <- Hl.
      destruct cur; simpl; f_equal; lia.
    + destruct (nonempty cur) eqn:Ec; simpl.
      * destruct (IH (cur ++ [b]) nl' nw (nc + 1)) as [iw E]; [lia..|]. exists iw.
        destruct cur; [done|]. simpl in E. rewrite E, <- Hl. f_equal; simpl; lia.
      * destruct (IH (cur ++ [b]) nl' (nw + 1) (nc + 1)) as [iw E]; [lia..|]. exists iw.
        destruct cur; [|done]. simpl in E. rewrite E, <- Hl. f_equal; simpl; lia.
Qed.

Lemma words_le l cur :
  Z.of_nat (length (filter (.≠ []) (fields cur l))) <= Z.of_nat (length l) + b2z (nonempty cur).
Proof.
  revert cur. induction l as [|b l IH]; intros cur; simpl; [destruct cur; simpl; lia|].
  destruct (blank b).
  - specialize (IH []). rewrite filter_cons. destruct cur, (decide _); simpl in *; lia || done.
  - specialize (IH (cur ++ [b])). destruct cur; simpl in *; lia.
Qed.

Lemma wc_loop_counts fd fuel w buf x :
  (length (input w) < fuel)%nat -> length buf = 512%nat ->
  exists w', urun pipeline w (wc_loop fuel fd buf x) = UDone (0, foldl wc_char x (input w)) w' /\
    input w' = [] /\ log w' = log w.
Proof.
  revert w buf x. induction fuel as [|fuel IH]; intros w buf x Hf Hb; [lia|].
  cbn [wc_loop]. rewrite run_read. cbv beta iota.
  pose proof (piece_pos 512 w ltac:(lia)) as Hp. change (Z.to_nat 512) with 512%nat.
  set (d := take (piece 512 w) (input w)).
  assert (length d <= 512)%nat as Hd by (subst d; lens; unfold piece; lia).
  destruct (0 <? Z.of_nat (length d)) eqn:E; bool_prop.
  - rewrite read_into by lia.
    destruct (IH (mkworld (drop (piece 512 w) (input w)) (tl (sizes w)) (log w)) (splice buf 0 d) (foldl wc_char x d))
      as (w' & Er & Hi & Hs).
    + cbn [input]. subst d. lens. lia.
    + rewrite length_splice; simpl; lia.
    + exists w'. split; [|done]. rewrite <- (take_drop (piece 512 w) (input w)) at 2. rewrite foldl_app. exact Er.
  - assert (input w = []) as Hw by (destruct (input w); [done|]; subst d; revert E; lens; simpl; lia).
    assert (length d = 0)%nat as Hd0 by lia. eexists. cbv zeta.
    rewrite Hd0, Hw. split; [reflexivity|]. cbn [input log]. by rewrite drop_nil.
Qed.

Lemma render_wc a b c s :
  render (chars "%d %d %d %s
") [ANum a; ANum b; ANum c; AStr (Some s)] =
    Some (dec (i32 a) ++ [32] ++ dec (i32 b) ++ [32] ++ dec (i32 c) ++ [32] ++ cstr s ++ [10]).
Proof.
  match goal with |- render ?f _ = _ => let f' := eval vm_compute in f in change f with f' end.
  cbn -[dec i32 cstr app]. reflexivity.
Qed.

(** C33. wc prints the number of lines, of words (maximal runs of characters that
    are not blank) and of characters of its input, however the kernel cuts the
    input into pieces. *)
Theorem wc_counts fd name fuel w :
  (length (input w) < fuel)%nat -> Z.of_nat (length (input w)) < 2147483648 ->
  exists w', urun pipeline w (wc fuel fd name) = UDone tt w' /\ input w' = [] /\
    sent 1 w' = sent 1 w ++ (u8 <$>
      dec (Z.of_nat (lines (input w))) ++ [32] ++ dec (Z.of_nat (words (input w))) ++ [32] ++
      dec (Z.of_nat (length (input w))) ++ [32] ++ cstr name ++ [10]).
Proof.
  intros Hf Hl. destruct (wc_loop_counts fd fuel w (replicate 512 0) (mkcounts 0 0 0 false)) as (w1 & E & Hi & Hg).
  { done. } { apply length_replicate. }
  destruct (wc_chars (input w) [] 0 0 0) as [iw Ec]; [lia..|].
  cbn [nonempty b2z] in Ec. rewrite !Z.add_0_l, Z.sub_0_r in Ec. rewrite Ec in E.
  pose proof (words_le (input w) []) as Hw. cbn [nonempty b2z] in Hw.
  pose proof (length_filter (.= 10) (input w)) as Hn. fold (words (input w)) (lines (input w)) in *.
  destruct (printf_outputs 1 _ _ _ (render_wc (Z.of_nat (lines (input w))) (Z.of_nat (words (input w)))
    (Z.of_nat (length (input w))) name) w1) as (w' & Ew & Hi' & _ & Hs).
  exists w'. split; [unfold wc; rewrite urun_pbind, E; exact Ew|]. split; [congruence|].
  rewrite Hs, !i32_small by lia. f_equal. unfold sent. by rewrite Hg.
Qed.

Definition world_ex : world := mkworld (chars "to be or
not
") [3; 1; 7]%nat [].

Lemma cat_copies_witness :
  exists w', urun pipeline world_ex (cat 14 0) = UDone tt w' /\ input w' = [] /\
    sent 1 w' = sent 1 world_ex ++ input world_ex.
Proof. apply (cat_copies 0 14 world_ex). vm_compute. lia. Defined.

Lemma wc_counts_witness :
  exists w', urun pipeline world_ex (wc 14 0 (chars "f")) = UDone tt w' /\ input w' = [] /\
    sent 1 w' = sent 1 world_ex ++ (u8 <$>
      dec (Z.of_nat (lines (input world_ex))) ++ [32] ++ dec (Z.of_nat (words (input world_ex))) ++ [32] ++
      dec (Z.of_nat (length (input world_ex))) ++ [32] ++ cstr (chars "f") ++ [10]).
Proof. apply (wc_counts 0 (chars "f") 14 world_ex); vm_compute; [lia|done]. Defined.

End Pipeline.

(** ** Programs that stay inside their memory

    [safe]: whatever the kernel answers, the program does not reach [Undef]. *)
Module Safe.
Import Pipeline.

Fixpoint safe {A} (p : prog A) : Prop :=
  match p with
  | Undef => False
  | Call r k => forall z, safe (k z)
  | _ => True
  end.

Lemma safe_bind {A B} (p : prog A) (f : A -> prog B) :
  safe p -> (forall a, safe (f a)) -> safe (pbind p f).
Proof. intros Hp Hf. induction p; simpl in *; auto. Qed.

Lemma safe_puts fd l : safe (puts fd l).
Proof. induction l; simpl; auto. Qed.

Lemma safe_printint fd x base sgn : safe (printint fd x base sgn).
Proof. apply safe_puts. Qed.

Create HintDb safe.
#[local] Hint Resolve safe_puts safe_printint : safe.

(** printf with the arguments its format asks for. *)
Lemma safe_printf fd fmt ap d : render fmt ap = Some d -> safe (printf_loop fd false fmt ap).
Proof.
  remember (length fmt) as n eqn:Hn. revert fmt ap d Hn.
  induction (lt_wf n) as [n _ IH]. intros [|c fmt] ap d -> H; simpl in H; [done|].
  cbn [printf_loop negb]. destruct (c =? 37) eqn:E.
  - destruct fmt as [|k r]; [done|]. destruct (convert k ap) as [[d1 ap']|] eqn:Ec; [|done]. simpl in H.
    destruct (render r ap') as [e|] eqn:Er; [|done].
    assert (safe (printf_loop fd false r ap')) as Hr by (eapply IH; [|done|done]; simpl; lia).
    unfold convert in Ec. cbn [printf_loop negb].
    repeat match goal with
    | |- context [k =? ?z] => destruct (k =? z); simpl in Ec; cbn [orb]
    | H : match ?a with _ => _ end = Some _ |- _ => destruct a; simplify_eq
    end; simplify_eq; repeat (apply safe_bind; [|intros _]); auto with safe; try done.
  - destruct (render fmt ap) as [e|] eqn:Er; simplify_eq/=. intros _. eapply IH; [|done|done]. simpl; lia.
Qed.

Ltac safe_print :=
  unfold printf; eapply safe_printf;
  match goal with |- render ?f _ = _ => let f' := eval vm_compute in f in change f with f' end;
  cbn -[dec i32 cstr app fmtname]; reflexivity.

Lemma safe_ls_line name st : safe (ls_line name st).
Proof. unfold ls_line. safe_print. Qed.

Lemma safe_stat n : safe (stat n).
Proof. intros fd. simpl. destruct (fd <? 0); [done|]. by intros [r st] ?. Qed.

Lemma safe_ls_dir fuel fd buf p :
  (p + DIRSIZ + 1 <= 512)%nat -> safe (ls_dir fuel fd buf p).
Proof.
  intros Hp. revert buf. induction fuel as [|fuel IH]; intros buf; [done|].
  cbn [ls_dir]. apply safe_bind; [done|]. intros [n de].
  destruct (negb (n =? 16)); [done|]. destruct (get16 de 0 =? 0); [done|].
  destruct (512 <? p + DIRSIZ + 1)%nat eqn:E; [bool_prop; lia|].
  apply safe_bind; [apply safe_stat|]. intros [r [st|]].
  - apply safe_bind; [apply safe_ls_line|done].
  - apply safe_bind; [safe_print|done].
Qed.

Lemma strlen_strcpy t r : strlen (strcpy t ++ r) = strlen t.
Proof. induction t as [|c t IH]; simpl; [done|]. destruct (c =? 0) eqn:E; simpl; [done|]. by rewrite E, IH. Qed.

Lemma strlen_nonneg t : 0 <= strlen t.
Proof. induction t as [|c t IH]; simpl; [lia|]. destruct (c =? 0); lia. Qed.

(** C35. ls stays inside its 512-byte path buffer and calls printf with the
    arguments of its formats: whatever the kernel answers to its calls (the
    contents of the directory included) and however long the path is, it does
    not leave its memory. *)
Theorem ls_stays_in_buffer fuel path : safe (ls fuel path).
Proof.
  apply safe_bind; [done|]. intros fd. destruct (fd <? 0); [safe_print|].
  apply safe_bind; [done|]. intros [r st]. destruct (r <? 0).
  { apply safe_bind; [safe_print|done]. }
  apply safe_bind; [|done]. destruct (st_type st =? T_FILE); [apply safe_ls_line|].
  destruct (st_type st =? T_DIR); [|done]. destruct (512 <? _) eqn:E; [safe_print|]. bool_prop.
  apply safe_ls_dir. unfold splice at 1. rewrite take_0, app_nil_l, strlen_strcpy.
  pose proof (strlen_nonneg path). lia.
Qed.

End Safe.

End Coreutils.
