(* ===== verification/Grep.v ===== *)
(** * Grep: grep.c

    The matcher on strings (lists of the bytes before the NUL), with a
    denotation of patterns that it is proved equal to, and the loop over the
    input with its 1024-byte buffer. *)
From S2P Require Import Prelude User Coreutils.
From stdpp Require Import options.

Module Grep.
Import User Coreutils.

(** ** The matcher *)

(** The loop goes on while there is a character and c or '.' stands for it;
    the test that the rest of the pattern matches here is an argument. *)
Fixpoint matchstar (here : bytes -> bool) (c : Z) (text : bytes) : bool :=
  if here text then true
  else match text with
       | [] => false
       | t :: text' => if (t =? c) || (c =? 46) then matchstar here c text' else false
       end.

(** 42 is '*', 36 is '$', 46 is '.'. *)
Fixpoint matchhere (re text : bytes) {struct re} : bool :=
  match re with
  | [] => true
  | c :: re1 =>
      match re1 with
      | s :: re2 =>
          if s =? 42 then matchstar (matchhere re2) c text
          else match text with
               | t :: text' => if (c =? 46) || (c =? t) then matchhere re1 text' else false
               | [] => false
               end
      | [] =>
          if c =? 36 then match text with [] => true | _ => false end
          else match text with
               | t :: text' => if (c =? 46) || (c =? t) then matchhere re1 text' else false
               | [] => false
               end
      end
  end.

Fixpoint match_loop (re text : bytes) : bool :=
  if matchhere re text then true
  else match text with [] => false | _ :: text' => match_loop re text' end.

(** 94 is '^'. *)
Definition match_ (re text : bytes) : bool :=
  match re with
  | c :: re1 => if c =? 94 then matchhere re1 text else match_loop re text
  | [] => match_loop re text
  end.

(** ** The input loop *)

(** strchr(p, '\n') in the buffer: the index of the newline, or that there is
    a NUL before it; [None] when the search runs past the buffer. *)
Fixpoint newline (l : bytes) : option (option nat) :=
  match l with
  | [] => None
  | b :: r => if b =? 0 then Some None else if b =? 10 then Some (Some 0%nat)
              else (fmap (M := option) S) <$> newline r
  end.

(** The inner while: every pass moves p forward, so that the length of the
    buffer bounds the number of passes. *)
Fixpoint grep_lines (fuel : nat) (pattern buf : bytes) (p : nat) : prog (bytes * nat) :=
  match fuel with
  | O => Fuel
  | S fuel' =>
      match newline (drop p buf) with
      | None => Undef
      | Some None => Ret (buf, p)
      | Some (Some k) =>
          let q := (p + k)%nat in
          let buf0 := <[q := 0]> buf in
          if match_ pattern (cstr (drop p buf0)) then
            let buf1 := <[q := 10]> buf0 in
            write 1 (slice buf1 p (q + 1 - p)) ;;
            grep_lines fuel' pattern buf1 (q + 1)
          else grep_lines fuel' pattern buf0 (q + 1)
      end
  end.

Fixpoint grep_loop (fuel : nat) (pattern : bytes) (fd : Z) (buf : bytes) (m : nat) : prog unit :=
  match fuel with
  | O => Fuel
  | S fuel' =>
      let* (n, d) <- read fd (1024 - Z.of_nat m) ;;
      if 0 <? n then
        let buf := splice buf m d in
        let m := (m + Z.to_nat n)%nat in
        let* (buf, p) <- grep_lines (S (length buf)) pattern buf 0 ;;
        let m := if (p =? 0)%nat then 0%nat else m in
        if (0 <? m)%nat then
          let m := (m - p)%nat in
          grep_loop fuel' pattern fd (splice buf 0 (slice buf p m)) m
        else grep_loop fuel' pattern fd buf m
      else Ret tt
  end.

Definition grep (fuel : nat) (pattern : bytes) (fd : Z) : prog unit :=
  grep_loop fuel pattern fd (replicate 1024 0) 0.

Definition grep_main (fuel : nat) (argv : list bytes) : prog unit :=
  if Z.of_nat (length argv) <=? 1 then printf 2 "usage: grep pattern [file ...]
" [] ;; exit
  else
    let pattern := argv_at argv 1 in
    if Z.of_nat (length argv) <=? 2 then grep fuel pattern 0 ;; exit
    else
      for_args (drop 2 argv) (fun a =>
        fd <- open a 0 ;;
        if fd <? 0 then printf 1 "grep: cannot open %s
" [AStr (Some a)] ;; exit
        else grep fuel pattern fd ;; close fd ;; Ret tt) ;;
      exit.

(** ** What a pattern means *)

Inductive item : Type := One (c : Z) | Star (c : Z).

(** The items of a pattern and whether it ends with the anchor '$'. *)
Fixpoint parse (re : bytes) : list item * bool :=
  match re with
  | [] => ([], false)
  | c :: re1 =>
      match re1 with
      | s :: re2 =>
          if s =? 42 then let '(l, e) := parse re2 in (Star c :: l, e)
          else let '(l, e) := parse re1 in (One c :: l, e)
      | [] => if c =? 36 then ([], true) else ([One c], false)
      end
  end.

Definition fits (c t : Z) : Prop := c = 46 \/ c = t.

(** The strings that a list of items stands for. *)
Inductive lang : list item -> bytes -> Prop :=
| lang_nil : lang [] []
| lang_one c t l s : fits c t -> lang l s -> lang (One c :: l) (t :: s)
| lang_star c r l s : Forall (fits c) r -> lang l s -> lang (Star c :: l) (r ++ s).

Definition means (re : bytes) (bol : bool) (text : bytes) : Prop :=
  let '(l, eol) := parse re in
  exists pre mid post, text = pre ++ mid ++ post /\ lang l mid /\
    (bol = true -> pre = []) /\ (eol = true -> post = []).

Lemma fits_dec c t : (t =? c) || (c =? 46) = true <-> fits c t.
Proof. unfold fits. rewrite orb_true_iff, !Z.eqb_eq. intuition. Qed.

Lemma matchstar_spec here c text :
  matchstar here c text = true <->
  exists r s, text = r ++ s /\ Forall (fits c) r /\ here s = true.
Proof.
  induction text as [|t text IH]; simpl.
  - split.
    + destruct (here []) eqn:E; [|done]. intros _. by exists [], [].
    + intros (r & s & H & _ & Hs). symmetry in H. apply app_nil in H as [-> ->]. by rewrite Hs.
  - destruct (here (t :: text)) eqn:E.
    { split; [|done]. intros _. by exists [], (t :: text). }
    split.
    + destruct (_ || _) eqn:Ef; [|done]. apply fits_dec in Ef. rewrite IH. intros (r & s & -> & Hr & Hs).
      exists (t :: r), s. split; [done|]. split; [by constructor|done].
    + intros ([|x r] & s & H & Hr & Hs); simplify_eq/=; [congruence|].
      inversion Hr as [|? ? Hx Hr']; subst. apply fits_dec in Hx. rewrite Hx. apply IH. eauto.
Qed.

(** The pattern matches at the start of the text. *)
Definition prefix_of (re text : bytes) : Prop :=
  let '(l, eol) := parse re in
  exists mid post, text = mid ++ post /\ lang l mid /\ (eol = true -> post = []).

Lemma prefix_one c l (eol : bool) text :
  (exists mid post, text = mid ++ post /\ lang (One c :: l) mid /\ (eol = true -> post = [])) <->
  exists t text', text = t :: text' /\ fits c t /\
    exists mid post, text' = mid ++ post /\ lang l mid /\ (eol = true -> post = []).
Proof.
  split.
  - intros (mid & post & -> & Hl & He). inversion Hl; subst. simpl. do 2 eexists. eauto 10.
  - intros (t & text' & -> & Hf & mid & post & -> & Hl & He).
    exists (t :: mid), post. split; [done|]. split; [by constructor|done].
Qed.

Lemma prefix_star c l (eol : bool) text :
  (exists mid post, text = mid ++ post /\ lang (Star c :: l) mid /\ (eol = true -> post = [])) <->
  exists r s, text = r ++ s /\ Forall (fits c) r /\
    exists mid post, s = mid ++ post /\ lang l mid /\ (eol = true -> post = []).
Proof.
  split.
  - intros (mid & post & -> & Hl & He). inversion Hl as [| |? r ? s]; subst.
    exists r, (s ++ post). rewrite app_assoc. eauto 10.
  - intros (r & s & -> & Hf & mid & post & -> & Hl & He).
    exists (r ++ mid), post. rewrite app_assoc. split; [done|]. split; [by constructor|done].
Qed.

Lemma match_one c text (f : bytes -> bool) :
  match text with
  | t :: text' => if (c =? 46) || (c =? t) then f text' else false
  | [] => false
  end = true <-> exists t text', text = t :: text' /\ fits c t /\ f text' = true.
Proof.
  destruct text as [|t text]; [naive_solver|].
  assert ((c =? 46) || (c =? t) = true <-> fits c t) as H by (unfold fits; rewrite orb_true_iff, !Z.eqb_eq; done).
  destruct (_ || _); naive_solver.
Qed.

Lemma matchhere_cons2 c s re2 text :
  matchhere (c :: s :: re2) text =
    if s =? 42 then matchstar (matchhere re2) c text
    else match text with
         | t :: text' => if (c =? 46) || (c =? t) then matchhere (s :: re2) text' else false
         | [] => false
         end.
Proof. done. Qed.

Lemma parse_cons2 c s re2 :
  parse (c :: s :: re2) =
    if s =? 42 then let '(l, e) := parse re2 in (Star c :: l, e)
    else let '(l, e) := parse (s :: re2) in (One c :: l, e).
Proof. done. Qed.

Lemma matchhere_spec re text : matchhere re text = true <-> prefix_of re text.
Proof.
  remember (length re) as n eqn:Hn. revert re text Hn.
  induction (lt_wf n) as [n _ IH]. intros [|c [|s re2]] text ->; unfold prefix_of.
  - split; [|done]. intros _. exists [], text. split; [done|]. split; [constructor|done].
  - simpl. destruct (c =? 36).
    + split.
      * destruct text; [|done]. intros _. exists [], []. split; [done|]. split; [constructor|done].
      * intros (mid & post & -> & Hl & He). inversion Hl; subst. by rewrite He.
    + rewrite match_one, prefix_one. split.
      * intros (t & text' & -> & Hf & _). exists t, text'. split; [done|]. split; [done|].
        exists [], text'. split; [done|]. split; [constructor|done].
      * naive_solver.
  - assert (forall re' text, (length re' < S (S (length re2)))%nat -> matchhere re' text = true <-> prefix_of re' text)
      as IH' by (intros re' text' Hre; by eapply IH). clear IH.
    rewrite matchhere_cons2, parse_cons2.
    destruct (s =? 42).
    + rewrite matchstar_spec. pose proof (IH' re2) as H2. unfold prefix_of in H2.
      destruct (parse re2) as [l e]. rewrite prefix_star. setoid_rewrite H2; [done|lia].
    + rewrite match_one. pose proof (IH' (s :: re2)) as H2. unfold prefix_of in H2.
      destruct (parse (s :: re2)) as [l e]. rewrite prefix_one. setoid_rewrite H2; [done|simpl; lia].
Qed.

Lemma match_loop_spec re text :
  match_loop re text = true <-> exists pre rest, text = pre ++ rest /\ matchhere re rest = true.
Proof.
  induction text as [|t text IH]; simpl; destruct (matchhere re _) eqn:E.
  1,3: split; [|done]; intros _; eexists [], _; done.
  - split; [done|]. intros (pre & rest & H & Hr). symmetry in H. apply app_nil in H as [-> ->]. congruence.
  - rewrite IH. split.
    + intros (pre & rest & -> & H). by exists (t :: pre), rest.
    + intros ([|x pre] & rest & H & Hr); simplify_eq/=; [congruence|]. eauto.
Qed.

(** C32. The matcher decides the language of the pattern: a pattern is a sequence
    of characters, of which '.' stands for any, each possibly starred; a text
    matches if some part of it is in the language, the part being anchored at
    the start of the text if the pattern begins with '^' and at its end if the
    pattern ends with '$'. *)
Theorem match_means re text :
  match_ re text = true <->
  match re with
  | c :: re1 => if c =? 94 then means re1 true text else means re false text
  | [] => means [] false text
  end.
Proof.
  assert (forall re, matchhere re text = true <-> means re true text) as Ht.
  { intros re'. rewrite matchhere_spec. unfold prefix_of, means. destruct (parse re') as [l e]. split.
    - intros (mid & post & -> & Hl & He). by exists [], mid, post.
    - intros (pre & mid & post & -> & Hl & Hp & He). rewrite Hp by done. by exists mid, post. }
  assert (forall re, match_loop re text = true <-> means re false text) as Hf.
  { intros re'. rewrite match_loop_spec. setoid_rewrite matchhere_spec. unfold prefix_of, means.
    destruct (parse re') as [l e]. split.
    - intros (pre & rest & -> & mid & post & -> & Hl & He). by exists pre, mid, post.
    - intros (pre & mid & post & -> & Hl & _ & He). exists pre, (mid ++ post). eauto 10. }
  destruct re as [|c re]; [apply Hf|]. unfold match_. destruct (c =? 94); auto.
Qed.

(** ** The lines grep prints *)

(** The lines of the input that end with a newline; [cur] is the one being
    read. *)
Fixpoint lines_of (cur l : bytes) : list bytes :=
  match l with
  | [] => []
  | b :: r => if b =? 10 then cur :: lines_of [] r else lines_of (cur ++ [b]) r
  end.

Definition matching (pattern l : bytes) : bytes :=
  concat ((fun x => x ++ [10]) <$> filter (fun x => match_ pattern x = true) (lines_of [] l)).

Lemma lines_of_app cur line r : 10 ∉ line -> lines_of cur (line ++ 10 :: r) = (cur ++ line) :: lines_of [] r.
Proof.
  revert cur. induction line as [|b line IH]; intros cur H; simpl; [by rewrite app_nil_r|].
  rewrite not_elem_of_cons in H. destruct (b =? 10) eqn:E; bool_prop; [naive_solver|].
  rewrite IH by naive_solver. by rewrite <- app_assoc.
Qed.

Lemma lines_of_none cur l : 10 ∉ l -> lines_of cur l = [].
Proof.
  revert cur. induction l as [|b l IH]; intros cur H; simpl; [done|].
  rewrite not_elem_of_cons in H. destruct (b =? 10) eqn:E; bool_prop; naive_solver.
Qed.

Lemma newline_app line r :
  10 ∉ line -> Forall (.≠ 0) line -> newline (line ++ 10 :: r) = Some (Some (length line)).
Proof.
  induction line as [|b line IH]; intros H H0; simpl; [done|]. rewrite not_elem_of_cons in H.
  inversion H0; subst. destruct (b =? 0) eqn:E0, (b =? 10) eqn:E; bool_prop; try naive_solver.
  by rewrite IH by naive_solver.
Qed.

Lemma newline_none line r : 10 ∉ line -> Forall (.≠ 0) line -> newline (line ++ 0 :: r) = Some None.
Proof.
  induction line as [|b line IH]; intros H H0; simpl; [done|]. rewrite not_elem_of_cons in H.
  inversion H0; subst. destruct (b =? 0) eqn:E0, (b =? 10) eqn:E; bool_prop; try naive_solver.
  by rewrite IH by naive_solver.
Qed.

Lemma cstr_app line r : Forall (.≠ 0) line -> cstr (line ++ 0 :: r) = line.
Proof.
  induction 1 as [|b line H _ IH]; simpl; [done|]. destruct (b =? 0) eqn:E; bool_prop; [done|]. by rewrite IH.
Qed.

Import Pipeline.

Lemma insert_middle (l1 l2 l3 : bytes) x y :
  <[(length l1 + length l2)%nat := y]> (l1 ++ l2 ++ x :: l3) = l1 ++ l2 ++ y :: l3.
Proof.
  rewrite !app_assoc, <- length_app. rewrite insert_app_r_alt by lia. by rewrite Nat.sub_diag.
Qed.

(** The inner loop on the text [rest] with a NUL behind it. *)
Lemma grep_lines_spec pattern fuel pre rest z w :
  (length rest < fuel)%nat -> Forall (.≠ 0) rest ->
  exists buf p w', urun pipeline w (grep_lines fuel pattern (pre ++ rest ++ 0 :: z) (length pre)) = UDone (buf, p) w' /\
    (length pre <= p)%nat /\ length buf = length (pre ++ rest ++ 0 :: z) /\ prints 1 (matching pattern rest) w w'.
Proof.
  unfold matching. revert pre rest w. induction fuel as [|fuel IH]; intros pre rest w Hf H0; [lia|].
  cbn [grep_lines]. rewrite drop_app_length. destruct (decide (10 ∈ rest)) as [Hin|Hin].
  - apply list_elem_of_split_l in Hin as (line & r & -> & Hn). apply Forall_app in H0 as [Hl Hr].
    inversion Hr as [|? ? _ Hr']; subst. rewrite <- app_assoc. cbn [app].
    rewrite newline_app, insert_middle, drop_app_length, cstr_app, insert_middle by done.
    rewrite lines_of_app by done. cbn [app]. rewrite filter_cons. revert Hf. lens. intros Hf.
    assert (length pre + length line + 1 = length (pre ++ line ++ [10%Z]))%nat as E1 by (lens; lia).
    destruct (match_ pattern line) eqn:Em.
    + rewrite decide_True by done. rewrite run_write.
      destruct (IH (pre ++ line ++ [10]) r (mkworld (input w) (sizes w)
        (log w ++ [(1, slice (pre ++ line ++ 10 :: r ++ 0 :: z) (length pre)
                        (length pre + length line + 1 - length pre))])))
        as (buf & p & w' & Er & Hp & Hb & Hi & Hs & Ho); [lia|done|].
      exists buf, p, w'. rewrite <- !app_assoc in *. simpl in *. rewrite <- E1 in Er, Hp. split; [exact Er|].
      split; [revert Hp; lens; lia|]. split; [revert Hb; lens; lia|].
      split_and!; [done..|]. rewrite Ho, sent_snoc, <- !app_assoc. f_equal. simpl. unfold slice.
      rewrite drop_app_length. replace (_ - length pre)%nat with (length (line ++ [10])) by (lens; lia).
      change (10 :: r ++ 0 :: z) with ([10] ++ r ++ 0 :: z). rewrite app_assoc, take_app_length.
      by rewrite <- app_assoc.
    + rewrite decide_False by done.
      destruct (IH (pre ++ line ++ [0]) r w) as (buf & p & w' & Er & Hp & Hb & Ho); [lia|done|].
      exists buf, p, w'. rewrite <- !app_assoc in *. simpl in *.
      assert (length pre + length line + 1 = length (pre ++ line ++ [0%Z]))%nat as E2 by (lens; lia).
      rewrite E2. split; [exact Er|].
      split; [revert Hp; lens; lia|]. split; [revert Hb; lens; lia|done].
  - rewrite newline_none, lines_of_none by done. exists (pre ++ rest ++ 0 :: z), (length pre), w.
    split; [done|]. split; [done|]. split; [done|]. split_and!; [done..|]. simpl. by rewrite app_nil_r.
Qed.

Lemma grep_loop_eof fuel pattern fd buf m w :
  input w = [] -> exists w', urun pipeline w (grep_loop (S fuel) pattern fd buf m) = UDone tt w' /\ log w' = log w.
Proof.
  intros H. cbn [grep_loop]. rewrite run_read, H, take_nil. eexists. split; [reflexivity|done].
Qed.

(** grep on a file of less than 1024 bytes without NUL, which the kernel
    delivers in one read: it prints exactly the lines that match the pattern, in
    order, and ends.  (Text behind the last newline is not a line.) *)
Theorem grep_prints_matching pattern fd fuel w :
  (2 <= fuel)%nat -> (length (input w) < 1024)%nat -> Forall (.≠ 0) (input w) -> sizes w = [] ->
  exists w', urun pipeline w (grep fuel pattern fd) = UDone tt w' /\
    sent 1 w' = sent 1 w ++ matching pattern (input w).
Proof.
  intros Hf Hl H0 Hs. destruct fuel as [|[|fuel]]; [lia..|]. unfold grep.
  destruct (decide (input w = [])) as [He|He].
  { destruct (grep_loop_eof (S fuel) pattern fd (replicate 1024 0) 0 w He) as (w' & E & Hg).
    exists w'. split; [done|]. unfold sent. rewrite Hg, He. unfold matching. simpl. by rewrite app_nil_r. }
  remember (S fuel) as f1 eqn:Ef. cbn [grep_loop]. rewrite run_read. cbv beta iota zeta. subst f1.
  assert (piece (Z.to_nat (1024 - Z.of_nat 0)) w = 1024%nat) as Hp by (unfold piece; by rewrite Hs).
  rewrite Hp, take_ge, drop_ge by lia.
  assert (0 < length (input w))%nat by (destruct (input w); [done|simpl; lia]).
  replace (0 <? Z.of_nat (length (input w))) with true by (symmetry; apply Z.ltb_lt; lia).
  set (w1 := mkworld [] _ _).
  assert (splice (replicate 1024 0) 0 (input w) = [] ++ input w ++ 0 :: replicate (1023 - length (input w)) 0) as Hb.
  { unfold splice. rewrite take_0, drop_replicate, !app_nil_l. f_equal.
    by replace (1024 - (0 + length (input w)))%nat with (S (1023 - length (input w))) by lia. }
  rewrite Hb. rewrite urun_pbind.
  destruct (grep_lines_spec pattern (S (length ([] ++ input w ++ 0 :: replicate (1023 - length (input w)) 0)))
    [] (input w) (replicate (1023 - length (input w)) 0) w1) as (buf & p & w2 & E & _ & _ & Hi & _ & Ho);
    [lens; lia|done|].
  change (length (@nil Z)) with 0%nat in E. rewrite E. cbn [ubind].
  assert (forall b m, exists w', urun pipeline w2 (grep_loop (S fuel) pattern fd b m) = UDone tt w' /\
    sent 1 w' = sent 1 w ++ matching pattern (input w)) as Hend.
  { intros b m. destruct (grep_loop_eof fuel pattern fd b m w2) as (w' & Ew & Hg); [by rewrite Hi|].
    exists w'. split; [done|]. transitivity (sent 1 w2); [unfold sent; by rewrite Hg|]. by rewrite Ho. }
  destruct (0 <? _)%nat; apply Hend.
Qed.

Lemma grep_prints_matching_witness :
  exists w', urun pipeline (mkworld (chars "cat
dog
cot
") [] []) (grep 2 (chars "^c.t$") 0) = UDone tt w' /\
    sent 1 w' = [] ++ matching (chars "^c.t$") (chars "cat
dog
cot
").
Proof.
  apply (grep_prints_matching (chars "^c.t$") 0 2 (mkworld (chars "cat
dog
cot
") [] [])).
  - lia.
  - vm_compute. lia.
  - apply (bool_decide_eq_true_1 _). by vm_compute.
  - done.
Defined.

(** What is left in the buffer from earlier reads is taken for input: two lines
    that a terminal delivers one by one, hello and al, make grep print a third
    one, lo, that the input does not have. *)
Theorem grep_prints_stale_bytes :
  let l := chars "hello
al
" in
  exists w', urun pipeline (mkworld l [6; 3]%nat []) (grep 4 (chars "l") 0) = UDone tt w' /\
    sent 1 w' = chars "hello
al
lo
" /\ chars "lo" ∉ lines_of [] l.
Proof.
  eexists. split; [by vm_compute|]. split; [by vm_compute|].
  apply (bool_decide_eq_false_1 (_ ∈ _)). by vm_compute.
Qed.

(** A line that arrives in two pieces is lost: a read that has no newline is
    forgotten when the next one comes. *)
Theorem grep_drops_split_line :
  exists w', urun pipeline (mkworld (chars "abc
") [2; 2]%nat []) (grep 4 (chars "abc") 0) = UDone tt w' /\
    sent 1 w' = [] /\ matching (chars "abc") (chars "abc
") = chars "abc
".
Proof. eexists. split; [by vm_compute|]. by vm_compute. Qed.

End Grep.
