(* ===== verification/Shell.v ===== *)
(** * Shell: sh.c

    The command line is a buffer [mem] of bytes and a [char *] into it an
    index; [es] is the index of its NUL.  A command is a tree whose strings are
    pairs of indices until nulterminate ends them in the buffer.  The exec node
    that parseexec fills in while parseredirs already points to it is built
    when its arguments are complete.  malloc is taken to succeed. *)
From S2P Require Import Prelude User.
From stdpp Require Import options.

Module Shell.
Import User.

Definition MAXARGS : nat := 10.
Definition O_RDONLY : Z := 0.
Definition O_WRONLY : Z := 1.
Definition O_RDWR : Z := 2.
Definition O_CREATE : Z := 0x200.

(** The commands; [str] is the type of strings. *)
Inductive cmd (str : Type) : Type :=
| EXEC (argv : list str)
| REDIR (c : cmd str) (file : str) (mode fd : Z)
| PIPE (left right : cmd str)
| LIST (left right : cmd str)
| BACK (c : cmd str).
Arguments EXEC {str} argv.
Arguments REDIR {str} c file mode fd.
Arguments PIPE {str} left right.
Arguments LIST {str} left right.
Arguments BACK {str} c.

(** The constructors; an exec node is made without arguments. *)
Definition execcmd {str} : cmd str := EXEC [].
Definition redircmd {str} (subcmd : cmd str) (file : str) (mode fd : Z) : cmd str := REDIR subcmd file mode fd.
Definition pipecmd {str} (left right : cmd str) : cmd str := PIPE left right.
Definition listcmd {str} (left right : cmd str) : cmd str := LIST left right.
Definition backcmd {str} (subcmd : cmd str) : cmd str := BACK subcmd.

(** A string of the parser: its first byte and the byte behind its last. *)
Definition span : Type := nat * nat.

(** ** The scanner *)

Definition whitespace : bytes := [32; 9; 13; 10; 11].
Definition symbols : bytes := chars "<|>&;()".

Section Parser.
Variable (mem : bytes) (es : nat).

Definition at_ (s : nat) : Z := byte_at mem s.

(** while(s < es && p) s++, for at most [n] characters. *)
Fixpoint scan_while (p : Z -> bool) (n s : nat) : nat :=
  match n with
  | O => s
  | S n' => if (s <? es)%nat && p (at_ s) then scan_while p n' (S s) else s
  end.

Definition skip (s : nat) : nat := scan_while (has whitespace) (es - s) s.

Definition word_char (c : Z) : bool := negb (has whitespace c) && negb (has symbols c).

(** The token at [s], which is not blank: its code and where it ends. *)
Definition token_at (s : nat) : Z * nat :=
  let c := at_ s in
  if c =? 0 then (c, s)
  else if has (chars "|();&<") c then (c, S s)
  else if c =? 62 then if at_ (S s) =? 62 then (43, S (S s)) else (c, S s)
  else (97, scan_while word_char (es - s) s).

(** gettoken: the code of the token, its span and the new *ps. *)
Definition gettoken (s : nat) : Z * span * nat :=
  let q := skip s in
  let '(ret, eq) := token_at q in
  (ret, (q, eq), skip eq).

(** peek: whether the next character is one of [toks], and the new *ps. *)
Definition peek (toks : string) (s : nat) : bool * nat :=
  let s := skip s in
  (negb (at_ s =? 0) && has (chars toks) (at_ s), s).

(** ** The parser *)

Inductive pres (A : Type) : Type :=
| POk (a : A) (s : nat)
| PPanic (msg : string)
| PLeftovers (s : nat)
| PFuel.
Arguments POk {A} a s.
Arguments PPanic {A} msg.
Arguments PLeftovers {A} s.
Arguments PFuel {A}.

Definition P (A : Type) : Type := nat -> pres A.
Definition bindP {A B} (m : P A) (f : A -> P B) : P B := fun s =>
  match m s with
  | POk a s' => f a s'
  | PPanic msg => PPanic msg
  | PLeftovers s' => PLeftovers s'
  | PFuel => PFuel
  end.
Definition retP {A} (a : A) : P A := fun s => POk a s.
Definition peekP (toks : string) : P bool := fun s => let '(b, s') := peek toks s in POk b s'.
Definition tokP : P (Z * span) := fun s => let '(t, s') := gettoken s in POk t s'.
Definition panicP {A} (msg : string) : P A := fun _ => PPanic msg.

#[local] Notation "x <- m ;; k" := (bindP m (fun x => k)) (at level 100, m at next level, right associativity).

(** What parseredirs does for a token: mode and descriptor. *)
Definition redir_mode (tok : Z) : Z * Z :=
  if tok =? 60 then (O_RDONLY, 0)
  else (Z.lor O_WRONLY O_CREATE, 1).

(** The loop of parseredirs; every pass takes a token. *)
Fixpoint redirs_loop (n : nat) (c : cmd span) : P (cmd span) :=
  match n with
  | O => fun _ => PFuel
  | S n' =>
      b <- peekP "<>" ;;
      if b : bool then
        t <- tokP ;;
        f <- tokP ;;
        if negb (fst f =? 97) then panicP "missing file for redirection"
        else
          let '(mode, fd) := redir_mode (fst t) in
          redirs_loop n' (redircmd c (snd f) mode fd)
      else retP c
  end.

Definition parseredirs (c : cmd span) : P (cmd span) := redirs_loop (S es) c.

(** The redirections around a command; parseredirs adds the outermost one. *)
Fixpoint rewrap (base c : cmd span) : cmd span :=
  match c with
  | REDIR c' f m d => REDIR (rewrap base c') f m d
  | _ => base
  end.

(** The loop of parseexec over the arguments: [ret] is the exec node under the
    redirections so far, with the arguments [argv] stored in it. *)
Fixpoint args_loop (n : nat) (argv : list span) (ret : cmd span) : P (cmd span) :=
  match n with
  | O => fun _ => PFuel
  | S n' =>
      b <- peekP "|)&;" ;;
      if b : bool then retP ret
      else
        t <- tokP ;;
        if fst t =? 0 then retP ret
        else if negb (fst t =? 97) then panicP "syntax"
        else
          let argv := argv ++ [snd t] in
          if (MAXARGS <=? length argv)%nat then panicP "too many args"
          else
            ret <- parseredirs (rewrap (EXEC argv) ret) ;;
            args_loop n' argv ret
  end.

(** while(peek(ps, es, "&")) of parseline. *)
Fixpoint back_loop (n : nat) (c : cmd span) : P (cmd span) :=
  match n with
  | O => fun _ => PFuel
  | S n' =>
      b <- peekP "&" ;;
      if b : bool then _ <- tokP ;; back_loop n' (backcmd c) else retP c
  end.

Fixpoint parseline (fuel : nat) : P (cmd span) :=
  match fuel with
  | O => fun _ => PFuel
  | S f =>
      c <- parsepipe f ;;
      c <- back_loop (S es) c ;;
      b <- peekP ";" ;;
      if b : bool then _ <- tokP ;; r <- parseline f ;; retP (listcmd c r) else retP c
  end
with parsepipe (fuel : nat) : P (cmd span) :=
  match fuel with
  | O => fun _ => PFuel
  | S f =>
      c <- parseexec f ;;
      b <- peekP "|" ;;
      if b : bool then _ <- tokP ;; r <- parsepipe f ;; retP (pipecmd c r) else retP c
  end
with parseblock (fuel : nat) : P (cmd span) :=
  match fuel with
  | O => fun _ => PFuel
  | S f =>
      b <- peekP "(" ;;
      if negb b then panicP "parseblock"
      else
        _ <- tokP ;;
        c <- parseline f ;;
        b <- peekP ")" ;;
        if negb b then panicP "syntax - missing )" else _ <- tokP ;; parseredirs c
  end
with parseexec (fuel : nat) : P (cmd span) :=
  match fuel with
  | O => fun _ => PFuel
  | S f =>
      b <- peekP "(" ;;
      if b : bool then parseblock f
      else
        ret <- parseredirs execcmd ;;
        args_loop (S es) [] ret
  end.

End Parser.
Arguments POk {A} a s.
Arguments PPanic {A} msg.
Arguments PLeftovers {A} s.
Arguments PFuel {A}.

(** nulterminate: a NUL behind every string of the command. *)
Fixpoint nulterminate (c : cmd span) (mem : bytes) : bytes :=
  match c with
  | EXEC argv => foldl (fun m p => <[snd p := 0]> m) mem argv
  | REDIR c f _ _ => <[snd f := 0]> (nulterminate c mem)
  | PIPE l r | LIST l r => nulterminate r (nulterminate l mem)
  | BACK c => nulterminate c mem
  end.

(** parsecmd: a panic prints a message and exits, leftovers are printed from
    where they start before the panic; a fuel of four per character is enough
    (each character is the start of at most four nested calls). *)
Definition parsecmd (mem : bytes) : pres (cmd span * bytes) :=
  let es := Z.to_nat (strlen mem) in
  match parseline mem es (4 * es + 4) 0%nat with
  | POk c s =>
      let '(_, s) := peek mem es "" s in
      if negb (s =? es)%nat then PLeftovers s else POk (c, nulterminate c mem) s
  | PPanic msg => PPanic msg
  | PLeftovers s => PLeftovers s
  | PFuel => PFuel
  end.

(** The strings of a command once they are terminated. *)
Definition string_at (mem : bytes) (q : nat) : bytes := cstr (drop q mem).

Fixpoint denote (mem : bytes) (c : cmd span) : cmd bytes :=
  match c with
  | EXEC argv => EXEC ((fun p => string_at mem (fst p)) <$> argv)
  | REDIR c f m d => REDIR (denote mem c) (string_at mem (fst f)) m d
  | PIPE l r => PIPE (denote mem l) (denote mem r)
  | LIST l r => LIST (denote mem l) (denote mem r)
  | BACK c => BACK (denote mem c)
  end.

(** ** Running commands *)

Definition panic {A} (s : string) : prog A := printf 2 "%s
" [AStr (Some (chars s))] ;; exit.

Definition fork1 : prog Z :=
  pid <- fork ;;
  if pid =? -1 then panic "fork" else Ret pid.

(** runcmd never returns. *)
Fixpoint runcmd (c : cmd bytes) : prog unit :=
  match c with
  | EXEC argv =>
      match argv with
      | [] => exit
      | a :: _ => exec a argv ;; printf 2 "exec %s failed
" [AStr (Some a)] ;; exit
      end
  | REDIR c file mode fd =>
      close fd ;;
      r <- open file mode ;;
      if r <? 0 then printf 2 "open %s failed
" [AStr (Some file)] ;; exit
      else runcmd c
  | LIST l r =>
      pid <- fork1 ;;
      if pid =? 0 then runcmd l
      else wait ;; runcmd r
  | PIPE l r =>
      let* (n, (p0, p1)) <- pipe ;;
      if n <? 0 then panic "pipe"
      else
        pid <- fork1 ;;
        if pid =? 0 then close 1 ;; dup p1 ;; close p0 ;; close p1 ;; runcmd l
        else
          pid <- fork1 ;;
          if pid =? 0 then close 0 ;; dup p0 ;; close p0 ;; close p1 ;; runcmd r
          else close p0 ;; close p1 ;; wait ;; wait ;; exit
  | BACK c =>
      pid <- fork1 ;;
      if pid =? 0 then runcmd c else exit
  end.

(** ** The main loop *)

(** getcmd: the new contents of buf, or that the input has ended. *)
Definition getcmd (nbuf : nat) : prog (option bytes) :=
  printf 2 "$ " [] ;;
  l <- gets (Z.of_nat nbuf) ;;
  let buf := splice (replicate nbuf 0) 0 (l ++ [0]) in
  Ret (if byte_at buf 0 =? 0 then None else Some buf).

(** while((fd = open("console", O_RDWR)) >= 0) *)
Fixpoint open_console (fuel : nat) : prog unit :=
  match fuel with
  | O => Fuel
  | S fuel' =>
      fd <- open (chars "console") O_RDWR ;;
      if 0 <=? fd then if 3 <=? fd then close fd ;; Ret tt else open_console fuel'
      else Ret tt
  end.

(** One line: cd in the shell itself, everything else in a child. *)
Definition run_line (buf : bytes) : prog unit :=
  if (byte_at buf 0 =? 99) && (byte_at buf 1 =? 100) && (byte_at buf 2 =? 32) then
    let buf := <[Z.to_nat (strlen buf - 1) := 0]> buf in
    r <- chdir (string_at buf 3) ;;
    if r <? 0 then printf 2 "cannot cd %s
" [AStr (Some (string_at buf 3))] else Ret tt
  else
    pid <- fork1 ;;
    if pid =? 0 then
      match parsecmd buf with
      | POk (c, buf') _ => runcmd (denote buf' c)
      | PPanic msg => panic msg
      | PLeftovers s => printf 2 "leftovers: %s
" [AStr (Some (string_at buf s))] ;; panic "syntax"
      | PFuel => Fuel
      end
    else wait ;; Ret tt.

Fixpoint main_loop (fuel : nat) : prog unit :=
  match fuel with
  | O => Fuel
  | S fuel' =>
      b <- getcmd 100 ;;
      match b with
      | None => Ret tt
      | Some buf => run_line buf ;; main_loop fuel'
      end
  end.

Definition main (fuel : nat) : prog unit :=
  open_console fuel ;;
  main_loop fuel ;;
  exit.

End Shell.
