(* ===== verification/ShellSpec.v ===== *)
(** * ShellSpec: the parser of the shell

    The scanner, and the parser on every line: it ends, and the command it
    returns is well formed, with strings that are words of the line.  [ShellPrint]
    has the printer whose inverse the parser is, [ShellRun] what runcmd does. *)
From S2P Require Import Prelude User Shell.
From stdpp Require Import options.

Module ShellSpec.
Import User Shell.

(** ** The scanner *)

Lemma strlen_bounds m : 0 <= strlen m <= Z.of_nat (length m).
Proof. induction m as [|c m IH]; simpl; [lia|]. destruct (c =? 0); lia. Qed.

Lemma byte_at_strlen m : byte_at m (Z.to_nat (strlen m)) = 0.
Proof.
  induction m as [|c m IH]; [done|]. simpl. destruct (c =? 0) eqn:E; bool_prop; [by subst|].
  pose proof (strlen_bounds m). replace (Z.to_nat (1 + strlen m)) with (S (Z.to_nat (strlen m))) by lia. done.
Qed.

Lemma has_elem l c : Forall (.≠ 0) l -> has l c = true <-> c ∈ l.
Proof.
  unfold has. induction 1 as [|x l Hx _ IH]; simpl; [set_solver|].
  destruct (x =? 0) eqn:E0; bool_prop; [done|]. destruct (x =? c) eqn:E; bool_prop; [set_solver|].
  rewrite IH. set_solver.
Qed.

Section Scan.
Variable (mem : bytes) (es : nat).
Hypothesis (Hnul : byte_at mem es = 0).

Abbreviation at_ := (Shell.at_ mem).
Abbreviation skip := (Shell.skip mem es).

Lemma at_es : at_ es = 0.
Proof using Hnul. done. Qed.

Lemma scan_while_spec p n s :
  let r := scan_while mem es p n s in
  (s <= r)%nat /\ (r <= Nat.max s es)%nat /\
  (forall i, (s <= i < r)%nat -> p (at_ i) = true) /\
  ((es - s <= n)%nat -> (r < es)%nat -> p (at_ r) = false).
Proof using Type.
  revert s. induction n as [|n IH]; intros s; simpl.
  - split_and!; lia.
  - destruct (s <? es)%nat eqn:E; simpl; [|split_and!; bool_prop; lia].
    destruct (p (at_ s)) eqn:Ep; [|split_and!; intros; bool_prop; done || lia].
    bool_prop. destruct (IH (S s)) as (H1 & H2 & H3 & H4). split_and!; [lia..| |intros; apply H4; lia].
    intros i Hi. destruct (decide (i = s)) as [->|]; [done|]. apply H3. lia.
Qed.

Lemma skip_bounds s : (s <= es)%nat -> (s <= skip s <= es)%nat.
Proof using Type. intros. pose proof (scan_while_spec (has whitespace) (es - s) s) as (H1 & H2 & _). unfold Shell.skip. lia. Qed.

Lemma has_0 l : has l 0 = false.
Proof using Type. induction l as [|c l IH]; [done|]. unfold has in *. simpl. by destruct (c =? 0). Qed.

Lemma skip_stops s : (s <= es)%nat -> has whitespace (at_ (skip s)) = false.
Proof using Hnul.
  intros. pose proof (skip_bounds s ltac:(done)). destruct (decide (skip s = es)) as [->|].
  - rewrite at_es. apply has_0.
  - pose proof (scan_while_spec (has whitespace) (es - s) s) as (_ & _ & _ & H4). apply H4; [lia|].
    fold (skip s). lia.
Qed.

Lemma skip_fix s : has whitespace (at_ s) = false -> skip s = s.
Proof using Type.
  intros H. unfold Shell.skip. destruct (es - s)%nat; simpl; [done|]. by rewrite H, andb_false_r.
Qed.

Lemma skip_skip s : (s <= es)%nat -> skip (skip s) = skip s.
Proof using Hnul. intros. by apply skip_fix, skip_stops. Qed.

Lemma nonzero_inside s : (s <= es)%nat -> at_ s <> 0 -> (s < es)%nat.
Proof using Hnul. intros H H0. destruct (decide (s = es)) as [->|]; [by rewrite at_es in H0|lia]. Qed.

(** A token that is not the end of the line takes at least one character. *)
Lemma token_bounds s :
  (s <= es)%nat -> has whitespace (at_ s) = false ->
  let '(t, e) := token_at mem es s in
  (s <= e <= es)%nat /\ (at_ s <> 0 -> (s < e)%nat /\ t <> 0) /\ (at_ s = 0 -> t = 0).
Proof using Hnul.
  intros Hs Hw. unfold token_at. destruct (at_ s =? 0) eqn:E0; bool_prop; [rewrite E0; done|].
  pose proof (nonzero_inside s Hs E0) as Hlt.
  destruct (has (chars "|();&<") (at_ s)) eqn:E1; [split_and!; done || lia|].
  destruct (at_ s =? 62) eqn:E2; bool_prop.
  - destruct (at_ (S s) =? 62) eqn:E3; bool_prop; [|split_and!; done || lia].
    pose proof (nonzero_inside (S s) ltac:(lia)). split_and!; intros; try lia.
  - pose proof (scan_while_spec word_char (es - s) s) as (H1 & H2 & H3 & H4).
    set (r := scan_while _ _ _ _ _) in *. split; [lia|]. split; [|done]. intros _. split; [|done].
    destruct (decide (r = s)) as [Hr|]; [|lia]. rewrite Hr in H4.
    specialize (H4 ltac:(lia) Hlt). unfold word_char in H4. rewrite Hw in H4. simpl in H4.
    apply negb_false_iff in H4. exfalso. apply has_elem in H4; [|by apply (bool_decide_eq_true_1 _)]. apply E2.
    assert (has (chars "|();&<") (at_ s) <> true) as E1' by congruence.
    rewrite has_elem in E1' by (by apply (bool_decide_eq_true_1 _)).
    revert E1' H4. change symbols with [60; 124; 62; 38; 59; 40; 41].
    change (chars "|();&<") with [124; 40; 41; 59; 38; 60]. set_solver.
Qed.

(** A string of the parser: a run of word characters inside the line, with
    another character behind it. *)
Definition word_span (p : span) : Prop :=
  (fst p < snd p <= es)%nat /\ (forall i, (fst p <= i < snd p)%nat -> word_char (at_ i) = true) /\
  (snd p = es \/ word_char (at_ (snd p)) = false).

(** The strings of a command are words, its arguments fit into argv[] and its
    redirections are the two that the parser makes. *)
Fixpoint well (c : cmd span) : Prop :=
  match c with
  | EXEC argv => Forall word_span argv /\ (length argv < MAXARGS)%nat
  | REDIR c f m d => well c /\ word_span f /\ exists t, redir_mode t = (m, d)
  | PIPE l r | LIST l r => well l /\ well r
  | BACK c => well c
  end.

Lemma well_rewrap base c : well base -> well c -> well (rewrap base c).
Proof using Type. intros Hb. induction c; simpl; naive_solver. Qed.

Lemma token_word s :
  (s <= es)%nat -> has whitespace (at_ s) = false ->
  let '(t, e) := token_at mem es s in t = 97 -> word_span (s, e).
Proof using Hnul.
  intros Hs Hw. pose proof (token_bounds s Hs Hw) as Ht. unfold token_at in *.
  destruct (at_ s =? 0) eqn:E0; bool_prop; [by rewrite E0|].
  destruct (has (chars "|();&<") (at_ s)) eqn:E1.
  { apply has_elem in E1; [|by apply (bool_decide_eq_true_1 _)].
    change (chars "|();&<") with [124; 40; 41; 59; 38; 60] in E1. intros E. rewrite E in E1. set_solver. }
  destruct (at_ s =? 62) eqn:E2; bool_prop; [rewrite E2; by destruct (_ =? 62)|]. intros _.
  destruct (scan_while_spec word_char (es - s) s) as (_ & _ & H3 & H4).
  set (r := scan_while _ _ _ _ _) in *. destruct Ht as (Hb & Hlt & _). specialize (Hlt E0).
  split; [simpl; lia|]. split; [done|]. simpl. destruct (decide (r = es)); [by left|right]. apply H4; lia.
Qed.

Lemma peek_ok toks s :
  (s <= es)%nat -> exists b, peekP mem es toks s = POk b (skip s) /\ (s <= skip s <= es)%nat /\
    b = negb (at_ (skip s) =? 0) && has (chars toks) (at_ (skip s)) /\
    (b = true -> at_ (skip s) <> 0).
Proof using Hnul.
  intros Hs. eexists. split; [reflexivity|]. split; [by apply skip_bounds|]. split; [done|].
  intros H. by bool_prop.
Qed.

Lemma tok_ok s :
  (s <= es)%nat -> exists t p s', tokP mem es s = POk (t, p) s' /\ (s <= s' <= es)%nat /\
    (at_ (skip s) <> 0 -> (s < s')%nat) /\ (t = 0 <-> at_ (skip s) = 0) /\ (t = 97 -> word_span p).
Proof using Hnul.
  intros Hs. unfold tokP, gettoken. pose proof (skip_bounds s Hs) as Hk.
  pose proof (token_bounds (skip s) ltac:(lia) (skip_stops s Hs)) as Ht.
  pose proof (token_word (skip s) ltac:(lia) (skip_stops s Hs)) as Hword.
  destruct (token_at mem es (skip s)) as [t e]. destruct Ht as (Hb & Hn & Hz).
  pose proof (skip_bounds e ltac:(lia)). do 3 eexists. split; [reflexivity|]. split; [lia|].
  split; [intros H0; specialize (Hn H0); lia|]. split; [|done]. split; [|done]. intros ->.
  destruct (decide (at_ (skip s) = 0)); [done|]. destruct (Hn ltac:(done)); done.
Qed.
(** ** The parser ends *)

(** The parser [m] at [s] has enough fuel, and [Q] holds of what it returns. *)
Definition pw {A} (m : P A) (s : nat) (Q : A -> nat -> Prop) : Prop :=
  match m s with POk a s' => Q a s' | PFuel => False | _ => True end.

Lemma pw_bind {A B} (m : P A) (f : A -> P B) s (Q : A -> nat -> Prop) R :
  pw m s Q -> (forall a s', Q a s' -> pw (f a) s' R) -> pw (bindP m f) s R.
Proof using Type. unfold pw, bindP. intros Hm Hf. destruct (m s); auto. by apply Hf. Qed.

Lemma pw_ret {A} (a : A) s (Q : A -> nat -> Prop) : Q a s -> pw (retP a) s Q.
Proof using Type. done. Qed.

Lemma pw_mono {A} (m : P A) s (Q R : A -> nat -> Prop) :
  pw m s Q -> (forall a s', Q a s' -> R a s') -> pw m s R.
Proof using Type. unfold pw. intros Hm HQ. destruct (m s); auto. Qed.

Lemma pw_peek toks s :
  (s <= es)%nat -> pw (peekP mem es toks) s (fun b s' =>
    s' = skip s /\ (s <= s' <= es)%nat /\ (b = true -> at_ s' <> 0)).
Proof using Hnul. intros H. destruct (peek_ok toks s H) as (b & E & Hb & _ & Hn). unfold pw. by rewrite E. Qed.

Lemma pw_tok s :
  (s <= es)%nat -> pw (tokP mem es) s (fun t s' =>
    (s <= s' <= es)%nat /\ (at_ (skip s) <> 0 -> (s < s')%nat) /\ (fst t = 0 <-> at_ (skip s) = 0) /\
    (fst t = 97 -> word_span (snd t))).
Proof using Hnul. intros H. destruct (tok_ok s H) as (t & p & s' & E & Hb). unfold pw. by rewrite E. Qed.

(** A token that peek has announced. *)
Lemma pw_next {A} s0 s (f : Z * span -> P A) Q :
  s = skip s0 -> (s0 <= es)%nat -> at_ s <> 0 ->
  (forall t s', (s < s' <= es)%nat -> pw (f t) s' Q) -> pw (bindP (tokP mem es) f) s Q.
Proof using Hnul.
  intros -> Hs Hn Hf. pose proof (skip_bounds s0 Hs). eapply pw_bind; [apply pw_tok; lia|].
  intros t s' (Hb & Hlt & _). apply Hf. rewrite skip_skip in Hlt by done. specialize (Hlt Hn). lia.
Qed.

(** The parser moves forward inside the line and returns a good command. *)
Abbreviation good s := (fun (c : cmd span) s' => (s <= s' <= es)%nat /\ well c).

Lemma good_later s s1 : (s <= s1)%nat -> forall c s', good s1 c s' -> good s c s'.
Proof using Type. intros H c s' [Hs Hc]. split; [lia|done]. Qed.

Lemma redirs_ends n c s :
  (s <= es)%nat -> (es - s < n)%nat -> well c -> pw (redirs_loop mem es n c) s (good s).
Proof using Hnul.
  revert c s. induction n as [|n IH]; intros c s Hs Hn Hc; [lia|]. cbn [redirs_loop].
  eapply pw_bind; [by apply pw_peek|]. cbv beta. intros [] s1 (-> & H1 & Hb); [|by apply pw_ret].
  eapply pw_next; [done..|by apply Hb|]. intros t s2 H2.
  eapply pw_bind; [apply pw_tok; lia|]. cbv beta. intros f s3 (H3 & _ & _ & Hw).
  destruct (negb _) eqn:E; [done|]. bool_prop. destruct (redir_mode _) as [mode fd] eqn:Em.
  eapply pw_mono; [apply IH; [lia..|simpl; eauto]|]. apply good_later. lia.
Qed.

Lemma parseredirs_ends c s : (s <= es)%nat -> well c -> pw (parseredirs mem es c) s (good s).
Proof using Hnul. intros. apply redirs_ends; [lia..|done]. Qed.

Lemma args_ends n argv ret s :
  (s <= es)%nat -> (es - s < n)%nat -> Forall word_span argv -> well ret ->
  pw (args_loop mem es n argv ret) s (good s).
Proof using Hnul.
  revert argv ret s. induction n as [|n IH]; intros argv ret s Hs Hn Ha Hr; [lia|]. cbn [args_loop].
  eapply pw_bind; [by apply pw_peek|]. cbv beta. intros [] s1 (-> & H1 & _); [by apply pw_ret|].
  eapply pw_bind; [apply pw_tok; lia|]. cbv beta. intros t s2 (H2 & Hlt & Hz & Hw).
  destruct (fst t =? 0) eqn:E0; bool_prop; [apply pw_ret; split; [lia|done]|].
  rewrite skip_skip in Hlt, Hz by done.
  assert (skip s < s2)%nat by (apply Hlt; tauto).
  destruct (negb _) eqn:E; [done|]. destruct (_ <=? _)%nat eqn:Em; [done|].
  apply Nat.leb_gt in Em. bool_prop.
  assert (Forall word_span (argv ++ [snd t])) as Ha' by (apply Forall_app; auto).
  eapply pw_bind; [apply parseredirs_ends; [lia|by apply well_rewrap]|]. cbv beta. intros r s3 [H3 Hr'].
  eapply pw_mono; [apply IH; [lia..|done|done]|]. apply good_later. lia.
Qed.

Lemma back_ends n c s :
  (s <= es)%nat -> (es - s < n)%nat -> well c -> pw (back_loop mem es n c) s (good s).
Proof using Hnul.
  revert c s. induction n as [|n IH]; intros c s Hs Hn Hc; [lia|]. cbn [back_loop].
  eapply pw_bind; [by apply pw_peek|]. cbv beta. intros [] s1 (-> & H1 & Hb); [|by apply pw_ret].
  eapply pw_next; [done..|by apply Hb|]. intros t s2 H2.
  eapply pw_mono; [apply IH; [lia..|done]|]. apply good_later. lia.
Qed.

(** Enough fuel: four for each character that is left, and one for each of the
    functions on the way down to the next token. *)
Lemma parse_ends fuel s :
  (s <= es)%nat ->
  ((4 * (es - s) + 4 <= fuel)%nat -> pw (parseline mem es fuel) s (good s)) /\
  ((4 * (es - s) + 3 <= fuel)%nat -> pw (parsepipe mem es fuel) s (good s)) /\
  ((4 * (es - s) + 2 <= fuel)%nat -> pw (parseexec mem es fuel) s (good s)) /\
  ((4 * (es - s) + 1 <= fuel)%nat -> pw (parseblock mem es fuel) s (good s)).
Proof using Hnul.
  revert s. induction fuel as [|f IH]; intros s Hs; [split_and!; lia|].
  split_and!; intros Hf; cbn [parseline parsepipe parseexec parseblock].
  - eapply pw_bind; [apply (IH s Hs); lia|]. cbv beta. intros c s1 [H1 Hc].
    eapply pw_bind; [apply back_ends; [lia..|done]|]. cbv beta. intros c' s2 [H2 Hc'].
    eapply pw_bind; [apply pw_peek; lia|]. cbv beta.
    intros [] s3 (-> & H3 & Hb); [|apply pw_ret; split; [lia|done]].
    eapply pw_next; [done|lia|by apply Hb|]. intros t s4 H4.
    eapply pw_bind; [apply (IH s4); lia|]. cbv beta. intros r s5 [H5 Hr]. apply pw_ret. split; [lia|done].
  - eapply pw_bind; [apply (IH s Hs); lia|]. cbv beta. intros c s1 [H1 Hc].
    eapply pw_bind; [apply pw_peek; lia|]. cbv beta.
    intros [] s3 (-> & H3 & Hb); [|apply pw_ret; split; [lia|done]].
    eapply pw_next; [done|lia|by apply Hb|]. intros t s4 H4.
    eapply pw_bind; [apply (IH s4); lia|]. cbv beta. intros r s5 [H5 Hr]. apply pw_ret. split; [lia|done].
  - eapply pw_bind; [by apply pw_peek|]. cbv beta. intros [] s1 (-> & H1 & Hb).
    + eapply pw_mono; [apply (IH (skip s)); lia|]. apply good_later. lia.
    + eapply pw_bind; [apply parseredirs_ends; [lia|simpl; unfold MAXARGS; split; [done|lia]]|]. cbv beta.
      intros r s2 [H2 Hr]. eapply pw_mono; [apply args_ends; [lia..|done|done]|]. apply good_later. lia.
  - eapply pw_bind; [by apply pw_peek|]. cbv beta. intros [] s1 (-> & H1 & Hb); [|done].
    eapply pw_next; [done|lia|by apply Hb|]. intros t s2 H2.
    eapply pw_bind; [apply (IH s2); lia|]. cbv beta. intros c s3 [H3 Hc].
    eapply pw_bind; [apply pw_peek; lia|]. cbv beta. intros [] s4 (-> & H4 & Hb'); [|done].
    eapply pw_next; [done|lia|by apply Hb'|]. intros t' s5 H5.
    eapply pw_mono; [apply parseredirs_ends; [lia|done]|]. apply good_later. lia.
Qed.
End Scan.

(** ** The strings of a command *)

Fixpoint ends (c : cmd span) : list nat :=
  match c with
  | EXEC argv => snd <$> argv
  | REDIR c f _ _ => snd f :: ends c
  | PIPE l r | LIST l r => ends l ++ ends r
  | BACK c => ends c
  end.

Lemma byte_at_nul m i j : byte_at (<[i := 0]> m) j = if decide (i = j) then 0 else byte_at m j.
Proof.
  case_decide; [subst|by apply byte_at_insert_ne]. destruct (decide (j < length m)%nat); [by apply byte_at_insert_eq|].
  unfold byte_at. apply nth_overflow. rewrite length_insert. lia.
Qed.

Lemma nul_argv argv m i :
  byte_at (foldl (fun m (p : span) => <[snd p := 0]> m) m argv) i =
    if decide (i ∈ snd <$> argv) then 0 else byte_at m i.
Proof.
  revert m. induction argv as [|p argv IH]; intros m; cbn [foldl fmap list_fmap]; [by rewrite decide_False by set_solver|].
  rewrite IH, byte_at_nul. repeat case_decide; set_solver.
Qed.

(** nulterminate writes a NUL behind every string and nothing else. *)
Lemma byte_at_nulterminate c m i :
  byte_at (nulterminate c m) i = if decide (i ∈ ends c) then 0 else byte_at m i.
Proof.
  revert m. induction c as [argv|c IH f md fd|l IHl r IHr|l IHl r IHr|c IH]; intros m; cbn [nulterminate ends].
  - apply nul_argv.
  - rewrite byte_at_nul, IH. repeat case_decide; set_solver.
  - rewrite IHr, IHl. repeat case_decide; set_solver.
  - rewrite IHr, IHl. repeat case_decide; set_solver.
  - apply IH.
Qed.

Lemma nulterminate_length c m : length (nulterminate c m) = length m.
Proof.
  revert m. induction c as [argv|c IH f md fd|l IHl r IHr|l IHl r IHr|c IH]; intros m; cbn [nulterminate].
  - revert m. induction argv as [|p argv IH]; intros m; simpl; [done|]. by rewrite IH, length_insert.
  - by rewrite length_insert, IH.
  - by rewrite IHr, IHl.
  - by rewrite IHr, IHl.
  - apply IH.
Qed.

Lemma cstr_slice (m m' : bytes) q e :
  (q <= e)%nat -> (e <= length m)%nat -> length m' = length m ->
  (forall i, (q <= i < e)%nat -> byte_at m i <> 0 /\ byte_at m' i = byte_at m i) -> byte_at m' e = 0 ->
  cstr (drop q m') = slice m q (e - q).
Proof.
  intros Hqe He Hl. remember (e - q)%nat as n eqn:Hn. revert q Hqe Hn.
  induction n as [|n IH]; intros q Hqe Hn Hin Hz.
  - assert (q = e) as -> by lia. unfold slice. rewrite take_0.
    destruct (drop e m') as [|x r] eqn:E; [done|]. simpl.
    assert (byte_at m' e = x) as Hx by (apply byte_at_lookup; rewrite <- (Nat.add_0_r e), <- lookup_drop; by rewrite E).
    by rewrite <- Hx, Hz.
  - destruct (m !! q) as [x|] eqn:Ex; [|apply lookup_ge_None in Ex; lia].
    destruct (m' !! q) as [y|] eqn:Ey; [|apply lookup_ge_None in Ey; lia].
    destruct (Hin q ltac:(lia)) as [Hq1 Hq2]. rewrite (byte_at_lookup _ _ _ Ex), (byte_at_lookup _ _ _ Ey) in Hq2.
    rewrite (byte_at_lookup _ _ _ Ex) in Hq1. subst y. unfold slice.
    rewrite (drop_S _ _ _ Ex), (drop_S _ _ _ Ey). simpl. destruct (x =? 0) eqn:E0; bool_prop; [done|]. f_equal.
    apply IH; [lia..| |done]. intros i Hi. apply Hin. lia.
Qed.

(** The words of the line that a command refers to. *)
Definition text (mem : bytes) (p : span) : bytes := slice mem (fst p) (snd p - fst p).

Fixpoint spell (mem : bytes) (c : cmd span) : cmd bytes :=
  match c with
  | EXEC argv => EXEC (text mem <$> argv)
  | REDIR c f m d => REDIR (spell mem c) (text mem f) m d
  | PIPE l r => PIPE (spell mem l) (spell mem r)
  | LIST l r => LIST (spell mem l) (spell mem r)
  | BACK c => BACK (spell mem c)
  end.

Lemma strlen_nonzero m i : (i < Z.to_nat (strlen m))%nat -> byte_at m i <> 0.
Proof.
  revert i. induction m as [|c m IH]; intros i; simpl; [lia|]. destruct (c =? 0) eqn:E; bool_prop; [simpl; lia|].
  pose proof (strlen_bounds m). destruct i as [|i]; [done|]. intros. apply IH. lia.
Qed.

Lemma string_word mem mem' (E : list nat) p :
  let es := Z.to_nat (strlen mem) in
  word_span mem es p -> snd p ∈ E ->
  (forall e, e ∈ E -> e = es \/ word_char (byte_at mem e) = false) -> length mem' = length mem ->
  (forall i, byte_at mem' i = if decide (i ∈ E) then 0 else byte_at mem i) ->
  string_at mem' (fst p) = text mem p.
Proof.
  intros es (Hb & Hw & _) Hp HE Hl Hm. pose proof (strlen_bounds mem). unfold string_at, text.
  apply cstr_slice; [lia..|done| |by rewrite Hm, decide_True].
  intros i Hi. split; [apply strlen_nonzero; lia|]. rewrite Hm, decide_False; [done|].
  intros Hin. destruct (HE i Hin) as [->|Hf]; [lia|]. specialize (Hw i Hi). unfold Shell.at_ in Hw. congruence.
Qed.

Lemma ends_well mem es c e :
  well mem es c -> e ∈ ends c -> e = es \/ word_char (byte_at mem e) = false.
Proof.
  induction c as [argv|c IH f md fd|l IHl r IHr|l IHl r IHr|c IH]; cbn [well ends].
  - intros [Ha _]. rewrite list_elem_of_fmap. intros (p & -> & Hp).
    rewrite Forall_forall in Ha. destruct (Ha p Hp) as (_ & _ & H). exact H.
  - intros (Hc & (_ & _ & Hf) & _). rewrite elem_of_cons. intros [->|He]; [exact Hf|auto].
  - intros [Hl Hr]. rewrite elem_of_app. naive_solver.
  - intros [Hl Hr]. rewrite elem_of_app. naive_solver.
  - done.
Qed.

Lemma denote_spell mem mem' E c :
  let es := Z.to_nat (strlen mem) in
  well mem es c -> ends c ⊆ E ->
  (forall e, e ∈ E -> e = es \/ word_char (byte_at mem e) = false) -> length mem' = length mem ->
  (forall i, byte_at mem' i = if decide (i ∈ E) then 0 else byte_at mem i) ->
  denote mem' c = spell mem c.
Proof.
  intros es Hc Hs HE Hl Hm.
  assert (forall p, word_span mem es p -> snd p ∈ E -> string_at mem' (fst p) = text mem p) as Hw
    by (intros; by eapply string_word).
  induction c as [argv|c IH f md fd|l IHl r IHr|l IHl r IHr|c IH]; cbn [well ends denote spell] in *.
  - f_equal. apply list_fmap_ext. intros i p Hp. destruct Hc as [Ha _]. apply Hw.
    + rewrite Forall_lookup in Ha. eauto.
    + apply Hs, list_elem_of_fmap. exists p. split; [done|]. by eapply list_elem_of_lookup_2.
  - destruct Hc as (Hc & Hf & _). rewrite IH, Hw; [done|done|set_solver|done|set_solver].
  - destruct Hc. rewrite IHl, IHr; [done|done|set_solver|done|set_solver].
  - destruct Hc. rewrite IHl, IHr; [done|done|set_solver|done|set_solver].
  - by rewrite IH.
Qed.

Lemma parsecmd_inv mem c mem' s :
  let es := Z.to_nat (strlen mem) in
  parsecmd mem = POk (c, mem') s ->
  well mem es c /\ s = es /\ mem' = nulterminate c mem /\
  exists s0, parseline mem es (4 * es + 4) 0%nat = POk c s0.
Proof.
  intros es. unfold parsecmd. fold es. pose proof (byte_at_strlen mem) as Hnul. fold es in Hnul.
  destruct (parse_ends mem es Hnul (4 * es + 4) 0 ltac:(lia)) as (H & _). specialize (H ltac:(lia)).
  unfold pw in H. destruct (parseline mem es (4 * es + 4) 0%nat) as [c' s0| | |]; try done.
  destruct (peek mem es "" s0) as [b s']. destruct (negb (s' =? es)%nat) eqn:E; [done|]. intros. simplify_eq.
  bool_prop. destruct H. eauto 10.
Qed.

Lemma parsecmd_spell mem c mem' s : parsecmd mem = POk (c, mem') s -> denote mem' c = spell mem c.
Proof.
  intros H. apply parsecmd_inv in H as (Hc & -> & -> & _).
  eapply (denote_spell _ _ (ends c)); [done|done| |apply nulterminate_length|apply byte_at_nulterminate].
  intros e. by apply ends_well.
Qed.

(** C30. What parsecmd returns: every string of the command is a word of the line
    (a run of characters that are neither blank nor symbols, inside the line and
    with another character behind it), there are fewer than MAXARGS arguments
    in every argv, the redirections are those of the grammar; and the NULs that
    nulterminate writes make every string read as exactly its word: no string is
    cut short by the terminator of another one. *)
Theorem parsecmd_strings mem c mem' s :
  parsecmd mem = POk (c, mem') s ->
  well mem (Z.to_nat (strlen mem)) c /\ denote mem' c = spell mem c /\ length mem' = length mem.
Proof.
  intros H. pose proof (parsecmd_spell _ _ _ _ H). apply parsecmd_inv in H as (Hc & -> & -> & _).
  split; [done|]. split; [done|apply nulterminate_length].
Qed.

Definition line_ex : bytes := chars "a b<c|(d;e>f)&
" ++ replicate 8 0.

Lemma parsecmd_strings_witness :
  exists c mem' s, parsecmd line_ex = POk (c, mem') s /\ denote mem' c = spell line_ex c.
Proof.
  destruct (parsecmd line_ex) as [[c mem'] s| | |] eqn:E.
  - exists c, mem', s. split; [reflexivity|]. by apply (parsecmd_strings _ _ _ _ E).
  - exfalso. by vm_compute in E.
  - exfalso. by vm_compute in E.
  - exfalso. by vm_compute in E.
Defined.

(** C31. The parser ends on every line: parsecmd returns a command, complains
    about what is left over, or panics; its fuel is never used up. *)
Theorem parsecmd_ends mem : parsecmd mem <> PFuel.
Proof.
  unfold parsecmd. pose proof (byte_at_strlen mem) as Hnul. set (es := Z.to_nat (strlen mem)) in *.
  destruct (parse_ends mem es Hnul (4 * es + 4) 0 ltac:(lia)) as (H & _). specialize (H ltac:(lia)).
  unfold pw in H. destruct (parseline mem es (4 * es + 4) 0%nat) as [c s| | |]; try done.
  destruct (peek mem es "" s) as [b s']. by destruct (negb (s' =? es)%nat).
Qed.

End ShellSpec.
