(* ===== verification/ShellPrint.v ===== *)
(** * ShellPrint: the parser of the shell is the inverse of a printer

    [pr] prints a command as tokens, with parentheses where the grammar of sh.c
    asks for them; [rendered] says that a line spells a list of tokens, with any
    blanks around them.  parsecmd of a line that spells a printed command gives
    back the command. *)
From S2P Require Import Prelude User Shell ShellSpec.
From stdpp Require Import options.

Module ShellPrint.
Import User Shell ShellSpec.

Inductive tok : Type := TSym (c : Z) | TWord (w : bytes).
Inductive level : Type := LLine | LBack | LPipe | LExec.

Definition paren (b : bool) (l : list tok) : list tok :=
  if b then TSym 40 :: l ++ [TSym 41] else l.

(** The sign of a redirection. *)
Definition sign (mode : Z) : Z := if mode =? O_RDONLY then 60 else 62.

Fixpoint pr (c : cmd bytes) (l : level) : list tok :=
  match c with
  | EXEC argv => TWord <$> argv
  | REDIR c f m _ => pr c LExec ++ [TSym (sign m); TWord f]
  | PIPE a b => paren (match l with LExec => true | _ => false end)
                  (pr a LExec ++ TSym 124 :: pr b LPipe)
  | BACK a => paren (match l with LExec | LPipe => true | _ => false end) (pr a LBack ++ [TSym 38])
  | LIST a b => paren (match l with LLine => false | _ => true end)
                  (pr a LBack ++ TSym 59 :: pr b LLine)
  end.

Definition is_word (w : bytes) : Prop :=
  w <> [] /\ Forall (fun c => c <> 0 /\ word_char c = true) w.

(** The commands that can be printed. *)
Fixpoint printable (c : cmd bytes) : Prop :=
  match c with
  | EXEC argv => Forall is_word argv /\ (length argv < MAXARGS)%nat
  | REDIR c f m d => printable c /\ is_word f /\ redir_mode (sign m) = (m, d)
  | PIPE a b | LIST a b => printable a /\ printable b
  | BACK a => printable a
  end.

Definition blank (c : Z) : bool := has whitespace c.

(** The first character of [l] is not in [p]. *)
Definition stops (p : Z -> bool) (l : bytes) : Prop :=
  match l with [] => True | c :: _ => p c = false end.

Inductive rendered : list tok -> bytes -> Prop :=
| rendered_nil b : Forall (fun c => blank c = true) b -> rendered [] b
| rendered_sym b c ts r :
    Forall (fun c => blank c = true) b -> c ∈ symbols -> (c = 62 -> stops (Z.eqb 62) r) ->
    rendered ts r -> rendered (TSym c :: ts) (b ++ c :: r)
| rendered_word b w ts r :
    Forall (fun c => blank c = true) b -> is_word w -> stops word_char r ->
    rendered ts r -> rendered (TWord w :: ts) (b ++ w ++ r).

Lemma blank_nonzero c : blank c = true -> c <> 0.
Proof. intros H ->. done. Qed.

Lemma symbol_cases c : c ∈ symbols -> c = 60 \/ c = 124 \/ c = 62 \/ c = 38 \/ c = 59 \/ c = 40 \/ c = 41.
Proof. change symbols with [60; 124; 62; 38; 59; 40; 41]. set_solver. Qed.

Lemma rendered_nonzero ts l : rendered ts l -> Forall (.≠ 0) l.
Proof.
  assert (forall b, Forall (fun c => blank c = true) b -> Forall (.≠ 0) b) as Hb
    by (intros b Hb; eapply Forall_impl; [exact Hb|apply blank_nonzero]).
  induction 1 as [b H|b c ts r H Hc _ _ IH|b w ts r H [_ Hw] _ _ IH]; [auto|..]; apply Forall_app; split; auto.
  - constructor; [|done]. apply symbol_cases in Hc. naive_solver.
  - apply Forall_app. split; [|done]. eapply Forall_impl; [exact Hw|]. by intros c [H0 _].
Qed.

Lemma rendered_length ts l : rendered ts l -> (length ts <= length l)%nat.
Proof.
  induction 1 as [b H|b c ts r H Hc _ _ IH|b w ts r H [Hn Hw] _ _ IH]; lens; [lia..|].
  destruct w; [done|]. simpl. lia.
Qed.

Lemma symbol_token c : c ∈ symbols -> c <> 62 -> has (chars "|();&<") c = true.
Proof. intros H H62. by apply symbol_cases in H as [->|[->|[->|[->|[->|[->| ->]]]]]]. Qed.

Lemma word_token c : c <> 0 -> word_char c = true -> has (chars "|();&<") c = false /\ c <> 62.
Proof.
  intros H0 H. unfold word_char in H. bool_prop. assert (~ c ∈ symbols) as Hn.
  { intros Hin. apply has_elem in Hin; [congruence|by apply (bool_decide_eq_true_1 _)]. }
  revert Hn. change symbols with [60; 124; 62; 38; 59; 40; 41]. intros Hn. split; [|set_solver].
  apply not_true_iff_false. intros Hh. apply has_elem in Hh; [|by apply (bool_decide_eq_true_1 _)].
  change (chars "|();&<") with [124; 40; 41; 59; 38; 60] in Hh. set_solver.
Qed.

Section Line.
Variable (t z : bytes).

Abbreviation mem := (t ++ 0 :: z).
Abbreviation es := (length t).
Abbreviation skip := (Shell.skip mem es).

Lemma nul_at_end : Shell.at_ mem es = 0.
Proof using Type. apply byte_at_lookup. rewrite lookup_app_r by lia. by rewrite Nat.sub_diag. Qed.

Lemma at_drop s l c r : drop s t = l ++ c :: r -> Shell.at_ mem (s + length l) = c.
Proof using Type.
  intros E. unfold Shell.at_. apply byte_at_lookup. rewrite lookup_app_l_Some with (x := c); [done|].
  rewrite <- lookup_drop, E, lookup_app_r by lia. by rewrite Nat.sub_diag.
Qed.

Lemma scan_while_app p s l r :
  drop s t = l ++ r -> Forall (fun c => p c = true) l -> stops p r ->
  scan_while mem es p (es - s) s = (s + length l)%nat.
Proof using Type.
  remember (es - s)%nat as n eqn:Hn. revert s l Hn.
  induction n as [|n IH]; intros s l Hn E Hl Hr.
  - rewrite drop_ge in E by lia. destruct l; [simpl; lia|done].
  - cbn [scan_while]. replace (s <? es)%nat with true by (symmetry; apply Nat.ltb_lt; lia). simpl.
    destruct l as [|c l].
    + destruct r as [|c r]; [apply (f_equal length) in E; revert E; lens; simpl; lia|].
      pose proof (at_drop s [] c r E) as Ha. simpl in Ha. rewrite Nat.add_0_r in *. rewrite Ha. simpl in Hr. by rewrite Hr.
    + pose proof (at_drop s [] c (l ++ r) E) as Ha. simpl in Ha. rewrite Nat.add_0_r in Ha. rewrite Ha.
      inversion Hl as [|? ? Hc Hl']; subst. rewrite Hc.
      assert (drop (S s) t = l ++ r) as E' by (rewrite <- Nat.add_1_r, <- drop_drop, E; done).
      rewrite (IH (S s) l); [simpl; lia|lia|done..].
Qed.

(** The tokens [ts] are left at position [s]. *)
Definition left (s : nat) (ts : list tok) : Prop := (s <= es)%nat /\ rendered ts (drop s t).

(** The first character of the next token, 0 at the end. *)
Definition first (ts : list tok) : Z :=
  match ts with [] => 0 | TSym c :: _ => c | TWord w :: _ => hd 0 w end.

Lemma symbol_not_blank c : c ∈ symbols -> blank c = false.
Proof using Type. intros H. by apply symbol_cases in H as [->|[->|[->|[->|[->|[->| ->]]]]]]. Qed.

Lemma word_not_blank c : word_char c = true -> blank c = false.
Proof using Type. unfold word_char, blank. intros. by bool_prop. Qed.

(** After the blanks. *)
Lemma skip_left s ts :
  left s ts -> left (skip s) ts /\ (s <= skip s)%nat /\ Shell.at_ mem (skip s) = first ts /\
  match ts with
  | [] => skip s = es
  | TSym c :: ts' => exists r, drop (skip s) t = c :: r /\ c ∈ symbols /\ (c = 62 -> stops (Z.eqb 62) r) /\ rendered ts' r
  | TWord w :: ts' => exists r, drop (skip s) t = w ++ r /\ is_word w /\ stops word_char r /\ rendered ts' r
  end.
Proof using Type.
  intros [Hs Hr]. pose proof (skip_bounds mem es s Hs) as Hk.
  assert (forall b r, drop s t = b ++ r -> Forall (fun c => blank c = true) b -> stops blank r ->
    skip s = (s + length b)%nat /\ drop (skip s) t = r) as Hskip.
  { intros b r E Hb Hst. unfold Shell.skip. rewrite (scan_while_app _ s b r) by done. split; [done|].
    by rewrite <- drop_drop, E, drop_app_length. }
  inversion Hr as [b Hb Hts E|b c ts' r Hb Hc Hgt Hts E1 E|b w ts' r Hb Hw Hst Hts E1 E]; subst ts.
  - symmetry in E. destruct (Hskip (drop s t) []) as [Hk1 Hd]; [by rewrite app_nil_r|done..|].
    assert (skip s = es) as Hes by (apply (f_equal length) in Hd; revert Hd; lens; simpl; lia).
    split; [split; [lia|]; rewrite Hd; by constructor|]. split; [lia|]. split; [|done].
    rewrite Hes. apply nul_at_end.
  - symmetry in E. destruct (Hskip b (c :: r)) as [Hk1 Hd]; [done..|by apply symbol_not_blank|].
    split; [split; [lia|]; rewrite Hd; by apply (rendered_sym [])|]. split; [lia|]. split; [|eauto].
    rewrite Hk1. by eapply at_drop.
  - symmetry in E. destruct Hw as [Hn Hw]. destruct w as [|c w]; [done|].
    destruct (Hskip b ((c :: w) ++ r)) as [Hk1 Hd]; [done..| |].
    { simpl. inversion Hw as [|? ? [_ Hc] _]; subst. by apply word_not_blank. }
    split; [split; [lia|]; rewrite Hd; by apply (rendered_word [] (c :: w))|]. split; [lia|].
    split; [|exists r; split_and!; done]. rewrite Hk1. by apply (at_drop s b c (w ++ r)).
Qed.

(** ** Tokens *)

(** gettoken in front of a symbol, a word and the end. *)
Lemma tok_sym s c ts :
  left s (TSym c :: ts) -> exists p s', tokP mem es s = POk (c, p) s' /\ (s < s')%nat /\ left s' ts.
Proof using Type.
  intros Hl. destruct (skip_left _ _ Hl) as (Hk & Hs & Ha & r & Hd & Hc & Hgt & Hr). simpl in Ha.
  assert (drop (S (skip s)) t = r) as Hd' by (rewrite <- Nat.add_1_r, <- drop_drop, Hd; done).
  assert (S (skip s) <= es)%nat as Hes by (apply (f_equal length) in Hd; revert Hd; lens; simpl; lia).
  assert (token_at mem es (skip s) = (c, S (skip s))) as Htok.
  { unfold token_at. rewrite Ha. pose proof (symbol_cases c Hc).
    replace (c =? 0) with false by (symmetry; apply Z.eqb_neq; lia).
    destruct (decide (c = 62)) as [->|Hne]; [|by rewrite symbol_token]. simpl.
    replace (Shell.at_ mem (S (skip s)) =? 62) with false; [done|].
    destruct r as [|x r].
    - assert (S (skip s) = es) as -> by (apply (f_equal length) in Hd; revert Hd; lens; simpl; lia).
      by rewrite nul_at_end.
    - pose proof (at_drop (S (skip s)) [] x r Hd') as Hx. simpl in Hx. rewrite Nat.add_0_r in Hx. rewrite Hx.
      specialize (Hgt eq_refl). simpl in Hgt. by rewrite Z.eqb_sym. }
  unfold tokP, gettoken. rewrite Htok. assert (left (S (skip s)) ts) as Hl' by (split; [done|by rewrite Hd']).
  destruct (skip_left _ _ Hl') as (Hk' & Hs' & _). do 2 eexists. split; [done|]. split; [lia|done].
Qed.

Lemma tok_word s w ts :
  left s (TWord w :: ts) -> exists p s', tokP mem es s = POk (97, p) s' /\ (s < s')%nat /\ left s' ts /\ text mem p = w.
Proof using Type.
  intros Hl. destruct (skip_left _ _ Hl) as (Hk & Hs & Ha & r & Hd & [Hn Hw] & Hst & Hr).
  set (e := (skip s + length w)%nat).
  assert (drop e t = r) as Hd' by (unfold e; by rewrite <- drop_drop, Hd, drop_app_length).
  assert (e <= es)%nat as Hes by (apply (f_equal length) in Hd; revert Hd; unfold e; lens; destruct Hk; lia).
  assert (token_at mem es (skip s) = (97, e)) as Htok.
  { unfold token_at. rewrite Ha. simpl. destruct w as [|x w]; [done|]. simpl.
    pose proof (Forall_inv Hw) as [H0 Hx]. destruct (word_token x H0 Hx) as [H1 H2].
    replace (x =? 0) with false by (symmetry; by apply Z.eqb_neq). rewrite H1.
    replace (x =? 62) with false by (symmetry; by apply Z.eqb_neq). f_equal.
    rewrite (scan_while_app word_char (skip s) (x :: w) r); [done|done| |done].
    eapply Forall_impl; [exact Hw|]. by intros c [_ Hc]. }
  unfold tokP, gettoken. rewrite Htok. assert (left e ts) as Hl' by (split; [done|by rewrite Hd']).
  destruct (skip_left _ _ Hl') as (Hk' & Hs' & _). do 2 eexists. split; [done|].
  assert (0 < length w)%nat by (destruct w; [done|simpl; lia]). split; [lia|]. split; [done|].
  unfold text. simpl. unfold slice. rewrite drop_app_le, Hd, <- app_assoc by (destruct Hk; lia).
  unfold e. replace (skip s + length w - skip s)%nat with (length w) by lia. by rewrite take_app_length.
Qed.

Lemma tok_end s : left s [] -> exists p s', tokP mem es s = POk (0, p) s' /\ (s <= s')%nat /\ left s' [].
Proof using Type.
  intros Hl. destruct (skip_left _ _ Hl) as (Hk & Hs & Ha & He). unfold tokP, gettoken, token_at.
  rewrite Ha. simpl. destruct (skip_left _ _ Hk) as (Hk' & Hs' & _). do 2 eexists. split; [done|]. split; [lia|done].
Qed.

(** peek for symbols sees exactly the next token. *)
Definition sees (toks : string) (ts : list tok) : bool :=
  match ts with TSym c :: _ => has (chars toks) c | _ => false end.

Lemma peek_left toks s ts :
  left s ts -> (forall c, has (chars toks) c = true -> c ∈ symbols) ->
  peekP mem es toks s = POk (sees toks ts) (skip s) /\
  left (skip s) ts /\ (s <= skip s)%nat.
Proof using Type.
  intros Hl Hsym. destruct (skip_left _ _ Hl) as (Hk & Hs & Ha & H). split; [|done].
  unfold peekP, peek. rewrite Ha. f_equal. destruct ts as [|[c|w] ts]; simpl; [done|..].
  - destruct H as (r & _ & Hc & _). pose proof (symbol_cases c Hc).
    by replace (c =? 0) with false by (symmetry; apply Z.eqb_neq; lia).
  - destruct H as (r & _ & [Hn Hw] & _). destruct w as [|x w]; [done|]. simpl.
    pose proof (Forall_inv Hw) as [H0 Hx]. destruct (has (chars toks) x) eqn:E; [|by rewrite andb_false_r].
    apply Hsym in E. unfold word_char in Hx. bool_prop.
    apply has_elem in E; [congruence|by apply (bool_decide_eq_true_1 _)].
Qed.

(** ** The parser on tokens *)

(** [m] at [s] gives a command that spells [ac] and leaves [rest]. *)
Definition yields (m : P (cmd span)) (s : nat) (rest : list tok) (ac : cmd bytes) : Prop :=
  exists c s', m s = POk c s' /\ (s <= s')%nat /\ left s' rest /\ spell mem c = ac.

Lemma bind_ok {A B} (m : P A) (f : A -> P B) s a s' : m s = POk a s' -> bindP m f s = f a s'.
Proof using Type. unfold bindP. by intros ->. Qed.

Lemma toks_symbols toks :
  forallb (fun c => bool_decide (c ∈ symbols) && negb (c =? 0)) (chars toks) = true ->
  forall c, has (chars toks) c = true -> c ∈ symbols.
Proof using Type.
  rewrite forallb_forall. intros H c Hc. apply has_elem in Hc.
  - apply list_elem_of_In, H in Hc. by bool_prop.
  - apply Forall_forall. intros x Hx. apply list_elem_of_In, H in Hx. by bool_prop.
Qed.

(** A branch of the parser on the next token. *)
Lemma yields_peek toks (f : bool -> P (cmd span)) s ts rest ac :
  left s ts -> forallb (fun c => bool_decide (c ∈ symbols) && negb (c =? 0)) (chars toks) = true ->
  (forall s1, (s <= s1)%nat -> left s1 ts ->
yields (f (sees toks ts)) s1 rest ac) ->
  yields (bindP (peekP mem es toks) f) s rest ac.
Proof using Type.
  intros Hl Ht Hb. destruct (peek_left toks s ts Hl (toks_symbols toks Ht)) as (E & Hk & Hs).
  destruct (Hb (skip s) Hs Hk) as (c & s' & Ec & Hs' & Hl' & Hc).
  exists c, s'. rewrite (bind_ok _ _ _ _ _ E). split; [exact Ec|]. split; [lia|done].
Qed.

Lemma yields_sym (f : Z * span -> P (cmd span)) s c ts rest ac :
  left s (TSym c :: ts) ->
  (forall p s1, (s < s1)%nat -> left s1 ts -> yields (f (c, p)) s1 rest ac) ->
  yields (bindP (tokP mem es) f) s rest ac.
Proof using Type.
  intros Hl Hf. destruct (tok_sym s c ts Hl) as (p & s1 & E & Hs & Hl1).
  destruct (Hf p s1 Hs Hl1) as (c' & s' & Ec & Hs' & Hl' & Hc).
  exists c', s'. rewrite (bind_ok _ _ _ _ _ E). split; [exact Ec|]. split; [lia|done].
Qed.

Lemma yields_word (f : Z * span -> P (cmd span)) s w ts rest ac :
  left s (TWord w :: ts) ->
  (forall p s1, (s < s1)%nat -> left s1 ts -> text mem p = w -> yields (f (97, p)) s1 rest ac) ->
  yields (bindP (tokP mem es) f) s rest ac.
Proof using Type.
  intros Hl Hf. destruct (tok_word s w ts Hl) as (p & s1 & E & Hs & Hl1 & Hp).
  destruct (Hf p s1 Hs Hl1 Hp) as (c' & s' & Ec & Hs' & Hl' & Hc).
  exists c', s'. rewrite (bind_ok _ _ _ _ _ E). split; [exact Ec|]. split; [lia|done].
Qed.

Lemma yields_bind (m : P (cmd span)) (f : cmd span -> P (cmd span)) s ts ac rest ac' :
  yields m s ts ac ->
  (forall c s1, (s <= s1)%nat -> left s1 ts -> spell mem c = ac -> yields (f c) s1 rest ac') ->
  yields (bindP m f) s rest ac'.
Proof using Type.
  intros (c & s1 & E & Hs & Hl & Hc) Hf. destruct (Hf c s1 Hs Hl Hc) as (c' & s' & Ec & Hs' & Hl' & Hc').
  exists c', s'. rewrite (bind_ok _ _ _ _ _ E). split; [exact Ec|]. split; [lia|done].
Qed.

Lemma yields_ret c s rest ac : left s rest -> spell mem c = ac -> yields (retP c) s rest ac.
Proof using Type. intros. exists c, s. done. Qed.

(** Redirections. *)
Definition redir : Type := bytes * Z * Z.
Definition rtoks (rs : list redir) : list tok :=
  concat ((fun '(f, m, d) => [TSym (sign m); TWord f]) <$> rs).
Definition wrap (c : cmd bytes) (rs : list redir) : cmd bytes :=
  foldl (fun c '(f, m, d) => REDIR c f m d) c rs.

(** A rest that does not go on with a redirection, with an argument. *)
Definition follow (rest : list tok) : Prop :=
  match rest with [] => True | TSym c :: _ => c ∈ [124; 41; 38; 59] | TWord _ :: _ => False end.

Lemma sign_redir m : has (chars "<>") (sign m) = true.
Proof using Type. unfold sign. by destruct (m =? O_RDONLY). Qed.

Lemma redirs_yields rs n c s rest :
  (length rs < n)%nat -> left s (rtoks rs ++ rest) ->
  sees "<>" rest = false ->
  Forall (fun '(f, m, d) => redir_mode (sign m) = (m, d)) rs ->
  yields (redirs_loop mem es n c) s rest (wrap (spell mem c) rs).
Proof using Type.
  revert n c s. induction rs as [|[[f m] d] rs IH]; intros n c s Hn Hl Hr Hrs; (destruct n as [|n]; [simpl in Hn; lia|]);
    cbn [redirs_loop]; (eapply yields_peek; [exact Hl|done|]); intros s1 Hs1 Hl1.
  - change (rtoks [] ++ rest) with rest in *. rewrite Hr. by apply yields_ret.
  - cbn [rtoks fmap list_fmap concat app] in *. cbn [sees]. rewrite sign_redir. inversion Hrs as [|? ? Hm Hrs']; subst.
    eapply yields_sym; [exact Hl1|]. intros p1 s2 Hs2 Hl2.
    eapply yields_word; [exact Hl2|]. intros p2 s3 Hs3 Hl3 Hp2. cbn [fst snd]. change (negb (97 =? 97)) with false.
    cbv iota. rewrite Hm. cbn [wrap foldl]. rewrite <- Hp2. apply (IH n (REDIR c p2 m d)); [simpl in Hn; lia|done..].
Qed.

Lemma left_length s ts : left s ts -> (length ts <= es - s)%nat.
Proof using Type. intros [_ H]. apply rendered_length in H. revert H. by rewrite length_drop. Qed.

Lemma length_rtoks rs : length (rtoks rs) = (2 * length rs)%nat.
Proof using Type. induction rs as [|[[f m] d] rs IH]; [done|].
  transitivity (S (S (length (rtoks rs)))); [done|]. rewrite IH. simpl. lia.
Qed.

Lemma follow_no_redir rest : follow rest -> sees "<>" rest = false.
Proof using Type.
  destruct rest as [|[c|w] rest]; simpl; try done. rewrite !elem_of_cons, elem_of_nil.
  by intros [->|[->|[->|[->|[]]]]].
Qed.

Lemma follow_ends rest : follow rest -> rest <> [] -> sees "|)&;" rest = true.
Proof using Type.
  destruct rest as [|[c|w] rest]; simpl; try done. rewrite !elem_of_cons, elem_of_nil.
  by intros [->|[->|[->|[->|[]]]]].
Qed.

Lemma parseredirs_yields rs c s rest :
  left s (rtoks rs ++ rest) -> sees "<>" rest = false ->
  Forall (fun '(f, m, d) => redir_mode (sign m) = (m, d)) rs ->
  yields (parseredirs mem es c) s rest (wrap (spell mem c) rs).
Proof using Type.
  intros Hl. apply redirs_yields; [|done]. pose proof (left_length _ _ Hl) as H. revert H.
  rewrite length_app, length_rtoks. lia.
Qed.

Lemma parseredirs_none c s rest :
  left s rest -> sees "<>" rest = false ->
  exists s', parseredirs mem es c s = POk c s' /\ (s <= s')%nat /\ left s' rest.
Proof using Type.
  intros Hl Hr. unfold parseredirs. cbn [redirs_loop].
  destruct (peek_left "<>" s rest Hl (toks_symbols "<>" eq_refl)) as (E & Hk & Hs).
  exists (skip s). rewrite (bind_ok _ _ _ _ _ E), Hr. done.
Qed.

Lemma args_done n argv ret s rest :
  (0 < n)%nat -> left s rest -> follow rest -> yields (args_loop mem es n argv ret) s rest (spell mem ret).
Proof using Type.
  intros Hn Hl Hf. destruct n as [|n]; [lia|]. cbn [args_loop]. eapply yields_peek; [exact Hl|done|].
  intros s1 Hs1 Hl1. destruct (decide (rest = [])) as [->|Hne].
  - simpl. destruct (tok_end s1 Hl1) as (p & s2 & E & Hs2 & Hl2). exists ret, s2.
    rewrite (bind_ok _ _ _ _ _ E). done.
  - rewrite follow_ends by done. by apply yields_ret.
Qed.

Lemma args_yields ws n argv s rs rest :
  ws <> [] -> (length ws < n)%nat -> (length argv + length ws < MAXARGS)%nat ->
  left s ((TWord <$> ws) ++ rtoks rs ++ rest) -> follow rest ->
  Forall (fun '(f, m, d) => redir_mode (sign m) = (m, d)) rs ->
  yields (args_loop mem es n argv (EXEC argv)) s rest (wrap (EXEC ((text mem <$> argv) ++ ws)) rs).
Proof using Type.
  revert n argv s. induction ws as [|w ws IH]; intros n argv s Hne Hn Hm Hl Hf Hrs; [done|].
  destruct n as [|n]; [lia|]. cbn [args_loop]. eapply yields_peek; [exact Hl|done|]. intros s1 Hs1 Hl1.
  cbn [sees fmap list_fmap app] in *. eapply yields_word; [exact Hl1|]. intros p s2 Hs2 Hl2 Hp.
  cbn [fst snd]. change (97 =? 0) with false. change (negb (97 =? 97)) with false. cbv iota zeta.
  replace (MAXARGS <=? length (argv ++ [p]))%nat with false
    by (symmetry; apply Nat.leb_gt; lens; simpl in Hm; lia).
  cbn [rewrap]. assert ((text mem <$> argv) ++ w :: ws = (text mem <$> (argv ++ [p])) ++ ws) as Ea
    by (rewrite fmap_app, <- app_assoc; simpl; by rewrite Hp).
  destruct (decide (ws = [])) as [->|Hws].
  - eapply yields_bind; [apply parseredirs_yields; [exact Hl2|by apply follow_no_redir|done]|].
    intros c s3 Hs3 Hl3 Hc. rewrite Ea, app_nil_r. cbn [spell] in Hc. rewrite <- Hc. apply args_done; [simpl in Hn; lia|done|done].
  - destruct (parseredirs_none (EXEC (argv ++ [p])) s2 _ Hl2) as (s3 & E & Hs3 & Hl3); [by destruct ws|].
    destruct (IH n (argv ++ [p]) s3) as (c & s' & Ec & Hs' & Hl' & Hc);
      [done|simpl in Hn; lia|lens; simpl in Hm; lia|done..|].
    exists c, s'. rewrite (bind_ok _ _ _ _ _ E), Ea. split; [exact Ec|]. split; [lia|done].
Qed.

(** ** The printer and the parser *)

Lemma spell_exec ws rs rest f s :
  (length ws < MAXARGS)%nat -> left s ((TWord <$> ws) ++ rtoks rs ++ rest) -> follow rest ->
  Forall (fun '(f, m, d) => redir_mode (sign m) = (m, d)) rs ->
  yields (parseexec mem es (S f)) s rest (wrap (EXEC ws) rs).
Proof using Type.
  intros Hm Hl Hf Hrs. cbn [parseexec]. eapply yields_peek; [exact Hl|done|]. intros s1 Hs1 Hl1.
  pose proof (left_length _ _ Hl1) as Hlen. revert Hlen. lens. intros Hlen.
  destruct ws as [|w ws].
  - cbn [fmap list_fmap app] in *.
    replace (sees "(" (rtoks rs ++ rest)) with false.
    2: { destruct rs as [|[[g m] d] rs]; simpl; [|unfold sign; by destruct (m =? O_RDONLY)].
         destruct rest as [|[c|w] rest]; simpl in *; try done. revert Hf. rewrite !elem_of_cons, elem_of_nil.
         by intros [->|[->|[->|[->|[]]]]]. }
    eapply yields_bind; [apply parseredirs_yields; [exact Hl1|by apply follow_no_redir|done]|].
    intros c s2 Hs2 Hl2 Hc. cbn [execcmd spell fmap list_fmap] in Hc. rewrite <- Hc. apply args_done; [lia|done|done].
  - cbn [sees fmap list_fmap app]. destruct (parseredirs_none (EXEC []) s1 _ Hl1) as (s2 & E & Hs2 & Hl2); [done|].
    destruct (args_yields (w :: ws) (S es) [] s2 rs rest) as (c & s' & Ec & Hs' & Hl' & Hc);
      [done|revert Hlen; simpl; lia|simpl in *; lia|done..|].
    exists c, s'. rewrite (bind_ok _ _ _ _ _ E). split; [exact Ec|]. split; [lia|done].
Qed.


Definition parsesE (c : cmd bytes) : Prop := forall fuel s rs rest,
  (4 * (es - s) + 2 <= fuel)%nat -> Forall (fun '(f, m, d) => redir_mode (sign m) = (m, d)) rs ->
  left s (pr c LExec ++ rtoks rs ++ rest) -> follow rest ->
  yields (parseexec mem es fuel) s rest (wrap c rs).

Definition parsesP (c : cmd bytes) : Prop := forall fuel s rest,
  (4 * (es - s) + 3 <= fuel)%nat -> left s (pr c LPipe ++ rest) -> follow rest -> sees "|" rest = false ->
  yields (parsepipe mem es fuel) s rest c.

(** parsepipe, and then [k] rounds of the loop over '&'. *)
Definition parsesB (c : cmd bytes) : Prop := forall fuel s rest,
  (4 * (es - s) + 3 <= fuel)%nat -> left s (pr c LBack ++ rest) -> follow rest -> sees "|" rest = false ->
  exists c0 s0 k c1 s1, parsepipe mem es fuel s = POk c0 s0 /\ (k <= length (pr c LBack))%nat /\
    (forall n, back_loop mem es (k + n) c0 s0 = back_loop mem es n c1 s1) /\
    (s <= s1)%nat /\ left s1 rest /\ spell mem c1 = c.

Definition closes (rest : list tok) : Prop := match rest with [] => True | t :: _ => t = TSym 41 end.

Definition parsesL (c : cmd bytes) : Prop := forall fuel s rest,
  (4 * (es - s) + 4 <= fuel)%nat -> left s (pr c LLine ++ rest) -> closes rest ->
  yields (parseline mem es fuel) s rest c.

Lemma closes_follow rest : closes rest -> follow rest.
Proof using Type. destruct rest as [|t' rest]; simpl; [done|]. intros ->. set_solver. Qed.

Lemma closes_sees rest toks : closes rest -> has (chars toks) 41 = false -> sees toks rest = false.
Proof using Type. destruct rest as [|t' rest]; simpl; [done|]. by intros ->. Qed.

Lemma parsesP_of_E c : pr c LPipe = pr c LExec -> parsesE c -> parsesP c.
Proof using Type.
  intros Hp HE fuel s rest Hf Hl Hr Hb. destruct fuel as [|f]; [lia|]. cbn [parsepipe].
  eapply yields_bind; [apply (HE f s [] rest); [lia|done|by rewrite <- Hp|done]|]. intros c' s1 Hs1 Hl1 Hc.
  eapply yields_peek; [exact Hl1|done|]. intros s2 Hs2 Hl2. rewrite Hb. by apply yields_ret.
Qed.

Lemma parsesB_of_P c : pr c LBack = pr c LPipe -> parsesP c -> parsesB c.
Proof using Type.
  intros Hp HP fuel s rest Hf Hl Hr Hb. rewrite Hp in Hl. destruct (HP fuel s rest Hf Hl Hr Hb) as (c' & s1 & E & Hs & Hl1 & Hc).
  exists c', s1, 0%nat, c', s1. split_and!; try done. lia.
Qed.

Lemma back_done n c s rest :
  left s rest -> sees "&" rest = false -> (0 < n)%nat -> yields (back_loop mem es n c) s rest (spell mem c).
Proof using Type.
  intros Hl Hr Hn. destruct n as [|n]; [lia|]. cbn [back_loop]. eapply yields_peek; [exact Hl|done|].
  intros s1 Hs1 Hl1. rewrite Hr. by apply yields_ret.
Qed.

(** parsepipe and the whole loop over '&'. *)
Lemma parsesB_loop c f s ts (g : cmd span -> P (cmd span)) rest ac :
  parsesB c -> (4 * (es - s) + 3 <= f)%nat -> left s (pr c LBack ++ ts) -> follow ts ->
  sees "|" ts = false -> sees "&" ts = false ->
  (forall c1 s1, (s <= s1)%nat -> left s1 ts -> spell mem c1 = c -> yields (g c1) s1 rest ac) ->
  yields (bindP (parsepipe mem es f) (fun c => bindP (back_loop mem es (S es) c) g)) s rest ac.
Proof using Type.
  intros HB Hf Hl Hr Hb Ha Hg. destruct (HB f s ts Hf Hl Hr Hb) as (c0 & s0 & k & c1 & s1 & E & Hk & Hloop & Hs & Hl1 & Hc).
  pose proof (left_length _ _ Hl) as Hlen. revert Hlen. lens. intros Hlen.
  destruct (back_done (S es - k) c1 s1 ts Hl1 Ha ltac:(lia)) as (c2 & s2 & E2 & Hs2 & Hl2 & Hc2).
  destruct (Hg c2 s2) as (c' & s' & Ec & Hs' & Hl' & Hc'); [lia|done|congruence|].
  exists c', s'. rewrite (bind_ok _ _ _ _ _ E). rewrite (bind_ok _ _ s0 c2 s2).
  - split; [exact Ec|]. split; [lia|done].
  - rewrite <- E2, <- Hloop. f_equal. lia.
Qed.

Lemma parsesL_of_B c : pr c LLine = pr c LBack -> parsesB c -> parsesL c.
Proof using Type.
  intros Hp HB fuel s rest Hf Hl Hr. destruct fuel as [|f]; [lia|]. cbn [parseline]. rewrite Hp in Hl.
  eapply parsesB_loop; [done|lia|exact Hl|by apply closes_follow|by apply closes_sees..|].
  intros c1 s1 Hs1 Hl1 Hc1. eapply yields_peek; [exact Hl1|done|]. intros s2 Hs2 Hl2.
  rewrite closes_sees by done. by apply yields_ret.
Qed.

Lemma parsesE_of_L c : pr c LExec = paren true (pr c LLine) -> parsesL c -> parsesE c.
Proof using Type.
  intros Hp HL fuel s rs rest Hf Hrs Hl Hr. destruct fuel as [|[|f]]; [lia..|].
  rewrite Hp in Hl. cbn [paren app] in Hl. rewrite <- app_assoc in Hl. cbn [app] in Hl.
  cbn [parseexec]. eapply yields_peek; [exact Hl|done|]. intros s1 Hs1 Hl1. cbn [sees].
  replace (has (chars "(") 40) with true by done. cbn [parseblock].
  eapply yields_peek; [exact Hl1|done|]. intros s2 Hs2 Hl2. cbn [sees]. replace (has (chars "(") 40) with true by done.
  cbn [negb]. eapply yields_sym; [exact Hl2|]. intros p s3 Hs3 Hl3.
  assert (s3 <= es)%nat by apply Hl3.
  eapply yields_bind; [apply (HL f s3); [lia|exact Hl3|done]|]. intros c1 s4 Hs4 Hl4 Hc1.
  eapply yields_peek; [exact Hl4|done|]. intros s5 Hs5 Hl5. cbn [sees]. replace (has (chars ")") 41) with true by done.
  cbn [negb]. eapply yields_sym; [exact Hl5|]. intros p' s6 Hs6 Hl6. rewrite <- Hc1.
  apply parseredirs_yields; [done|by apply follow_no_redir|done].
Qed.

Lemma parsesP_pipe a b : parsesE a -> parsesP b -> parsesP (PIPE a b).
Proof using Type.
  intros HE HP fuel s rest Hf Hl Hr Hb. destruct fuel as [|f]; [lia|]. cbn [parsepipe].
  cbn [pr paren] in Hl. rewrite <- app_assoc in Hl. cbn [app] in Hl.
  eapply yields_bind; [apply (HE f s [] (TSym 124 :: pr b LPipe ++ rest)); [lia|done|done|simpl; set_solver]|].
  intros c1 s1 Hs1 Hl1 Hc1. eapply yields_peek; [exact Hl1|done|]. intros s2 Hs2 Hl2. cbn [sees].
  replace (has (chars "|") 124) with true by done. cbv iota.
  eapply yields_sym; [exact Hl2|]. intros p s3 Hs3 Hl3. assert (s3 <= es)%nat by apply Hl3.
  eapply yields_bind; [apply (HP f s3); [lia|exact Hl3|done|done]|]. intros c2 s4 Hs4 Hl4 Hc2.
  apply yields_ret; [done|]. cbn [pipecmd listcmd spell]. by rewrite Hc1, Hc2.
Qed.

Lemma parsesB_back a : parsesB a -> parsesB (BACK a).
Proof using Type.
  intros HB fuel s rest Hf Hl Hr Hb. cbn [pr paren] in Hl. rewrite <- app_assoc in Hl. cbn [app] in Hl.
  destruct (HB fuel s (TSym 38 :: rest) Hf Hl) as (c0 & s0 & k & c1 & s1 & E & Hk & Hloop & Hs & Hl1 & Hc);
    [simpl; set_solver|done|].
  destruct (peek_left "&" s1 _ Hl1 (toks_symbols "&" eq_refl)) as (E1 & Hk1 & Hs1).
  destruct (tok_sym _ _ _ Hk1) as (p & s2 & E2 & Hs2 & Hl2).
  exists c0, s0, (S k), (BACK c1), s2. split; [done|]. split; [cbn [pr paren]; lens; lia|].
  split; [|split; [lia|split; [done|cbn [spell]; by rewrite Hc]]]. intros n.
  replace (S k + n)%nat with (k + S n)%nat by lia. rewrite Hloop. cbn [back_loop].
  rewrite (bind_ok _ _ _ _ _ E1). cbn [sees]. replace (has (chars "&") 38) with true by done. cbv iota.
  by rewrite (bind_ok _ _ _ _ _ E2).
Qed.

Lemma parsesL_list a b : parsesB a -> parsesL b -> parsesL (LIST a b).
Proof using Type.
  intros HB HL fuel s rest Hf Hl Hr. destruct fuel as [|f]; [lia|]. cbn [parseline].
  cbn [pr paren] in Hl. rewrite <- app_assoc in Hl. cbn [app] in Hl.
  eapply parsesB_loop; [done|lia|exact Hl|simpl; set_solver|done|done|].
  intros c1 s1 Hs1 Hl1 Hc1. eapply yields_peek; [exact Hl1|done|]. intros s2 Hs2 Hl2. cbn [sees].
  replace (has (chars ";") 59) with true by done. cbv iota.
  eapply yields_sym; [exact Hl2|]. intros p s3 Hs3 Hl3. assert (s3 <= es)%nat by apply Hl3.
  eapply yields_bind; [apply (HL f s3); [lia|exact Hl3|done]|]. intros c2 s4 Hs4 Hl4 Hc2.
  apply yields_ret; [done|]. cbn [pipecmd listcmd spell]. by rewrite Hc1, Hc2.
Qed.

Lemma parses c : printable c -> parsesE c /\ parsesP c /\ parsesB c /\ parsesL c.
Proof using Type.
  induction c as [argv|c IH f m d|a IHa b IHb|a IHa b IHb|a IHa]; cbn [printable]; intros Hp.
  - assert (parsesE (EXEC argv)) as HE.
    { intros fuel s rs rest Hf Hrs Hl Hr. destruct fuel as [|fu]; [lia|]. apply spell_exec; [|done..]. by destruct Hp. }
    eauto 10 using parsesP_of_E, parsesB_of_P, parsesL_of_B.
  - destruct Hp as (Hc & Hw & Hm). destruct (IH Hc) as (HE & _).
    assert (parsesE (REDIR c f m d)) as HE'.
    { intros fuel s rs rest Hf Hrs Hl Hr. apply (HE fuel s ((f, m, d) :: rs)); [done|by constructor| |done].
      cbn [pr] in Hl. by rewrite <- app_assoc in Hl. }
    eauto 10 using parsesP_of_E, parsesB_of_P, parsesL_of_B.
  - destruct Hp as [Ha Hb]. destruct (IHa Ha) as (HE & _), (IHb Hb) as (_ & HP & _).
    pose proof (parsesP_pipe a b HE HP). eauto 10 using parsesB_of_P, parsesL_of_B, parsesE_of_L.
  - destruct Hp as [Ha Hb]. destruct (IHa Ha) as (_ & _ & HB & _), (IHb Hb) as (_ & _ & _ & HL).
    pose proof (parsesL_list a b HB HL). eauto 10 using parsesE_of_L, parsesP_of_E, parsesB_of_P.
  - destruct (IHa Hp) as (_ & _ & HB & _). pose proof (parsesB_back a HB).
    eauto 10 using parsesL_of_B, parsesE_of_L, parsesP_of_E.
Qed.


End Line.

Lemma strlen_nul t z : Forall (.≠ 0) t -> strlen (t ++ 0 :: z) = Z.of_nat (length t).
Proof.
  induction 1 as [|c t Hc _ IH]; [done|]. simpl. destruct (c =? 0) eqn:E; bool_prop; [done|]. rewrite IH. lia.
Qed.

Lemma parse_printed c t z :
  printable c -> rendered (pr c LLine) t ->
  exists cs mem' s, parsecmd (t ++ 0 :: z) = POk (cs, mem') s /\ denote mem' cs = c.
Proof.
  intros Hp Hr. pose proof (rendered_nonzero _ _ Hr) as Ht.
  destruct (parses t z c Hp) as (_ & _ & _ & HL).
  destruct (HL (4 * length t + 4)%nat 0%nat []) as (cs & s & E & Hs & Hl & Hc);
    [lia|split; [lia|by rewrite app_nil_r]|done|].
  destruct (skip_left t z s [] Hl) as (_ & _ & _ & He).
  assert (parsecmd (t ++ 0 :: z) = POk (cs, nulterminate cs (t ++ 0 :: z)) (length t)) as Hcmd.
  { unfold parsecmd. rewrite strlen_nul, Nat2Z.id by done. rewrite E. unfold peek. rewrite He.
    by rewrite Nat.eqb_refl. }
  exists cs, (nulterminate cs (t ++ 0 :: z)), (length t). split; [done|].
  by rewrite (parsecmd_spell _ _ _ _ Hcmd).
Qed.

(** C29. The parser is the inverse of the printer: a line that spells a printed
    command, with any blanks between the tokens, parses to that command. *)
Theorem parse_print c t z :
  printable c -> rendered (pr c LLine) t ->
  exists cs mem' s, parsecmd (t ++ 0 :: z) = POk (cs, mem') s /\ denote mem' cs = c.
Proof. apply parse_printed. Qed.

(** One way to spell tokens: a blank in front of each, a newline at the end. *)
Definition spelling (x : tok) : bytes := match x with TSym c => [c] | TWord w => w end.
Fixpoint show (ts : list tok) : bytes :=
  match ts with
  | [] => [10]
  | x :: ts' => 32 :: spelling x ++ show ts'
  end.

Definition tok_ok (x : tok) : Prop := match x with TSym c => c ∈ symbols | TWord w => is_word w end.

Lemma rendered_show ts : Forall tok_ok ts -> rendered ts (show ts).
Proof.
  induction 1 as [|[c|w] ts Hx Hts IH]; cbn [show spelling]; [constructor; by repeat constructor|..].
  - apply (rendered_sym [32]); [by repeat constructor|done|by destruct ts|done].
  - apply (rendered_word [32]); [by repeat constructor|done|by destruct ts|done].
Qed.

Definition cmd_ex : cmd bytes :=
  LIST (BACK (PIPE (REDIR (EXEC [chars "ls"; chars "-l"]) (chars "f") 0 0) (LIST (EXEC [chars "wc"]) (EXEC []))))
    (REDIR (BACK (EXEC [chars "a"])) (chars "b") 513 1).

Lemma printable_ex : printable cmd_ex.
Proof.
  cbn [printable cmd_ex]. unfold is_word, MAXARGS.
  split_and!; try done; try (apply (bool_decide_eq_true_1 _); by vm_compute); cbn; lia.
Qed.

Lemma rendered_ex : rendered (pr cmd_ex LLine) (show (pr cmd_ex LLine)).
Proof.
  apply rendered_show. apply Forall_forall. intros x Hx. vm_compute in Hx.
  unfold tok_ok, is_word. set_unfold in Hx.
  repeat (destruct Hx as [->|Hx]); try done; try (change symbols with [60; 124; 62; 38; 59; 40; 41]; set_solver);
    (split; [done|apply (bool_decide_eq_true_1 _); by vm_compute]).
Qed.

Lemma parse_print_witness :
  exists cs mem' s, parsecmd (show (pr cmd_ex LLine) ++ 0 :: [7]) = POk (cs, mem') s /\ denote mem' cs = cmd_ex.
Proof.
  apply (parse_print cmd_ex (show (pr cmd_ex LLine)) [7]); [apply printable_ex|apply rendered_ex].
Defined.
End ShellPrint.
