(* ===== verification/ShellRun.v ===== *)
(** * ShellRun: the programs that a command starts

    [sim] runs a tree of system calls as a family of processes that fork, with
    the descriptor table of each: descriptors are given out lowest first, as
    fdalloc in sysfile.c does, and exec replaces the process by the program.
    [starts] is what a command of the shell asks for: which programs, with which
    arguments and which open descriptors.  runcmd does that. *)
From S2P Require Import Prelude User Shell ShellSpec ShellPrint.
From stdpp Require Import options.

Module ShellRun.
Import User Shell ShellPrint.

(** What a descriptor refers to: something the shell was started with, a file
    that was opened, an end of a pipe. *)
Inductive obj : Type :=
| Inherited (n : nat)
| Opened (path : bytes) (mode : Z)
| PipeR (id : nat)
| PipeW (id : nat).

Abbreviation table := (list (option obj)).

(** A program that was started: its path, arguments and descriptors. *)
Definition started : Type := bytes * list bytes * table.

(** The lowest free descriptor. *)
Fixpoint lowest (t : table) : option nat :=
  match t with
  | [] => None
  | None :: _ => Some 0%nat
  | Some _ :: t' => S <$> lowest t'
  end.

Definition put (o : obj) (t : table) : option (nat * table) :=
  fd ← lowest t; Some (fd, <[fd := Some o]> t).

(** Two descriptors, or none. *)
Definition put2 (a b : obj) (t : table) : option (nat * nat * table) :=
  '(p0, t1) ← put a t; '(p1, t2) ← put b t1; Some (p0, p1, t2).

Definition close_fd (fd : Z) (t : table) : table := <[Z.to_nat fd := None]> t.

(** The programs started by a process, the children's in the order of their
    forks; [n] numbers the pipes.  Every exec succeeds. *)
Fixpoint sim {A} (n : nat) (t : table) (p : prog A) : nat * list started :=
  match p with
  | Call r k =>
      match r as r0 return (rep r0 -> prog A) -> nat * list started with
      | RFork => fun k =>
          let '(n1, l1) := sim n t (k 0) in
          let '(n2, l2) := sim n1 t (k 1) in (n2, l1 ++ l2)
      | RExec path argv => fun k => (n, [(path, argv, t)])
      | ROpen path mode => fun k =>
          match put (Opened path mode) t with
          | Some (fd, t') => sim n t' (k (Z.of_nat fd))
          | None => sim n t (k (-1))
          end
      | RPipe => fun k =>
          match put2 (PipeR n) (PipeW n) t with
          | Some (p0, p1, t') => sim (S n) t' (k (0, (Z.of_nat p0, Z.of_nat p1)))
          | None => sim n t (k (-1, (0, 0)))
          end
      | RDup fd => fun k =>
          match t !! Z.to_nat fd with
          | Some (Some o) =>
              match put o t with
              | Some (fd', t') => sim n t' (k (Z.of_nat fd'))
              | None => sim n t (k (-1))
              end
          | _ => sim n t (k (-1))
          end
      | RClose fd => fun k => sim n (close_fd fd t) (k 0)
      | RWait => fun k => sim n t (k 1)
      | RWrite _ d => fun k => sim n t (k (Z.of_nat (length d)))
      | _ => fun k => (n, [])
      end k
  | _ => (n, [])
  end.

(** What a command asks for. *)
Fixpoint starts (c : cmd bytes) (n : nat) (t : table) : nat * list started :=
  match c with
  | EXEC [] => (n, [])
  | EXEC (a :: argv) => (n, [(a, a :: argv, t)])
  | REDIR c f m d => starts c n (<[Z.to_nat d := Some (Opened f m)]> t)
  | PIPE l r =>
      let '(n1, l1) := starts l (S n) (<[1%nat := Some (PipeW n)]> t) in
      let '(n2, l2) := starts r n1 (<[0%nat := Some (PipeR n)]> t) in (n2, l1 ++ l2)
  | LIST l r =>
      let '(n1, l1) := starts l n t in
      let '(n2, l2) := starts r n1 t in (n2, l1 ++ l2)
  | BACK c => starts c n t
  end.

(** Redirections of descriptors 0 and 1 only: what the parser makes. *)
Fixpoint std_redirs (c : cmd bytes) : Prop :=
  match c with
  | EXEC _ => True
  | REDIR c _ _ d => (d = 0 \/ d = 1) /\ std_redirs c
  | PIPE l r | LIST l r => std_redirs l /\ std_redirs r
  | BACK c => std_redirs c
  end.

(** The standard descriptors are open and two others are free. *)
Definition roomy (t : table) : Prop :=
  (exists a b c, take 3 t = [Some a; Some b; Some c]) /\
  exists p q, p <> q /\ t !! p = Some None /\ t !! q = Some None.

Lemma lowest_spec t :
  match lowest t with
  | Some fd => t !! fd = Some None /\ forall i, (i < fd)%nat -> exists o, t !! i = Some (Some o)
  | None => forall i, t !! i <> Some None
  end.
Proof.
  induction t as [|[o|] t IH]; simpl.
  - by intros [|i].
  - destruct (lowest t) as [fd|]; simpl.
    + destruct IH as [H1 H2]. split; [done|]. intros [|i] Hi; [by eexists|]. apply H2. lia.
    + intros [|i]; [done|]. apply IH.
  - split; [done|]. lia.
Qed.

Lemma lowest_is t fd :
  t !! fd = Some None -> (forall i, (i < fd)%nat -> exists o, t !! i = Some (Some o)) -> lowest t = Some fd.
Proof.
  intros Hf Hlt. pose proof (lowest_spec t) as H. destruct (lowest t) as [fd'|]; [|by apply H in Hf].
  destruct H as [H1 H2]. destruct (Nat.lt_trichotomy fd fd') as [Hl|[->|Hl]]; [|done|].
  - apply H2 in Hl as [o Ho]. congruence.
  - apply Hlt in Hl as [o Ho]. congruence.
Qed.

Lemma roomy_std t : roomy t -> exists a b c, t !! 0%nat = Some (Some a) /\ t !! 1%nat = Some (Some b) /\ t !! 2%nat = Some (Some c).
Proof.
  intros [(a & b & c & H) _]. exists a, b, c.
  assert (forall i, (i < 3)%nat -> t !! i = take 3 t !! i) as Ht by (intros; by rewrite lookup_take_lt).
  rewrite !Ht, H by lia. done.
Qed.

Lemma roomy_intro t a b c p q :
  t !! 0%nat = Some (Some a) -> t !! 1%nat = Some (Some b) -> t !! 2%nat = Some (Some c) ->
  p <> q -> t !! p = Some None -> t !! q = Some None -> roomy t.
Proof.
  intros H0 H1 H2 Hpq Hp Hq. split; [|eauto 10]. exists a, b, c.
  destruct t as [|x [|y [|w t]]]; simplify_eq/=. done.
Qed.

(** Replacing a standard descriptor. *)
Lemma roomy_insert t d o : roomy t -> (d < 3)%nat -> roomy (<[d := Some o]> t).
Proof.
  intros Hr Hd. destruct (roomy_std t Hr) as (a & b & c & H0 & H1 & H2). destruct Hr as [_ (p & q & Hpq & Hp & Hq)].
  assert (forall i x, t !! i = Some (Some x) -> exists y, <[d := Some o]> t !! i = Some (Some y)) as Hi.
  { intros i x Hx. destruct (decide (d = i)) as [->|]; [exists o|exists x; by rewrite list_lookup_insert_ne].
    by rewrite list_lookup_insert_eq by (by eapply lookup_lt_Some). }
  assert (forall i, t !! i = Some None -> <[d := Some o]> t !! i = Some None) as Hn.
  { intros i Hx. rewrite list_lookup_insert_ne; [done|]. intros ->.
    destruct i as [|[|[|i]]]; [congruence..|lia]. }
  destruct (Hi _ _ H0) as [? ?], (Hi _ _ H1) as [? ?], (Hi _ _ H2) as [? ?]. eapply roomy_intro; eauto.
Qed.

(** close(d) and then a call that gives out a descriptor: it is d. *)
Lemma put_closed t d o :
  (exists a, t !! 0%nat = Some (Some a)) -> (exists b, t !! 1%nat = Some (Some b)) -> d = 0 \/ d = 1 ->
  put o (close_fd d t) = Some (Z.to_nat d, <[Z.to_nat d := Some o]> t).
Proof.
  intros [a Ha] [b Hb] Hd. unfold put, close_fd. rewrite (lowest_is _ (Z.to_nat d)).
  - simpl. by rewrite list_insert_insert_eq.
  - apply list_lookup_insert_eq. destruct Hd as [->| ->]; by eapply lookup_lt_Some.
  - intros i Hi. destruct Hd as [->| ->]; [simpl in Hi; lia|]. assert (i = 0%nat) as -> by (simpl in Hi; lia).
    exists a. by rewrite list_lookup_insert_ne.
Qed.

Lemma put2_roomy a b t :
  roomy t -> exists p0 p1, put2 a b t = Some (p0, p1, <[p1 := Some b]> (<[p0 := Some a]> t)) /\
    (2 < p0)%nat /\ (2 < p1)%nat /\ p0 <> p1 /\ t !! p0 = Some None /\ t !! p1 = Some None.
Proof.
  intros Hr. destruct (roomy_std t Hr) as (x & y & z & H0 & H1 & H2). destruct Hr as [_ (p & q & Hpq & Hp & Hq)].
  assert (forall i, t !! i = Some None -> (2 < i)%nat) as Hgt by (intros [|[|[|i]]] Hi; [congruence..|lia]).
  unfold put2, put. pose proof (lowest_spec t) as Hl. destruct (lowest t) as [p0|]; [|by apply Hl in Hp].
  destruct Hl as [Hl0 _]. simpl. pose proof (lowest_spec (<[p0 := Some a]> t)) as Hl.
  destruct (lowest (<[p0 := Some a]> t)) as [p1|].
  - destruct Hl as [Hl1 _]. simpl. exists p0, p1. assert (p0 <> p1) as Hne.
    { intros <-. rewrite list_lookup_insert_eq in Hl1 by (by eapply lookup_lt_Some). done. }
    rewrite list_lookup_insert_ne in Hl1 by done. split_and!; auto.
  - exfalso. destruct (decide (p0 = p)) as [->|]; [apply (Hl q)|apply (Hl p)]; by rewrite list_lookup_insert_ne by congruence.
Qed.

(** The child that takes the end [o] of the pipe as descriptor [d] ends up
    with the table of its parent before the pipe, but for [d]. *)
Lemma rewired t d p0 p1 a b o :
  (d < 3)%nat -> (2 < p0)%nat -> (2 < p1)%nat -> p0 <> p1 -> t !! p0 = Some None -> t !! p1 = Some None ->
  close_fd (Z.of_nat p1) (close_fd (Z.of_nat p0)
    (<[d := Some o]> (<[p1 := Some b]> (<[p0 := Some a]> t)))) = <[d := Some o]> t.
Proof.
  intros Hd Hp0 Hp1 Hne H0 H1. unfold close_fd. rewrite !Nat2Z.id. apply list_eq. intros i.
  assert (p0 < length t /\ p1 < length t)%nat as [? ?] by (split; by eapply lookup_lt_Some).
  destruct (decide (i = p1)) as [->|]; [rewrite list_lookup_insert_eq by (lens; lia); by rewrite list_lookup_insert_ne by lia|].
  rewrite list_lookup_insert_ne by done.
  destruct (decide (i = p0)) as [->|]; [rewrite list_lookup_insert_eq by (lens; lia); by rewrite list_lookup_insert_ne by lia|].
  rewrite list_lookup_insert_ne by done.
  destruct (decide (i = d)) as [->|].
  - destruct (decide (d < length t)%nat); [rewrite !list_lookup_insert_eq by (lens; lia); done|lia].
  - by rewrite !list_lookup_insert_ne by done.
Qed.

Lemma sim_write {A} n t fd d (k : Z -> prog A) : sim n t (pbind (write fd d) k) = sim n t (k (Z.of_nat (length d))).
Proof. done. Qed.
Lemma sim_close {A} n t fd (k : Z -> prog A) : sim n t (pbind (close fd) k) = sim n (close_fd fd t) (k 0).
Proof. done. Qed.
Lemma sim_wait {A} n t (k : Z -> prog A) : sim n t (pbind wait k) = sim n t (k 1).
Proof. done. Qed.
Lemma sim_fork1 {A} n t (k : Z -> prog A) :
  sim n t (pbind fork1 k) =
    let '(n1, l1) := sim n t (k 0) in let '(n2, l2) := sim n1 t (k 1) in (n2, l1 ++ l2).
Proof. done. Qed.

Lemma sim_dup {A} n t fd o (k : Z -> prog A) fd' t' :
  t !! Z.to_nat fd = Some (Some o) -> put o t = Some (fd', t') ->
  sim n t (pbind (dup fd) k) = sim n t' (k (Z.of_nat fd')).
Proof. intros H1 H2. simpl. by rewrite H1, H2. Qed.

(** A child of a pipeline: what it does to its descriptors before runcmd. *)
Lemma sim_child {A} n t p0 p1 e p a b o (q : prog A) :
  roomy t -> e = 0 \/ e = 1 -> (2 < p0)%nat -> (2 < p1)%nat -> p0 <> p1 ->
  t !! p0 = Some None -> t !! p1 = Some None ->
  (p = p0 /\ o = a) \/ (p = p1 /\ o = b) ->
  sim n (<[p1 := Some b]> (<[p0 := Some a]> t))
    (close e ;; dup (Z.of_nat p) ;; close (Z.of_nat p0) ;; close (Z.of_nat p1) ;; q) =
  sim n (<[Z.to_nat e := Some o]> t) q.
Proof.
  intros Ht He Hp0 Hp1 Hne H0 H1 Hp. destruct (roomy_std t Ht) as (x & y & w & Hx & Hy & Hw).
  set (t2 := <[p1 := Some b]> (<[p0 := Some a]> t)).
  assert (p0 < length t /\ p1 < length t)%nat as [? ?] by (split; by eapply lookup_lt_Some).
  assert (t2 !! 0%nat = Some (Some x) /\ t2 !! 1%nat = Some (Some y)) as [Ht0 Ht1]
    by (unfold t2; rewrite !list_lookup_insert_ne by lia; done).
  assert (t2 !! p = Some (Some o) /\ (2 < p)%nat) as [Hq ?].
  { unfold t2. destruct Hp as [[-> ->]|[-> ->]]; (split; [|lia]).
    - rewrite list_lookup_insert_ne by done. by rewrite list_lookup_insert_eq by lia.
    - by rewrite list_lookup_insert_eq by (lens; lia). }
  rewrite sim_close. erewrite sim_dup; [|unfold close_fd; rewrite Nat2Z.id, list_lookup_insert_ne by lia; exact Hq|
    apply put_closed; eauto].
  rewrite !sim_close. unfold t2. by rewrite rewired by (done || lia).
Qed.

Lemma sim_pipe {A} n t p0 p1 t' (k : Z * (Z * Z) -> prog A) :
  put2 (PipeR n) (PipeW n) t = Some (p0, p1, t') ->
  sim n t (pbind pipe k) = sim (S n) t' (k (0, (Z.of_nat p0, Z.of_nat p1))).
Proof. intros H. simpl. by rewrite H. Qed.

(** runcmd starts the programs that the command asks for: each with its
    arguments, with descriptors 0 and 1 as the redirections and pipes say, and
    with every other descriptor as the shell has it; in particular no program
    of a pipeline holds an end of a pipe besides its own input and output. *)
Lemma runcmd_starts c n t :
  roomy t -> std_redirs c -> sim n t (runcmd c) = starts c n t.
Proof.
  revert n t. induction c as [argv|c IH f m d|l IHl r IHr|l IHl r IHr|c IH]; intros n t Ht Hc.
  - by destruct argv.
  - destruct Hc as [Hd Hc]. cbn [runcmd]. rewrite sim_close. destruct (roomy_std t Ht) as (x & y & w & H0 & H1 & H2).
    simpl. rewrite put_closed by eauto.
    destruct (Z.of_nat (Z.to_nat d) <? 0) eqn:E; bool_prop; [lia|]. apply IH; [|done]. apply roomy_insert; [done|lia].
  - destruct Hc as [Hl Hr]. cbn [runcmd]. destruct (put2_roomy (PipeR n) (PipeW n) t Ht) as (p0 & p1 & E & Hp0 & Hp1 & Hne & H0 & H1).
    erewrite sim_pipe by exact E. change (0 <? 0) with false. cbv iota. rewrite sim_fork1.
    change (0 =? 0) with true. change (1 =? 0) with false. cbv iota. cbn [starts].
    rewrite (sim_child _ t _ _ 1 p1 _ _ (PipeW n)) by eauto. change (Z.to_nat 1) with 1%nat.
    rewrite IHl by (done || by apply roomy_insert; [|lia]).
    destruct (starts l (S n) (<[1%nat := Some (PipeW n)]> t)) as [n1 l1]. rewrite sim_fork1.
    change (0 =? 0) with true. change (1 =? 0) with false. cbv iota.
    rewrite (sim_child _ t _ _ 0 p0 _ _ (PipeR n)) by eauto. change (Z.to_nat 0) with 0%nat.
    rewrite IHr by (done || by apply roomy_insert; [|lia]).
    destruct (starts r n1 (<[0%nat := Some (PipeR n)]> t)) as [n2 l2]. simpl. by rewrite app_nil_r.
  - destruct Hc as [Hl Hr]. cbn [runcmd starts]. rewrite sim_fork1. change (0 =? 0) with true. cbv iota. rewrite IHl by done.
    destruct (starts l n t) as [n1 l1]. change (1 =? 0) with false. cbv iota. by rewrite sim_wait, IHr.
  - cbn [runcmd starts]. rewrite sim_fork1. change (0 =? 0) with true. cbv iota. rewrite IH by done.
    destruct (starts c n t) as [n1 l1]. change (1 =? 0) with false. cbv iota. simpl. by rewrite app_nil_r.
Qed.

Lemma printable_redirs c : printable c -> std_redirs c.
Proof.
  induction c as [argv|c IH f m d|l IHl r IHr|l IHl r IHr|c IH]; simpl; try naive_solver.
  intros (Hc & _ & Hm). split; [|auto]. unfold redir_mode in Hm. destruct (sign m =? 60); simplify_eq; auto.
Qed.

(** C7. From the line to the programs: a line that spells a command (and is not
    one of cd) makes the shell start exactly the programs the command asks for,
    in a child, each with its arguments, with descriptors 0 and 1 as the
    redirections and pipes say and every other descriptor as the shell has it;
    in particular no program of a pipeline holds an end of a pipe besides its own
    input and output. *)
Theorem shell_starts_programs c line z n t :
  printable c -> rendered (pr c LLine) line -> roomy t ->
  let buf := line ++ 0 :: z in
  (byte_at buf 0 =? 99) && (byte_at buf 1 =? 100) && (byte_at buf 2 =? 32) = false ->
  sim n t (run_line buf) = starts c n t.
Proof.
  intros Hp Hr Ht buf Hcd. unfold run_line. rewrite Hcd, sim_fork1.
  change (0 =? 0) with true. change (1 =? 0) with false. cbv iota.
  destruct (parse_printed c line z Hp Hr) as (cs & mem' & s & E & Hc). fold buf in E. rewrite E, Hc.
  rewrite runcmd_starts by auto using printable_redirs. destruct (starts c n t) as [n1 l1].
  rewrite sim_wait. simpl. by rewrite app_nil_r.
Qed.

Definition table_ex : table := [Some (Inherited 0); Some (Inherited 1); Some (Inherited 2)] ++ replicate 13 None.

Lemma shell_starts_programs_witness :
  let line := show (pr cmd_ex LLine) in
  sim 0 table_ex (run_line (line ++ 0 :: [7])) = starts cmd_ex 0 table_ex /\
  length (snd (starts cmd_ex 0 table_ex)) = 3%nat.
Proof.
  split; [|by vm_compute].
  apply (shell_starts_programs cmd_ex (show (pr cmd_ex LLine)) [7] 0 table_ex).
  - apply printable_ex.
  - apply rendered_ex.
  - by apply (roomy_intro _ (Inherited 0) (Inherited 1) (Inherited 2) 3 4).
  - by vm_compute.
Defined.

End ShellRun.
