(* ===== verification/Mkfs.v ===== *)
(** * Mkfs: mkfs.c, which builds the file system image

    The image file is a function from sector numbers to sectors (the host's
    lseek, read and write on it are taken to work; the host is little-endian).
    A failed assert or a file that cannot be used is a panic.  A file on the
    command line is its name and the pieces that read returns of it. *)
From S2P Require Import Prelude Kmonad Cstring Block FsLayout Fs.
From stdpp Require Import options.

Module Mkfs.
Import FsLayout Fs.

Record mk : Type := mkmk {
  img : Z -> bytes;
  freeblock : Z;
  usedblocks : Z;
  freeinode : Z
}.

Definition nblocks : Z := 995.
Definition ninodes : Z := 200.
Definition size : Z := 1024.

Definition set_img (f : Z -> bytes) (s : mk) : mk := mkmk f (freeblock s) (usedblocks s) (freeinode s).
Definition assert (b : bool) : K mk unit := if b then kret tt else panic "assert".

(** a[0] = x; a[1] = x >> 8, read back as a number of the host. *)
Definition xshort (x : Z) : Z := le_dec [u8 x; u8 (Z.shiftr x 8)].
Definition xint (x : Z) : Z :=
  le_dec [u8 x; u8 (Z.shiftr x 8); u8 (Z.shiftr x 16); u8 (Z.shiftr x 24)].

Definition wsect (sec : Z) (buf : bytes) : K mk unit :=
  modify (fun s => set_img (fun n => if n =? sec then buf else img s n) s).
Definition rsect (sec : Z) : K mk bytes := gets (fun s => img s sec).

Definition i2b (inum : Z) : Z := inum / IPB + 2.

Definition winode (inum : Z) (ip : dinode) : K mk unit :=
  let bn := i2b inum in
  buf <- rsect bn ;;
  wsect bn (put_dinode buf inum ip).

Definition rinode (inum : Z) : K mk dinode :=
  buf <- rsect (i2b inum) ;;
  kret (get_dinode buf inum).

Definition ialloc (type : Z) : K mk Z :=
  inum <- gets freeinode ;;
  modify (fun s => mkmk (img s) (freeblock s) (usedblocks s) (u32 (freeinode s + 1))) ;;
  winode inum (mkdinode (xshort type) 0 0 (xshort 1) (xint 0) (replicate 13 0)) ;;
  kret inum.

(** buf[i/8] = buf[i/8] | (0x1 << (i%8)) for i below used. *)
Definition bitmap_loop (used : nat) (buf : bytes) : bytes :=
  foldl (fun d i => set_bit d (Z.of_nat i)) buf (seq 0 used).

Definition balloc (used : Z) : K mk unit :=
  assert (used <? 512) ;;
  wsect (ninodes / IPB + 3) (bitmap_loop (Z.to_nat used) (replicate 512 0)).

(** xint(freeblock++), with usedblocks++. *)
Definition newblock : K mk Z :=
  b <- gets freeblock ;;
  modify (fun s => mkmk (img s) (u32 (freeblock s + 1)) (u32 (usedblocks s + 1)) (freeinode s)) ;;
  kret (xint b).

Definition daddr (din : dinode) (i : nat) : Z := nth i (di_addrs din) 0.
Definition set_daddr (i : nat) (b : Z) (din : dinode) : dinode :=
  mkdinode (di_type din) (di_major din) (di_minor din) (di_nlink din) (di_size din) (<[i := b]> (di_addrs din)).
Definition set_dsize (n : Z) (din : dinode) : dinode :=
  mkdinode (di_type din) (di_major din) (di_minor din) (di_nlink din) n (di_addrs din).

(** An address of the inode, filled in if it is zero. *)
Definition fill_addr (i : nat) (din : dinode) : K mk dinode :=
  if xint (daddr din i) =? 0 then b <- newblock ;; kret (set_daddr i b din) else kret din.

(** The entry at offset [j] of the indirect block [ib], filled in if it is
    zero. *)
Definition fill_entry (ib : Z) (j : nat) : K mk Z :=
  indirect <- rsect ib ;;
  if get32 indirect j =? 0 then
    b <- newblock ;;
    let indirect := put32 indirect j b in
    wsect ib indirect ;;
    kret (xint (get32 indirect j))
  else kret (xint (get32 indirect j)).

(** The block of the file's block [fbn], and the inode with it. *)
Definition file_block (din : dinode) (fbn : Z) : K mk (dinode * Z) :=
  if fbn <? NDIRECT then
    din <- fill_addr (Z.to_nat fbn) din ;;
    kret (din, xint (daddr din (Z.to_nat fbn)))
  else
    din <- fill_addr (Z.to_nat NDIRECT) din ;;
    x <- fill_entry (xint (daddr din (Z.to_nat NDIRECT))) (4 * Z.to_nat (fbn - NDIRECT)) ;;
    kret (din, x).

(** The loop of iappend, with the new inode and offset; every pass ends a
    block or the data. *)
Fixpoint iappend_loop (fuel : nat) (din : dinode) (off : Z) (p : bytes) : K mk (dinode * Z) :=
  match fuel with
  | O => diverge
  | S fuel' =>
      if (0 <? Z.of_nat (length p)) then
        let fbn := off / 512 in
        assert (fbn <? MAXFILE) ;;
        let* (din, x) <- file_block din fbn ;;
        let n1 := Z.min (Z.of_nat (length p)) (u32 ((fbn + 1) * 512 - off)) in
        buf <- rsect x ;;
        wsect x (splice buf (Z.to_nat (off - fbn * 512)) (take (Z.to_nat n1) p)) ;;
        iappend_loop fuel' din (u32 (off + n1)) (drop (Z.to_nat n1) p)
      else kret (din, off)
  end.

Definition iappend (inum : Z) (p : bytes) : K mk unit :=
  din <- rinode inum ;;
  let* (din, off) <- iappend_loop (length p + 1) din (xint (di_size din)) p ;;
  winode inum (set_dsize (xint off) din).

(** A name copied into de.name: strcpy of a short one, strncpy of any. *)
Definition de_of (inum : Z) (name : bytes) : bytes :=
  enc_dirent (mkdirent (xshort inum) (Cstring.strncpy_bytes (byte_at name) 14)).

Definition skip_underscore (name : bytes) : bytes :=
  match name with 95 :: r => r | _ => name end.

Definition add_file (rootino : Z) (f : bytes * list bytes) : K mk unit :=
  let '(name, pieces) := f in
  assert (negb (existsb (Z.eqb 47) name)) ;;
  inum <- ialloc T_FILE ;;
  iappend rootino (de_of inum (skip_underscore name)) ;;
  kforeach pieces (iappend inum).

Definition bitblocks : Z := size / (512 * 8) + 1.
Definition usedblocks0 : Z := ninodes / IPB + 3 + bitblocks.

(** The image of a new file, read as zeros. *)
Definition mk0 : mk := mkmk (fun _ => []) 0 0 1.

(** wsect(i, zeroes) for all sectors below nblocks + usedblocks. *)
Definition zero_image : K mk unit :=
  kforeach (seqZ 0 (nblocks + usedblocks0)) (fun i => wsect i (replicate 512 0)).

(** wsect writes 512 bytes from &sb on; struct superblock has 12, so the rest
    of the sector, [tail], is what lies behind it in mkfs's memory. *)
Definition sb_bytes (tail : bytes) : bytes :=
  le_enc 4 (xint size) ++ le_enc 4 (xint nblocks) ++ le_enc 4 (xint ninodes) ++ take 500 tail.

Definition main (tail : bytes) (files : list (bytes * list bytes)) : K mk unit :=
  modify (fun s => mkmk (img s) usedblocks0 usedblocks0 (freeinode s)) ;;
  assert (nblocks + usedblocks0 =? size) ;;
  zero_image ;;
  wsect 1 (sb_bytes tail) ;;
  rootino <- ialloc T_DIR ;;
  assert (rootino =? ROOTINO) ;;
  iappend rootino (de_of rootino (chars ".")) ;;
  iappend rootino (de_of rootino (chars "..")) ;;
  kforeach files (add_file rootino) ;;
  din <- rinode rootino ;;
  let off := xint (di_size din) in
  let off := u32 ((off / BSIZE + 1) * BSIZE) in
  winode rootino (set_dsize (xint off) din) ;;
  u <- gets usedblocks ;;
  balloc u.

End Mkfs.
