(* ===== verification/MkfsSpec.v ===== *)
(** * MkfsSpec: the image that mkfs builds

    The kernel's invariants of a file system ([fs_ok], [file_ok], [synced] of
    FsFile) hold of the image, with the files of the command line in it.  While
    mkfs runs the bitmap is not on the disk yet; [view] is the disk as the kernel
    would see it with the bitmap of the blocks used so far, and iappend does to
    it what writei of the kernel does. *)
From S2P Require Import Prelude Kmonad Cstring Block FsLayout Fs FsLogic FsImage FsAlloc FsFile FsDir Mkfs.
From Stdlib Require Import FunctionalExtensionality.
From stdpp Require Import options.

Module MkfsSpec.
Import FsFile Mkfs.
Import Mkfs(size, nblocks, ninodes).

Definition sb : superblock := mksb 1024 995 200.

Definition bitmap (used : Z) : bytes := bitmap_loop (Z.to_nat used) (replicate 512 0).

(** The disk with the bitmap of the first [f] blocks. *)
Definition view (s : mk) : contents := fun v n =>
  if negb (v =? 1) then replicate 512 0
  else if n =? 28 then bitmap (freeblock s)
  else if (0 <=? n) && (n <? 1024) then img s n
  else replicate 512 0.

(** ** Numbers *)

Lemma xint_u32 x : 0 <= x < 4294967296 -> xint x = x.
Proof.
  intros H. unfold xint, u8. cbn [le_dec]. rewrite !Z.shiftr_div_pow2 by lia.
  change (2 ^ 8) with 256. change (2 ^ 16) with 65536. change (2 ^ 24) with 16777216. clear - H. dlia.
Qed.

Lemma xshort_u16 x : 0 <= x < 65536 -> xshort x = x.
Proof.
  intros H. unfold xshort, u8. cbn [le_dec]. rewrite !Z.shiftr_div_pow2 by lia.
  change (2 ^ 8) with 256. clear - H. dlia.
Qed.

Lemma byte_at_zeros n k : byte_at (replicate n 0) k = 0.
Proof.
  unfold byte_at. rewrite nth_lookup. destruct (replicate n 0 !! k) eqn:E; [|done]. by apply lookup_replicate in E as [-> _].
Qed.

(** ** The bitmap *)

Lemma bitmap_S f : 0 <= f -> bitmap (f + 1) = set_bit (bitmap f) f.
Proof.
  intros H. unfold bitmap, bitmap_loop. replace (Z.to_nat (f + 1)) with (S (Z.to_nat f)) by lia.
  rewrite seq_S, foldl_app. simpl. by rewrite Z2Nat.id.
Qed.

Lemma length_bitmap f : length (bitmap f) = 512%nat.
Proof.
  unfold bitmap, bitmap_loop. generalize (seq 0 (Z.to_nat f)) as l. intros l.
  assert (forall d, length (foldl (fun d i => set_bit d (Z.of_nat i)) d l) = length d) as H.
  { induction l as [|i l IH]; intros d; simpl; [done|]. by rewrite IH, length_set_bit. }
  by rewrite H, length_replicate.
Qed.

Lemma bit_bitmap f b : 0 <= f <= 4096 -> 0 <= b -> bit_at (bitmap f) b = (b <? f).
Proof.
  intros Hf Hb. destruct Hf as [Hf0 Hf1]. revert Hf1. pattern f. apply natlike_ind; [| |done].
  - intros _. unfold bit_at. change (bitmap 0) with (replicate 512 0).
    rewrite (proj2 (Z.ltb_ge b 0)) by lia.
    rewrite byte_at_zeros. apply Z.bits_0.
  - intros g Hg IH Hg1. unfold Z.succ in *. rewrite bitmap_S by done.
    rewrite bit_at_set by (rewrite ?length_bitmap; lia). rewrite IH by lia.
    destruct (Z.ltb_spec b g), (Z.ltb_spec b (g + 1)), (Z.eqb_spec b g); try lia; done.
Qed.

Lemma used_view s b : 0 <= freeblock s <= 1024 -> 0 <= b < 4096 -> used (view s) 1 sb b = (b <? freeblock s).
Proof.
  intros Hf Hb. unfold used, view. change (BBLOCK b (sb_ninodes sb)) with (b / 4096 + 25 + 3).
  replace (b / 4096 + 25 + 3) with 28 by (clear - Hb; dlia). simpl.
  rewrite bit_bitmap; [|lia|rewrite BPB_eq; clear - Hb; dlia]. by rewrite BPB_eq, Z.mod_small by lia.
Qed.

(** ** Sectors *)

Definition lens_ok (s : mk) : Prop := forall n, 0 <= n < 1024 -> length (img s n) = 512%nat.

Lemma length_view s v n : lens_ok s -> length (view s v n) = 512%nat.
Proof.
  intros H. unfold view. destruct (negb _); [apply length_replicate|]. destruct (n =? 28); [apply length_bitmap|].
  destruct ((0 <=? n) && (n <? 1024)) eqn:E; [bool_prop; apply H; lia|apply length_replicate].
Qed.

Lemma view_img s n : 0 <= n < 1024 -> n <> 28 -> view s 1 n = img s n.
Proof.
  intros H1 H2. unfold view. simpl. destruct (Z.eqb_spec n 28); [done|].
  destruct (Z.leb_spec 0 n), (Z.ltb_spec n 1024); try lia. done.
Qed.

Definition write_img (n : Z) (d : bytes) (s : mk) : mk := set_img (fun m => if m =? n then d else img s m) s.

Lemma exec_wsect n d s : exec (wsect n d) s = Done tt tt (write_img n d s).
Proof. done. Qed.
Lemma exec_rsect n s : exec (rsect n) s = Done (img s n) tt s.
Proof. done. Qed.

Lemma view_write n d s :
  0 <= n < 1024 -> n <> 28 -> view (write_img n d s) = upd_sector (view s) 1 n d.
Proof.
  intros H1 H2. extensionality v. extensionality m. unfold view, upd_sector, write_img. simpl.
  destruct (Z.eqb_spec v 1); simpl; [|done]. destruct (Z.eqb_spec m 28), (Z.eqb_spec m n); subst; try done.
  destruct (Z.leb_spec 0 n), (Z.ltb_spec n 1024); try lia. done.
Qed.

Lemma lens_write n d s : lens_ok s -> length d = 512%nat -> lens_ok (write_img n d s).
Proof. intros H Hd m Hm. simpl. destruct (m =? n); auto. Qed.

Definition count_block (s : mk) : mk := mkmk (img s) (freeblock s + 1) (usedblocks s + 1) (freeinode s).

Lemma view_count s :
  0 <= freeblock s < 1024 -> view (count_block s) = mark (view s) 1 sb (freeblock s).
Proof.
  intros H. extensionality v. extensionality m. unfold mark, upd_sector.
  change (BBLOCK (freeblock s) (sb_ninodes sb)) with (freeblock s / 4096 + 25 + 3).
  replace (freeblock s / 4096 + 25 + 3) with 28 by (clear - H; dlia).
  rewrite BPB_eq, Z.mod_small by lia. unfold view. simpl.
  destruct (Z.eqb_spec v 1); simpl; [|done]. destruct (Z.eqb_spec m 28); [|done]. apply bitmap_S. lia.
Qed.

(** The state of mkfs between two operations. *)
Record mk_ok (s : mk) : Prop := {
  mk_lens : lens_ok s;
  mk_used : usedblocks s = freeblock s;
  mk_range : 29 <= freeblock s <= 1024;
  mk_fs : fs_ok 1 sb (view s)
}.

Lemma exec_newblock s :
  mk_ok s -> freeblock s < 1024 -> exec newblock s = Done (freeblock s) tt (count_block s).
Proof.
  intros [_ Hu Hr _] H. unfold newblock. kexec. simpl. rewrite !u32_small by lia. by rewrite xint_u32 by lia.
Qed.

Lemma first_free_view s : mk_ok s -> freeblock s < 1024 -> first_free (view s) 1 sb (freeblock s).
Proof.
  intros [_ _ Hr _] H. split; [|intros b Hb]; rewrite used_view by lia; [apply Z.ltb_irrefl|apply Z.ltb_lt; lia].
Qed.

(** ** Blocks of a file *)

Definition inode_of (i : Z) (din : dinode) : inode :=
  mkinode 1 i 0 0 (di_type din) (di_major din) (di_minor din) (di_nlink din) (di_size din) (di_addrs din).

Lemma meta_end_29 : meta_end sb = 29.
Proof. done. Qed.

Abbreviation wf s x := (wf_file 1 sb (view s) x).
Abbreviation blk s x n := (blockno 1 (view s) x n).

(** Block numbers are small. *)
Lemma blk_range s x n : wf s x -> (n < 140)%nat -> blk s x n <> 0 -> 29 <= blk s x n < 1024.
Proof. intros Hw Hn Hb. rewrite <- meta_end_29. apply (wf_own _ _ _ _ Hw). by eapply blockno_owns. Qed.

Lemma addr12_range s x : wf s x -> addr x 12 <> 0 -> 29 <= addr x 12 < 1024.
Proof.
  intros Hw H0. rewrite <- meta_end_29. apply (wf_own _ _ _ _ Hw). split; [done|].
  eapply list_elem_of_lookup_2, slots_12, (wf_len _ _ _ _ Hw).
Qed.

(** Filling in an entry of the indirect block. *)
Lemma fill_entry_ok s x n :
  mk_ok s -> wf s x -> (12 <= n < 140)%nat -> addr x 12 <> 0 -> freeblock s < 1024 ->
  exists r s', exec (fill_entry (addr x 12) (4 * (n - 12))) s = Done r tt s' /\ mk_ok s' /\
    freeinode s' = freeinode s /\ mapped 1 sb (view s) x n r (view s') x /\
    freeblock s' = freeblock s + (if blk s x n =? 0 then 1 else 0).
Proof.
  intros Hok Hw Hn H0 Hf. pose proof (addr12_range s x Hw H0) as Ha. pose proof (wf_len _ _ _ _ Hw) as Hl.
  pose proof (mk_fs _ Hok) as Hfs. pose proof (mk_range _ Hok) as Hr.
  assert (img s (addr x 12) = view s 1 (addr x 12)) as Hi by (rewrite view_img by lia; done).
  pose proof (length_view s 1 (addr x 12) (mk_lens _ Hok)) as H512.
  unfold fill_entry. kexec. rewrite exec_rsect. kexec. rewrite Hi, <- blockno_indirect by done.
  destruct (blk s x n =? 0) eqn:E; bool_prop.
  - kexec. rewrite (exec_newblock s Hok Hf). kexec. rewrite exec_wsect. kexec.
    pose proof (first_free_view s Hok Hf) as Hff.
    destruct (fresh_entry 1 sb (view s) x n (freeblock s)) as (HM & _); try done;
      [by apply length_view, Hok|simpl; lia|].
    rewrite <- view_count, <- view_write in HM by lia.
    rewrite get32_put32, u32_small, xint_u32 by (rewrite ?H512; lia).
    do 2 eexists. split; [done|]. split; [|done].
    split; [apply lens_write; [apply Hok|rewrite length_put32; lia]|simpl; rewrite (mk_used _ Hok); lia|simpl; lia|].
    apply (ev_fs _ _ _ _ _ _ (mp_evolve _ _ _ _ _ _ _ _ HM)).
  - kexec. rewrite xint_u32 by (pose proof (blk_range s x n Hw ltac:(lia) E); lia).
    do 2 eexists. split; [done|]. split; [done|]. split; [done|]. split; [by apply mapped_refl|lia].
Qed.

(** The blocks that the file's block [n] costs. *)
Definition need (s : mk) (x : inode) (n : nat) : Z :=
  (if blk s x n =? 0 then 1 else 0) + (if (12 <=? n)%nat && (addr x 12 =? 0) then 1 else 0).

Lemma addr_u32 s x k : wf s x -> (k <= 12)%nat -> xint (addr x k) = addr x k.
Proof.
  intros Hw Hk. apply xint_u32. destruct (decide (addr x k = 0)) as [->|H0]; [lia|].
  destruct (wf_own _ _ _ _ Hw (addr x k)) as [Hr _]; [|rewrite meta_end_29 in Hr; simpl in Hr; lia].
  split; [done|]. eapply list_elem_of_lookup_2, slots_addr; [apply Hw|done].
Qed.

Lemma file_block_ok s i din n :
  let x := inode_of i din in
  mk_ok s -> wf s x -> (n < 140)%nat -> freeblock s + 2 <= 1024 ->
  exists din' r s', exec (file_block din (Z.of_nat n)) s = Done (din', r) tt s' /\ mk_ok s' /\
    freeinode s' = freeinode s /\ mapped 1 sb (view s) x n r (view s') (inode_of i din') /\
    freeblock s' = freeblock s + need s x n /\
    (addr (inode_of i din') 12 <> 0 <-> addr x 12 <> 0 \/ (12 <= n)%nat).
Proof.
  intros x Hok Hw Hn Hf. pose proof (wf_len _ _ _ _ Hw) as Hl. pose proof (mk_fs _ Hok) as Hfs.
  pose proof (first_free_view s Hok ltac:(lia)) as Hff. pose proof (mk_range _ Hok) as Hr.
  assert (forall k, daddr din k = addr x k) as Hda by done.
  assert (Hcount : fs_ok 1 sb (view (count_block s)) -> mk_ok (count_block s)).
  { intros H. split; [apply Hok|simpl; rewrite (mk_used _ Hok); lia|simpl; lia|done]. }
  unfold file_block, NDIRECT, need. destruct (Z.ltb_spec (Z.of_nat n) 12) as [Hd|Hd].
  - rewrite (proj2 (Nat.leb_gt 12 n)) by lia. simpl.
    rewrite Nat2Z.id. unfold fill_addr. rewrite Hda, (addr_u32 s x n Hw) by lia.
    rewrite <- (blockno_direct 1 (view s) x n) by (done || lia).
    destruct (blk s x n =? 0) eqn:E; bool_prop.
    + kexec. rewrite (exec_newblock s Hok) by lia. kexec.
      destruct (fresh_direct 1 sb (view s) x n (freeblock s)) as (HM & _); try done;
        [lia|by apply length_view, Hok|simpl; lia|].
      rewrite <- view_count in HM by lia.
      assert (daddr (set_daddr n (freeblock s) din) n = freeblock s) as Ea
        by (apply (addr_set_addr_eq n (freeblock s) x); lia).
      rewrite Ea, xint_u32 by lia. do 3 eexists. split; [done|].
      split; [apply Hcount, (ev_fs _ _ _ _ _ _ (mp_evolve _ _ _ _ _ _ _ _ HM))|]. split; [done|].
      split; [exact HM|]. split; [simpl; lia|].
      change (addr (set_addr n (freeblock s) x) 12 <> 0 <-> addr x 12 <> 0 \/ (12 <= n)%nat).
      rewrite addr_set_addr_ne by lia. split; [by left|]. intros [?|?]; [done|lia].
    + kexec. rewrite Hda, (addr_u32 s x n Hw), <- (blockno_direct 1 (view s) x n) by (done || lia).
      do 3 eexists. split; [done|]. split; [done|]. split; [done|]. split; [by apply mapped_refl|].
      split; [lia|]. split; [by left|]. intros [?|?]; [done|lia].
  - rewrite (proj2 (Nat.leb_le 12 n)) by lia. change (Z.to_nat 12) with 12%nat.
    replace (Z.to_nat (Z.of_nat n - 12)) with (n - 12)%nat by lia. cbn [andb].
    unfold fill_addr. rewrite Hda, (addr_u32 s x 12 Hw) by lia.
    destruct (addr x 12 =? 0) eqn:E; bool_prop.
    + kexec. rewrite (exec_newblock s Hok) by lia. kexec. set (c := freeblock s) in *.
      set (x1 := inode_of i (set_daddr 12 c din)).
      assert (addr x1 12 = c) as Ea by (apply (addr_set_addr_eq 12 c x); lia).
      change (daddr (set_daddr 12 c din) 12) with (addr x1 12).
      destruct (fresh_addr 1 sb (view s) x 12 c) as (He & _ & Hs & _); try done;
        [by apply length_view, Hok|simpl; lia|].
      assert (blk s x n = 0) as Hz by (apply blockno_no_ind; (done || lia)).
      rewrite <- view_count in He, Hs by lia. change (set_addr 12 c x) with x1 in He, Hs.
      pose proof (Hcount (ev_fs _ _ _ _ _ _ He)) as Hok1.
      assert (blk (count_block s) x1 n = 0) as Hz1.
      { rewrite <- Hz. eapply blockno_insert_other; [|exact Hs]. unfold slot_of. destruct (Nat.ltb_spec n 12); lia. }
      destruct (fill_entry_ok (count_block s) x1 n Hok1) as (r & s2 & E2 & Hok2 & Hi2 & HM & Hf2);
        [apply He|lia|rewrite Ea; unfold c; lia|simpl; lia|].
      rewrite (addr_u32 (count_block s) x1 12) by (apply He || lia). rewrite E2. kexec.
      exists (set_daddr 12 c din), r, s2. split; [done|]. split; [done|]. split; [done|].
      split; [|split; [rewrite Hf2, Hz1, Hz; simpl; fold c; lia|]].
      * eapply (fresh_indirect 1 sb (view s) x n c); try done; [lia|by apply length_view, Hok|simpl; lia|].
        rewrite <- view_count by lia. exact HM.
      * change (inode_of i (set_daddr 12 c din)) with x1. rewrite Ea. split; [right; lia|]. intros _. unfold c. lia.
    + kexec. rewrite Hda, (addr_u32 s x 12 Hw) by lia.
      destruct (fill_entry_ok s x n Hok Hw ltac:(lia) E ltac:(lia)) as (r & s2 & E2 & Hok2 & Hi2 & HM & Hf2).
      rewrite E2. kexec. exists din, r, s2. split; [done|]. split; [done|]. split; [done|].
      split; [done|]. split; [lia|]. split; [by left|done].
Qed.

(** ** iappend *)

(** The blocks of a file of [n] bytes. *)
Definition cost (n : Z) : Z := (n + 511) / 512 + (if 6144 <? n then 1 else 0).

Lemma cost_mono m n : m <= n -> cost m <= cost n.
Proof. intros H. unfold cost. destruct (Z.ltb_spec 6144 m), (Z.ltb_spec 6144 n); try lia; clear - H; dlia. Qed.

Definition dense_to (V : contents) (x : inode) (off : Z) : Prop :=
  forall n, 512 * Z.of_nat n < off -> blockno 1 V x n <> 0.

Lemma addr12_of_blk s x n : wf s x -> (12 <= n < 140)%nat -> blk s x n <> 0 -> addr x 12 <> 0.
Proof. intros Hw Hn Hb H0. apply Hb. apply blockno_no_ind; [apply Hw|done..]. Qed.

Lemma need_cost s x off len :
  wf s x -> dense_to (view s) x off -> 0 <= off < 71680 -> 0 < len <= 512 - off mod 512 ->
  0 <= need s x (Z.to_nat (off / 512)) <= cost (off + len) - cost off.
Proof.
  intros Hw Hd Ho Hl. set (n := Z.to_nat (off / 512)).
  assert (Hn : Z.of_nat n = off / 512 /\ (n < 140)%nat) by (unfold n; clear - Ho; dlia).
  destruct (decide (off mod 512 = 0)) as [E|E].
  - unfold need, cost. replace ((off + len + 511) / 512) with (off / 512 + 1) by (clear - E Hl; dlia).
    replace ((off + 511) / 512) with (off / 512) by (clear - E; dlia).
    destruct (Nat.leb_spec 12 n) as [H12|H12]; cbn [andb].
    + rewrite (proj2 (Z.ltb_lt 6144 (off + len))) by (clear - H12 Hn Hl Ho; dlia).
      destruct (decide (n = 12%nat)) as [E12|E12].
      * rewrite (proj2 (Z.ltb_ge 6144 off)) by (clear - E12 Hn E; dlia).
        destruct (blk s x n =? 0), (addr x 12 =? 0); lia.
      * assert (addr x 12 <> 0) as Ha.
        { apply (addr12_of_blk s x 12 Hw); [lia|]. apply Hd. clear - E12 H12 Hn E. dlia. }
        rewrite (proj2 (Z.ltb_lt 6144 off)) by (clear - E12 H12 Hn E; dlia). rewrite (proj2 (Z.eqb_neq (addr x 12) 0) Ha).
        destruct (blk s x n =? 0); lia.
    + destruct (blk s x n =? 0), (Z.ltb_spec 6144 (off + len)), (Z.ltb_spec 6144 off); lia.
  - assert (blk s x n <> 0) as Hb by (apply Hd; clear - E Hn Ho; dlia).
    assert (need s x n = 0) as ->; [|pose proof (cost_mono off (off + len)); lia].
    unfold need. rewrite (proj2 (Z.eqb_neq _ 0) Hb). destruct (Nat.leb_spec 12 n); [|done].
    pose proof (addr12_of_blk s x n Hw ltac:(lia) Hb) as Ha. by rewrite (proj2 (Z.eqb_neq (addr x 12) 0) Ha).
Qed.

(** Writing a block of a file. *)
Lemma store_block s x n d :
  mk_ok s -> wf s x -> (n < 140)%nat -> blk s x n <> 0 -> length d = 512%nat ->
  let s' := write_img (blk s x n) d s in
  mk_ok s' /\ view s' = upd_sector (view s) 1 (blk s x n) d /\ img s (blk s x n) = fdata 1 (view s) x n.
Proof.
  intros Hok Hw Hn Hb Hd s'. pose proof (blk_range s x n Hw Hn Hb) as Hr.
  assert (view s' = upd_sector (view s) 1 (blk s x n) d) as Ev by (apply view_write; lia).
  split; [|split; [done|]].
  - destruct Hok as [H1 H2 H3 H4]. split; [by apply lens_write|done|done|]. rewrite Ev.
    apply (ev_fs _ _ _ _ _ _ (store_evolve 1 sb (view s) x n d H4 Hw Hn Hb)).
  - unfold fdata. rewrite (proj2 (Z.eqb_neq _ 0) Hb). symmetry. apply view_img; lia.
Qed.

(** One pass of the loop: [chunk] goes into one block. *)
Lemma append_pass s i din off chunk :
  let n := Z.to_nat (off / 512) in let len := Z.of_nat (length chunk) in
  mk_ok s -> wf s (inode_of i din) -> dense_to (view s) (inode_of i din) off ->
  0 <= off < 71680 -> 0 < len <= 512 - off mod 512 -> freeblock s <= 1000 ->
  exists din1 r s1, exec (file_block din (Z.of_nat n)) s = Done (din1, r) tt s1 /\
    let x1 := inode_of i din1 in
    let s2 := write_img r (splice (img s1 r) (Z.to_nat (off mod 512)) chunk) s1 in
    mk_ok s2 /\ freeinode s2 = freeinode s /\ wf s2 x1 /\ dense_to (view s2) x1 (off + len) /\
    freeblock s <= freeblock s2 <= freeblock s + cost (off + len) - cost off /\
    (forall rest V' x', (rest <> [] -> off mod 512 + len = 512) -> off + len + Z.of_nat (length rest) <= 71680 ->
       wrote 1 sb (view s2) x1 (off + len) rest V' x' ->
       wrote 1 sb (view s) (inode_of i din) off (chunk ++ rest) V' x').
Proof.
  intros n len Hok Hw Hd Ho Hlen Hfree.
  assert (Hn : Z.of_nat n = off / 512 /\ (n < 140)%nat) by (unfold n; clear - Ho; dlia).
  pose proof (need_cost s _ off len Hw Hd ltac:(lia) ltac:(lia)) as Hneed. fold n in Hneed.
  destruct (file_block_ok s i din n Hok Hw (proj2 Hn)) as (din1 & r & s1 & E1 & Hok1 & Hi1 & HM & Hf1 & _); [lia|].
  exists din1, r, s1. split; [exact E1|]. cbv zeta. set (x1 := inode_of i din1) in *.
  pose proof (mp_evolve _ _ _ _ _ _ _ _ HM) as He. pose proof (ev_wf _ _ _ _ _ _ He) as Hw1.
  pose proof (mp_block _ _ _ _ _ _ _ _ HM) as Hb. pose proof (mp_nonzero _ _ _ _ _ _ _ _ HM) as Hr0.
  assert (Hl : length (fdata 1 (view s1) x1 n) = 512%nat).
  { unfold fdata. rewrite Hb, (proj2 (Z.eqb_neq r 0) Hr0). apply length_view, Hok1. }
  rewrite <- Hb in Hr0. set (d := splice (fdata 1 (view s1) x1 n) (Z.to_nat (off mod 512)) chunk).
  assert (length d = 512%nat) as Hld.
  { unfold d. rewrite length_splice; [done|]. rewrite Hl. unfold len in Hlen. clear - Hlen. dlia. }
  destruct (store_block s1 x1 n d Hok1 Hw1 (proj2 Hn) Hr0 Hld) as (Hok2 & Ev2 & Ei). rewrite Hb in Ei, Ev2, Hok2.
  rewrite Ei. fold d. set (s2 := write_img r d s1) in *.
  assert (evolve 1 sb (view s1) x1 (view s2) x1) as He2.
  { rewrite Ev2, <- Hb. apply store_evolve; (done || apply Hok1 || apply Hn). }
  split; [done|]. split; [done|]. split; [apply He2|]. split; [|split; [simpl; lia|]].
  - intros m Hm. destruct (decide (512 * Z.of_nat m < off)) as [Hm1|Hm1].
    + pose proof (Hd m Hm1) as Hm0. assert (m < 140)%nat by lia.
      rewrite (ev_blk _ _ _ _ _ _ He2), (ev_blk _ _ _ _ _ _ He); try done. by rewrite (ev_blk _ _ _ _ _ _ He).
    + assert (m = n) as -> by (clear - Hm Hm1 Hn Hlen; dlia). rewrite (ev_blk _ _ _ _ _ _ He2); (done || apply Hn).
  - intros rest V' x' Hrest Hmax HW. eapply (wrote_step 1 sb (view s) _ off chunk rest r (view s1) x1); try done; try lia.
    + rewrite length_app, Nat2Z.inj_add. fold len. lia.
    + fold n. fold d. by rewrite <- Ev2.
Qed.

Lemma iappend_loop_ok fuel s i din off p :
  mk_ok s -> wf s (inode_of i din) -> dense_to (view s) (inode_of i din) off ->
  0 <= off -> off + Z.of_nat (length p) <= 71680 -> (length p < fuel)%nat ->
  freeblock s + cost (off + Z.of_nat (length p)) - cost off <= 1000 ->
  exists din' s', exec (iappend_loop fuel din off p) s = Done (din', off + Z.of_nat (length p)) tt s' /\
    mk_ok s' /\ freeinode s' = freeinode s /\
    wrote 1 sb (view s) (inode_of i din) off p (view s') (inode_of i din') /\
    freeblock s <= freeblock s' <= freeblock s + cost (off + Z.of_nat (length p)) - cost off.
Proof.
  revert s din off p. induction fuel as [|fuel IH]; intros s din off p Hok Hw Hd Ho Hmax Hfu Hfree; [lia|].
  cbn [iappend_loop]. destruct (Z.ltb_spec 0 (Z.of_nat (length p))) as [Hp|Hp].
  2: { destruct p; [|simpl in Hp; lia]. simpl. rewrite Z.add_0_r. do 2 eexists. split; [done|]. split; [done|].
       split; [done|]. split; [|lia]. split; simpl; [by apply evolve_refl; [apply Hok|]|by apply overwritten_nil| |done].
       intros m (H & _). lia. }
  rewrite (proj2 (Z.ltb_lt (off / 512) MAXFILE)) by (change MAXFILE with 140; clear - Hp Hmax; dlia).
  replace (u32 ((off / 512 + 1) * 512 - off)) with (512 - off mod 512) by (rewrite u32_small; clear; dlia).
  replace (off - off / 512 * 512) with (off mod 512) by (clear; dlia).
  set (n1 := Z.min (Z.of_nat (length p)) (512 - off mod 512)). set (chunk := take (Z.to_nat n1) p).
  set (rest := drop (Z.to_nat n1) p).
  assert (Hn1 : 0 < n1 <= 512 - off mod 512 /\ n1 <= Z.of_nat (length p)) by (unfold n1; clear - Hp; dlia).
  assert (Hch : Z.of_nat (length chunk) = n1) by (unfold chunk; rewrite length_take; lia).
  assert (Hrl : Z.of_nat (length rest) = Z.of_nat (length p) - n1) by (unfold rest; rewrite length_drop; lia).
  assert (chunk ++ rest = p) as Hcr by apply take_drop.
  pose proof (cost_mono off (off + Z.of_nat (length p)) ltac:(lia)) as Hc1.
  pose proof (cost_mono (off + n1) (off + Z.of_nat (length p)) ltac:(lia)) as Hc2.
  destruct (append_pass s i din off chunk Hok Hw Hd) as (din1 & r & s1 & E1 & Hok2 & Hi2 & Hw2 & Hd2 & Hf2 & Hstep); [lia..|].
  rewrite Z2Nat.id in E1 by (clear - Ho; dlia). unfold assert. kexec. rewrite E1. kexec. rewrite exec_rsect. kexec.
  rewrite exec_wsect. kexec. rewrite u32_small by lia. rewrite Hch in *.
  destruct (IH _ din1 (off + n1) rest Hok2 Hw2 Hd2) as (din' & s' & E' & Hok' & Hi' & HW & Hf'); rewrite ?Hrl; try lia;
    replace (off + n1 + (Z.of_nat (length p) - n1)) with (off + Z.of_nat (length p)) by lia; [lia|].
  rewrite E'. rewrite Hrl in *. replace (off + n1 + (Z.of_nat (length p) - n1)) with (off + Z.of_nat (length p)) in * by lia.
  exists din', s'. split; [done|]. split; [done|]. split; [by rewrite Hi'|]. split; [|lia].
  rewrite <- Hcr at 1. apply Hstep; [|lia|exact HW].
  intros Hne. assert (0 < length rest)%nat by (destruct rest; [done|simpl; lia]). unfold n1 in *. lia.
Qed.

(** The inode [i] of a disk. *)
Definition ino (V : contents) (i : Z) : inode := inode_of i (get_dinode (V 1 (IBLOCK i)) i).

Lemma ino_synced V i : synced 1 V (ino V i).
Proof. unfold synced, ino. simpl. by destruct (get_dinode _ _). Qed.

Lemma synced_ino V x :
  idev x = 1 -> iref x = 0 -> iflags x = 0 -> synced 1 V x -> ino V (inum x) = x.
Proof. intros H1 H2 H3 H. unfold ino. rewrite H. destruct x. simpl in *. by subst. Qed.

Lemma iblock_range i : 0 <= i < 200 -> 2 <= IBLOCK i < 28.
Proof. intros H. unfold IBLOCK. change IPB with 8. clear - H. dlia. Qed.

(** Writing an inode. *)
Lemma exec_winode s i din :
  mk_ok s -> 0 <= i < 200 -> length (di_addrs din) = 13%nat ->
  exists s', exec (winode i din) s = Done tt tt s' /\ mk_ok s' /\
    view s' = upd_sector (view s) 1 (IBLOCK i) (put_dinode (view s 1 (IBLOCK i)) i din) /\
    freeblock s' = freeblock s /\ freeinode s' = freeinode s.
Proof.
  intros Hok Hi Hl. pose proof (iblock_range i Hi) as Hb. unfold winode. change (i2b i) with (IBLOCK i).
  kexec. rewrite exec_rsect. kexec. rewrite exec_wsect, <- view_img by lia. eexists. split; [done|].
  assert (length (put_dinode (view s 1 (IBLOCK i)) i din) = 512%nat) as Hp
    by (apply length_put_dinode; [apply length_view, Hok|done]).
  rewrite <- view_write by lia. split; [|done]. destruct Hok as [H1 H2 H3 H4]. split; [by apply lens_write|done|done|].
  rewrite view_write by lia. apply meta_fs; [done|]. change (sb_ninodes sb / 8 + 3) with 28. lia.
Qed.

Lemma exec_rinode s i : 0 <= i < 200 -> exec (rinode i) s = Done (get_dinode (view s 1 (IBLOCK i)) i) tt s.
Proof.
  intros Hi. pose proof (iblock_range i Hi). unfold rinode. kexec. rewrite exec_rsect. kexec.
  change (i2b i) with (IBLOCK i). by rewrite view_img by lia.
Qed.

(** Appending to a file does to it what the kernel's writei does. *)
Lemma iappend_ok s i p :
  let x := ino (view s) i in let off := isize x in let n := Z.of_nat (length p) in
  mk_ok s -> 0 <= i < 200 -> file_ok 1 sb (view s) x -> 0 < n -> off + n <= 71680 ->
  freeblock s + cost (off + n) - cost off <= 1000 ->
  exists s', exec (iappend i p) s = Done tt tt s' /\ mk_ok s' /\ freeinode s' = freeinode s /\
    written 1 sb (view s) x off p (view s') (ino (view s') i) /\
    freeblock s <= freeblock s' <= freeblock s + cost (off + n) - cost off /\
    (forall b, owns 1 (view s') (ino (view s') i) b -> owns 1 (view s) x b \/ freeblock s <= b).
Proof.
  intros x off n Hok Hi Hfo Hn Hmax Hfree. pose proof (fo_dense _ _ _ _ Hfo) as [Hsz Hde]. fold off in Hsz.
  pose proof (fo_wf _ _ _ _ Hfo) as Hwf. set (din := get_dinode (view s 1 (IBLOCK i)) i).
  unfold iappend. kexec. rewrite exec_rinode by done. kexec. fold din.
  change (di_size din) with off. rewrite xint_u32 by lia.
  destruct (iappend_loop_ok (length p + 1) s i din off p) as (din1 & s1 & E1 & Hok1 & Hi1 & HW & Hf1); try done; try lia.
  fold n in Hf1. rewrite E1. kexec. fold n. rewrite xint_u32 by lia.
  pose proof (wr_evolve _ _ _ _ _ _ _ _ HW) as He. pose proof (ev_wf _ _ _ _ _ _ He) as Hw1.
  destruct (exec_winode s1 i (set_dsize (off + n) din1) Hok1 Hi (wf_len _ _ _ _ Hw1)) as (s2 & E2 & Hok2 & Ev2 & Hf2 & Hi2).
  exists s2. split; [done|]. split; [done|]. split; [congruence|].
  pose proof (written_extend 1 sb (view s) x off p (view s1) (inode_of i din1)) as Hwr.
  cbv zeta in Hwr. fold n in Hwr. set (x' := set_size (off + n) (inode_of i din1)) in *.
  specialize (Hwr ltac:(intros; apply length_view, Hok1) Hfo ltac:(lia) ltac:(fold off; lia) HW).
  change (to_dinode x') with (set_dsize (off + n) din1) in Hwr. change (inum x') with i in Hwr. rewrite <- Ev2 in Hwr.
  assert (ino (view s2) i = x') as Ex.
  { apply (synced_ino (view s2) x'); try done. apply (wn_disk _ _ _ _ _ _ _ _ Hwr). left. fold off n. lia. }
  rewrite Ex. split; [done|]. split; [lia|]. intros b Hb.
  assert (owns 1 (view s1) (inode_of i din1) b) as Hb1.
  { destruct Hb as [H1 H2]. split; [done|]. rewrite Ev2, (meta_slots 1 sb) in H2; [done|apply Hok1| |exact (wf_set_size _ _ _ _ _ Hw1)].
    pose proof (iblock_range i Hi). change (sb_ninodes sb / 8 + 3) with 28. lia. }
  destruct (ev_own _ _ _ _ _ _ He b Hb1) as [|Hu]; [by left|right].
  destruct (wf_own _ _ _ _ Hw1 b Hb1) as [Hr _]. rewrite meta_end_29 in Hr. simpl in Hr. pose proof (mk_range _ Hok).
  rewrite used_view in Hu by lia. by apply Z.ltb_ge in Hu.
Qed.

(** ** The files of the image *)

(** Inode [i] is a file of type [t] that one directory names, with the
    contents [c] and zeros behind them. *)
Record holds (V : contents) (i t : Z) (c : bytes) : Prop := {
  h_ok : file_ok 1 sb V (ino V i);
  h_type : itype (ino V i) = t;
  h_link : inlink (ino V i) = 1;
  h_size : isize (ino V i) = Z.of_nat (length c);
  h_bytes : forall k, 0 <= k < 71680 -> fbyte 1 V (ino V i) k = byte_at c (Z.to_nat k)
}.

(** A file stays when its inode and its blocks stay. *)
Lemma holds_kept V V' i t c :
  holds V i t c -> fs_ok 1 sb V' -> ino V' i = ino V i ->
  (forall b, owns 1 V (ino V i) b -> V' 1 b = V 1 b /\ used V' 1 sb b = true) ->
  holds V' i t c /\ (forall b, owns 1 V' (ino V' i) b -> owns 1 V (ino V i) b).
Proof.
  intros [Hok Ht Hl Hsz Hby] Hfs Hi Hb. destruct Hok as [Hfs0 Hwf Hde Hin Hty H16]. set (y := ino V i) in *.
  assert (slots 1 V' y = slots 1 V y) as Hs.
  { unfold slots. destruct (Z.eqb_spec (addr y 12) 0) as [|H0]; [done|].
    by rewrite (proj1 (Hb (addr y 12) (ind_owned 1 sb V y Hwf H0))). }
  assert (forall m, blockno 1 V' y m = blockno 1 V y m) as Hbn by (intros m; unfold blockno; by rewrite Hs).
  assert (forall m, (m < 140)%nat -> fdata 1 V' y m = fdata 1 V y m) as Hfd.
  { intros m Hm. unfold fdata. rewrite Hbn. destruct (Z.eqb_spec (blockno 1 V y m) 0) as [|H0]; [done|].
    apply Hb. by eapply blockno_owns. }
  split; [split; rewrite Hi; [|exact Ht|exact Hl|exact Hsz|]|].
  - split; [exact Hfs| | |exact Hin|exact Hty|exact H16].
    + destruct Hwf as [W1 W2 W3 W4]. split; [exact W1|exact W2|by rewrite Hs|]. intros b [H1 H2]. rewrite Hs in H2.
      split; [exact (proj1 (W4 b (conj H1 H2)))|exact (proj2 (Hb b (conj H1 H2)))].
    + split; [apply Hde|]. intros m Hm. rewrite Hbn. by apply Hde.
  - intros k Hk. rewrite <- Hby by exact Hk. unfold fbyte, BSIZE. rewrite Hfd; [done|]. clear - Hk. dlia.
  - intros b [H1 H2]. rewrite Hi, Hs in H2. by split.
Qed.

Abbreviation files := (list (Z * bytes)).

Fixpoint total (D : files) : Z := match D with [] => 0 | (_, c) :: D' => cost (Z.of_nat (length c)) + total D' end.

(** The inodes 1, 2, ... are the files [D], which share no block. *)
Record minv (s : mk) (D : files) : Prop := {
  mi_ok : mk_ok s;
  mi_next : freeinode s = 1 + Z.of_nat (length D);
  mi_max : (length D < 200)%nat;
  mi_files : forall i t c, D !! i = Some (t, c) -> holds (view s) (1 + Z.of_nat i) t c;
  mi_disj : forall i j b, (i < length D)%nat -> (j < length D)%nat -> i <> j ->
    owns 1 (view s) (ino (view s) (1 + Z.of_nat i)) b -> ~ owns 1 (view s) (ino (view s) (1 + Z.of_nat j)) b;
  mi_free : freeblock s <= 29 + total D
}.

Lemma not_bitmap b : 29 <= b -> ~ is_bitmap sb b.
Proof.
  intros Hb (c & Hc & E). change (bitmap_end sb) with 4096 in Hc. rewrite BBLOCK_eq in E.
  change (sb_ninodes sb / 8) with 25 in E. clear - Hb Hc E. dlia.
Qed.

Lemma owned_range s x b : mk_ok s -> wf s x -> owns 1 (view s) x b -> 29 <= b < 1024 /\ b < freeblock s.
Proof.
  intros Hok Hw Hb. destruct (wf_own _ _ _ _ Hw b Hb) as [Hr Hu]. rewrite meta_end_29 in Hr. simpl in Hr.
  pose proof (mk_range _ Hok). rewrite used_view in Hu by lia. apply Z.ltb_lt in Hu. lia.
Qed.

Lemma total_insert D i t c c' :
  D !! i = Some (t, c) ->
  total (<[i := (t, c')]> D) = total D + cost (Z.of_nat (length c')) - cost (Z.of_nat (length c)).
Proof.
  revert i. induction D as [|[t0 c0] D IH]; intros [|i] H; simpl in *; [done|done| |].
  - injection H as -> ->. lia.
  - rewrite (IH i H). lia.
Qed.

Lemma cost_total_app D E : total (D ++ E) = total D + total E.
Proof. induction D as [|[t c] D IH]; simpl; [done|]. rewrite IH. lia. Qed.

Lemma cost_total_nonneg D : 0 <= total D.
Proof.
  induction D as [|[t c] D IH]; simpl; [done|]. pose proof (cost_mono 0 (Z.of_nat (length c)) ltac:(lia)) as H.
  change (cost 0) with 0 in H. lia.
Qed.

Lemma minv_low s D j b :
  minv s D -> (j < length D)%nat -> owns 1 (view s) (ino (view s) (1 + Z.of_nat j)) b -> b < freeblock s.
Proof.
  intros Hinv Hj Hb. destruct (lookup_lt_is_Some_2 D j Hj) as [[t c] Ej].
  exact (proj2 (owned_range s _ b (mi_ok _ _ Hinv) (fo_wf _ _ _ _ (h_ok _ _ _ _ (mi_files _ _ Hinv _ _ _ Ej))) Hb)).
Qed.

(** One file changes and takes free blocks only. *)
Lemma minv_step s D s' i t c :
  minv s D -> (i < length D)%nat -> mk_ok s' -> freeinode s' = freeinode s ->
  holds (view s') (1 + Z.of_nat i) t c ->
  (forall b, owns 1 (view s') (ino (view s') (1 + Z.of_nat i)) b ->
     owns 1 (view s) (ino (view s) (1 + Z.of_nat i)) b \/ freeblock s <= b) ->
  (forall j t' c', j <> i -> D !! j = Some (t', c') -> holds (view s') (1 + Z.of_nat j) t' c' /\
     forall b, owns 1 (view s') (ino (view s') (1 + Z.of_nat j)) b -> owns 1 (view s) (ino (view s) (1 + Z.of_nat j)) b) ->
  freeblock s' <= 29 + total (<[i := (t, c)]> D) -> minv s' (<[i := (t, c)]> D).
Proof.
  intros Hinv Hil Hok' Hi' Hnew Hown Hother Hfree.
  assert (Hcase : forall j b, (j < length D)%nat -> owns 1 (view s') (ino (view s') (1 + Z.of_nat j)) b ->
    owns 1 (view s) (ino (view s) (1 + Z.of_nat j)) b \/ (j = i /\ freeblock s <= b)).
  { intros j b Hj Hb. destruct (decide (j = i)) as [->|Hne]; [destruct (Hown b Hb); auto|]. left.
    destruct (lookup_lt_is_Some_2 D j Hj) as [[t' c'] Ej]. exact (proj2 (Hother j t' c' Hne Ej) b Hb). }
  split; rewrite ?length_insert.
  - exact Hok'.
  - rewrite Hi'. apply Hinv.
  - apply Hinv.
  - intros j t' c' Hj. destruct (decide (j = i)) as [->|Hne].
    + rewrite list_lookup_insert_eq in Hj by exact Hil. by injection Hj as <- <-.
    + rewrite list_lookup_insert_ne in Hj by done. by apply (Hother j t' c' Hne).
  - intros j k b Hj Hk Hjk Hb1 Hb2.
    destruct (Hcase j b Hj Hb1) as [H1|[-> H1]], (Hcase k b Hk Hb2) as [H2|[-> H2]]; try done.
    + exact (mi_disj _ _ Hinv j k b Hj Hk Hjk H1 H2).
    + pose proof (minv_low s D j b Hinv Hj H1). lia.
    + pose proof (minv_low s D k b Hinv Hk H2). lia.
  - exact Hfree.
Qed.

Section Append.
Context (s : mk) (D : files) (i : nat) (t : Z) (c p : bytes).
Context (Hinv : minv s D) (HD : D !! i = Some (t, c)) (Hp : p <> []).
Context (Hmax : Z.of_nat (length (c ++ p)) <= 71680).
Context (Hroom : 29 + total (<[i := (t, c ++ p)]> D) <= 1000).

Lemma append_index : (i < length D)%nat /\ 0 <= 1 + Z.of_nat i < 200.
Proof using All. pose proof (lookup_lt_Some _ _ _ HD). pose proof (mi_max _ _ Hinv). lia. Qed.

Lemma append_bytes s' :
  written 1 sb (view s) (ino (view s) (1 + Z.of_nat i)) (Z.of_nat (length c)) p (view s')
    (ino (view s') (1 + Z.of_nat i)) -> holds (view s') (1 + Z.of_nat i) t (c ++ p).
Proof using All.
  intros HW. destruct (mi_files _ _ Hinv _ _ _ HD) as [Hok Ht Hl Hs Hb]. pose proof (wn_meta _ _ _ _ _ _ _ _ HW) as Hm.
  split.
  - exact (wn_ok _ _ _ _ _ _ _ _ HW).
  - rewrite Hm. exact Ht.
  - rewrite Hm. exact Hl.
  - rewrite (wn_size _ _ _ _ _ _ _ _ HW), Hs, length_app. lia.
  - intros k Hk. rewrite (wn_bytes _ _ _ _ _ _ _ _ HW) by exact Hk. rewrite Hb by exact Hk. unfold byte_at.
    destruct (Z.leb_spec (Z.of_nat (length c)) k) as [H1|H1]; cbn [andb].
    + rewrite app_nth2 by lia. destruct (Z.ltb_spec k (Z.of_nat (length c) + Z.of_nat (length p))) as [H2|H2].
      * f_equal. lia.
      * rewrite !nth_overflow by lia. done.
    + rewrite app_nth1 by lia. done.
Qed.

(** The other files are not touched. *)
Lemma append_other s' j t' c' :
  mk_ok s' -> freeblock s <= freeblock s' ->
  written 1 sb (view s) (ino (view s) (1 + Z.of_nat i)) (Z.of_nat (length c)) p (view s')
    (ino (view s') (1 + Z.of_nat i)) -> j <> i -> D !! j = Some (t', c') ->
  holds (view s') (1 + Z.of_nat j) t' c' /\
  (forall b, owns 1 (view s') (ino (view s') (1 + Z.of_nat j)) b -> owns 1 (view s) (ino (view s) (1 + Z.of_nat j)) b).
Proof using All.
  intros Hok' Hf HW Hne Hj. pose proof (lookup_lt_Some _ _ _ Hj) as Hjl. pose proof append_index as [Hil Hir].
  pose proof (mi_max _ _ Hinv) as Hm. pose proof (mi_files _ _ Hinv _ _ _ Hj) as Hh.
  pose proof (mi_ok _ _ Hinv) as Hok. pose proof (fo_wf _ _ _ _ (h_ok _ _ _ _ Hh)) as Hwf.
  apply (holds_kept (view s)); [exact Hh|exact (mk_fs _ Hok')| |].
  - unfold ino. f_equal. apply (wn_inodes _ _ _ _ _ _ _ _ HW); simpl; lia.
  - intros b Hb. destruct (owned_range s _ b Hok Hwf Hb) as [Hr Hlt]. pose proof (mk_range _ Hok).
    pose proof (mk_range _ Hok'). split; [|rewrite used_view by lia; apply Z.ltb_lt; lia].
    apply (wn_frame _ _ _ _ _ _ _ _ HW).
    + right. split; [simpl; lia|]. split; [rewrite used_view by lia; by apply Z.ltb_lt|].
      split; [apply not_bitmap; lia|]. exact (mi_disj _ _ Hinv j i b Hjl Hil Hne Hb).
    + pose proof (iblock_range (1 + Z.of_nat i) Hir). simpl. intros [= ->]. lia.
Qed.

(** iappend on one of the files. *)
Lemma append_file :
  exists s', exec (iappend (1 + Z.of_nat i) p) s = Done tt tt s' /\ minv s' (<[i := (t, c ++ p)]> D).
Proof using All.
  pose proof append_index as [Hil Hir]. pose proof (mi_files _ _ Hinv _ _ _ HD) as Hh.
  pose proof (mi_free _ _ Hinv) as Hf. pose proof Hroom as Hr. pose proof Hmax as Hm.
  rewrite (total_insert _ _ _ c) in Hr by exact HD. rewrite length_app, Nat2Z.inj_add in Hm, Hr. assert (0 < length p)%nat by (destruct p; [done|simpl; lia]).
  destruct (iappend_ok s (1 + Z.of_nat i) p) as (s' & E & Hok' & Hi' & HW & Hf' & Hown);
    rewrite ?(h_size _ _ _ _ Hh); try lia; [exact (mi_ok _ _ Hinv)|exact (h_ok _ _ _ _ Hh)|].
  rewrite (h_size _ _ _ _ Hh) in HW, Hf'. exists s'. split; [exact E|].
  apply (minv_step s); [exact Hinv|exact Hil|exact Hok'|exact Hi'|exact (append_bytes s' HW)|exact Hown| |].
  - intros j t' c' Hne Hj. exact (append_other s' j t' c' Hok' (proj1 Hf') HW Hne Hj).
  - rewrite (total_insert _ _ _ c) by exact HD. rewrite length_app, Nat2Z.inj_add. lia.
Qed.
End Append.

(** Writing an inode keeps the other files. *)
Section Inode.
Context (V : contents) (i : Z) (din : dinode).
Context (Hfs : fs_ok 1 sb V) (H512 : forall n, length (V 1 n) = 512%nat).
Context (Hi : 0 <= i < 200) (Hdin : dinode_ok din).
Let V' : contents := upd_sector V 1 (IBLOCK i) (put_dinode (V 1 (IBLOCK i)) i din).

Lemma inode_written : ino V' i = inode_of i din.
Proof using H512 Hdin. unfold ino, V'. rewrite upd_sector_same. by rewrite get_put_dinode. Qed.

Lemma inode_sector : 2 <= IBLOCK i < sb_ninodes sb / 8 + 3.
Proof using Hi. change (sb_ninodes sb / 8 + 3) with 28. by apply iblock_range. Qed.

Lemma inode_kept j : 0 <= j < 200 -> j <> i -> ino V' j = ino V j.
Proof using H512 Hi Hdin.
  intros Hj Hne. unfold ino, V'. f_equal. destruct (decide (IBLOCK j = IBLOCK i)) as [E|E].
  - rewrite E, upd_sector_same. apply get_put_dinode_other; [apply H512|apply Hdin|lia..|].
    unfold IBLOCK in E. change IPB with 8 in *. clear - E Hne Hi Hj. dlia.
  - by rewrite upd_sector_other by congruence.
Qed.

Lemma inode_others j t c :
  0 <= j < 200 -> j <> i -> holds V j t c ->
  holds V' j t c /\ (forall b, owns 1 V' (ino V' j) b -> owns 1 V (ino V j) b).
Proof using All.
  intros Hj Hne Hh. apply holds_kept; [exact Hh|by apply meta_fs; [|apply inode_sector]|by apply inode_kept|].
  intros b Hb. destruct (wf_own _ _ _ _ (fo_wf _ _ _ _ (h_ok _ _ _ _ Hh)) b Hb) as [Hr Hu].
  rewrite meta_end_29 in Hr. pose proof inode_sector as Hs. change (sb_ninodes sb / 8 + 3) with 28 in Hs.
  split; [apply meta_other; lia|]. unfold V'. rewrite meta_used; [exact Hu|exact inode_sector|lia].
Qed.
End Inode.

Definition din0 (t : Z) : dinode := mkdinode t 0 0 1 0 (replicate 13 0).

Lemma empty_slots V i t b : ~ owns 1 V (inode_of i (din0 t)) b.
Proof.
  intros [H0 H]. unfold slots in H. change (addr (inode_of i (din0 t)) 12) with 0 in H. cbn [Z.eqb] in H.
  change (iaddrs (inode_of i (din0 t))) with (replicate 13 0) in H. rewrite <- replicate_add in H.
  apply H0. by apply elem_of_replicate in H as [-> _].
Qed.

(** A new inode is an empty file. *)
Lemma empty_file V i t :
  fs_ok 1 sb V -> 0 <= i < 200 -> is_i16 t -> t <> T_DEV -> ino V i = inode_of i (din0 t) -> holds V i t [].
Proof.
  intros Hfs Hi Ht Hd E. assert (wf_file 1 sb V (inode_of i (din0 t))) as Hw.
  { split; [done|done| |intros b Hb; by apply empty_slots in Hb].
    intros j k a Hj _ Ha. exfalso. eapply (empty_slots V i t a). split; [done|]. by eapply list_elem_of_lookup_2. }
  split; rewrite E; try done.
  - split; [exact Hfs|exact Hw|split; [simpl; lia|intros n Hn; simpl in Hn; lia]|exact Hi|exact Hd|].
    split; [exact Ht|]. by repeat split.
  - intros k Hk. unfold fbyte, fdata, BSIZE. assert (Z.to_nat (k / 512) < 140)%nat as Hn by (clear - Hk; dlia).
    assert (blockno 1 V (inode_of i (din0 t)) (Z.to_nat (k / 512)) = 0) as ->.
    { destruct (decide (blockno 1 V (inode_of i (din0 t)) (Z.to_nat (k / 512)) = 0)) as [|H0]; [done|].
      exfalso. apply (empty_slots V i t _ (blockno_owns 1 sb V _ _ Hw Hn H0)). }
    cbn [Z.eqb]. rewrite byte_at_zeros. unfold byte_at. by destruct (Z.to_nat k).
Qed.

Lemma ialloc_ok s D t :
  minv s D -> (length D < 199)%nat -> 0 <= t < 32768 -> t <> T_DEV ->
  exists s', exec (ialloc t) s = Done (1 + Z.of_nat (length D)) tt s' /\ minv s' (D ++ [(t, [])]).
Proof.
  intros Hinv HD Ht Hd. pose proof (mi_ok _ _ Hinv) as Hok. set (i := 1 + Z.of_nat (length D)).
  unfold ialloc. kexec. rewrite (mi_next _ _ Hinv), xshort_u16, u32_small by lia. fold i.
  change (mkdinode t 0 0 (xshort 1) (xint 0) (replicate 13 0)) with (din0 t).
  set (s1 := mkmk (img s) (freeblock s) (usedblocks s) (i + 1)).
  assert (mk_ok s1) as Hok1 by (destruct Hok as [H1 H2 H3 H4]; by split).
  destruct (exec_winode s1 i (din0 t) Hok1) as (s' & E & Hok' & Ev & Hf' & Hi'); [lia|done|].
  rewrite E. kexec. exists s'. split; [done|]. change (view s1) with (view s) in Ev.
  assert (dinode_ok (din0 t)) as Hdin by (split_and!; try done; [unfold is_i16; simpl; lia|by repeat constructor]).
  assert (H512 : forall n, length (view s 1 n) = 512%nat) by (intros n; apply length_view, Hok).
  assert (ino (view s') i = inode_of i (din0 t)) as Ei by (rewrite Ev; by apply inode_written).
  assert (Hold : forall j, (j < length D)%nat -> exists t' c', D !! j = Some (t', c') /\
    holds (view s') (1 + Z.of_nat j) t' c' /\
    (forall b, owns 1 (view s') (ino (view s') (1 + Z.of_nat j)) b -> owns 1 (view s) (ino (view s) (1 + Z.of_nat j)) b)).
  { intros j Hj. destruct (lookup_lt_is_Some_2 D j Hj) as [[t' c'] Ej]. exists t', c'. split; [done|]. rewrite Ev.
    apply inode_others; try done; [apply Hok|lia..|]. exact (mi_files _ _ Hinv _ _ _ Ej). }
  split; rewrite ?length_app; simpl length.
  - exact Hok'.
  - rewrite Hi'. unfold s1, i. simpl. lia.
  - lia.
  - intros j t' c' Hj. apply lookup_app_Some in Hj as [Hj|[Hj1 Hj2]].
    + destruct (Hold j (lookup_lt_Some _ _ _ Hj)) as (t2 & c2 & E2 & Hh & _). by simplify_eq.
    + destruct (j - length D)%nat as [|k] eqn:Ek; [|done]. injection Hj2 as <- <-.
      replace (1 + Z.of_nat j) with i by lia. apply empty_file; try done; [apply Hok'|lia|unfold is_i16; lia].
  - intros j k b Hj Hk Hjk Hb1 Hb2.
    assert (Hlt : forall m, (m < length D + 1)%nat -> owns 1 (view s') (ino (view s') (1 + Z.of_nat m)) b -> (m < length D)%nat).
    { intros m Hm Hb. destruct (decide (m < length D)%nat) as [|Hge]; [done|]. exfalso.
      replace (1 + Z.of_nat m) with i in Hb by lia. rewrite Ei in Hb. by apply empty_slots in Hb. }
    pose proof (Hlt j Hj Hb1) as Hj'. pose proof (Hlt k Hk Hb2) as Hk'.
    destruct (Hold j Hj') as (_ & _ & _ & _ & O1), (Hold k Hk') as (_ & _ & _ & _ & O2).
    exact (mi_disj _ _ Hinv j k b Hj' Hk' Hjk (O1 b Hb1) (O2 b Hb2)).
  - rewrite Hf', cost_total_app. change (freeblock s1) with (freeblock s). pose proof (mi_free _ _ Hinv). simpl. change (cost (Z.of_nat 0)) with 0. lia.
Qed.

(** ** The files of the command line *)

(** The pieces that read returned, appended one after the other. *)
Lemma append_pieces ps s D i t c :
  minv s D -> D !! i = Some (t, c) -> Forall (fun p => p <> []) ps ->
  Z.of_nat (length (c ++ concat ps)) <= 71680 -> 29 + total (<[i := (t, c ++ concat ps)]> D) <= 1000 ->
  exists s', exec (kforeach ps (iappend (1 + Z.of_nat i))) s = Done tt tt s' /\
    minv s' (<[i := (t, c ++ concat ps)]> D).
Proof.
  revert s D c. induction ps as [|p ps IH]; intros s D c Hinv HD Hps Hmax Hroom; cbn [kforeach concat] in *.
  - rewrite app_nil_r, list_insert_id by done. eauto.
  - pose proof (Forall_inv Hps) as Hp. apply Forall_inv_tail in Hps. rewrite app_assoc in *.
    assert (Hil : (i < length D)%nat) by (by eapply lookup_lt_Some).
    destruct (append_file s D i t c p) as (s1 & E1 & Hinv1); try done.
    + rewrite length_app in Hmax. lia.
    + rewrite (total_insert D i t c) in Hroom |- * by done. rewrite (length_app (c ++ p)) in *.
      pose proof (cost_mono (Z.of_nat (length (c ++ p))) (Z.of_nat (length (c ++ p) + length (concat ps)))). lia.
    + kexec. rewrite E1. kexec. destruct (IH s1 (<[i := (t, c ++ p)]> D) (c ++ p)) as (s2 & E2 & Hinv2); try done.
      * by rewrite list_lookup_insert_eq.
      * by rewrite list_insert_insert_eq.
      * rewrite E2. rewrite list_insert_insert_eq in Hinv2. eauto.
Qed.

(** The root directory and the files after some files of the command line. *)
Definition dirents (names : list bytes) : bytes :=
  concat (imap (fun k name => de_of (2 + Z.of_nat k) (skip_underscore name)) names).
Definition root_bytes (names : list bytes) : bytes :=
  de_of 1 (chars ".") ++ de_of 1 (chars "..") ++ dirents names.
Definition image_files (fs : list (bytes * list bytes)) : files :=
  (T_DIR, root_bytes (fst <$> fs)) :: ((fun f => (T_FILE, concat (snd f))) <$> fs).

Lemma length_de_of i name : length (de_of i name) = 16%nat.
Proof. apply length_enc_dirent, Cstring.length_strncpy_bytes. Qed.

Lemma dirents_snoc names name :
  dirents (names ++ [name]) = dirents names ++ de_of (2 + Z.of_nat (length names)) (skip_underscore name).
Proof. unfold dirents. rewrite imap_app, concat_app. simpl. by rewrite app_nil_r, Nat.add_0_r. Qed.

Lemma length_root_bytes names : length (root_bytes names) = (16 * (2 + length names))%nat.
Proof.
  unfold root_bytes. rewrite !length_app, !length_de_of. enough (length (dirents names) = 16 * length names)%nat by lia.
  induction names as [|name names IH] using rev_ind; [done|].
  rewrite dirents_snoc, !length_app, length_de_of, IH. simpl. lia.
Qed.

Lemma image_files_snoc fs name ps :
  image_files (fs ++ [(name, ps)]) =
  <[0%nat := (T_DIR, root_bytes (fst <$> fs) ++ de_of (2 + Z.of_nat (length fs)) (skip_underscore name))]>
    (image_files fs ++ [(T_FILE, concat ps)]).
Proof.
  unfold image_files. cbn [app insert list_insert]. rewrite !fmap_app. change (fst <$> [(name, ps)]) with [name]. unfold root_bytes.
  rewrite dirents_snoc, length_fmap, !app_assoc. done.
Qed.

(** What mkfs takes: no slash in the name, a size that fits an inode. *)
Definition file_fits (f : bytes * list bytes) : Prop :=
  existsb (Z.eqb 47) (fst f) = false /\ Forall (fun p => p <> []) (snd f) /\
  Z.of_nat (length (concat (snd f))) <= 71680.

Lemma total_file t c D : total ((t, c) :: D) = cost (Z.of_nat (length c)) + total D.
Proof. done. Qed.

Lemma cost_root_snoc fs name ps :
  total (image_files fs) + cost (Z.of_nat (length (concat ps))) <= total (image_files (fs ++ [(name, ps)])).
Proof.
  unfold image_files. rewrite !total_file, fmap_app, !length_root_bytes, fmap_app, cost_total_app, length_app. simpl.
  pose proof (cost_mono (Z.of_nat (16 * (2 + length (fst <$> fs)))) (Z.of_nat (16 * (2 + (length (fst <$> fs) + 1)))) ltac:(lia)).
  simpl in *. lia.
Qed.

Lemma add_file_ok s fs f :
  minv s (image_files fs) -> file_fits f -> (length fs < 198)%nat ->
  29 + total (image_files (fs ++ [f])) <= 1000 ->
  exists s', exec (add_file 1 f) s = Done tt tt s' /\ minv s' (image_files (fs ++ [f])).
Proof.
  destruct f as [name ps]. intros Hinv (Hsl & Hps & Hsz) Hlen Hroom. simpl in Hsl, Hps, Hsz.
  set (D := image_files fs) in *. assert (length D = S (length fs)) as HlD by (unfold D; simpl; by rewrite length_fmap).
  unfold add_file. rewrite Hsl. unfold assert. cbn [negb]. kexec.
  destruct (ialloc_ok s D T_FILE Hinv) as (s1 & E1 & Hinv1); [lia|unfold T_FILE; lia|done|]. rewrite E1. kexec.
  set (inum := 1 + Z.of_nat (length D)). set (de := de_of inum (skip_underscore name)).
  assert (D !! 0%nat = Some (T_DIR, root_bytes (fst <$> fs))) as H0 by done.
  pose proof (total_insert (D ++ [(T_FILE, [])]) 0 T_DIR (root_bytes (fst <$> fs)) (root_bytes (fst <$> fs) ++ de)
    (lookup_app_l_Some _ _ _ _ H0)) as Ht0.
  set (D2 := <[0%nat := (T_DIR, root_bytes (fst <$> fs) ++ de)]> (D ++ [(T_FILE, [])])) in *.
  assert (<[length D := (T_FILE, concat ps)]> D2 = image_files (fs ++ [(name, ps)])) as EF.
  { unfold D2. rewrite list_insert_insert_ne by lia. rewrite insert_app_r_alt by lia. rewrite Nat.sub_diag. simpl.
    rewrite image_files_snoc. fold D. unfold de, inum. rewrite HlD.
    by replace (1 + Z.of_nat (S (length fs))) with (2 + Z.of_nat (length fs)) by lia. }
  assert (D2 !! length D = Some (T_FILE, [])) as HD2.
  { unfold D2. rewrite list_lookup_insert_ne by lia. rewrite lookup_app_r by lia. by rewrite Nat.sub_diag. }
  pose proof (total_insert D2 (length D) T_FILE [] (concat ps) HD2) as Ht2. rewrite EF in Ht2.
  change (cost (Z.of_nat (length []))) with 0 in Ht2.
  pose proof (cost_mono 0 (Z.of_nat (length (concat ps))) ltac:(lia)) as Hc. change (cost 0) with 0 in Hc.
  destruct (append_file s1 (D ++ [(T_FILE, [])]) 0 T_DIR (root_bytes (fst <$> fs)) de) as (s2 & E2 & Hinv2); try done.
  - unfold de. rewrite length_app, length_root_bytes, length_de_of, length_fmap. lia.
  - fold D2. lia.
  - change (1 + Z.of_nat 0) with 1 in E2. rewrite E2. kexec. fold D2 in Hinv2.
    destruct (append_pieces ps s2 D2 (length D) T_FILE [] Hinv2 HD2 Hps) as (s3 & E3 & Hinv3); simpl app; [done|rewrite EF; lia|].
    unfold inum. rewrite E3. simpl app in Hinv3. rewrite EF in Hinv3. eauto.
Qed.

Lemma total_prefix fs gs : total (image_files fs) <= total (image_files (fs ++ gs)).
Proof.
  induction gs as [|[name ps] gs IH] using rev_ind; [by rewrite app_nil_r|]. rewrite app_assoc.
  pose proof (cost_root_snoc (fs ++ gs) name ps). pose proof (cost_mono 0 (Z.of_nat (length (concat ps))) ltac:(lia)) as Hc.
  change (cost 0) with 0 in Hc. lia.
Qed.

Lemma add_files_ok gs s fs :
  minv s (image_files fs) -> Forall file_fits gs -> (length (fs ++ gs) <= 198)%nat ->
  29 + total (image_files (fs ++ gs)) <= 1000 ->
  exists s', exec (kforeach gs (add_file 1)) s = Done tt tt s' /\ minv s' (image_files (fs ++ gs)).
Proof.
  revert s fs. induction gs as [|g gs IH]; intros s fs Hinv Hg Hlen Hroom; cbn [kforeach].
  - rewrite app_nil_r. eauto.
  - rewrite cons_middle, app_assoc in *. pose proof (total_prefix (fs ++ [g]) gs) as Ht.
    rewrite !length_app in Hlen. simpl in Hlen.
    destruct (add_file_ok s fs g Hinv (Forall_inv Hg)) as (s1 & E1 & Hinv1); [lia..|].
    kexec. rewrite E1. kexec. apply IH; [done|exact (Forall_inv_tail Hg)|rewrite !length_app; simpl; lia|done].
Qed.

(** ** The empty file system *)

Lemma exec_zero l s :
  exists s', exec (kforeach l (fun i => wsect i (replicate 512 0))) s = Done tt tt s' /\
    freeblock s' = freeblock s /\ usedblocks s' = usedblocks s /\ freeinode s' = freeinode s /\
    forall n, img s' n = if bool_decide (n ∈ l) then replicate 512 0 else img s n.
Proof.
  revert s. induction l as [|i l IH]; intros s; cbn [kforeach].
  - exists s. split_and!; try done.
  - kexec. rewrite exec_wsect. kexec. destruct (IH (write_img i (replicate 512 0) s)) as (s' & E & H1 & H2 & H3 & H4).
    exists s'. split; [exact E|]. split_and!; try done. intros n. rewrite H4. cbn [img write_img set_img].
    destruct (Z.eqb_spec n i) as [->|Hne].
    + rewrite (bool_decide_eq_true_2 (i ∈ i :: l)) by left. by case_bool_decide.
    + rewrite (bool_decide_ext (n ∈ i :: l) (n ∈ l)) by (rewrite elem_of_cons; split; [intros [?|?]; done|by right]). done.
Qed.

(** An image of zeros but for the super block. *)
Lemma empty_ok s tail :
  length tail = 500%nat -> freeblock s = 29 -> usedblocks s = 29 -> freeinode s = 1 ->
  (forall n, 0 <= n < 1024 -> img s n = if n =? 1 then sb_bytes tail else replicate 512 0) -> minv s [].
Proof.
  intros Ht Hf Hu Hi Himg. split; simpl; try (done || lia). split.
  - intros n Hn. rewrite Himg by done. destruct (n =? 1); [|apply length_replicate].
    unfold sb_bytes. rewrite !length_app, !length_le_enc, length_take. lia.
  - lia.
  - lia.
  - split; [split; try done|done|].
    + rewrite view_img, Himg by lia. done.
    + intros b Hb Hub. simpl in Hb. rewrite used_view in Hub by lia. apply Z.ltb_ge in Hub. rewrite meta_end_29.
      split; [lia|]. rewrite view_img, Himg by lia. by rewrite (proj2 (Z.eqb_neq b 1)) by lia.
Qed.

(** ** The size of the root directory *)

(** The size is rounded up to the end of the last block, whose rest is zero. *)
Definition padded (c : bytes) : bytes := c ++ replicate (512 - length c mod 512) 0.

Lemma byte_at_padded c k : byte_at (padded c) k = byte_at c k.
Proof.
  unfold padded. destruct (decide (k < length c)%nat) as [H|H].
  - unfold byte_at. by rewrite app_nth1.
  - unfold byte_at at 1. rewrite app_nth2 by lia. fold (byte_at (replicate (512 - length c mod 512) 0) (k - length c)).
    rewrite byte_at_zeros. unfold byte_at. by rewrite nth_overflow by lia.
Qed.

Lemma length_padded c : Z.of_nat (length (padded c)) = (Z.of_nat (length c) / 512 + 1) * 512.
Proof.
  unfold padded. rewrite length_app, length_replicate. pose proof (Nat.mod_upper_bound (length c) 512).
  rewrite Nat2Z.inj_add, Nat2Z.inj_sub, Nat2Z.inj_mod by lia. clear. dlia.
Qed.

Lemma cost_padded c :
  (length c mod 512 <> 0)%nat -> cost (Z.of_nat (length (padded c))) = cost (Z.of_nat (length c)).
Proof.
  intros H. assert (Z.of_nat (length c) mod 512 <> 0) as H' by (rewrite <- (Nat2Z.inj_mod _ 512); lia).
  rewrite length_padded. generalize dependent (Z.of_nat (length c)). intros z Hz. unfold cost.
  replace (((z / 512 + 1) * 512 + 511) / 512) with ((z + 511) / 512) by (clear - Hz; dlia). f_equal.
  destruct (Z.ltb_spec 6144 ((z / 512 + 1) * 512)) as [A|A], (Z.ltb_spec 6144 z) as [B|B]; try done; exfalso; clear - Hz A B; dlia.
Qed.

Lemma padded_file s D t c :
  minv s D -> D !! 0%nat = Some (t, c) -> (length c mod 512 <> 0)%nat -> Z.of_nat (length c) <= 71000 ->
  exists din s', exec (rinode 1) s = Done din tt s /\
    exec (winode 1 (set_dsize (xint (u32 ((xint (di_size din) / BSIZE + 1) * BSIZE))) din)) s = Done tt tt s' /\
    minv s' (<[0%nat := (t, padded c)]> D).
Proof.
  intros Hinv HD Hmod Hmax. pose proof (mi_files _ _ Hinv _ _ _ HD) as [Hok Ht Hl Hsz Hb]. change (1 + Z.of_nat 0) with 1 in *.
  pose proof (mi_ok _ _ Hinv) as Hmk. pose proof (lookup_lt_Some _ _ _ HD) as Hlt. pose proof (mi_max _ _ Hinv) as Hm.
  set (x := ino (view s) 1) in *. destruct Hok as [Hfs Hwf Hde Hin Hty H16]. pose proof (length_padded c) as Hlp.
  exists (get_dinode (view s 1 (IBLOCK 1)) 1). rewrite exec_rinode by lia. change (di_size (get_dinode (view s 1 (IBLOCK 1)) 1)) with (isize x).
  rewrite Hsz, (xint_u32 (Z.of_nat _)) by lia. change BSIZE with 512. rewrite <- Hlp, u32_small, xint_u32 by (rewrite Hlp; clear - Hmax; dlia).
  set (N := Z.of_nat (length (padded c))) in *.
  destruct (exec_winode s 1 (set_dsize N (get_dinode (view s 1 (IBLOCK 1)) 1)) Hmk) as (s' & E & Hok' & Ev & Hf' & Hi');
    [lia|apply Hwf|].
  assert (H512 : forall n, length (view s 1 n) = 512%nat) by (intros n; apply length_view, Hmk).
  pose proof (wf_set_size 1 sb (view s) x N Hwf) as Hwf'.
  assert (dinode_ok (to_dinode (set_size N x))) as Hdin.
  { apply (dinode_ok_file 1 sb (view s)); try done. unfold is_u32. cbn [isize set_size]. rewrite Hlp. clear - Hmax. dlia. }
  assert (2 <= IBLOCK 1 < sb_ninodes sb / 8 + 3) as Hsec by (split; vm_compute; done).
  assert (ino (view s') 1 = set_size N x) as Ex.
  { rewrite Ev. by apply (inode_written (view s) 1 (to_dinode (set_size N x))). }
  exists s'. split; [done|]. split; [exact E|]. apply (minv_step s); [exact Hinv|exact Hlt|exact Hok'|exact Hi'| | | |].
  - split; change (1 + Z.of_nat 0) with 1; rewrite Ex; [|exact Ht|exact Hl|done|].
    + split; [exact (mk_fs _ Hok')|rewrite Ev; by apply meta_wf| |exact Hin|exact Hty|exact H16].
      split; [cbn [isize set_size]; rewrite Hlp; clear - Hmax; dlia|]. intros n Hn. rewrite Ev, (meta_blockno 1 sb) by done.
      apply Hde. rewrite Hsz. cbn [isize set_size] in Hn. rewrite Hlp in Hn.
      assert (Z.of_nat (length c) mod 512 <> 0) as H' by (rewrite <- (Nat2Z.inj_mod _ 512); lia). clear - Hn H'. dlia.
    + intros k Hk. rewrite byte_at_padded, <- Hb by exact Hk. rewrite Ev. unfold fbyte, BSIZE.
      rewrite (meta_fdata 1 sb); [done|exact Hfs|exact Hsec|exact Hwf'|clear - Hk; dlia].
  - change (1 + Z.of_nat 0) with 1. intros b [H1 H2]. left. split; [done|].
    by rewrite Ex, Ev, (meta_slots 1 sb) in H2.
  - intros j t' c' Hne Hj. pose proof (lookup_lt_Some _ _ _ Hj). rewrite Ev.
    apply (inode_others (view s) 1 (to_dinode (set_size N x))); [exact Hfs|exact H512|lia|exact Hdin|lia|lia|].
    exact (mi_files _ _ Hinv _ _ _ Hj).
  - rewrite (total_insert _ _ _ c), cost_padded, Hf' by done. pose proof (mi_free _ _ Hinv). lia.
Qed.

(** ** Looking up a name *)

(** Two names are the same to namecmp when their first 14 bytes are. *)
Definition key (name : bytes) : bytes := Cstring.cstr (byte_at name) 14 0.
Definition stored (i : Z) (name : bytes) : dirent := mkdirent i (Cstring.strncpy_bytes (byte_at name) 14).

Lemma matches_stored name i name' :
  Forall is_byte name -> Forall is_byte name' -> 0 < i ->
  FsDir.matches name (stored i name') = bool_decide (key name = key name').
Proof.
  intros H1 H2 Hi. unfold FsDir.matches, namecmp. simpl. rewrite (proj2 (Z.eqb_neq i 0)) by lia. simpl.
  assert (forall l k, Forall is_byte l -> is_byte (byte_at l k)) as Hby.
  { intros l k Hl. unfold byte_at. rewrite nth_lookup. destruct (l !! k) eqn:E; [|done]. by eapply Forall_lookup in E. }
  assert (Forall is_byte (Cstring.strncpy_bytes (byte_at name') 14)) as H3.
  { unfold Cstring.strncpy_bytes. apply Forall_app. split; [|by apply Forall_replicate].
    generalize 0%nat, 14%nat. intros k n. revert k. induction n as [|n IH]; intros k; simpl; [constructor|].
    destruct (byte_at name' k =? 0); constructor; [by apply Hby|done]. }
  pose proof (Cstring.strncmp_zero (byte_at name) (byte_at (Cstring.strncpy_bytes (byte_at name') 14)) 14
    (fun k => Hby _ k H1) (fun k => Hby _ k H3)) as Hz. change (Z.to_nat 14) with 14%nat in Hz.
  rewrite FsDir.cstr_strncpy_bytes in Hz. fold (key name) (key name') in Hz.
  apply eq_true_iff_eq. by rewrite Z.eqb_eq, bool_decide_eq_true.
Qed.

Lemma slice_concat16 (L : list bytes) z k e :
  Forall (fun d => length d = 16%nat) L -> L !! k = Some e -> slice (concat L ++ z) (16 * k) 16 = e.
Proof.
  intros HL. revert k. induction HL as [|d L Hd HL IH]; intros [|k] Hk; [done|done| |]; simpl in Hk.
  - injection Hk as ->. unfold slice. simpl. rewrite <- app_assoc, <- Hd. apply take_app_length.
  - rewrite <- (IH k Hk). unfold slice. simpl concat. rewrite <- app_assoc.
    replace (16 * S k)%nat with (length d + 16 * k)%nat by lia. by rewrite <- drop_drop, drop_app_length.
Qed.

(** The entries of the root directory, as numbers and names. *)
Definition root_names (names : list bytes) : list (Z * bytes) :=
  (1, chars ".") :: (1, chars "..") :: imap (fun k name => (2 + Z.of_nat k, skip_underscore name)) names.

Lemma root_bytes_concat names :
  root_bytes names = concat ((fun e => de_of (fst e) (snd e)) <$> root_names names).
Proof. unfold root_bytes, root_names, dirents. simpl. by rewrite fmap_imap. Qed.

Lemma root_entry V names k i name :
  holds V 1 T_DIR (padded (root_bytes names)) -> (length names <= 198)%nat ->
  root_names names !! k = Some (i, name) -> 0 <= i < 65536 ->
  FsDir.entry 1 V (ino V 1) (Z.of_nat k) = stored i name.
Proof.
  intros Hh Hlen Hk Hi. set (L := (fun e => de_of (fst e) (snd e)) <$> root_names names).
  assert (k < 2 + length names)%nat as Hkl.
  { apply lookup_lt_Some in Hk. unfold root_names in Hk. simpl in Hk. by rewrite length_imap in Hk. }
  assert (L !! k = Some (de_of i name)) as HL by (unfold L; by rewrite list_lookup_fmap, Hk).
  assert (Forall (fun d => length d = 16%nat) L) as H16.
  { apply Forall_forall. intros d Hd. apply list_elem_of_fmap in Hd as (e & -> & _). apply length_de_of. }
  unfold FsDir.entry.
  replace (fbyte 1 V (ino V 1) <$> seqZ (16 * Z.of_nat k) 16) with (de_of i name).
  - unfold de_of. rewrite xshort_u16 by lia. apply dec_enc_dirent; [done|apply Cstring.length_strncpy_bytes].
  - pose proof (slice_concat16 L (replicate (512 - length (root_bytes names) mod 512) 0) k _ H16 HL) as Hs.
    apply list_eq. intros j. rewrite list_lookup_fmap. destruct (decide (j < 16)%nat) as [Hj|Hj].
    + rewrite lookup_seqZ_lt by lia. cbn [fmap option_fmap option_map]. rewrite (h_bytes _ _ _ _ Hh) by lia.
      rewrite <- Hs, lookup_slice by done. unfold padded. rewrite root_bytes_concat. fold L.
      replace (Z.to_nat (16 * Z.of_nat k + Z.of_nat j)) with (16 * k + j)%nat by lia.
      unfold byte_at. rewrite nth_lookup. destruct (lookup_lt_is_Some_2 (concat L ++ replicate (512 - length (concat L) mod 512) 0) (16 * k + j)) as [b Eb].
      { rewrite length_app. unfold L. rewrite <- root_bytes_concat, length_root_bytes. lia. }
      rewrite root_bytes_concat in *. fold L. by rewrite Eb.
    + rewrite lookup_seqZ_ge by lia. apply lookup_ge_None_2. rewrite length_de_of. lia.
Qed.

(** dirlookup finds the files by their names. *)
Lemma root_find V names k name :
  holds V 1 T_DIR (padded (root_bytes names)) -> (length names <= 198)%nat ->
  NoDup (key ∘ snd <$> root_names names) -> Forall (Forall is_byte) (snd <$> root_names names) ->
  names !! k = Some name ->
  FsDir.dir_find 1 V (ino V 1) (skip_underscore name) (Z.to_nat (32 * FsDir.nblocks (ino V 1))) 0 =
    Some (2 + Z.of_nat k, 2 + Z.of_nat k).
Proof.
  intros Hh Hlen Hnd Hby Hk. pose proof (lookup_lt_Some _ _ _ Hk) as Hkl.
  assert (root_names names !! (2 + k)%nat = Some (2 + Z.of_nat k, skip_underscore name)) as Hr
    by (simpl; by rewrite list_lookup_imap, Hk).
  assert (Hent : forall j, (j < 2 + length names)%nat -> exists i nm, root_names names !! j = Some (i, nm) /\
    0 < i < 65536 /\ FsDir.entry 1 V (ino V 1) (Z.of_nat j) = stored i nm /\ Forall is_byte nm).
  { intros j Hj. destruct (lookup_lt_is_Some_2 (root_names names) j) as [[i nm] Ej];
      [simpl; by rewrite length_imap|]. exists i, nm.
    assert (0 < i < 65536) as Hi.
    { destruct j as [|[|j]]; simpl in Ej; [by injection Ej as <- _|by injection Ej as <- _|].
      rewrite list_lookup_imap in Ej. destruct (names !! j); [|done]. injection Ej as <- _. lia. }
    split_and!; [done|lia|lia|apply (root_entry V names); (done || lia)|].
    eapply (Forall_lookup_1 _ _ j) in Hby; [exact Hby|]. by rewrite list_lookup_fmap, Ej. }
  destruct (Hent (2 + k)%nat ltac:(lia)) as (i0 & nm0 & E0 & Hi0 & He0 & Hb0). rewrite Hr in E0. injection E0 as <- <-.
  replace (Z.of_nat (2 + k)) with (2 + Z.of_nat k) in He0 by lia.
  pose proof (f_equal de_inum He0) as Hnum. simpl in Hnum. rewrite <- Hnum at 2. apply FsDir.dir_find_first.
  - unfold FsDir.nblocks. rewrite (h_size _ _ _ _ Hh), length_padded, length_root_bytes. split; [lia|].
    assert (0 <= Z.of_nat (16 * (2 + length names))) as H0 by lia.
    assert (16 * (2 + Z.of_nat k) < Z.of_nat (16 * (2 + length names))) as H1 by lia. clear - H0 H1. dlia.
  - rewrite He0, matches_stored by (done || lia). by apply bool_decide_eq_true_2.
  - intros j Hj. destruct (Hent (Z.to_nat j) ltac:(lia)) as (i & nm & Ej & Hi & He & Hb). rewrite Z2Nat.id in He by lia.
    rewrite He, matches_stored by (done || lia). apply bool_decide_eq_false_2. intros Ek.
    assert (Z.to_nat j = (2 + k)%nat) as Habs; [|lia].
    eapply (NoDup_lookup _ _ _ _ Hnd); rewrite list_lookup_fmap; [by rewrite Ej|rewrite Hr; simpl; by rewrite Ek].
Qed.

(** ** mkfs *)

(** The image as a disk. *)
Definition disk (s : mk) : contents := fun v n =>
  if (v =? 1) && (0 <=? n) && (n <? 1024) then img s n else replicate 512 0.

Lemma exec_balloc s D :
  minv s D -> 29 + total D < 512 ->
  exists s', exec (u <- gets usedblocks ;; balloc u) s = Done tt tt s' /\ disk s' = view s.
Proof.
  intros Hinv Hroom. pose proof (mi_ok _ _ Hinv) as Hok. pose proof (mi_free _ _ Hinv).
  kexec. rewrite (mk_used _ Hok). unfold balloc, assert. rewrite (proj2 (Z.ltb_lt _ 512)) by lia. kexec.
  rewrite exec_wsect. eexists. split; [done|]. change (Mkfs.ninodes / IPB + 3) with 28.
  extensionality v. extensionality n. unfold disk, view. cbn [img write_img set_img].
  destruct (Z.eqb_spec v 1); [|done]. cbn [negb andb]. destruct (Z.eqb_spec n 28) as [->|]; [done|]. done.
Qed.

Lemma root_ends_inside (fs : list (bytes * list bytes)) :
  ((2 + length fs) mod 32 <> 0)%nat -> (length (root_bytes (fst <$> fs)) mod 512 <> 0)%nat.
Proof.
  intros H. rewrite length_root_bytes, length_fmap. change 512%nat with (16 * 32)%nat.
  rewrite Nat.Div0.mul_mod_distr_l. lia.
Qed.

Lemma main_ok tail fs :
  length tail = 500%nat -> Forall file_fits fs -> (length fs <= 198)%nat -> ((2 + length fs) mod 32 <> 0)%nat ->
  29 + total (image_files fs) < 512 ->
  exists s s', exec (main tail fs) mk0 = Done tt tt s' /\ disk s' = view s /\
    minv s (<[0%nat := (T_DIR, padded (root_bytes (fst <$> fs)))]> (image_files fs)).
Proof.
  intros Ht Hfs Hlen Hmod Hroom. unfold main. kexec. unfold assert. change (nblocks + usedblocks0 =? size) with true. cbv iota. kexec.
  unfold zero_image. match goal with |- context [exec (kforeach ?l _) ?s] => destruct (exec_zero l s) as (s1 & E1 & Hf1 & Hu1 & Hi1 & Hm1) end.
  rewrite E1. kexec. rewrite exec_wsect. kexec. set (s2 := write_img 1 (sb_bytes tail) s1).
  assert (minv s2 []) as Hinv2.
  { apply (empty_ok s2 tail); [done|exact Hf1|exact Hu1|exact Hi1|].
    intros n Hn. unfold s2. simpl. destruct (Z.eqb_spec n 1); [done|]. rewrite Hm1, bool_decide_eq_true_2; [done|].
    apply elem_of_seqZ. change (nblocks + usedblocks0) with 1024. lia. }
  destruct (ialloc_ok s2 [] T_DIR Hinv2) as (s3 & E3 & Hinv3); [simpl; lia|unfold T_DIR; lia|done|].
  rewrite E3. kexec. change (1 + Z.of_nat (length []) =? ROOTINO) with true. cbv iota. kexec. simpl app in Hinv3.
  change (1 + Z.of_nat (length [])) with 1.
  destruct (append_file s3 [(T_DIR, [])] 0 T_DIR [] (de_of 1 (chars "."))) as (s4 & E4 & Hinv4); try done.
  change (1 + Z.of_nat 0) with 1 in E4. rewrite E4. kexec. cbn [insert list_insert app] in Hinv4.
  destruct (append_file s4 [(T_DIR, de_of 1 (chars "."))] 0 T_DIR (de_of 1 (chars ".")) (de_of 1 (chars ".."))) as (s5 & E5 & Hinv5); try done.
  change (1 + Z.of_nat 0) with 1 in E5. rewrite E5. kexec. assert (minv s5 (image_files [])) as Hinv5' by exact Hinv5.
  destruct (add_files_ok fs s5 [] Hinv5' Hfs) as (s6 & E6 & Hinv6); [cbn [app]; lia..|].
  rewrite E6. kexec. simpl app in Hinv6.
  destruct (padded_file s6 (image_files fs) T_DIR (root_bytes (fst <$> fs)) Hinv6) as (din & s7 & E7 & E8 & Hinv7); [done|..].
  { by apply root_ends_inside. }
  { rewrite length_root_bytes, length_fmap. lia. }
  rewrite E7. kexec. rewrite E8. kexec.
  destruct (exec_balloc s7 _ Hinv7) as (s8 & E9 & Hdisk).
  { rewrite (total_insert _ _ _ (root_bytes (fst <$> fs))), cost_padded; [lia|by apply root_ends_inside|done]. }
  exists s7, s8. split; [|done]. exact E9.
Qed.

(** C8. The image that mkfs makes is a file system the kernel's theorems apply to.
    For files without a slash in their names, of at most the size that an inode
    can hold, with names that differ in their first 14 characters, and with fewer
    than 512 blocks in all, mkfs does not fail, and on the disk it leaves: the
    super block, the bitmap and the free blocks are as the kernel needs them; the
    root directory is inode 1, a directory whose rest is zero; the file [k] of the
    command line is inode [k + 2], a file with its bytes, which dirlookup finds
    under its name without the leading underscore; and no two of them share a
    block.  (The number of entries is not a multiple of 32: the size of the root
    directory would then go beyond its last block.) *)
Theorem mkfs_image tail fs :
  length tail = 500%nat -> Forall file_fits fs -> (length fs <= 198)%nat -> ((2 + length fs) mod 32 <> 0)%nat ->
  29 + total (image_files fs) < 512 ->
  NoDup (key ∘ snd <$> root_names (fst <$> fs)) -> Forall (Forall is_byte) (snd <$> root_names (fst <$> fs)) ->
  exists s, exec (main tail fs) mk0 = Done tt tt s /\ let V := disk s in
    fs_ok 1 sb V /\ holds V 1 T_DIR (padded (root_bytes (fst <$> fs))) /\
    (forall k name ps, fs !! k = Some (name, ps) ->
       holds V (2 + Z.of_nat k) T_FILE (concat ps) /\
       FsDir.dir_find 1 V (ino V 1) (skip_underscore name) (Z.to_nat (32 * FsDir.nblocks (ino V 1))) 0 =
         Some (2 + Z.of_nat k, 2 + Z.of_nat k)) /\
    (forall i j b, 1 <= i <= 1 + Z.of_nat (length fs) -> 1 <= j <= 1 + Z.of_nat (length fs) -> i <> j ->
       owns 1 V (ino V i) b -> ~ owns 1 V (ino V j) b).
Proof.
  intros Ht Hfs Hlen Hmod Hroom Hnd Hby.
  destruct (main_ok tail fs Ht Hfs Hlen Hmod Hroom) as (s & s' & E & Hd & Hinv).
  exists s'. split; [exact E|]. cbv zeta. rewrite Hd. set (V := view s) in *.
  assert (holds V 1 T_DIR (padded (root_bytes (fst <$> fs)))) as Hroot by exact (mi_files _ _ Hinv 0%nat _ _ eq_refl).
  split; [apply (mi_ok _ _ Hinv)|]. split; [exact Hroot|]. split.
  - intros k name ps Hk. split.
    + replace (2 + Z.of_nat k) with (1 + Z.of_nat (S k)) by lia. apply (mi_files _ _ Hinv). simpl.
      by rewrite list_lookup_fmap, Hk.
    + apply (root_find V (fst <$> fs)); [exact Hroot|by rewrite length_fmap|exact Hnd|exact Hby|].
      by rewrite list_lookup_fmap, Hk.
  - intros i j b Hi Hj Hij. pose proof (mi_disj _ _ Hinv (Z.to_nat (i - 1)) (Z.to_nat (j - 1)) b) as H.
    rewrite length_insert in H. simpl length in H. rewrite length_fmap, !Z2Nat.id in H by lia.
    replace (1 + (i - 1)) with i in H by lia. replace (1 + (j - 1)) with j in H by lia. apply H; lia.
Qed.

Definition files_ex : list (bytes * list bytes) :=
  [(chars "_cat", [[1; 2; 3]]); (chars "README", [replicate 512 65; [10]])].

Lemma mkfs_image_witness :
  exists s, exec (main (replicate 500 7) files_ex) mk0 = Done tt tt s /\
    holds (disk s) 2 T_FILE [1; 2; 3] /\ holds (disk s) 3 T_FILE (replicate 512 65 ++ [10]).
Proof.
  destruct (mkfs_image (replicate 500 7) files_ex) as (s & E & _ & _ & H & _).
  - apply length_replicate.
  - repeat constructor; vm_compute; try done; by intros ?.
  - simpl; lia.
  - done.
  - by vm_compute.
  - apply (bool_decide_eq_true_1 _). by vm_compute.
  - apply (bool_decide_eq_true_1 _). by vm_compute.
  - exists s. split; [exact E|]. split; [exact (proj1 (H 0%nat _ _ eq_refl))|].
    exact (proj1 (H 1%nat _ _ eq_refl)).
Defined.

End MkfsSpec.
