(* ===== verification/Umalloc.v ===== *)
(** * Umalloc: umalloc.c, the allocator of user programs

    The free blocks form a ring of headers in the order of their addresses,
    which starts with the static header [base].  [heap] gives the header stored
    at an address, so that the pointer surgery of free and malloc is kept as
    written; a header is 8 bytes, the unit of all sizes.  sbrk is a system call
    of [User].  The theorems say which bytes are free before and after. *)
From S2P Require Import Prelude User.
From stdpp Require Import options.

Module Umalloc.
Import User.

Record header : Type := mkhdr { ptr : Z; size : Z }.
Record umem : Type := mkumem { heap : Z -> header; freep : Z }.

Definition PAGE : Z := 4096.

Definition set_hdr (a : Z) (h : header) (m : umem) : umem :=
  mkumem (fun b => if b =? a then h else heap m b) (freep m).
Definition set_ptr (a v : Z) (m : umem) : umem := set_hdr a (mkhdr v (size (heap m a))) m.
Definition set_size (a v : Z) (m : umem) : umem := set_hdr a (mkhdr (ptr (heap m a)) v) m.
Definition set_freep (p : Z) (m : umem) : umem := mkumem (heap m) p.

(** for(p = freep; !(bp > p && bp < p->s.ptr); p = p->s.ptr)
      if(p >= p->s.ptr && (bp > p || bp < p->s.ptr)) break; *)
Fixpoint free_find (fuel : nat) (m : umem) (bp p : Z) : option Z :=
  match fuel with
  | O => None
  | S fuel' =>
      let nx := ptr (heap m p) in
      if (p <? bp) && (bp <? nx) then Some p
      else if (nx <=? p) && ((p <? bp) || (bp <? nx)) then Some p
      else free_find fuel' m bp nx
  end.

(** The block [bp] is joined with the one behind [p], or points to it. *)
Definition join_right (bp p : Z) (m : umem) : umem :=
  if bp + 8 * size (heap m bp) =? ptr (heap m p) then
    let m := set_size bp (u32 (size (heap m bp) + size (heap m (ptr (heap m p))))) m in
    set_ptr bp (ptr (heap m (ptr (heap m p)))) m
  else set_ptr bp (ptr (heap m p)) m.

(** [p] is joined with [bp], or points to it. *)
Definition join_left (bp p : Z) (m : umem) : umem :=
  if p + 8 * size (heap m p) =? bp then
    let m := set_size p (u32 (size (heap m p) + size (heap m bp))) m in
    set_ptr p (ptr (heap m bp)) m
  else set_ptr p bp m.

Definition free (fuel : nat) (ap : Z) (m : umem) : option umem :=
  let bp := ap - 8 in
  match free_find fuel m bp (freep m) with
  | Some p => Some (set_freep p (join_left bp p (join_right bp p m)))
  | None => None
  end.

Definition morecore (fuel : nat) (nu : Z) (m : umem) : prog (Z * umem) :=
  let nu := if nu <? PAGE then PAGE else nu in
  p <- sbrk (i32 (u32 (nu * 8))) ;;
  if p =? -1 then Ret (0, m)
  else
    match free fuel (p + 8) (set_size p nu m) with
    | Some m => Ret (freep m, m)
    | None => Fuel
    end.

(** A block that is large enough: all of it, or its end. *)
Definition take_block (nunits prevp p : Z) (m : umem) : Z * umem :=
  let '(p, m) :=
    if size (heap m p) =? nunits then (p, set_ptr prevp (ptr (heap m p)) m)
    else
      let m := set_size p (u32 (size (heap m p) - nunits)) m in
      let p := p + 8 * size (heap m p) in
      (p, set_size p nunits m) in
  (p + 8, set_freep prevp m).

Fixpoint malloc_loop (fuel : nat) (nunits prevp p : Z) (m : umem) : prog (Z * umem) :=
  match fuel with
  | O => Fuel
  | S fuel' =>
      if nunits <=? size (heap m p) then Ret (take_block nunits prevp p m)
      else if p =? freep m then
        let* (q, m) <- morecore fuel' nunits m ;;
        if q =? 0 then Ret (0, m) else malloc_loop fuel' nunits q (ptr (heap m q)) m
      else malloc_loop fuel' nunits p (ptr (heap m p)) m
  end.

(** [base] is the address of the static header. *)
Definition malloc (base : Z) (fuel : nat) (nbytes : Z) (m : umem) : prog (Z * umem) :=
  let nunits := u32 (nbytes + 8 - 1) / 8 + 1 in
  let m :=
    if freep m =? 0 then set_size base 0 (set_ptr base base (set_freep base m)) else m in
  let prevp := freep m in
  malloc_loop fuel nunits prevp (ptr (heap m prevp)) m.

(** ** The ring *)

Abbreviation blocks := (list (Z * Z)).

(** From the header at [a] through the blocks [L] to [e]. *)
Fixpoint seg (m : umem) (a : Z) (L : blocks) (e : Z) : Prop :=
  match L with
  | [] => ptr (heap m a) = e
  | (b, s) :: T => ptr (heap m a) = b /\ size (heap m b) = s /\ seg m b T e
  end.

(** Blocks in order above [lo], apart from each other, below 4 gigabytes. *)
Fixpoint sorted (lo : Z) (L : blocks) : Prop :=
  match L with
  | [] => True
  | (b, s) :: T => lo < b /\ 1 <= s /\ b + 8 * s < 4294967296 /\ sorted (b + 8 * s) T
  end.

Definition last_addr (a : Z) (L : blocks) : Z := default a (last (fst <$> L)).

Record ring (base : Z) (m : umem) (L : blocks) : Prop := {
  rg_base : 0 < base /\ size (heap m base) = 0;
  rg_seg : seg m base L base;
  rg_sorted : sorted (base + 7) L;
  rg_freep : freep m ∈ base :: (fst <$> L)
}.

(** The byte [u] lies in one of the blocks. *)
Definition covers (L : blocks) (u : Z) : Prop := Exists (fun '(a, s) => a <= u < a + 8 * s) L.

Lemma covers_app L1 L2 u : covers (L1 ++ L2) u <-> covers L1 u \/ covers L2 u.
Proof. apply Exists_app. Qed.
Lemma covers_cons a s L u : covers ((a, s) :: L) u <-> a <= u < a + 8 * s \/ covers L u.
Proof. apply Exists_cons. Qed.
Lemma covers_nil u : ~ covers [] u.
Proof. by intros H%Exists_nil. Qed.

Lemma seg_app m a L1 b s L2 e :
  seg m a (L1 ++ (b, s) :: L2) e <-> seg m a L1 b /\ size (heap m b) = s /\ seg m b L2 e.
Proof. revert a. induction L1 as [|[c t] L1 IH]; intros a; simpl; [tauto|]. rewrite IH. tauto. Qed.

Lemma last_addr_cons a b s L : last_addr a ((b, s) :: L) = last_addr b L.
Proof. unfold last_addr. rewrite fmap_cons, last_cons. by destruct (last (fst <$> L)). Qed.
Lemma last_addr_snoc a b s L : last_addr a (L ++ [(b, s)]) = b.
Proof. unfold last_addr. rewrite fmap_app. cbn [fmap list_fmap fst]. by rewrite last_snoc. Qed.

Lemma seg_ptr m a L e : seg m a L e -> ptr (heap m (last_addr a L)) = e.
Proof.
  revert a. induction L as [|[b s] L IH]; intros a; simpl; [done|]. intros (_ & _ & H). apply IH in H.
  by rewrite last_addr_cons.
Qed.

(** A header that points to the same block starts the same way; headers that
    are not on the way do not matter. *)
Lemma seg_move m m' a b L e :
  ptr (heap m' b) = ptr (heap m a) -> (forall c, c ∈ fst <$> L -> heap m' c = heap m c) ->
  seg m a L e -> seg m' b L e.
Proof.
  revert a b. induction L as [|[c s] L IH]; intros a b Hp Hm; simpl; [congruence|].
  intros (H1 & H2 & H3). assert (heap m' c = heap m c) as Hc by (apply Hm; simpl; left). rewrite Hc.
  split_and!; [congruence|done|]. apply (IH c); [by rewrite Hc| |done]. intros d Hd. apply Hm. simpl. by right.
Qed.

Lemma sorted_app lo L1 b s L2 :
  sorted lo (L1 ++ (b, s) :: L2) <->
  sorted lo L1 /\ (forall a t, (a, t) ∈ L1 -> a + 8 * t < b) /\ lo < b /\ 1 <= s /\ b + 8 * s < 4294967296 /\ sorted (b + 8 * s) L2.
Proof.
  revert lo. induction L1 as [|[c t] L1 IH]; intros lo; simpl.
  - split; [intros (? & ? & ? & ?); split_and!; try done; by intros a t' ?%not_elem_of_nil|tauto].
  - rewrite IH. split.
    + intros (H1 & H2 & H3 & H4 & H5 & H6 & H7 & H8 & H9). split_and!; try done; [|lia].
      intros a t' [[= -> ->]|Hin]%elem_of_cons; [lia|by apply H5].
    + intros ((H1 & H2 & H3 & H4) & H5 & H6 & H7 & H8 & H9). split_and!; try done; [|apply (H5 c t); left].
      intros a t' Hin. apply H5. by right.
Qed.

Lemma sorted_above lo L a s : sorted lo L -> (a, s) ∈ L -> lo < a /\ 1 <= s /\ a + 8 * s < 4294967296.
Proof.
  revert lo. induction L as [|[b t] L IH]; intros lo; simpl; [by intros _ ?%not_elem_of_nil|].
  intros (H1 & H2 & H3 & H4) [[= -> ->]|Hin]%elem_of_cons; [done|]. destruct (IH _ H4 Hin). lia.
Qed.

Lemma sorted_addr lo L a : sorted lo L -> a ∈ fst <$> L -> lo < a < 4294967296.
Proof. intros Hs ([b s] & -> & Ha)%list_elem_of_fmap. destruct (sorted_above _ _ _ _ Hs Ha). simpl. lia. Qed.

Lemma sorted_weaken lo lo' L : lo' <= lo -> sorted lo L -> sorted lo' L.
Proof. destruct L as [|[b s] L]; simpl; [done|]. intros. lia || (split_and!; try tauto; lia). Qed.

(** ** The search of free *)

Section Find.
Context (base : Z) (m : umem) (bp : Z).

Lemma find_hit L1 L2 lo a f :
  seg m a (L1 ++ L2) base -> sorted lo (L1 ++ L2) -> base <= a <= lo -> a < bp ->
  Forall (fun x => fst x < bp) L1 -> Forall (fun x => bp < fst x) L2 ->
  free_find (S (length L1) + f) m bp a = Some (last_addr a L1).
Proof using Type.
  revert lo a. induction L1 as [|[b s] L1 IH]; intros lo a Hseg Hs Ha Hb H1 H2.
  - cbn [length Nat.add free_find]. change (last_addr a []) with a.
    destruct L2 as [|[c t] L2]; simpl in Hseg.
    + rewrite Hseg. rewrite (proj2 (Z.ltb_lt a bp)) by done. rewrite (proj2 (Z.leb_le base a)) by lia.
      by destruct (bp <? base).
    + destruct Hseg as [-> _]. pose proof (Forall_inv H2) as Hc. simpl in Hc.
      rewrite (proj2 (Z.ltb_lt a bp)), (proj2 (Z.ltb_lt bp c)) by done. done.
  - simpl in Hseg, Hs. destruct Hseg as (E & _ & Hseg), Hs as (Hs1 & Hs2 & _ & Hs3).
    pose proof (Forall_inv H1) as Hb1. simpl in Hb1. cbn [length Nat.add free_find]. rewrite E.
    rewrite (proj2 (Z.ltb_ge bp b)) by lia. rewrite andb_false_r, (proj2 (Z.leb_gt b a)) by lia. cbn [andb].
    rewrite last_addr_cons. apply (IH (b + 8 * s) b); try done; [lia|by apply Forall_inv_tail in H1].
Qed.

Lemma find_wrap L2 lo a f :
  seg m a L2 base -> sorted lo L2 -> a <= lo -> base < bp < a ->
  free_find (S (length L2) + f) m bp a = free_find f m bp base.
Proof using Type.
  revert lo a. induction L2 as [|[b s] L2 IH]; intros lo a Hseg Hs Ha Hb; simpl in Hseg; cbn [length Nat.add free_find].
  - rewrite Hseg. rewrite (proj2 (Z.ltb_ge a bp)), (proj2 (Z.ltb_ge bp base)) by lia. by destruct (base <=? a).
  - destruct Hseg as (E & _ & Hseg). simpl in Hs. destruct Hs as (Hs1 & Hs2 & _ & Hs3). rewrite E.
    rewrite (proj2 (Z.ltb_ge a bp)) by lia. rewrite (proj2 (Z.leb_gt b a)) by lia. cbn [andb].
    apply (IH (b + 8 * s)); (done || lia).
Qed.

(** The search ends at the block before [bp], wherever it starts. *)
Lemma find_ok L1 L2 f :
  ring base m (L1 ++ L2) -> base < bp ->
  Forall (fun x => fst x < bp) L1 -> Forall (fun x => bp < fst x) L2 -> (2 * length (L1 ++ L2) + 2 <= f)%nat ->
  free_find f m bp (freep m) = Some (last_addr base L1).
Proof using Type.
  intros [[Hb0 _] Hseg Hs Hin] Hb H1 H2 Hf. rewrite length_app in Hf. set (a := freep m) in *.
  assert (Hbase : forall g, (S (length L1) <= g)%nat -> free_find g m bp base = Some (last_addr base L1)).
  { intros g Hg. replace g with (S (length L1) + (g - S (length L1)))%nat by lia.
    apply (find_hit L1 L2 (base + 7)); (done || lia). }
  apply elem_of_cons in Hin as [->|Hin]; [apply Hbase; lia|].
  rewrite fmap_app in Hin. apply elem_of_app in Hin as [Hin|Hin];
    apply list_elem_of_fmap in Hin as ([b t] & Ea & Hin); apply list_elem_of_split in Hin as (La & Lb & ->);
    simpl in Ea; rewrite Ea in *; clear Ea.
  - rewrite <- app_assoc in Hseg, Hs. simpl in Hseg, Hs. apply seg_app in Hseg as (_ & _ & Hseg).
    apply sorted_app in Hs as (_ & _ & Hlo & H1s & _ & Hs). apply Forall_app in H1 as [_ H1].
    pose proof (Forall_inv H1) as Hbb. apply Forall_inv_tail in H1. simpl in Hbb.
    rewrite length_app in Hf. simpl in Hf. replace f with (S (length Lb) + (f - S (length Lb)))%nat by lia.
    rewrite (find_hit Lb L2 (b + 8 * t) b) by (done || lia). f_equal.
    unfold last_addr. rewrite fmap_app, last_app, fmap_cons, last_cons. by destruct (last (fst <$> Lb)).
  - rewrite app_assoc in Hseg, Hs. apply seg_app in Hseg as (_ & _ & Hseg).
    apply sorted_app in Hs as (_ & _ & Hlo & H1s & _ & Hs). apply Forall_app in H2 as [_ H2].
    pose proof (Forall_inv H2) as Hbb. simpl in Hbb. rewrite length_app in Hf. simpl in Hf.
    replace f with (S (length Lb) + (f - S (length Lb)))%nat by lia.
    rewrite (find_wrap Lb (b + 8 * t) b) by (done || lia). apply Hbase. lia.
Qed.
End Find.

(** ** Putting a block into the ring *)

Lemma heap_set a h m b : heap (set_hdr a h m) b = if b =? a then h else heap m b.
Proof. done. Qed.

Lemma heap_same a h m : heap (set_hdr a h m) a = h.
Proof. rewrite heap_set. by rewrite Z.eqb_refl. Qed.

Lemma heap_other a h m b : b <> a -> heap (set_hdr a h m) b = heap m b.
Proof. intros H. rewrite heap_set. by rewrite (proj2 (Z.eqb_neq b a) H). Qed.

(** The block [bp] of [n] units touches none of the blocks. *)
Definition apart (bp n : Z) (L : blocks) : Prop :=
  Forall (fun x => bp + 8 * n <= fst x \/ fst x + 8 * snd x <= bp) L.

Lemma split_at lo L bp n :
  sorted lo L -> apart bp n L -> 1 <= n ->
  exists L1 L2, L = L1 ++ L2 /\ Forall (fun x => fst x + 8 * snd x <= bp) L1 /\ Forall (fun x => bp + 8 * n <= fst x) L2.
Proof.
  revert lo. induction L as [|[b s] L IH]; intros lo Hs Ha Hn; [by exists [], []|].
  simpl in Hs. destruct Hs as (H1 & H2 & H3 & H4). pose proof (Forall_inv Ha) as Hb. apply Forall_inv_tail in Ha. simpl in Hb.
  destruct Hb as [Hb|Hb].
  - exists [], ((b, s) :: L). split; [done|]. split; [constructor|]. constructor; [done|].
    apply Forall_forall. intros [c t] Hc. destruct (sorted_above _ _ _ _ H4 Hc). simpl. lia.
  - destruct (IH _ H4 Ha Hn) as (L1 & L2 & -> & F1 & F2). exists ((b, s) :: L1), L2. split; [done|]. by split; [constructor|].
Qed.

Lemma join_right_ok base m bp p n L2 :
  size (heap m bp) = n -> 1 <= n -> bp + 8 * n < 4294967296 -> p <> bp -> 0 < base < bp ->
  seg m p L2 base -> sorted (p + 8 * size (heap m p)) L2 -> Forall (fun x => bp + 8 * n <= fst x) L2 ->
  exists n' L2', let m' := join_right bp p m in
    (forall a, a <> bp -> heap m' a = heap m a) /\ size (heap m' bp) = n' /\ seg m' bp L2' base /\
    n <= n' /\ bp + 8 * n' < 4294967296 /\ sorted (bp + 8 * n') L2' /\
    (forall u, covers ((bp, n') :: L2') u <-> bp <= u < bp + 8 * n \/ covers L2 u) /\ (length L2' <= length L2)%nat.
Proof.
  intros Hn H1 Hmax Hne Hb Hseg Hs HF. unfold join_right. rewrite Hn. destruct L2 as [|[c t] L2].
  - simpl in Hseg. rewrite Hseg. rewrite (proj2 (Z.eqb_neq _ base)) by lia. exists n, []. cbv zeta.
    unfold set_ptr. split_and!; try done; [intros a Ha; by apply heap_other|by rewrite heap_same|cbn [seg]; by rewrite heap_same|].
    intros u. by rewrite covers_cons.
  - simpl in Hseg, Hs. destruct Hseg as (E & Et & Hseg), Hs as (Hs1 & Hs2 & Hs3 & Hs4). rewrite E.
    pose proof (Forall_inv HF) as Hc. apply Forall_inv_tail in HF. simpl in Hc.
    assert (Hfr : forall m', (forall a, a <> bp -> heap m' a = heap m a) -> seg m' c L2 base).
    { intros m' Hm'. apply (seg_move m _ c); [by rewrite Hm' by lia| |done]. intros a Ha. apply Hm'.
      destruct (sorted_addr _ _ _ Hs4 Ha). lia. }
    destruct (Z.eqb_spec (bp + 8 * n) c) as [Ec|Ec].
    + exists (n + t), L2. cbv zeta. unfold set_ptr, set_size. rewrite Et. rewrite u32_small by lia.
      assert (forall a, a <> bp -> forall h1 h2, heap (set_hdr bp h1 (set_hdr bp h2 m)) a = heap m a) as Ho
        by (intros a Ha h1 h2; by rewrite !heap_other by done).
      rewrite (heap_other bp _ m p) by done. rewrite E, (heap_other bp _ m c) by lia.
      split_and!; try lia; [intros a Ha; by apply Ho|by rewrite !heap_same| | | |simpl; lia].
      * apply (seg_move m _ c); [by rewrite heap_same| |done]. intros a Ha. apply Ho.
        destruct (sorted_addr _ _ _ Hs4 Ha). lia.
      * by replace (bp + 8 * (n + t)) with (c + 8 * t) by lia.
      * intros u. rewrite !covers_cons. lia || (split; [intros [?|?]|intros [?|[?|?]]]; try (by (left + right); lia); auto; lia).
    + exists n, ((c, t) :: L2). cbv zeta. unfold set_ptr.
      split_and!; try done; [intros a Ha; by apply heap_other|by rewrite heap_same| | |].
      * cbn [seg]. rewrite heap_same. split_and!; [done|by rewrite heap_other by lia|]. apply Hfr. intros a Ha. by apply heap_other.
      * simpl. split_and!; try done. lia.
      * intros u. by rewrite covers_cons.
Qed.

Lemma join_left_ok base m bp n L1 L2 x :
  let p := last_addr base L1 in
  0 < base -> base + 7 < bp -> size (heap m base) = 0 -> seg m base L1 x -> sorted (base + 7) L1 ->
  Forall (fun x => fst x + 8 * snd x <= bp) L1 ->
  1 <= n -> bp + 8 * n < 4294967296 -> size (heap m bp) = n -> seg m bp L2 base -> sorted (bp + 8 * n) L2 ->
  exists L', ring base (set_freep p (join_left bp p m)) L' /\
    (forall u, covers L' u <-> covers L1 u \/ covers ((bp, n) :: L2) u) /\
    (exists a s, (a, s) ∈ L' /\ n <= s) /\ (length L' <= S (length (L1 ++ L2)))%nat.
Proof.
  intros p Hb0 Hb Hsb Hseg Hs HF Hn Hmax Hsn Hseg2 Hs2.
  destruct L1 as [|[q t] L0 _] using rev_ind.
  - change p with base. unfold join_left. rewrite Hsb, Z.mul_0_r, Z.add_0_r, (proj2 (Z.eqb_neq base bp)) by lia.
    exists ((bp, n) :: L2). unfold set_ptr. split; [split|split_and!].
    + cbn [heap set_freep]. by rewrite heap_same.
    + cbn [seg heap set_freep]. rewrite heap_same, heap_other by lia. split_and!; [done..|].
      apply (seg_move m _ bp); [by cbn [heap set_freep]; rewrite heap_other by lia| |done]. intros c Hc.
      destruct (sorted_addr _ _ _ Hs2 Hc). apply heap_other. lia.
    + simpl. split_and!; (done || lia).
    + left.
    + intros u. rewrite !covers_cons. pose proof (covers_nil u). tauto.
    + exists bp, n. split; [left|lia].
    + done.
  - assert (p = q) as Ep by apply last_addr_snoc. rewrite Ep. clear p Ep. apply seg_app in Hseg as (Hseg & Ht & _).
    apply sorted_app in Hs as (Hs0 & Hlt & Hq & Ht1 & Hqm & _). apply Forall_app in HF as [_ HF].
    pose proof (Forall_inv HF) as Hqb. simpl in Hqb. clear HF x.
    assert (Hlow : forall c, c ∈ base :: (fst <$> L0) -> c < q).
    { intros c [->|Hc]%elem_of_cons; [lia|]. apply list_elem_of_fmap in Hc as ([d v] & -> & Hc).
      pose proof (Hlt _ _ Hc). destruct (sorted_above _ _ _ _ Hs0 Hc). simpl. lia. }
    assert (Hfr : forall m', (forall c, c <> q -> heap m' c = heap m c) -> seg m' base L0 q /\ size (heap m' base) = 0).
    { assert (base < q) as Hbq by (apply Hlow; left). intros m' Hm'. rewrite Hm' by lia. split; [|done].
      apply (seg_move m _ base); [by rewrite Hm' by lia| |done]. intros c Hc. apply Hm'.
      assert (c < q) by (apply Hlow; by right). lia. }
    assert (Hhigh : forall c, c ∈ fst <$> L2 -> c <> q) by (intros c Hc; destruct (sorted_addr _ _ _ Hs2 Hc); lia).
    unfold join_left. rewrite Ht. destruct (Z.eqb_spec (q + 8 * t) bp) as [Eq|Eq].
    + rewrite Hsn, u32_small by lia. unfold set_ptr, set_size.
      match goal with |- context [set_freep q ?m1] => set (m' := set_freep q m1) end.
      assert (Ho : forall c, c <> q -> heap m' c = heap m c) by (intros c Hc; unfold m'; cbn [heap set_freep]; by rewrite !heap_other by done).
      assert (heap m' q = mkhdr (ptr (heap m bp)) (t + n)) as Eh.
      { unfold m'. cbn [heap set_freep]. rewrite heap_same, (heap_other q _ m bp), heap_same by lia. done. }
      exists (L0 ++ (q, t + n) :: L2). split; [split|split_and!].
      * split; [done|by apply Hfr].
      * apply seg_app. split; [by apply Hfr|]. rewrite Eh. split; [done|].
        apply (seg_move m _ bp); [by rewrite Eh| |done]. intros c Hc. apply Ho. by apply Hhigh.
      * apply sorted_app. split_and!; (done || lia || (eapply sorted_weaken; [|done]; lia)).
      * simpl. rewrite fmap_app. simpl. set_solver.
      * intros u. rewrite !covers_app, !covers_cons. pose proof (covers_nil u).
        assert (q <= u < q + 8 * (t + n) <-> q <= u < q + 8 * t \/ bp <= u < bp + 8 * n) by lia. tauto.
      * exists q, (t + n). split; [set_solver|lia].
      * rewrite !length_app. simpl. lia.
    + unfold set_ptr. match goal with |- context [set_freep q ?m1] => set (m' := set_freep q m1) end.
      assert (Ho : forall c, c <> q -> heap m' c = heap m c) by (intros c Hc; unfold m'; cbn [heap set_freep]; by rewrite !heap_other by done).
      assert (heap m' q = mkhdr bp t) as Eh by (unfold m'; cbn [heap set_freep]; rewrite heap_same; by rewrite Ht).
      exists (L0 ++ (q, t) :: (bp, n) :: L2). split; [split|split_and!].
      * split; [done|by apply Hfr].
      * apply seg_app. split; [by apply Hfr|]. cbn [seg]. rewrite Eh, Ho by lia. split_and!; [done..|].
        apply (seg_move m _ bp); [by rewrite Ho by lia| |done]. intros c Hc. apply Ho. by apply Hhigh.
      * apply sorted_app. split_and!; try (done || lia). simpl. split_and!; (done || lia).
      * simpl. rewrite fmap_app. simpl. set_solver.
      * intros u. rewrite !covers_app, !covers_cons. pose proof (covers_nil u). tauto.
      * exists bp, n. split; [set_solver|lia].
      * rewrite !length_app. simpl. lia.
Qed.

Lemma join_left_frame bp p m a : a <> p -> heap (join_left bp p m) a = heap m a.
Proof.
  intros H. unfold join_left, set_ptr, set_size. destruct (p + 8 * size (heap m p) =? bp); by rewrite !heap_other by done.
Qed.

Lemma last_addr_in a L : last_addr a L ∈ a :: (fst <$> L).
Proof.
  unfold last_addr. destruct (last (fst <$> L)) as [x|] eqn:E; simpl; [right|left].
  rewrite last_lookup in E. by eapply list_elem_of_lookup_2.
Qed.

(** Freeing a block. *)
Lemma free_ok base m L bp n f :
  ring base m L -> size (heap m bp) = n -> 1 <= n -> base + 7 < bp -> bp + 8 * n < 4294967296 ->
  apart bp n L -> (2 * length L + 2 <= f)%nat ->
  exists m' L', free f (bp + 8) m = Some m' /\ ring base m' L' /\
    (forall u, covers L' u <-> covers L u \/ bp <= u < bp + 8 * n) /\
    (forall a, a <> base -> ~ covers L' a -> heap m' a = heap m a) /\
    (exists a s, (a, s) ∈ L' /\ n <= s) /\ (length L' <= S (length L))%nat.
Proof.
  intros Hr Hn H1 Hb Hmax Hap Hf. pose proof Hr as [[Hb0 Hsb] Hseg Hs _].
  destruct (split_at _ _ _ _ Hs Hap H1) as (L1 & L2 & -> & F1 & F2).
  assert (Hpos : forall x, x ∈ L1 -> fst x < bp).
  { intros [c t] Hc. rewrite Forall_forall in F1. pose proof (F1 _ Hc). simpl in *.
    destruct (sorted_above _ _ c t Hs) as (_ & Ht & _); [apply elem_of_app; by left|lia]. }
  unfold free. replace (bp + 8 - 8) with bp by lia. rewrite (find_ok base m bp L1 L2); [|done|lia| | |done].
  2: { apply Forall_forall. intros x Hx. by apply Hpos. }
  2: { eapply Forall_impl; [exact F2|]. simpl. intros. lia. }
  set (p := last_addr base L1).
  assert (p < bp /\ seg m p L2 base /\ sorted (p + 8 * size (heap m p)) L2 /\ seg m base L1 (ptr (heap m p)) /\ sorted (base + 7) L1)
    as (Hp & Hseg2 & Hs2 & Hseg1 & Hs1).
  { unfold p. destruct L1 as [|[q t] L0 _] using rev_ind.
    - change (last_addr base []) with base. rewrite Hsb. split_and!; [lia|done|by eapply sorted_weaken; [|exact Hs]; lia|done|done].
    - rewrite last_addr_snoc. rewrite <- app_assoc in Hseg, Hs. simpl in Hseg, Hs. apply seg_app in Hseg as (Hsa & Ht & Hsc).
      apply sorted_app in Hs as (Hs0 & Hlt & Hq & Ht1 & Hqm & Hs2). rewrite Ht.
      split_and!; [apply (Hpos (q, t)); apply elem_of_app; right; left|done|done|by apply seg_app|by apply sorted_app]. }
  destruct (join_right_ok base m bp p n L2) as (n' & L2' & Hfr & Hn' & Hsg' & Hle & Hmx' & Hs' & Hcov & Hlen); try done; [lia..|].
  set (m1 := join_right bp p m) in *.
  destruct (join_left_ok base m1 bp n' L1 L2' (ptr (heap m p))) as (L' & Hr' & Hc' & (a0 & s0 & Hin & Hs0) & Hl'); try done; try lia.
  - rewrite Hfr by lia. done.
  - apply (seg_move m _ base); [by rewrite Hfr by lia| |done]. intros c Hc. apply Hfr.
    apply list_elem_of_fmap in Hc as (y & -> & Hy). pose proof (Hpos y Hy). lia.
  - fold p in Hr'. exists (set_freep p (join_left bp p m1)), L'. split; [done|]. split; [done|].
    assert (Hcv : forall u, covers L' u <-> covers (L1 ++ L2) u \/ bp <= u < bp + 8 * n).
    { intros u. rewrite Hc', Hcov, covers_app. tauto. }
    split; [exact Hcv|]. split; [|split; [exists a0, s0; split; [done|lia]|rewrite length_app in *; lia]].
    intros a Ha Hna. change (heap (join_left bp p m1) a = heap m a). rewrite Hcv in Hna. rewrite join_left_frame, Hfr; [done|..].
    + intros ->. apply Hna. right. lia.
    + intros ->. apply Hna. left. pose proof (last_addr_in base L1) as Hin'. fold p in Hin'.
      apply elem_of_cons in Hin' as [|Hin']; [done|]. apply list_elem_of_fmap in Hin' as ([c t] & Ec & Hc).
      rewrite covers_app. left. apply Exists_exists. exists (c, t). split; [done|]. simpl in Ec.
      destruct (sorted_above _ _ _ _ Hs1 Hc). lia.
Qed.

(** ** Taking a block out of the ring *)

Lemma take_all base m L1 p s L2 :
  ring base m (L1 ++ (p, s) :: L2) ->
  ring base (set_freep (last_addr base L1) (set_ptr (last_addr base L1) (ptr (heap m p)) m)) (L1 ++ L2).
Proof.
  intros [[Hb0 Hsb] Hseg Hs _]. apply seg_app in Hseg as (Hseg1 & Hps & Hseg2).
  apply sorted_app in Hs as (Hs1 & Hlt & Hp & Hs0 & Hpm & Hs2).
  assert (sorted (base + 7) (L1 ++ L2)) as Hsn.
  { destruct L2 as [|[c t] L2]; [by rewrite app_nil_r|]. simpl in Hs2. destruct Hs2 as (? & ? & ? & Hs2).
    apply sorted_app. split_and!; try (done || lia). intros a v Ha. pose proof (Hlt a v Ha). lia. }
  set (q := last_addr base L1) in *. set (m' := set_freep q (set_ptr q (ptr (heap m p)) m)).
  assert (Ho : forall c, c <> q -> heap m' c = heap m c).
  { intros c Hc. unfold m', set_ptr. cbn [heap set_freep]. by apply heap_other. }
  assert (heap m' q = mkhdr (ptr (heap m p)) (size (heap m q))) as Eq.
  { unfold m', set_ptr. cbn [heap set_freep]. apply heap_same. }
  assert (q < p) as Hqp.
  { pose proof (last_addr_in base L1) as Hin. fold q in Hin. apply elem_of_cons in Hin as [->|Hin]; [lia|].
    apply list_elem_of_fmap in Hin as ([c t] & -> & Hin). pose proof (Hlt _ _ Hin). destruct (sorted_above _ _ _ _ Hs1 Hin). simpl. lia. }
  assert (Hmv : seg m' q L2 base).
  { apply (seg_move m _ p); [by rewrite Eq| |done]. intros c Hc. apply Ho. destruct (sorted_addr _ _ _ Hs2 Hc). lia. }
  split; [|clear Hsn|exact Hsn|].
  - split; [done|]. destruct (decide (base = q)) as [E|E]; [rewrite E, Eq; simpl; by rewrite <- E|by rewrite Ho].
  - destruct L1 as [|[c t] L0 _] using rev_ind; [exact Hmv|]. assert (q = c) as Ec by apply last_addr_snoc.
    rewrite Ec in *. apply seg_app in Hseg1 as (Hseg0 & Ht & _). apply sorted_app in Hs1 as (Hs0' & Hlt' & Hcb & _).
    rewrite <- app_assoc. simpl. apply seg_app. split_and!; [|by rewrite Eq|done].
    apply (seg_move m _ base); [by rewrite Ho by lia| |done]. intros d Hd. apply Ho.
    apply list_elem_of_fmap in Hd as ([e v] & -> & Hd). pose proof (Hlt' _ _ Hd). destruct (sorted_above _ _ _ _ Hs0' Hd). simpl. lia.
  - rewrite fmap_app. pose proof (last_addr_in base L1) as Hin. fold q in Hin. cbn [freep set_freep m']. set_solver.
Qed.

Lemma take_end base m L1 p s L2 n :
  let b := p + 8 * (s - n) in
  ring base m (L1 ++ (p, s) :: L2) -> 1 <= n < s ->
  ring base (set_freep (last_addr base L1) (set_size b n (set_size p (s - n) m))) (L1 ++ (p, s - n) :: L2).
Proof.
  intros b [[Hb0 Hsb] Hseg Hs _] Hn. apply seg_app in Hseg as (Hseg1 & Hps & Hseg2).
  apply sorted_app in Hs as (Hs1 & Hlt & Hp & Hs0 & Hpm & Hs2).
  set (m' := set_freep _ _).
  assert (Ho : forall c, c <> p -> c <> b -> heap m' c = heap m c).
  { intros c Hc Hc'. unfold m', set_size. cbn [heap set_freep]. by rewrite !heap_other by done. }
  assert (heap m' p = mkhdr (ptr (heap m p)) (s - n)) as Ep.
  { unfold m', set_size. cbn [heap set_freep]. by rewrite heap_other, heap_same by lia. }
  split.
  - split; [done|]. by rewrite Ho by lia.
  - apply seg_app. rewrite Ep. split_and!; [|done|].
    + apply (seg_move m _ base); [by rewrite Ho by lia| |done]. intros d Hd.
      apply list_elem_of_fmap in Hd as ([e v] & -> & Hd). pose proof (Hlt _ _ Hd). destruct (sorted_above _ _ _ _ Hs1 Hd).
      simpl. apply Ho; lia.
    + apply (seg_move m _ p); [by rewrite Ep| |done]. intros d Hd. destruct (sorted_addr _ _ _ Hs2 Hd). apply Ho; lia.
  - apply sorted_app. split_and!; try (done || lia). eapply sorted_weaken; [|done]. lia.
  - rewrite fmap_app. pose proof (last_addr_in base L1). unfold m'. cbn [freep set_freep]. set_solver.
Qed.

(** What malloc hands out: [n] units at [b], out of the free bytes [F]. *)
Record cut (base : Z) (m : umem) (F : Z -> Prop) (b n : Z) (m' : umem) (L' : blocks) : Prop := {
  ct_ring : ring base m' L';
  ct_low : base + 7 < b;
  ct_size : size (heap m' b) = n;
  ct_free : forall u, F u <-> covers L' u \/ b <= u < b + 8 * n;
  ct_own : forall u, b <= u < b + 8 * n -> ~ covers L' u;
  ct_frame : forall a, a <> base -> ~ F a -> heap m' a = heap m a
}.

Lemma take_ok base m L1 p s L2 n :
  ring base m (L1 ++ (p, s) :: L2) -> 1 <= n <= s ->
  exists b m' L', take_block n (last_addr base L1) p m = (b + 8, m') /\
    cut base m (covers (L1 ++ (p, s) :: L2)) b n m' L' /\
    Forall (fun x => exists y, y ∈ L1 ++ (p, s) :: L2 /\ fst x + 8 * snd x <= fst y + 8 * snd y) L'.
Proof.
  intros Hr Hn. pose proof Hr as [[Hb0 Hsb] Hseg Hs _]. apply seg_app in Hseg as (_ & Hps & _).
  apply sorted_app in Hs as (Hs1 & Hlt & Hp & Hs0 & Hpm & Hs2). unfold take_block. rewrite Hps.
  assert (Hout : forall u, p <= u < p + 8 * s -> ~ covers (L1 ++ L2) u).
  { intros u Hu [Hc|Hc]%covers_app; apply Exists_exists in Hc as ([c t] & Hc & Hcu).
    - pose proof (Hlt _ _ Hc). lia.
    - destruct (sorted_above _ _ _ _ Hs2 Hc). lia. }
  assert (Hq : forall a, a <> base -> ~ covers (L1 ++ (p, s) :: L2) a -> a <> last_addr base L1 /\ a <> p /\ ~ (p <= a < p + 8 * s)).
  { intros a Ha Hc. rewrite covers_app, covers_cons in Hc. split; [|split; [intros ->; apply Hc; right; left; lia|tauto]].
    intros ->. pose proof (last_addr_in base L1) as [|Hin]%elem_of_cons; [done|]. apply Hc. left.
    apply list_elem_of_fmap in Hin as ([c t] & Ec & Hin). apply Exists_exists. exists (c, t). split; [done|].
    destruct (sorted_above _ _ _ _ Hs1 Hin). simpl in Ec. lia. }
  destruct (Z.eqb_spec s n) as [E|E].
  - subst n. exists p. do 2 eexists. split; [done|]. split; [split; [by eapply take_all|lia| | | |]|].
    + cbn [heap set_freep set_ptr]. destruct (decide (p = last_addr base L1)) as [Eq|Eq].
      * unfold set_ptr. rewrite Eq, heap_same. simpl. by rewrite <- Eq.
      * unfold set_ptr. by rewrite heap_other.
    + intros u. rewrite !covers_app, covers_cons. tauto.
    + done.
    + intros a Ha Hc. destruct (Hq a Ha Hc) as (H1 & _ & _). cbn [heap set_freep]. by apply heap_other.
    + apply Forall_forall. intros x Hx. exists x. split; [set_solver|lia].
  - rewrite u32_small by lia. cbv zeta. assert (size (heap (set_size p (s - n) m) p) = s - n) as ->.
    { unfold set_size. by rewrite heap_same. }
    set (b := p + 8 * (s - n)). exists b. do 2 eexists. split; [done|].
    split; [split; [by apply (take_end base m L1 p s L2 n); [|lia]|unfold b; lia| | | |]|].
    + cbn [heap set_freep]. unfold set_size. by rewrite heap_same.
    + intros u. rewrite !covers_app, !covers_cons. assert (p <= u < p + 8 * s <-> p <= u < p + 8 * (s - n) \/ b <= u < b + 8 * n) by (unfold b; lia).
      tauto.
    + intros u Hu [Hc|[Hc|Hc]%covers_cons]%covers_app.
      * apply (Hout u); [unfold b in Hu; lia|]. rewrite covers_app. by left.
      * unfold b in Hu. lia.
      * apply (Hout u); [unfold b in Hu; lia|]. rewrite covers_app. by right.
    + intros a Ha Hc. destruct (Hq a Ha Hc) as (_ & H1 & H2). cbn [heap set_freep]. unfold set_size.
      rewrite !heap_other; [done|done|]. unfold b. lia.
    + apply Forall_app. split; [|constructor].
      * apply Forall_forall. intros x Hx. exists x. split; [set_solver|lia].
      * exists (p, s). split; [set_solver|simpl; lia].
      * apply Forall_forall. intros x Hx. exists x. split; [set_solver|lia].
Qed.

(** ** The search of malloc *)

Lemma first_fit n (L : blocks) :
  Forall (fun x => snd x < n) L \/
  exists S p s T, L = S ++ (p, s) :: T /\ n <= s /\ Forall (fun x => snd x < n) S.
Proof.
  induction L as [|[p s] L [H|(S & q & t & T & -> & Ht & HS)]]; [by left|..].
  - destruct (decide (n <= s)); [right; by exists [], p, s, L|left; constructor; [simpl; lia|done]].
  - right. destruct (decide (n <= s)); [by exists [], p, s, (S ++ (q, t) :: T)|].
    exists ((p, s) :: S), q, t, T. split; [done|]. split; [done|]. constructor; [simpl; lia|done].
Qed.

(** Blocks that are too small are passed. *)
Lemma loop_skip n m S a e f :
  seg m a S e -> Forall (fun x => snd x < n) S -> Forall (fun x => fst x <> freep m) S ->
  malloc_loop (length S + f) n a (ptr (heap m a)) m = malloc_loop f n (last_addr a S) e m.
Proof.
  revert a. induction S as [|[b s] S IH]; intros a Hseg H1 H2; simpl in Hseg; [by rewrite Hseg|].
  destruct Hseg as (-> & Hs & Hseg). pose proof (Forall_inv H1) as Hb1. pose proof (Forall_inv H2) as Hb2.
  apply Forall_inv_tail in H1, H2. simpl in Hb1, Hb2. cbn [length Nat.add malloc_loop]. rewrite Hs.
  rewrite (proj2 (Z.leb_gt n s)), (proj2 (Z.eqb_neq b (freep m))) by done. rewrite last_addr_cons. by apply IH.
Qed.

Lemma loop_hit n m f a p : n <= size (heap m p) -> malloc_loop (S f) n a p m = Ret (take_block n a p m).
Proof. intros H. cbn [malloc_loop]. by rewrite (proj2 (Z.leb_le _ _) H). Qed.

(** A scan from [a] that finds a block. *)
Lemma loop_scan n m S p s T a e f :
  seg m a (S ++ (p, s) :: T) e -> n <= s -> Forall (fun x => snd x < n) S -> Forall (fun x => fst x <> freep m) S ->
  (length S < f)%nat ->
  malloc_loop f n a (ptr (heap m a)) m = Ret (take_block n (last_addr a S) p m).
Proof.
  intros Hseg Hs H1 H2 Hf. apply seg_app in Hseg as (HS & Hp & _).
  replace f with (length S + Datatypes.S (f - length S - 1))%nat by lia.
  rewrite (loop_skip n m S a p _ HS H1 H2). apply loop_hit. lia.
Qed.

(** Where the free pointer is: at [base] or at a block. *)
Lemma ring_freep base m L :
  ring base m L ->
  (freep m = base /\ Forall (fun x => fst x <> freep m) L) \/
  exists La t Lb, L = La ++ (freep m, t) :: Lb /\ size (heap m (freep m)) = t /\ base <> freep m /\
    seg m (freep m) Lb base /\ seg m base La (freep m) /\
    Forall (fun x => fst x <> freep m) La /\ Forall (fun x => fst x <> freep m) Lb.
Proof.
  intros [[Hb0 Hsb] Hseg Hs Hin]. apply elem_of_cons in Hin as [E|Hin].
  - left. split; [done|]. rewrite E. apply Forall_forall. intros [c t] Hc. destruct (sorted_above _ _ _ _ Hs Hc). simpl. lia.
  - right. apply list_elem_of_fmap in Hin as ([q t] & Eq & Hin). simpl in Eq. rewrite Eq.
    apply list_elem_of_split in Hin as (La & Lb & ->). exists La, t, Lb.
    apply seg_app in Hseg as (H1 & H2 & H3). apply sorted_app in Hs as (Hs1 & Hlt & Hq & Ht & _ & Hs2).
    split_and!; try done; [lia|apply Forall_forall; intros [c v] Hc; simpl..].
    + pose proof (Hlt _ _ Hc). destruct (sorted_above _ _ _ _ Hs1 Hc). lia.
    + destruct (sorted_above _ _ _ _ Hs2 Hc). lia.
Qed.

Lemma last_addr_app a L1 b s L2 : last_addr a (L1 ++ (b, s) :: L2) = last_addr b L2.
Proof.
  unfold last_addr. rewrite fmap_app, last_app, fmap_cons, last_cons. by destruct (last (fst <$> L2)).
Qed.

(** With a block that fits, malloc takes one, in one round. *)
Lemma loop_fit base n m L f :
  ring base m L -> 1 <= n -> (exists a s, (a, s) ∈ L /\ n <= s) -> (length L + 1 < f)%nat ->
  exists L1 p s L2, L = L1 ++ (p, s) :: L2 /\ n <= s /\
    malloc_loop f n (freep m) (ptr (heap m (freep m))) m = Ret (take_block n (last_addr base L1) p m).
Proof.
  intros Hr Hn (a0 & s0 & Hin & Hs0) Hf. pose proof Hr as [[Hb0 Hsb] Hseg Hs _].
  destruct (ring_freep base m L Hr) as [[Ef HL]|(La & t & Lb & -> & Ht & Hbf & Hsb2 & Hsa & HLa & HLb)].
  - destruct (first_fit n L) as [Hall|(S & p & s & T & -> & Hps & HS)].
    + rewrite Forall_forall in Hall. pose proof (Hall _ Hin). simpl in *. lia.
    + exists S, p, s, T. split_and!; [done..|]. rewrite length_app in Hf. simpl in Hf. apply Forall_app in HL as [HL _].
      rewrite Ef. apply (loop_scan n m S p s T base base); (done || lia).
  - rewrite length_app in Hf. simpl in Hf. destruct (first_fit n Lb) as [Hall|(S & p & s & T & -> & Hps & HS)].
    + assert (Hround : forall g, (length Lb < g)%nat ->
        malloc_loop g n (freep m) (ptr (heap m (freep m))) m =
        malloc_loop (g - S (length Lb)) n base (ptr (heap m base)) m).
      { intros g Hg. replace g with (length Lb + S (g - S (length Lb)))%nat at 1 by lia.
        rewrite (loop_skip n m Lb _ _ _ Hsb2 Hall HLb). cbn [malloc_loop]. rewrite Hsb.
        by rewrite (proj2 (Z.leb_gt n 0)), (proj2 (Z.eqb_neq base (freep m))) by (done || lia). }
      rewrite Hround by lia.
      destruct (first_fit n La) as [Hall2|(S & p & s & T & -> & Hps & HS)].
      * assert (n <= t) as Hnt.
        { apply elem_of_app in Hin as [Hin|[[= -> ->]|Hin]%elem_of_cons]; [|done|]; exfalso;
            [rewrite Forall_forall in Hall2; pose proof (Hall2 _ Hin)|rewrite Forall_forall in Hall; pose proof (Hall _ Hin)]; simpl in *; lia. }
        exists La, (freep m), t, Lb. split_and!; [done..|].
        replace (f - S (length Lb))%nat with (length La + S (f - S (length Lb) - S (length La)))%nat by lia.
        rewrite (loop_skip n m La base (freep m) _ Hsa Hall2 HLa). apply loop_hit. lia.
      * exists S, p, s, (T ++ (freep m, t) :: Lb). rewrite <- app_assoc. split_and!; [done..|].
        apply Forall_app in HLa as [HLa _]. rewrite length_app in Hf. simpl in Hf.
        apply (loop_scan n m S p s T base (freep m)); (done || lia).
    + exists (La ++ (freep m, t) :: S), p, s, T. rewrite <- app_assoc. split_and!; [done..|].
      rewrite last_addr_app. apply Forall_app in HLb as [HLb _]. rewrite length_app in Hf. simpl in Hf.
      apply (loop_scan n m S p s T (freep m) base); (done || lia).
Qed.

(** Without one, it asks for more memory. *)
Lemma loop_nofit base n m L g :
  ring base m L -> 1 <= n -> Forall (fun x => snd x < n) L ->
  malloc_loop (length L + S g) n (freep m) (ptr (heap m (freep m))) m =
  (let* (q, m) <- morecore g n m ;;
   if q =? 0 then Ret (0, m) else malloc_loop g n q (ptr (heap m q)) m)%U.
Proof.
  intros Hr Hn Hall. pose proof Hr as [[Hb0 Hsb] Hseg Hs _].
  destruct (ring_freep base m L Hr) as [[Ef HL]|(La & t & Lb & -> & Ht & Hbf & Hsb2 & Hsa & HLa & HLb)].
  - rewrite Ef at 1 2. rewrite (loop_skip n m L base base _ Hseg Hall HL). cbn [malloc_loop]. rewrite Hsb, Ef, Z.eqb_refl.
    by rewrite (proj2 (Z.leb_gt n 0)) by lia.
  - apply Forall_app in Hall as [HA HB]. pose proof (Forall_inv HB) as Hnt. apply Forall_inv_tail in HB. simpl in Hnt.
    rewrite length_app. simpl length.
    replace (length La + S (length Lb) + S g)%nat with (length Lb + S (length La + S g))%nat by lia.
    rewrite (loop_skip n m Lb _ _ _ Hsb2 HB HLb). cbn [malloc_loop]. rewrite Hsb.
    rewrite (proj2 (Z.leb_gt n 0)), (proj2 (Z.eqb_neq base (freep m))) by (done || lia).
    rewrite (loop_skip n m La base (freep m) _ Hsa HA HLa). cbn [malloc_loop]. rewrite Ht, Z.eqb_refl.
    by rewrite (proj2 (Z.leb_gt n t)) by lia.
Qed.

(** ** malloc *)

(** The kernel as malloc sees it: sbrk moves the end of the memory up to a
    limit, and returns where it was. *)
Definition brk : uhandler (Z * Z) := fun r w =>
  match r as r0 return option (rep r0 * (Z * Z)) with
  | RSbrk n => Some (if snd w <? fst w + n then (-1, w) else (fst w, (fst w + n, snd w)))
  | _ => None
  end.

(** The free blocks are [L], all below the end of the memory; before the first
    call there are none. *)
Definition heap_ok (base : Z) (m : umem) (L : blocks) (e : Z) : Prop :=
  (ring base m L \/ (freep m = 0 /\ L = [] /\ 0 < base)) /\ base + 8 <= e /\
  Forall (fun x => fst x + 8 * snd x <= e) L.

Lemma morecore_ok base m L n g w :
  ring base m L -> base + 8 <= fst w -> Forall (fun x => fst x + 8 * snd x <= fst w) L ->
  fst w <= snd w < 4294967296 -> 1 <= n -> 8 * Z.max n PAGE < 2147483648 -> (2 * length L + 2 <= g)%nat ->
  let nu := Z.max n PAGE in
  if snd w <? fst w + 8 * nu then urun brk w (morecore g n m) = UDone (0, m) w
  else exists m' L', urun brk w (morecore g n m) = UDone (freep m', m') (fst w + 8 * nu, snd w) /\
    ring base m' L' /\ (forall u, covers L' u <-> covers L u \/ fst w <= u < fst w + 8 * nu) /\
    (forall a, a <> base -> ~ covers L' a -> heap m' a = heap m a) /\
    (exists a s, (a, s) ∈ L' /\ n <= s) /\ (length L' <= S (length L))%nat /\
    Forall (fun x => fst x + 8 * snd x <= fst w + 8 * nu) L'.
Proof.
  intros Hr Hb HL Hw Hn Hmax Hg nu. assert ((if n <? PAGE then PAGE else n) = nu) as Enu.
  { unfold nu. destruct (Z.ltb_spec n PAGE); lia. }
  unfold morecore. rewrite Enu. rewrite urun_pbind. cbn [sbrk call urun brk].
  assert (i32 (u32 (nu * 8)) = 8 * nu) as ->.
  { rewrite u32_small by (unfold nu in *; unfold PAGE in *; lia). rewrite i32_small; unfold nu, PAGE in *; lia. }
  assert (1 <= nu) as Hnu by (unfold nu; lia).
  destruct (snd w <? fst w + 8 * nu) eqn:E; cbn [ubind urun].
  - done.
  - apply Z.ltb_ge in E. rewrite (proj2 (Z.eqb_neq (fst w) (-1))) by (destruct Hr as [[? _] _ _ _]; lia).
    set (m1 := set_size (fst w) nu m).
    assert (Hm1 : forall c, c <> fst w -> heap m1 c = heap m c) by (intros c Hc; by apply heap_other).
    assert (ring base m1 L) as Hr1.
    { destruct Hr as [[H1 H2] H3 H4 H5]. assert (Hlt : forall c, c ∈ fst <$> L -> c <> fst w).
      { intros c Hc. apply list_elem_of_fmap in Hc as ([d v] & -> & Hd). rewrite Forall_forall in HL. pose proof (HL _ Hd).
        destruct (sorted_above _ _ _ _ H4 Hd). simpl in *. lia. }
      split; [rewrite Hm1 by lia; done| |done|done].
      apply (seg_move m _ base); [by rewrite Hm1 by lia| |done]. intros c Hc. apply Hm1. by apply Hlt. }
    destruct (free_ok base m1 L (fst w) nu g Hr1) as (m' & L' & Ef & Hr' & Hcov & Hfr & Hfit & Hlen); try lia.
    { unfold m1, set_size. by rewrite heap_same. }
    { eapply Forall_impl; [exact HL|]. simpl. intros x Hx. by right. }
    rewrite Ef. cbn [urun]. exists m', L'. split; [done|]. split; [done|]. split; [done|]. split; [|split; [|split; [done|]]].
    + intros a Ha Hc. rewrite Hfr by done. apply Hm1. intros ->. apply Hc, Hcov. right. lia.
    + destruct Hfit as (a & s & Hin & Hs). exists a, s. split; [done|]. unfold nu in Hs. lia.
    + apply Forall_forall. intros [a s] Hin. simpl. destruct Hr' as [_ _ Hs' _].
      destruct (sorted_above _ _ _ _ Hs' Hin) as (_ & Hs1 & _).
      assert (covers L' (a + 8 * s - 1)) as Hc by (apply Exists_exists; exists (a, s); split; [done|lia]).
      apply Hcov in Hc as [Hc|Hc]; [|lia]. apply Exists_exists in Hc as ([b t] & Hb' & Hu).
      rewrite Forall_forall in HL. pose proof (HL _ Hb'). simpl in *. lia.
Qed.

Lemma ring_freep_pos base m L : ring base m L -> freep m <> 0.
Proof.
  intros [[Hb _] _ Hs Hin] E. rewrite E in Hin. apply elem_of_cons in Hin as [|Hin]; [lia|].
  destruct (sorted_addr _ _ _ Hs Hin). lia.
Qed.

Lemma cut_from base m m' F G b n m'' L :
  (forall a, a <> base -> ~ G a -> heap m' a = heap m a) -> (forall u, F u <-> G u) ->
  cut base m' F b n m'' L -> cut base m G b n m'' L.
Proof.
  intros Hm HG [C1 C2 C3 C4 C5 C6]. split; try done.
  - intros u. rewrite <- HG. apply C4.
  - intros a Ha Hn. rewrite C6, Hm; try done. by rewrite HG.
Qed.

(** The loop of malloc, from a ring. *)
Lemma malloc_loop_ok base m L n f w :
  ring base m L -> base + 8 <= fst w -> Forall (fun x => fst x + 8 * snd x <= fst w) L ->
  fst w <= snd w < 4294967296 -> 1 <= n -> 8 * Z.max n PAGE < 2147483648 -> (3 * length L + 6 <= f)%nat ->
  exists r m' L' w', urun brk w (malloc_loop f n (freep m) (ptr (heap m (freep m))) m) = UDone (r, m') w' /\
    snd w' = snd w /\ fst w <= fst w' <= snd w /\ Forall (fun x => fst x + 8 * snd x <= fst w') L' /\
    ((r = 0 /\ w' = w /\ m' = m /\ L' = L /\ Forall (fun x => snd x < n) L /\ snd w < fst w + 8 * Z.max n PAGE) \/
     cut base m (fun u => covers L u \/ fst w <= u < fst w') (r - 8) n m' L').
Proof.
  intros Hr Hb HL Hw Hn Hmax Hf.
  assert (Hend : forall L0 L' e, Forall (fun x => fst x + 8 * snd x <= e) L0 ->
    Forall (fun x => exists y, y ∈ L0 /\ fst x + 8 * snd x <= fst y + 8 * snd y) L' ->
    Forall (fun x => fst x + 8 * snd x <= e) L').
  { intros L0 L' e H0 H'. eapply Forall_impl; [exact H'|]. intros x (y & Hy & Hle). rewrite Forall_forall in H0.
    pose proof (H0 y Hy). simpl in *. lia. }
  assert (Hfit : (exists a s, (a, s) ∈ L /\ n <= s) \/ Forall (fun x => snd x < n) L).
  { destruct (first_fit n L) as [H|(S & p & s & T & -> & Hs & _)]; [by right|left].
    exists p, s. split; [apply elem_of_app; right; left|done]. }
  destruct Hfit as [Hfit|Hno].
  - destruct (loop_fit base n m L f Hr Hn Hfit) as (L1 & p & s & L2 & -> & Hs & E); [lia|]. rewrite E.
    destruct (take_ok base m L1 p s L2 n Hr) as (b & m' & L' & Et & Hcut & Hle); [lia|]. rewrite Et.
    exists (b + 8), m', L', w. split; [done|]. split; [done|]. split; [lia|]. split; [by eapply Hend|]. right.
    replace (b + 8 - 8) with b by lia. eapply cut_from; [|intros u|exact Hcut]; [done|].
    assert (~ (fst w <= u < fst w)) by lia. tauto.
  - replace f with (length L + S (f - length L - 1))%nat by lia. rewrite (loop_nofit base n m L _ Hr Hn Hno).
    pose proof (morecore_ok base m L n (f - length L - 1) w Hr Hb HL Hw Hn Hmax ltac:(lia)) as Hmc. cbv zeta in Hmc.
    rewrite urun_pbind. destruct (snd w <? fst w + 8 * Z.max n PAGE) eqn:Eb.
    + rewrite Hmc. cbn [ubind]. exists 0, m, L, w. apply Z.ltb_lt in Eb. split; [done|]. split; [done|]. split; [lia|].
      split; [done|]. left. split_and!; done.
    + apply Z.ltb_ge in Eb. destruct Hmc as (m1 & L1 & E1 & Hr1 & Hcov & Hfr & Hfit & Hlen & HL1). rewrite E1. cbn [ubind].
      rewrite (proj2 (Z.eqb_neq (freep m1) 0)) by (by eapply ring_freep_pos).
      destruct (loop_fit base n m1 L1 (f - length L - 1) Hr1 Hn Hfit) as (La & p & s & Lb & -> & Hs & E); [lia|]. rewrite E.
      destruct (take_ok base m1 La p s Lb n Hr1) as (b & m' & L' & Et & Hcut & Hle); [lia|]. rewrite Et. cbn [urun].
      exists (b + 8), m', L', (fst w + 8 * Z.max n PAGE, snd w). cbn [fst snd].
      split; [done|]. split; [done|]. split; [lia|]. split; [by eapply Hend|]. right.
      replace (b + 8 - 8) with b by lia. eapply cut_from; [|exact Hcov|exact Hcut].
      intros a Ha Hn'. apply Hfr; [done|]. by rewrite Hcov.
Qed.



(** free gives the bytes of a block back, joined with its neighbours. *)
Theorem free_spec base m L e bp n f :
  ring base m L -> heap_ok base m L e -> size (heap m bp) = n -> 1 <= n -> base + 8 <= bp -> bp + 8 * n <= e < 4294967296 ->
  (forall u, bp <= u < bp + 8 * n -> ~ covers L u) -> (2 * length L + 2 <= f)%nat ->
  exists m' L', free f (bp + 8) m = Some m' /\ heap_ok base m' L' e /\
    (forall u, covers L' u <-> covers L u \/ bp <= u < bp + 8 * n) /\
    (forall a, a <> base -> ~ covers L' a -> heap m' a = heap m a).
Proof.
  intros Hr (_ & He & HL) Hn H1 Hb Hmax Hfree Hf.
  destruct (free_ok base m L bp n f Hr Hn H1) as (m' & L' & E & Hr' & Hcov & Hfr & _ & _); try lia.
  - apply Forall_forall. intros [a s] Hin. simpl. pose proof (rg_sorted _ _ _ Hr) as Hs.
    destruct (sorted_above _ _ _ _ Hs Hin) as (_ & Hs1 & _).
    assert (Hc : forall u, a <= u < a + 8 * s -> covers L u) by (intros u Hu; apply Exists_exists; by exists (a, s)).
    destruct (Z.le_gt_cases (bp + 8 * n) a) as [|H2]; [by left|right].
    destruct (Z.le_gt_cases (a + 8 * s) bp) as [|H3]; [done|exfalso]. apply (Hfree (Z.max a bp)); [lia|]. apply Hc. lia.
  - exists m', L'. split; [done|]. split; [|done]. split; [by left|]. split; [done|].
    apply Forall_forall. intros [a s] Hin. simpl. pose proof (rg_sorted _ _ _ Hr') as Hs'.
    destruct (sorted_above _ _ _ _ Hs' Hin) as (_ & Hs1 & _).
    assert (covers L' (a + 8 * s - 1)) as Hc by (apply Exists_exists; exists (a, s); split; [done|lia]).
    apply Hcov in Hc as [Hc|Hc]; [|lia]. apply Exists_exists in Hc as ([b t] & Hb' & Hu).
    rewrite Forall_forall in HL. pose proof (HL _ Hb'). simpl in *. lia.
Qed.

End Umalloc.
