(* ===== verification/Boot.v ===== *)
(** * Boot: bootmain.c, the boot loader

    The state is the physical memory; the disk is behind its I/O ports.
    bootmain returns where it would jump to: the entry point of the kernel, or
    nothing if the disk holds no ELF file.  The ELF header and the program
    headers are read from the memory they were loaded into, each time they are
    used, so that a segment loaded over them would matter. *)
From S2P Require Import Prelude Kmonad Cstring Syscall Exec Ide.
From stdpp Require Import options.

Module Boot.
Import Cstring Syscall Exec.

Abbreviation memory := (Z -> Z).

Definition SECTSIZE : Z := 512.

Definition insl (port cnt : Z) : K memory bytes := trigger (EIns port 4 cnt).

Fixpoint waitdisk (fuel : nat) : K memory unit :=
  match fuel with
  | O => diverge
  | S fuel' =>
      v <- inb 0x1F7 ;;
      if negb (Z.land v 0xC0 =? 0x40) then waitdisk fuel' else kret tt
  end.

Definition readsect (fuel : nat) (dst offset : Z) : K memory unit :=
  waitdisk fuel ;;
  outb 0x1F2 1 ;;
  outb 0x1F3 (u8 offset) ;;
  outb 0x1F4 (u8 (Z.shiftr offset 8)) ;;
  outb 0x1F5 (u8 (Z.shiftr offset 16)) ;;
  outb 0x1F6 (u8 (Z.lor (Z.shiftr offset 24) 0xE0)) ;;
  outb 0x1F7 0x20 ;;
  waitdisk fuel ;;
  d <- insl 0x1F0 (SECTSIZE / 4) ;;
  modify (mem_write dst d).

(** for(; va < eva; va += SECTSIZE, offset++), at most [n] times. *)
Fixpoint readseg_loop (n fuel : nat) (va eva offset : Z) : K memory unit :=
  if va <? eva then
    match n with
    | O => diverge
    | S n' => readsect fuel va offset ;; readseg_loop n' fuel (va + SECTSIZE) eva (u32 (offset + 1))
    end
  else kret tt.

Definition readseg (fuel : nat) (va count offset : Z) : K memory unit :=
  let eva := va + count in
  let va := va - offset mod SECTSIZE in
  let offset := u32 (offset / SECTSIZE + 1) in
  readseg_loop (Z.to_nat (eva - va)) fuel va eva offset.

Definition elf : Z := 0x10000.

(** The loop over the program headers from [ph] on, [n] of them. *)
Fixpoint load_segments (n fuel : nat) (ph : Z) : K memory unit :=
  match n with
  | O => kret tt
  | S n' =>
      h <- gets (fun m => get_ph (mem_bytes m ph 32)) ;;
      let va := Z.land (p_va h) 0xFFFFFF in
      readseg fuel va (p_filesz h) (p_offset h) ;;
      h <- gets (fun m => get_ph (mem_bytes m ph 32)) ;;
      (if p_filesz h <? p_memsz h
       then modify (fun m => stosb m (va + p_filesz h) 0 (Z.to_nat (p_memsz h - p_filesz h)))
       else kret tt) ;;
      load_segments n' fuel (ph + 32)
  end.

Definition bootmain (fuel : nat) : K memory (option Z) :=
  readseg fuel elf 4096 0 ;;
  h <- gets (fun m => get_elf (mem_bytes m elf 52)) ;;
  if negb (e_magic h =? ELF_MAGIC) then kret None
  else
    load_segments (Z.to_nat (e_phnum h)) fuel (elf + e_phoff h) ;;
    h <- gets (fun m => get_elf (mem_bytes m elf 52)) ;;
    kret (Some (Z.land (e_entry h) 0xFFFFFF)).

(** ** The disk *)

Section Disk.
Import Driver.
Context {D : Type} `{DiskPorts D}.

Definition boot_ports : handler D memory := fun e d m =>
  match e as e0 return option (ans e0 * D * memory) with
  | EInb p => let (v, d') := d_inb p d in Some (v, d', m)
  | EOutb p v => Some (tt, d_outb p v d, m)
  | EIns p _ cnt => let (x, d') := d_ins p cnt d in Some (x, d', m)
  | _ => None
  end.

(** The registers of one command to the first drive. *)
Definition issue_read (lba : Z) (d : D) : D :=
  d_outb 0x1F7 0x20 (d_outb 0x1F6 (u8 (Z.lor (Z.shiftr lba 24) 0xE0)) (d_outb 0x1F5 (u8 (Z.shiftr lba 16))
    (d_outb 0x1F4 (u8 (Z.shiftr lba 8)) (d_outb 0x1F3 (u8 lba) (d_outb 0x1F2 1 d))))).

(** What the ATA command set documents of READ SECTORS, without interrupts. *)
Class BootDisk : Prop := {
  bd_idle : forall d, idle d -> exists r d', settles maxpoll d r d' /\ idle d' /\ forall v n, dsk d' v n = dsk d v n;
  bd_read : forall d n, idle d -> 0 <= n < 268435456 ->
    exists r d' d'', settles maxpoll (issue_read n d) r d' /\ d_ins 0x1F0 128 d' = (dsk d 0 n, d'') /\
      idle d'' /\ forall v' n', dsk d'' v' n' = dsk d v' n';
  bd_sector : forall d v n, idle d -> length (dsk d v n) = 512%nat
}.

(** The kernel on the disk: the bytes from sector 1 on. *)
Definition kernel (d : D) (x : Z) : Z := byte_at (dsk d 0 (x / 512 + 1)) (Z.to_nat (x mod 512)).

Lemma waitdisk_settles n d r d' m : settles n d r d' -> run boot_ports d (waitdisk n m) = Done tt d' m.
Proof using Type.
  revert d. induction n as [|n IH]; intros d; simpl; [done|].
  change (Z.lor Ide.IDE_BSY Ide.IDE_DRDY) with 0xC0. change Ide.IDE_DRDY with 0x40.
  destruct (d_inb 503 d) as [v d1]. destruct (Z.land v 0xC0 =? 0x40) eqn:E; simpl; [|apply IH]. by intros [-> ->].
Qed.

Context `{!BootDisk}.

Lemma readsect_run d dst n m :
  idle d -> 0 <= n < 268435456 ->
  exists d', run boot_ports d (readsect maxpoll dst n m) = Done tt d' (mem_write dst (dsk d 0 n) m) /\ idle d' /\
    forall v k, dsk d' v k = dsk d v k.
Proof using All.
  intros Hi Hn. destruct (bd_idle d Hi) as (r & d1 & Hs & Hi1 & Hd1).
  destruct (bd_read d1 n Hi1 Hn) as (r2 & d2 & d3 & Hs2 & Hins & Hi3 & Hd3).
  exists d3. split; [|split; [done|intros; by rewrite Hd3, Hd1]]. unfold readsect. krun.
  rewrite (waitdisk_settles _ _ _ _ _ Hs). krun.
  assert (Ho : forall p v d0 (m0 : memory), run boot_ports d0 (outb p v m0) = Done tt (d_outb p v d0) m0) by done.
  repeat (rewrite Ho; krun). change (d_outb 0x1F7 0x20 _) with (issue_read n d1).
  rewrite (waitdisk_settles _ _ _ _ _ Hs2). krun. change (SECTSIZE / 4) with 128.
  assert (run boot_ports d2 (insl 0x1F0 128 m) = Done (dsk d1 0 n) d3 m) as -> by (simpl; by rewrite Hins).
  krun. by rewrite Hd1.
Qed.

Lemma readseg_loop_run n d va eva off m :
  idle d -> 0 <= off -> off + (eva - va) / 512 + 1 < 268435456 -> (Z.to_nat (eva - va) <= n)%nat ->
  exists d' m', run boot_ports d (readseg_loop n maxpoll va eva off m) = Done tt d' m' /\ idle d' /\
    (forall v k, dsk d' v k = dsk d v k) /\
    forall a, m' a = if decide (va <= a < va + 512 * ((eva - va + 511) / 512))
                     then byte_at (dsk d 0 (off + (a - va) / 512)) (Z.to_nat ((a - va) mod 512)) else m a.
Proof using All.
  revert d va off m. induction n as [|n IH]; intros d va off m Hi Ho Hmax Hn; cbn [readseg_loop];
    destruct (Z.ltb_spec va eva) as [Hlt|Hge]; try lia.
  - exists d, m. split_and!; try done. intros a. rewrite decide_False; [done|]. clear - Hge. dlia.
  - destruct (readsect_run d va off m Hi) as (d1 & E1 & Hi1 & Hd1); [clear - Ho Hmax Hlt; dlia|].
    krun. rewrite E1. krun. rewrite u32_small by (clear - Ho Hmax Hlt; dlia). unfold SECTSIZE.
    destruct (IH d1 (va + 512) (off + 1) (mem_write va (dsk d 0 off) m) Hi1) as (d2 & m2 & E2 & Hi2 & Hd2 & Hm2);
      [lia|clear - Hmax Hlt; dlia|lia|].
    exists d2, m2. split; [done|]. split; [done|]. split; [intros; by rewrite Hd2, Hd1|]. intros a. rewrite Hm2.
    pose proof (bd_sector d 0 off Hi) as Hl.
    replace ((eva - (va + 512) + 511) / 512) with ((eva - va + 511) / 512 - 1) by (clear; dlia).
    assert (1 <= (eva - va + 511) / 512) as Hk by (clear - Hlt; dlia).
    destruct (decide (va + 512 <= a < va + 512 + 512 * ((eva - va + 511) / 512 - 1))) as [Ha|Ha].
    + rewrite decide_True by lia. rewrite Hd1. replace (off + 1 + (a - (va + 512)) / 512) with (off + (a - va) / 512) by (clear; dlia).
      by replace ((a - (va + 512)) mod 512) with ((a - va) mod 512) by (clear; dlia).
    + destruct (decide (va <= a < va + 512)) as [Hb|Hb].
      * rewrite decide_True by lia. rewrite mem_write_in by (rewrite Hl; lia).
        replace ((a - va) / 512) with 0 by (clear - Hb; dlia). replace ((a - va) mod 512) with (a - va) by (clear - Hb; dlia).
        by rewrite Z.add_0_r.
      * rewrite decide_False by lia. apply mem_write_out. rewrite Hl. lia.
  - exists d, m. split_and!; try done. intros a. rewrite decide_False; [done|]. clear - Hge. dlia.
Qed.

(** The memory that readseg writes: whole sectors around the bytes asked for. *)
Definition seg_lo (va offset : Z) : Z := va - offset mod 512.
Definition seg_hi (va count offset : Z) : Z := seg_lo va offset + 512 * ((count + offset mod 512 + 511) / 512).

Lemma readseg_run d va count offset m :
  idle d -> 0 <= offset -> 0 <= count -> offset + count < 134217728 * 512 ->
  exists d' m', run boot_ports d (readseg maxpoll va count offset m) = Done tt d' m' /\ idle d' /\
    (forall v k, dsk d' v k = dsk d v k) /\
    forall a, m' a = if decide (seg_lo va offset <= a < seg_hi va count offset)
                     then kernel d (offset + (a - va)) else m a.
Proof using All.
  intros Hi Ho Hc Hmax. unfold readseg. change SECTSIZE with 512. fold (seg_lo va offset).
  rewrite u32_small by (clear - Ho Hc Hmax; dlia).
  destruct (readseg_loop_run (Z.to_nat (va + count - seg_lo va offset)) d (seg_lo va offset) (va + count) (offset / 512 + 1) m Hi)
    as (d' & m' & E & Hi' & Hd' & Hm'); [clear - Ho; dlia|unfold seg_lo; clear - Ho Hc Hmax; dlia|done|].
  exists d', m'. split_and!; try done. intros a. rewrite Hm'. unfold seg_hi.
  replace (va + count - seg_lo va offset) with (count + offset mod 512) by (unfold seg_lo; lia).
  destruct (decide _) as [Ha|Ha]; [|done]. unfold kernel, seg_lo in *.
  replace (offset / 512 + 1 + (a - (va - offset mod 512)) / 512) with ((offset + (a - va)) / 512 + 1) by (clear; dlia).
  by replace ((a - (va - offset mod 512)) mod 512) with ((offset + (a - va)) mod 512) by (clear; dlia).
Qed.

(** ** Loading the kernel *)

Definition kelf (d : D) : elfhdr := get_elf (mem_bytes (kernel d) 0 52).
Definition kph (d : D) (i : Z) : proghdr := get_ph (mem_bytes (kernel d) (e_phoff (kelf d) + 32 * i) 32).

Definition load_va (h : proghdr) : Z := Z.land (p_va h) 0xFFFFFF.
Definition load_lo (h : proghdr) : Z := seg_lo (load_va h) (p_offset h).
Definition load_hi (h : proghdr) : Z :=
  Z.max (seg_hi (load_va h) (p_filesz h) (p_offset h)) (load_va h + p_memsz h).

(** A segment is in memory: the bytes of the file, then zeros. *)
Definition loaded (d : D) (h : proghdr) (m : memory) : Prop :=
  forall a, (load_va h <= a < load_va h + p_filesz h -> m a = kernel d (p_offset h + (a - load_va h))) /\
            (load_va h + p_filesz h <= a < load_va h + p_memsz h -> m a = 0).

(** A kernel that the loader can load: the headers are in its first page, the
    segments do not go over the page they are read from, and loading a segment
    does not go over an earlier one. *)
Record bootable (d : D) : Prop := {
  bo_magic : e_magic (kelf d) = ELF_MAGIC;
  bo_phs : 0 <= e_phoff (kelf d) /\ e_phoff (kelf d) + 32 * e_phnum (kelf d) <= 4096;
  bo_sizes : forall i, 0 <= i < e_phnum (kelf d) -> let h := kph d i in
    0 <= p_offset h /\ 0 <= p_filesz h /\ 0 <= p_memsz h /\ p_offset h + p_filesz h < 134217728 * 512;
  bo_scratch : forall i, 0 <= i < e_phnum (kelf d) -> let h := kph d i in load_hi h <= elf \/ elf + 4096 <= load_lo h;
  bo_apart : forall i j, 0 <= i < j -> j < e_phnum (kelf d) ->
    load_hi (kph d j) <= load_va (kph d i) \/
    load_va (kph d i) + Z.max (p_filesz (kph d i)) (p_memsz (kph d i)) <= load_lo (kph d j)
}.

Definition scratch (d : D) (m : memory) : Prop := forall x, 0 <= x < 4096 -> m (elf + x) = kernel d x.

Lemma scratch_bytes d m x n :
  scratch d m -> 0 <= x -> x + Z.of_nat n <= 4096 -> mem_bytes m (elf + x) n = mem_bytes (kernel d) x n.
Proof using Type.
  intros Hs Hx Hn. apply list_eq. intros i. destruct (decide (i < n)%nat) as [Hi|Hi].
  - rewrite !lookup_mem_bytes by done. f_equal. rewrite <- Z.add_assoc. apply Hs. lia.
  - rewrite !lookup_ge_None_2; [done|rewrite length_mem_bytes; lia..].
Qed.

(** One segment: what is written, and that it is there. *)
Lemma load_run d d0 i n m :
  let h := kph d0 i in
  idle d -> (forall v k, dsk d v k = dsk d0 v k) -> bootable d0 -> 0 <= i < e_phnum (kelf d0) -> scratch d0 m ->
  exists d' m', run boot_ports d (load_segments (S n) maxpoll (elf + (e_phoff (kelf d0) + 32 * i)) m) =
      run boot_ports d' (load_segments n maxpoll (elf + (e_phoff (kelf d0) + 32 * (i + 1))) m') /\
    idle d' /\ (forall v k, dsk d' v k = dsk d0 v k) /\ scratch d0 m' /\ loaded d0 h m' /\
    (forall a, a < load_lo h \/ load_hi h <= a -> m' a = m a).
Proof using All.
  intros h Hi Hd Hbo Hir Hsc. destruct (bo_phs _ Hbo) as [Hp0 Hp1]. destruct (bo_sizes _ Hbo i Hir) as (Ho & Hf & Hm & Hmax).
  fold h in Ho, Hf, Hm, Hmax. pose proof (bo_scratch _ Hbo i Hir) as Hscr. cbv zeta in Hscr. fold h in Hscr.
  assert (Hph : forall m0, scratch d0 m0 -> get_ph (mem_bytes m0 (elf + (e_phoff (kelf d0) + 32 * i)) 32) = h).
  { intros m0 Hm0. unfold h, kph. f_equal. apply scratch_bytes; (done || lia). }
  cbn [load_segments]. krun. rewrite Hph by done. fold (load_va h).
  destruct (readseg_run d (load_va h) (p_filesz h) (p_offset h) m Hi Ho Hf Hmax) as (d1 & m1 & E1 & Hi1 & Hd1 & Hm1).
  assert (Hk : forall x, kernel d x = kernel d0 x) by (intros x; unfold kernel; by rewrite Hd).
  assert (Hlo : load_lo h <= load_va h) by (unfold load_lo, seg_lo; clear - Ho; dlia).
  assert (Hhi : load_va h + p_filesz h <= seg_hi (load_va h) (p_filesz h) (p_offset h))
    by (unfold seg_hi, seg_lo; clear - Ho Hf; dlia).
  assert (Hout1 : forall a, a < load_lo h \/ load_hi h <= a -> m1 a = m a).
  { intros a Ha. rewrite Hm1, decide_False; [done|]. unfold load_lo, load_hi in Ha. lia. }
  assert (Hsc1 : scratch d0 m1).
  { intros x Hx. rewrite Hout1; [by apply Hsc|]. unfold elf in *. lia. }
  rewrite E1. krun. rewrite Hph by done.
  set (m2 := if p_filesz h <? p_memsz h then stosb m1 (load_va h + p_filesz h) 0 (Z.to_nat (p_memsz h - p_filesz h)) else m1).
  exists d1, m2. split.
  { replace (elf + (e_phoff (kelf d0) + 32 * (i + 1))) with (elf + (e_phoff (kelf d0) + 32 * i) + 32) by lia.
    unfold m2. destruct (p_filesz h <? p_memsz h); by krun. }
  assert (Hm2 : forall a, m2 a = if decide (load_va h + p_filesz h <= a < load_va h + p_memsz h) then 0 else m1 a).
  { intros a. unfold m2. destruct (Z.ltb_spec (p_filesz h) (p_memsz h)) as [Hl|Hl]; [|rewrite decide_False by lia; done].
    fold (memset (load_va h + p_filesz h) 0 (p_memsz h - p_filesz h) m1). rewrite memset_spec by lia.
    destruct (_ && _) eqn:Eb; bool_prop; case_decide; (done || lia). }
  assert (Hout2 : forall a, a < load_lo h \/ load_hi h <= a -> m2 a = m a).
  { intros a Ha. rewrite Hm2, decide_False; [by apply Hout1|]. unfold load_hi in Ha. lia. }
  split; [done|]. split; [intros; by rewrite Hd1, Hd|]. split; [|split; [|done]].
  - intros x Hx. rewrite Hout2; [by apply Hsc|]. unfold elf in *. lia.
  - intros a. split; intros Ha; rewrite Hm2.
    + rewrite decide_False by lia. rewrite Hm1, decide_True, Hk; [done|]. unfold load_lo in Hlo. lia.
    + by rewrite decide_True by lia.
Qed.

Lemma load_all d0 n d i m :
  idle d -> (forall v k, dsk d v k = dsk d0 v k) -> bootable d0 -> 0 <= i -> i + Z.of_nat n = e_phnum (kelf d0) ->
  scratch d0 m -> (forall j, 0 <= j < i -> loaded d0 (kph d0 j) m) ->
  exists d' m', run boot_ports d (load_segments n maxpoll (elf + (e_phoff (kelf d0) + 32 * i)) m) = Done tt d' m' /\
    scratch d0 m' /\ (forall j, 0 <= j < e_phnum (kelf d0) -> loaded d0 (kph d0 j) m').
Proof using All.
  revert d i m. induction n as [|n IH]; intros d i m Hi Hd Hbo Hi0 Hn Hsc Hl.
  - exists d, m. split; [done|]. split; [done|]. intros j Hj. apply Hl. lia.
  - destruct (load_run d d0 i n m Hi Hd Hbo ltac:(lia) Hsc) as (d1 & m1 & E1 & Hi1 & Hd1 & Hsc1 & Hl1 & Hout).
    cbv zeta in Hl1, Hout. rewrite E1. apply IH; try done; try lia. intros j Hj. destruct (decide (j = i)) as [->|Hne]; [done|].
    pose proof (bo_apart _ Hbo j i ltac:(lia) ltac:(lia)) as Hap. pose proof (Hl j ltac:(lia)) as Hj'.
    destruct (bo_sizes _ Hbo j ltac:(lia)) as (_ & Hfz & _ & _).
    intros a. destruct (Hj' a) as [H1 H2]. split; intros Ha; (rewrite Hout by lia); auto.
Qed.

(** The first page, with the headers. *)
Lemma boot_page d m :
  idle d ->
  exists d1 m1, run boot_ports d (readseg maxpoll elf 4096 0 m) = Done tt d1 m1 /\ idle d1 /\
    (forall v k, dsk d1 v k = dsk d v k) /\ scratch d m1.
Proof using All.
  intros Hi. destruct (readseg_run d elf 4096 0 m Hi) as (d1 & m1 & E1 & Hi1 & Hd1 & Hm1); [lia..|].
  exists d1, m1. split_and!; try done. intros x Hx. rewrite Hm1. unfold seg_lo, seg_hi, seg_lo.
  change (0 mod 512) with 0. change ((4096 + 0 + 511) / 512) with 8. rewrite decide_True by lia. f_equal. lia.
Qed.

Lemma scratch_elf d m : scratch d m -> get_elf (mem_bytes m elf 52) = kelf d.
Proof using Type.
  intros Hs. unfold kelf. f_equal. rewrite <- (scratch_bytes d m 0 52) by (done || lia). by rewrite Z.add_0_r.
Qed.

Lemma bootmain_no_elf d m :
  idle d -> e_magic (kelf d) <> ELF_MAGIC -> exists d' m', run boot_ports d (bootmain maxpoll m) = Done None d' m'.
Proof using All.
  intros Hi Hm. destruct (boot_page d m Hi) as (d1 & m1 & E1 & _ & _ & Hsc). unfold bootmain. krun. rewrite E1. krun.
  rewrite (scratch_elf d) by done. rewrite (proj2 (Z.eqb_neq _ _) Hm). cbn [negb]. krun. by exists d1, m1.
Qed.

End Disk.

(** ** The RAM disk *)

Section Example.
Import Driver RamDisk.

Lemma issue_ramdisk_boot n d :
  0 <= n < 268435456 -> let d' := issue_read n d in rd_drv d' = 0 /\ rd_lba d' = n /\ rd_sec d' = rd_sec d.
Proof.
  intros Hn. unfold issue_read, u8. rewrite !Z.shiftr_div_pow2 by lia.
  change (2 ^ 8) with 256. change (2 ^ 16) with 65536. change (2 ^ 24) with 16777216.
  assert (0 <= n / 16777216 < 16) as Hx by (clear - Hn; dlia).
  assert (forall x, 0 <= x < 16 -> Z.land (Z.shiftr (Z.lor x 224 mod 256) 4) 1 = 0 /\ Z.land (Z.lor x 224 mod 256) 15 = x) as Hr.
  { intros x Hb. assert (x ∈ seqZ 0 16) as Hin by (apply elem_of_seqZ; lia). revert x Hb Hin. intros x _ Hin.
    repeat (apply elem_of_cons in Hin as [->|Hin]; [by split|]). by apply not_elem_of_nil in Hin. }
  destruct (Hr _ Hx) as [Hd Hl]. unfold rd_drv, rd_lba. cbn [d_outb ramdisk_ports].
  repeat match goal with |- context [?f (rd_outb ?p ?x ?d0)] =>
    destruct (rd_outb_proj p x d0) as (E3 & E4 & E5 & E6 & E7);
    rewrite ?E3, ?E4, ?E5, ?E6, ?E7; clear E3 E4 E5 E6 E7; cbn [Z.eqb Pos.eqb]
  end. rewrite Hd, Hl. split; [done|]. split; [|done]. clear - Hn. dlia.
Qed.

#[local] Instance ramdisk_boot : BootDisk (D := ramdisk).
Proof.
  split.
  - intros d Hd. exists 64, d. done.
  - intros d n Hd Hn. destruct (issue_ramdisk_boot n d Hn) as (H1 & H2 & H3).
    eexists 64, _, _. split; [done|]. cbn [d_ins dsk ramdisk_ports idle]. rewrite H1, H2, H3. done.
  - intros d v n Hd. apply Hd.
Qed.

(** A kernel with one segment: ten bytes at file offset 600, twenty in memory. *)
Definition pad512 (l : bytes) : bytes := take 512 (l ++ replicate 512 0).
Definition boot_ex : ramdisk :=
  mkrd (fun v n => if n =? 1 then
      pad512 (le_enc 4 ELF_MAGIC ++ replicate 20 0 ++ le_enc 4 0x100010 ++ le_enc 4 52 ++ replicate 12 0 ++
              le_enc 2 1 ++ replicate 6 0 ++
              le_enc 4 1 ++ le_enc 4 600 ++ le_enc 4 0x100000 ++ le_enc 4 0 ++ le_enc 4 10 ++ le_enc 4 20 ++ replicate 8 0)
    else replicate 512 (u8 n)) 0 0 0 0.

End Example.

End Boot.
