(* ===== verification/Start.v ===== *)
(** * Start: main.c, and the initialisers that main calls

    The state of the whole kernel as main sees it, on the boot processor: the
    kernel of [File] over the buffer cache and its disk, the interrupt code, the
    console, the spin locks, the interrupt table and devsw.  The other processors
    and the devices but the disk are behind events.  main ends where it calls
    scheduler. *)
From S2P Require Import Prelude Kmonad Spinlock Kalloc Pipe Proc Segment Block Ide Bio FsLayout Fs File Syscall Process Console Irq.
From stdpp Require Import options.

Module Start.
Import Ide Driver Cache Fs File Syscall Process Console.

Definition NDEV : nat := 10.
Definition CONSOLE : nat := 1.

(** The functions in devsw, and its entries. *)
Inductive devfn : Type := consoleread | consolewrite.
Record devsw : Type := mkdevsw { dread : option devfn; dwrite : option devfn }.

(** Offset of booted in struct cpu, and its size. *)
Definition off_booted : Z := 168.
Definition size_cpu : Z := 188.

Section Main.
Context {D : Type} `{DiskPorts D}.

Record machine : Type := mkmachine {
  mkern : kern (bstate * D); mirq : Irq.irq; mcons : console; mlocks : lockid -> Spinlock.spinlock;
  midt : list Seg.gatedesc; midtr : list Z; mdevsw : list devsw
}.

Definition with_kern k s := mkmachine k (mirq s) (mcons s) (mlocks s) (midt s) (midtr s) (mdevsw s).
Definition with_irq i s := mkmachine (mkern s) i (mcons s) (mlocks s) (midt s) (midtr s) (mdevsw s).
Definition with_cons c s := mkmachine (mkern s) (mirq s) c (mlocks s) (midt s) (midtr s) (mdevsw s).
Definition with_locks l s := mkmachine (mkern s) (mirq s) (mcons s) l (midt s) (midtr s) (mdevsw s).
Definition with_idt t s := mkmachine (mkern s) (mirq s) (mcons s) (mlocks s) t (midtr s) (mdevsw s).
Definition with_idtr r s := mkmachine (mkern s) (mirq s) (mcons s) (mlocks s) (midt s) r (mdevsw s).
Definition with_devsw d s := mkmachine (mkern s) (mirq s) (mcons s) (mlocks s) (midt s) (midtr s) d.

Definition on_kern {A} (m : K (kern (bstate * D)) A) : K machine A := zoom mkern with_kern m.
Definition on_irq {A} (m : K Irq.irq A) : K machine A := zoom mirq with_irq m.
Definition on_cons {A} (m : K console A) : K machine A := zoom mcons with_cons m.
(** Code of ide.c and bio.c, with the disk at its ports. *)
Definition on_ide {A} (m : K bstate A) : K machine A := on_kern (on_fs (onblk (sync m))).

Definition initlock (l : lockid) : K machine unit :=
  modify (fun s => with_locks (fun l' => if decide (l' = l) then Spinlock.initlock (mlocks s l) else mlocks s l') s).

(** What the linker and the assembler supply: the address of end, of the table
    cpus, of mpmain and of idt, the entry points of vectors.S, and the code of
    initcode.S and bootother.S. *)
Record image : Type := mkimage {
  kend : Z; cpus_at : Z; mpmain_at : Z; idt_at : Z; vectors : nat -> Z;
  initcode : bytes; bootother : bytes
}.
Variable (im : image).
(** Fuel for the loops that wait for a device or for another processor. *)
Variable (fuel : nat).

Definition pinit : K machine unit := initlock Lk_ptable.
Definition iinit : K machine unit := initlock Lk_icache.
Definition fileinit : K machine unit := initlock Lk_ftable.

Definition consoleinit : K machine unit :=
  initlock Lk_cons ;;
  initlock Lk_input ;;
  modify (fun s => with_devsw (alter (fun d => mkdevsw (dread d) (Some consolewrite)) CONSOLE (mdevsw s)) s) ;;
  modify (fun s => with_devsw (alter (fun d => mkdevsw (Some consoleread) (dwrite d)) CONSOLE (mdevsw s)) s) ;;
  on_cons (modify (set_locking true)) ;;
  on_irq (Irq.picenable Irq.IRQ_KBD) ;;
  on_irq (Irq.ioapicenable Irq.IRQ_KBD 0).

(** The loop of ideinit that looks for disk 1. *)
Fixpoint probe_disk1 (n : nat) : K bstate unit :=
  match n with
  | O => kret tt
  | S n' =>
      v <- inb 0x1f7 ;;
      if negb (v =? 0) then modify (fun s => mkbstate (bufs s) (idequeue s) 1) else probe_disk1 n'
  end.

Definition ideinit : K machine unit :=
  initlock Lk_ide ;;
  on_irq (Irq.picenable Irq.IRQ_IDE) ;;
  n <- on_irq (gets Irq.ncpu) ;;
  on_irq (Irq.ioapicenable Irq.IRQ_IDE (Z.of_nat n - 1)) ;;
  on_ide (idewait maxpoll false) ;;
  on_ide (outb 0x1f6 (Z.lor 0xe0 (Z.shiftl 1 4))) ;;
  on_ide (probe_disk1 1000) ;;
  on_ide (outb 0x1f6 (Z.lor 0xe0 (Z.shiftl 0 4))).

(** [kcpu] is the entry of cpus for this processor, which cpu() finds. *)
Definition ksegment : K machine unit :=
  on_irq Irq.cpu ;;
  on_kern (on_cpu (modify Seg.ksegment)).

Definition uartinit : K machine unit :=
  Console.uartinit (@on_cons) (on_irq (Irq.picenable Irq.IRQ_COM1)) (on_irq (Irq.ioapicenable Irq.IRQ_COM1 0)).

Definition kinit : K machine unit := initlock Lk_kmem ;; on_kern (on_kmem (Kalloc.kinit (kend im))).
Definition tvinit : K machine unit := modify (with_idt (Seg.tvinit (vectors im))) ;; initlock Lk_ticks.
Definition binit : K machine unit := initlock Lk_bcache ;; on_ide (modify Bio.binit).

(** while(c->booted == 0) for the entry [i] of cpus. *)
Fixpoint wait_booted (n i : nat) : K machine unit :=
  match n with
  | O => diverge
  | S n' =>
      v <- mmr (cpus_at im + size_cpu * Z.of_nat i + off_booted) ;;
      if v =? 0 then wait_booted n' i else kret tt
  end.

Definition code : Z := 0x7000.

(** Fill in %esp and %eip, start the code on entry [i] of cpus, and wait for it. *)
Definition start_cpu (i : nat) : K machine unit :=
  stack <- on_kern (on_kmem (Kalloc.kalloc Proc.KSTACKSIZE)) ;;
  on_kern (mupd (mem_write (code - 4) (le_enc 4 (u32 (stack + Proc.KSTACKSIZE))))) ;;
  on_kern (mupd (mem_write (code - 8) (le_enc 4 (mpmain_at im)))) ;;
  apicid <- on_irq (gets (fun q => nth i (Irq.cpus q) 0)) ;;
  on_irq (Irq.lapicstartap apicid code) ;;
  wait_booted fuel i.

(** The loop of bootothers over the entries of cpus from [i] on. *)
Fixpoint start_cpus (n i : nat) : K machine unit :=
  match n with
  | O => kret tt
  | S n' =>
      id <- on_irq Irq.cpu ;;
      (if Z.of_nat i =? id then kret tt else start_cpu i) ;;
      start_cpus n' (S i)
  end.

Definition bootothers : K machine unit :=
  on_kern (mupd (mem_write code (bootother im))) ;;
  n <- on_irq (gets Irq.ncpu) ;;
  start_cpus n 0.

(** idtinit, and xchg(&c->booted, 1). *)
Definition idtinit : K machine unit := modify (with_idtr (Seg.idtinit (idt_at im))).
Definition set_booted : K machine unit :=
  c <- gets (fun s => Seg.caddr (kcpu (mkern s))) ;;
  mmw (c + off_booted) 1.

(** Up to the call of scheduler. *)
Definition mpmain : K machine unit :=
  id <- on_irq Irq.cpu ;;
  b <- on_irq Irq.mpbcpu ;;
  (if negb (id =? b) then id <- on_irq Irq.cpu ;; on_irq (Irq.lapicinit fuel id) else kret tt) ;;
  ksegment ;;
  on_irq Irq.cpu ;;
  Kmonad.cprintf "cpu%d: mpmain\n" ;;
  idtinit ;;
  set_booted ;;
  on_irq Irq.cpu ;;
  Kmonad.cprintf "cpu%d: scheduling\n".

Definition main : K machine unit :=
  m <- on_kern mem ;;
  on_irq (Irq.mpinit m) ;;
  b <- on_irq Irq.mpbcpu ;;
  on_irq (Irq.lapicinit fuel b) ;;
  ksegment ;;
  on_irq Irq.picinit ;;
  on_irq Irq.ioapicinit ;;
  consoleinit ;;
  uartinit ;;
  on_irq Irq.cpu ;;
  Kmonad.cprintf "\ncpu%d: starting xv6\n\n" ;;
  kinit ;;
  pinit ;;
  tvinit ;;
  binit ;;
  fileinit ;;
  iinit ;;
  ideinit ;;
  mp <- on_irq (gets Irq.ismp) ;;
  (if negb mp then on_irq Irq.timerinit else kret tt) ;;
  on_kern (userinit fuel (initcode im)) ;;
  bootothers ;;
  mpmain.
End Main.
End Start.
