(* ===== verification/StartSpec.v ===== *)
(** * StartSpec: the kernel after main

    A model of the hardware that main talks to besides the disk: I/O ports and
    device registers that answer anything, a local APIC, and processors that wait
    to be started.  main runs to the call of scheduler on every such machine and
    leaves the kernel in a state in which the invariants that the other theorems
    start from hold, with every other processor running mpmain on a stack of its
    own. *)
From S2P Require Import Prelude Kmonad Spinlock Kalloc Pipe Proc Segment Block Ide Bio FsLayout Fs File Syscall Process Console Irq Machine FileRefs ProcessSpec Start.
From stdpp Require Import options.

Module StartSpec.
Import Ide Driver Cache Fs File Syscall Process Start.

(** ** A second disk

    [shows n d d']: of at most [n] reads of the status port, the last is the first
    that is not 0. *)
Section Probe.
Context {D : Type} `{DiskPorts D}.

Fixpoint shows (n : nat) (d d' : D) : Prop :=
  match n with
  | O => False
  | S n' => let (v, d1) := d_inb 0x1f7 d in if v =? 0 then shows n' d1 d' else d' = d1
  end.

(** Drive 1 is there: selected, it shows a status; selecting a drive and reading
    the status leave the disks as they are. *)
Class SecondDisk : Prop := {
  second_disk : forall d, idle d -> exists d', shows 1000 (d_outb 0x1f6 0xf0 d) d' /\
    idle (d_outb 0x1f6 0xe0 d') /\ forall v n, dsk (d_outb 0x1f6 0xe0 d') v n = dsk d v n
}.

Lemma probe_shows n d d' c :
  shows n d d' -> run (ports_intr maxpoll) d (probe_disk1 n c) = Done tt d' (mkbstate (bufs c) (idequeue c) 1).
Proof using Type.
  revert d. induction n as [|n IH]; intros d; simpl; [done|].
  destruct (d_inb 503 d) as [v d1]. destruct (v =? 0); simpl; [apply IH|by intros ->].
Qed.
End Probe.
Arguments SecondDisk D {H}.

(** ** userinit *)

Section Userinit.
Context {B : Type} `{BlockOps B}.
Implicit Types k : kern B.

(** The free memory is one run: kalloc takes its last page. *)
Lemma kalloc_top km a len :
  Kalloc.kmem_ok km [(a, len)] -> 4096 < len ->
  exists km', exec (Kalloc.kalloc 4096) km = Done (a + len - 4096) tt km' /\ Kalloc.kmem_ok km' [(a, len - 4096)] /\
    Kalloc.ram km' = Kalloc.ram km.
Proof using Type.
  intros Hk Hl. pose proof (Kalloc.kalloc_run km [(a, len)] 4096 Hk ltac:(lia) eq_refl) as Hr.
  destruct Hk as [_ (Ha & Hm & Hlen & Hlm & Hb & _)]. simpl in Hr.
  rewrite (proj2 (Z.eqb_neq _ _)), (proj2 (Z.ltb_lt _ _)) in Hr by lia. destruct Hr as (km' & E & Hc & Hram).
  exists km'. replace (a + len - 4096) with (a + (len - 4096)) by lia. split; [done|]. split; [|done]. split; [done|].
  unfold Kalloc.PAGE in *. simpl. split_and!; try done; try lia; unfold Kalloc.PAGE; clear - Hlm; dlia.
Qed.

(** The root directory in the inode cache, and the first process. *)
Definition root_inode : inode := mkinode FsLayout.ROOTDEV FsLayout.ROOTINO 1 0 0 0 0 0 0 (replicate 13 0).

Record first_proc (a : Z) (p : Proc.proc) : Prop := {
  fp_state : Proc.state p = Proc.RUNNABLE;
  fp_pid : Proc.pid p = 1;
  fp_parent : Proc.parent p = None;
  fp_chan : Proc.pchan p = None;
  fp_killed : Proc.killed p = 0;
  fp_files : Proc.ofile p = replicate Proc.NOFILE None;
  fp_cwd : Proc.cwd p = Some 0%nat;
  fp_kstack : Proc.kstack p = a + 4096;
  fp_mem : Proc.pmem p = a /\ Proc.sz p = 4096;
  fp_tf : Proc.tf_eip (Proc.tf p) = 0 /\ Proc.tf_esp (Proc.tf p) = 4096 /\ Proc.tf_eflags (Proc.tf p) = 512
}.

Lemma exec_namei_root n k :
  icache (kfs k) = replicate NINODE inode0 ->
  exec (on_fs (namei n 0 [slash])) k =
    Done (Some 0%nat) tt (with_fs (mkfs (blk (kfs k)) (root_inode :: replicate 49 inode0)) k).
Proof using Type.
  intros Hi. unfold on_fs. apply exec_zoom_done; [done..|]. destruct (kfs k) as [b ic]. simpl in Hi. subst ic.
  vm_compute. reflexivity.
Qed.

Definition first_tf : Proc.trapframe :=
  let uds := Z.lor (Seg.sel Seg.SEG_UDATA) Seg.DPL_USER in
  Proc.mktf 0 0 0 0 0 0 0 0 0 0 uds uds 0 0 0 (Z.lor (Seg.sel Seg.SEG_UCODE) Seg.DPL_USER) 512 4096 uds.

(** allocproc on the empty table. *)
Definition embryo (a : Z) : Proc.proc :=
  Proc.set_context Proc.Ctx_forkret (Proc.set_kstack a (Proc.set_pid 1 (Proc.set_state Proc.EMBRYO Proc.proc0))).

Lemma exec_allocproc_first km km' a :
  exec (Kalloc.kalloc 4096) km = Done a tt km' -> a <> 0 ->
  exec Proc.allocproc (Proc.mkpstate (Proc.mkptable (replicate Proc.NPROC Proc.proc0) 1 None) km) =
    Done (Some 0%nat) tt (Proc.mkpstate (Proc.mkptable (embryo a :: replicate 63 Proc.proc0) 2 None) km').
Proof using Type.
  intros E Ha. unfold Proc.allocproc. kexec. rewrite ProcSpec.exec_section. cbn [Proc.ptab].
  set (t1 := Proc.mkptable (Proc.set_pid 1 (Proc.set_state Proc.EMBRYO Proc.proc0) :: replicate 63 Proc.proc0) 2 None).
  assert (Proc.alloc_slot (Proc.mkptable (replicate Proc.NPROC Proc.proc0) 1 None) = (Some 0%nat, t1)) as -> by done.
  cbn [fst snd]. kexec. unfold Proc.on_kmem. rewrite exec_zoom by done. cbn [Proc.pkmem]. change Proc.KSTACKSIZE with 4096. rewrite E.
  cbn [rput]. kexec. unfold Proc.upd_proc. kexec. rewrite (proj2 (Z.eqb_neq _ _) Ha). by kexec.
Qed.

Ltac kern_flat :=
  cbn [kfs kfiles kpipes ktab kcpu kticks with_fs with_files with_pipes with_kmem with_proc with_cpu Pipe.pkmem Pipe.put_kmem
       Proc.pkmem Proc.ptab Proc.with_tab Proc.procs Proc.nextpid Proc.initproc blk icache].

Lemma exec_userinit n ic k a len :
  Kalloc.kmem_ok (Pipe.pkmem (kpipes k)) [(a, len)] -> 8192 < len ->
  ktab k = Proc.mkptable (replicate Proc.NPROC Proc.proc0) 1 None -> icache (kfs k) = replicate NINODE inode0 ->
  exists k' p km, exec (userinit n ic) k = Done tt tt k' /\ first_proc (a + len - 8192) p /\
    Kalloc.kmem_ok km [(a, len - 8192)] /\ Kalloc.ram km = mem_write (a + len - 8192) ic (Kalloc.ram (Pipe.pkmem (kpipes k))) /\
    k' = mkkern (mkfs (blk (kfs k)) (root_inode :: replicate 49 inode0)) (kfiles k) (Pipe.put_kmem km (kpipes k))
           (Proc.mkptable (p :: replicate 63 Proc.proc0) 2 (Some 0%nat)) (kcpu k) (kticks k).
Proof using Type.
  intros Hk Hl Ht Hi. destruct (kalloc_top _ _ _ Hk ltac:(lia)) as (km1 & E1 & Hk1 & Hr1).
  destruct (kalloc_top _ _ _ Hk1 ltac:(lia)) as (km2 & E2 & Hk2 & Hr2).
  assert (0 < a) as Ha by apply Hk.
  destruct k as [fs files pipes tab cpu ticks]. cbn [ktab kfs kpipes kfiles kcpu kticks] in *. subst tab. unfold userinit. kexec.
  rewrite Machine.exec_on_proc. kern_flat. rewrite (exec_allocproc_first _ _ _ E1) by lia. cbn [rput]. kexec.
  rewrite Machine.exec_on_proc, exec_modify. cbn [rput]. kexec.
  rewrite ProcessSpec.exec_kern_kmem. kern_flat.
  change Kalloc.PAGE with 4096. rewrite E2. cbn [rput]. kexec.
  rewrite Machine.exec_pupd. kexec. rewrite ProcessSpec.exec_mupd. kexec. do 2 (rewrite Machine.exec_pupd; kexec). kern_flat.
  rewrite exec_namei_root by done. kexec. do 2 (rewrite Machine.exec_pupd; kexec). kern_flat.
  replace (a + (len - 4096) - 4096) with (a + len - 8192) by lia.
  eexists _, (Proc.set_state Proc.RUNNABLE (set_cwd (Some 0%nat) ((fun x => Proc.set_name (safestrcpy_field (Proc.name x)
    (byte_at [105; 110; 105; 116; 99; 111; 100; 101; 0])) x) (set_tf first_tf (Proc.set_mem (a + len - 8192) 4096 (embryo (a + len - 4096))))))),
    (with_ram (mem_write (a + len - 8192) ic) km2). split; [reflexivity|]. split_and!.
  - split; cbn; try done; try lia.
  - apply ProcessSpec.kmem_ok_with_ram. by replace (len - 8192) with (len - 4096 - 4096) by lia.
  - cbn. by rewrite Hr2, Hr1.
  - reflexivity.
Qed.
End Userinit.

(** ** The hardware *)

(** A processor that was started: its APIC id, the stack pointer and the entry
    point it found in front of the code, and when it started. *)
Record up : Type := mkup { up_id : Z; up_esp : Z; up_eip : Z; up_at : nat }.

(** The time, the high word of the interrupt command register, the processors
    that got INIT and wait for a start-up interrupt, and those that run. *)
Record world : Type := mkworld { clk : nat; icrhi : Z; inits : list Z; ups : list up }.

Definition tick (w : world) : world := mkworld (S (clk w)) (icrhi w) (inits w) (ups w).

(** [lapic_at] is the address of the local APIC and [ids] the APIC ids of the
    processors, in the order of cpus; [boot] is the id of the one that runs main.
    Ports and registers answer at will, and processor [id] sets its booted flag
    [delay id] steps after it started. *)
Record hardware : Type := mkhw {
  lapic_at : Z; ids : list Z; boot : Z; port_in : nat -> Z -> Z; reg_in : nat -> Z -> Z; delay : Z -> nat
}.

Section Hw.
Variable (im : image).
Variable (hd : hardware).

Definition lapic_reg (i : Z) : Z := lapic_at hd + 4 * i.

(** The entry of cpus whose booted flag is at [a]. *)
Definition booted_of (a : Z) : option Z :=
  let x := a - cpus_at im - off_booted in
  if (0 <=? x) && (x mod size_cpu =? 0) then ids hd !! Z.to_nat (x / size_cpu) else None.

Definition read_reg (a : Z) (w : world) : Z :=
  if a =? lapic_reg Irq.ID then Z.shiftl (boot hd) 24
  else match booted_of a with
       | Some id => if existsb (fun u => (up_id u =? id) && (up_at u + delay hd id <=? clk w)%nat) (ups w) then 1 else 0
       | None => reg_in hd (clk w) a
       end.

(** A command to the local APIC: INIT asserted, and the start-up interrupt, on
    which a processor that waits for it runs the code at the page given, if the
    code of bootother.S is there. *)
Definition command (mem : Z -> Z) (v : Z) (w : world) : world :=
  let id := Z.shiftr (icrhi w) 24 in
  let page := 4096 * Z.land v 255 in
  if Z.land v 0x4700 =? 0x4500 then mkworld (clk w) (icrhi w) (id :: inits w) (ups w)
  else if (Z.land v 0x700 =? 0x600) && bool_decide (id ∈ inits w) &&
          bool_decide (mem_bytes mem page (length (bootother im)) = bootother im) then
    mkworld (clk w) (icrhi w) (filter (.≠ id) (inits w))
      (ups w ++ [mkup id (get32 (mem_bytes mem (page - 4) 4) 0) (get32 (mem_bytes mem (page - 8) 4) 0) (clk w)])
  else w.

Definition write_reg (mem : Z -> Z) (a v : Z) (w : world) : world :=
  if a =? lapic_reg Irq.ICRHI then mkworld (clk w) v (inits w) (ups w)
  else if a =? lapic_reg Irq.ICRLO then command mem v w
  else w.

(** Locks are free while one processor runs; [mem] reads the memory. *)
Definition hw {S} (mem : S -> Z -> Z) : handler world S := fun e w s =>
  match e as e0 return option (ans e0 * world * S) with
  | EAcquire _ | ERelease _ | EWakeup _ | ECprintf _ => Some (tt, w, s)
  | EKilled => Some (false, w, s)
  | EInb p => Some (port_in hd (clk w) p, tick w, s)
  | EOutb _ _ => Some (tt, tick w, s)
  | EMmr a => Some (read_reg a w, tick w, s)
  | EMmw a v => Some (tt, tick (write_reg (mem s) a v w), s)
  | _ => None
  end.

Lemma run_hw_mmr {S} (mm : S -> Z -> Z) a w s : run (hw mm) w (mmr a s) = Done (read_reg a w) (tick w) s.
Proof. done. Qed.
Lemma run_hw_mmw {S} (mm : S -> Z -> Z) a v w s :
  run (hw mm) w (mmw a v s) = Done tt (tick (write_reg (mm s) a v w)) s.
Proof. done. Qed.
Lemma run_hw_outb {S} (mm : S -> Z -> Z) p v w s : run (hw mm) w (outb p v s) = Done tt (tick w) s.
Proof. done. Qed.

(** Code that only locks and prints runs as it does by itself. *)
Lemma run_hw_quiet {S A} (mm : S -> Z -> Z) (m : K S A) s a s' w :
  exec m s = Done a tt s' -> run (hw mm) w (m s) = Done a w s'.
Proof.
  unfold exec. induction (m s) as [x t|msg| |e t k IH] in w |- *; simpl; try done; [by intros [= -> ->]|].
  destruct e; simpl; try done; apply IH.
Qed.

Lemma run_hw_zoom {S T A} (get : S -> T) (put : T -> S -> S) (mm : S -> Z -> Z) (m : K T A) s w :
  (forall t s, get (put t s) = t) -> (forall t t' s, put t' (put t s) = put t' s) ->
  run (hw mm) w (zoom get put m s) = rput put s (run (hw (fun t => mm (put t s))) w (m (get s))).
Proof.
  intros Hgp Hpp. unfold zoom. revert w. induction (m (get s)) as [a t|msg| |e t k IH]; intros w; simpl; auto.
  assert (Hput : forall z w, run (hw mm) w (ozoom get put (put t s) (k z (get (put t s)))) =
            rput put s (run (hw (fun t => mm (put t s))) w (k z t))).
  { intros z w'. rewrite Hgp, <- (IH z t w'). generalize (k z t). intros o.
    destruct o; simpl; rewrite ?Hpp; done. }
  destruct e; simpl; try done; apply Hput.
Qed.

(** ** The interrupt code on the boot processor *)

(** What main relies on: the MP table of [hd] is that of a machine whose boot
    processor has the index of its APIC id, the device registers lie above the
    kernel, a delivered interrupt clears the delivery status, and a processor that
    was started sets its flag. *)
Record hw_ok (fuel : nat) : Prop := {
  ho_lapic : lapic_at hd = 0 /\ ids hd = [] /\ boot hd = 0 \/
    Irq.IOAPIC + 16 < lapic_at hd /\ lapic_at hd + 0x400 <= 4294967296 /\ ids hd !! Z.to_nat (boot hd) = Some (boot hd);
  ho_ids : NoDup (ids hd) /\ (length (ids hd) <= Irq.NCPU)%nat /\ Forall (fun id => 0 <= id < 256) (ids hd);
  ho_boot : 0 <= boot hd < 256;
  ho_cpus : 0x100000 <= cpus_at im < 0x40000000;
  ho_mpmain : 0 <= mpmain_at im < 4294967296;
  ho_deliv : forall t, exists k, (k < fuel)%nat /\ Z.land (reg_in hd (t + k) (lapic_reg Irq.ICRLO)) Irq.DELIVS = 0;
  ho_delay : forall id, (delay hd id < fuel)%nat
}.

Context (fuel : nat) (Hok : hw_ok fuel).

(** The variables of the interrupt code as mpinit leaves them. *)
Record ready (s : Irq.irq) : Prop := {
  re_lapic : Irq.lapic s = lapic_at hd;
  re_ismp : Irq.ismp s = bool_decide (lapic_at hd <> 0);
  re_ncpu : Irq.ncpu s = length (ids hd);
  re_cpus : forall i id, ids hd !! i = Some id -> nth i (Irq.cpus s) 0 = id;
  re_bcpu : Irq.bcpu s = Z.to_nat (boot hd);
  re_flags : Z.land (Irq.ieflags s) 512 = 0;
  re_ioapic : Irq.ioapic s = 0 \/ Irq.ioapic s = Irq.IOAPIC
}.

(** No processor waits for a start-up interrupt, and those in [U] run. *)
Definition calm (U : list up) (w : world) : Prop := inits w = [] /\ ups w = U.

(** Code that ends, with a result in [Q], and starts no processor. *)
Definition irq_ok {A} (m : K Irq.irq A) (Q : A -> Prop) : Prop :=
  forall mm U w s, ready s -> calm U w ->
  exists a w' s', run (hw mm) w (m s) = Done a w' s' /\ ready s' /\ calm U w' /\ Q a.

Lemma irq_ok_bind {A C} (m : K Irq.irq A) (f : A -> K Irq.irq C) Q R :
  irq_ok m Q -> (forall a, Q a -> irq_ok (f a) R) -> irq_ok (kbind m f) R.
Proof using Type.
  intros Hm Hf mm U w s Hs Hw. destruct (Hm mm U w s Hs Hw) as (a & w1 & s1 & E & Hs1 & Hw1 & Ha).
  rewrite run_kbind, E. by apply Hf.
Qed.

Lemma irq_ok_mono {A} (m : K Irq.irq A) (Q R : A -> Prop) : (forall a, Q a -> R a) -> irq_ok m Q -> irq_ok m R.
Proof using Type.
  intros HQ Hm mm U w s Hs Hw. destruct (Hm mm U w s Hs Hw) as (a & w1 & s1 & E & Hs1 & Hw1 & Ha). eauto 8.
Qed.

Lemma irq_ok_kret {A} (a : A) (Q : A -> Prop) : Q a -> irq_ok (kret a) Q.
Proof using Type. intros Ha mm U w s Hs Hw. by exists a, w, s. Qed.
Lemma irq_ok_gets {A} (f : Irq.irq -> A) (Q : A -> Prop) : (forall s, ready s -> Q (f s)) -> irq_ok (gets f) Q.
Proof using Type. intros Hf mm U w s Hs Hw. exists (f s), w, s. auto. Qed.
Lemma irq_ok_modify f : (forall s, ready s -> ready (f s)) -> irq_ok (modify f) (fun _ => True).
Proof using Type. intros Hf mm U w s Hs Hw. exists tt, w, (f s). auto. Qed.
Lemma irq_ok_inb p : irq_ok (inb p) (fun _ => True).
Proof using Type. intros mm U w s Hs [Hi Hu]. eexists _, (tick w), s. split; [done|]. by split. Qed.
Lemma irq_ok_outb p v : irq_ok (outb p v) (fun _ => True).
Proof using Type. intros mm U w s Hs [Hi Hu]. eexists _, (tick w), s. split; [done|]. by split. Qed.
Lemma irq_ok_mmr a : irq_ok (mmr a) (fun _ => True).
Proof using Type. intros mm U w s Hs [Hi Hu]. eexists _, (tick w), s. split; [done|]. by split. Qed.
Lemma irq_ok_cprintf msg : irq_ok (cprintf msg) (fun _ => True).
Proof using Type. intros mm U w s Hs [Hi Hu]. eexists _, w, s. split; [done|]. by split. Qed.

(** No processor waits, so that only INIT would change anything. *)
Lemma calm_write mm a v U w :
  calm U w -> (a = lapic_reg Irq.ICRLO -> Z.land v 0x4700 =? 0x4500 = false) -> calm U (write_reg mm a v w).
Proof using Type.
  intros [Hi Hu] Ha. unfold write_reg. case_match; [done|].
  destruct (Z.eqb_spec a (lapic_reg Irq.ICRLO)) as [->|]; [|done]. unfold command. rewrite Ha by done.
  rewrite Hi, (bool_decide_false (_ ∈ [])), andb_false_r by apply not_elem_of_nil. done.
Qed.

Lemma irq_ok_mmw a v :
  (a = lapic_reg Irq.ICRLO -> Z.land v 0x4700 =? 0x4500 = false) -> irq_ok (mmw a v) (fun _ => True).
Proof using Type.
  intros Ha mm U w s Hs Hw. eexists _, _, s. split; [done|]. split; [done|]. split; [|done].
  by apply (calm_write (mm s) _ _ _ _ Hw) in Ha.
Qed.

Lemma irq_ok_get {A} (f : Irq.irq -> A) : irq_ok (gets f) (fun a => exists s, ready s /\ a = f s).
Proof using Type. apply irq_ok_gets. eauto. Qed.

(** Straight-line code, with hints for the functions. *)
Create HintDb irq_ok.
Hint Resolve irq_ok_inb irq_ok_outb irq_ok_mmr irq_ok_cprintf irq_ok_get : irq_ok.

Ltac irq_step :=
  match goal with
  | |- irq_ok (kbind _ _) _ => eapply irq_ok_bind; [|intros ? ?]
  | |- irq_ok (if ?b then _ else _) _ => destruct b eqn:?
  | |- irq_ok (kret _) _ => apply irq_ok_kret
  | |- irq_ok _ (fun _ => True) => eapply irq_ok_mono; [|solve [eauto 2 with irq_ok]]; done
  | |- irq_ok _ _ => solve [eauto 2 with irq_ok]
  end.
Ltac irq_steps := repeat irq_step.

Lemma lapic_addr s i : ready s -> 0 <= i < 256 -> lapic_at hd <> 0 -> u32 (Irq.lapic s + 4 * i) = lapic_reg i.
Proof using Hok.
  intros Hs Hi H0. rewrite (re_lapic _ Hs). destruct (ho_lapic _ Hok) as [(? & _)|(? & ? & _)]; [done|].
  apply u32_small. unfold lapic_reg in *. lia.
Qed.

Lemma ok_lapicr i : irq_ok (Irq.lapicr i) (fun _ => True).
Proof using Type. unfold Irq.lapicr. irq_steps. Qed.
Hint Resolve ok_lapicr : irq_ok.

Lemma ok_lapicw i v : Z.land (u32 v) 0x4700 =? 0x4500 = false -> irq_ok (Irq.lapicw i v) (fun _ => True).
Proof using Type.
  intros Hv. unfold Irq.lapicw. irq_step; [irq_step|]. irq_step; [by apply irq_ok_mmw|]. by irq_steps.
Qed.
Hint Extern 1 (irq_ok (Irq.lapicw _ _) _) => apply ok_lapicw; reflexivity : irq_ok.

Lemma read_icrlo w : lapic_at hd <> 0 -> read_reg (lapic_reg Irq.ICRLO) w = reg_in hd (clk w) (lapic_reg Irq.ICRLO).
Proof using Hok.
  intros H0. unfold read_reg, booted_of, lapic_reg. destruct (ho_lapic _ Hok) as [(? & _)|(Hl & _)]; [done|].
  destruct (ho_ids _ Hok) as (_ & Hn & _). pose proof (ho_cpus _ Hok) as Hc.
  unfold Irq.NCPU, off_booted, size_cpu in *. change (32 / 4) with 8. change (768 / 4) with 192.
  rewrite (proj2 (Z.eqb_neq _ _)) by lia. rewrite lookup_ge_None_2; [by destruct (_ && _)|]. clear - Hl Hn Hc. dlia.
Qed.

(** The wait for the delivery of an interrupt ends. *)
Lemma ok_deliv_from n k : forall mm U w s, ready s -> calm U w -> lapic_at hd <> 0 ->
  (k < n)%nat -> Z.land (reg_in hd (clk w + k) (lapic_reg Irq.ICRLO)) Irq.DELIVS = 0 ->
  exists w', run (hw mm) w (Irq.deliv_wait n s) = Done tt w' s /\ calm U w'.
Proof using Hok.
  revert k. induction n as [|n IH]; intros k mm U w s Hs Hw H0 Hk Hd; [lia|].
  cbn [Irq.deliv_wait]. unfold Irq.lapicr. krun. rewrite run_hw_mmr. krun.
  rewrite (lapic_addr s) by (done || lia). rewrite read_icrlo by done. destruct (Z.eqb_spec (Z.land (reg_in hd (clk w) (lapic_reg Irq.ICRLO)) Irq.DELIVS) 0) as [E|E].
  - exists (tick w). by destruct Hw.
  - destruct k as [|k]; [by rewrite Nat.add_0_r in Hd|]. apply (IH k); try done; [lia|].
    simpl. by replace (S (clk w + k)) with (clk w + S k)%nat by lia.
Qed.

Lemma ok_deliv_wait : lapic_at hd <> 0 -> irq_ok (Irq.deliv_wait fuel) (fun _ => True).
Proof using Hok.
  intros H0 mm U w s Hs Hw. destruct (ho_deliv _ Hok (clk w)) as (k & Hk & Hd).
  destruct (ok_deliv_from fuel k mm U w s Hs Hw H0 Hk Hd) as (w' & E & Hw'). by exists tt, w', s.
Qed.

Lemma ok_lapicinit c : irq_ok (Irq.lapicinit fuel c) (fun _ => True).
Proof using Hok.
  unfold Irq.lapicinit. irq_step; [irq_step|]. irq_step; [by irq_steps|].
  assert (lapic_at hd <> 0) as H0.
  { destruct H as (s & Hs & ->). bool_prop. by rewrite <- (re_lapic _ Hs). }
  pose proof (ok_deliv_wait H0) as Hd. by irq_steps.
Qed.

(** cpu() is the APIC id of the boot processor. *)
Lemma ok_cpu : irq_ok Irq.cpu (fun id => id = boot hd).
Proof using Hok.
  unfold Irq.cpu. eapply irq_ok_bind; [apply irq_ok_get|intros fl (s & Hs & ->)].
  rewrite (re_flags _ Hs). cbn [negb Z.eqb].
  apply (irq_ok_bind _ _ (fun _ => True)); [by apply irq_ok_kret|intros _ _].
  intros mm U w s1 Hs1 Hw. krun. rewrite (re_lapic _ Hs1). destruct (Z.eqb_spec (lapic_at hd) 0) as [E|E].
  - eexists _, w, s1. split; [done|]. split_and!; try done. destruct (ho_lapic _ Hok) as [(_ & _ & ->)|(Hl & _)]; [done|].
    lia.
  - unfold Irq.lapicr. krun. rewrite run_hw_mmr. krun. rewrite (lapic_addr s1) by (done || lia).
    eexists _, (tick w), s1. split; [done|]. destruct Hw. split_and!; try done.
    unfold read_reg. rewrite Z.eqb_refl. rewrite Z.shiftr_shiftl_l by lia. apply Z.shiftl_0_r.
Qed.

Lemma ok_mpbcpu : irq_ok Irq.mpbcpu (fun b => b = boot hd).
Proof using Hok. apply irq_ok_gets. intros s Hs. rewrite (re_bcpu _ Hs). pose proof (ho_boot _ Hok). lia. Qed.

(** The registers of the I/O APIC are not those of the local APIC. *)
Lemma ioapic_apart s x : ready s -> 0 <= x <= 16 -> Irq.ioapic s + x <> lapic_reg Irq.ICRLO.
Proof using Hok.
  intros Hs Hx. unfold lapic_reg. change (768 / 4) with 192.
  destruct (re_ioapic _ Hs) as [-> | ->], (ho_lapic _ Hok) as [(-> & _)|(Hl & _)]; lia.
Qed.

Lemma ok_ioapicwrite r v : irq_ok (Irq.ioapicwrite r v) (fun _ => True).
Proof using Hok.
  unfold Irq.ioapicwrite. eapply irq_ok_bind; [apply irq_ok_get|intros a (s & Hs & ->)].
  pose proof (ioapic_apart s 0 Hs) as H0. pose proof (ioapic_apart s 16 Hs) as H1.
  irq_step; apply irq_ok_mmw; intros E; exfalso; [apply H0|apply H1]; lia.
Qed.

Lemma ok_ioapicread r : irq_ok (Irq.ioapicread r) (fun _ => True).
Proof using Hok.
  unfold Irq.ioapicread. eapply irq_ok_bind; [apply irq_ok_get|intros a (s & Hs & ->)].
  pose proof (ioapic_apart s 0 Hs) as H0.
  irq_step; [apply irq_ok_mmw; intros E; exfalso; apply H0; lia|by irq_steps].
Qed.
Hint Resolve ok_ioapicwrite ok_ioapicread : irq_ok.

Lemma ok_ioapic_mask n i : irq_ok (Irq.ioapic_mask n i) (fun _ => True).
Proof using Hok. revert i. induction n as [|n IH]; intros i; cbn [Irq.ioapic_mask]; by irq_steps. Qed.
Hint Resolve ok_ioapic_mask : irq_ok.

Lemma ok_ioapicinit : irq_ok Irq.ioapicinit (fun _ => True).
Proof using Hok.
  unfold Irq.ioapicinit. irq_step; [irq_step|]. irq_step; [by irq_steps|].
  irq_step; [apply irq_ok_modify; intros s []; split; auto|]. by irq_steps.
Qed.

Lemma ok_ioapicenable n c : irq_ok (Irq.ioapicenable n c) (fun _ => True).
Proof using Hok. unfold Irq.ioapicenable. by irq_steps. Qed.

Lemma ok_picsetmask v : irq_ok (Irq.picsetmask v) (fun _ => True).
Proof using Type. unfold Irq.picsetmask. irq_step; [apply irq_ok_modify; intros s []; by split|]. by irq_steps. Qed.
Hint Resolve ok_picsetmask : irq_ok.

Lemma ok_picenable n : irq_ok (Irq.picenable n) (fun _ => True).
Proof using Type. unfold Irq.picenable. by irq_steps. Qed.
Hint Resolve ok_picenable : irq_ok.

Lemma ok_picinit : irq_ok Irq.picinit (fun _ => True).
Proof using Type. unfold Irq.picinit. by irq_steps. Qed.

Lemma ok_timerinit : irq_ok Irq.timerinit (fun _ => True).
Proof using Type. unfold Irq.timerinit. by irq_steps. Qed.

(** *** mpinit *)

Import IrqSpec.

Definition mpprocs (l : list mpentry) : list (Z * Z) :=
  omap (fun x => match x with MPProc id fl => Some (id, fl) | _ => None end) l.

(** The MP tables in memory describe the machine; without tables there is one
    processor. *)
Definition mp_tables (m : Z -> Z) : Prop :=
  match Irq.mpconfig m with
  | None => lapic_at hd = 0
  | Some (_, conf) =>
      lapic_at hd <> 0 /\ Irq.word32 m (conf + 36) = lapic_at hd /\
      exists l, is_table m (conf + 44) l /\ Irq.word16 m (conf + 4) = 44 + table_size l /\ procs l = ids hd /\
        forall i id fl, mpprocs l !! i = Some (id, fl) -> (Z.land fl 2 <> 0 <-> i = Z.to_nat (boot hd))
  end.

Lemma scan_bcpu l s b :
  (forall i id fl, mpprocs l !! i = Some (id, fl) -> (Z.land fl 2 <> 0 <-> (Irq.ncpu s + i = b)%nat)) ->
  Irq.bcpu (foldl scan_entry s l) =
    if decide (Irq.ncpu s <= b < Irq.ncpu s + length (procs l))%nat then b else Irq.bcpu s.
Proof using Type.
  revert s. induction l as [|x l IH]; intros s Hl; [simpl; by rewrite decide_False by lia|].
  cbn [foldl]. destruct x as [id fl|id|t]; [|by apply (IH (Irq.set_ioapicid id s))|by apply IH].
  pose proof (Hl 0%nat id fl eq_refl) as H0. change (procs (MPProc id fl :: l)) with (id :: procs l). cbn [length].
  assert (Irq.ncpu (scan_entry s (MPProc id fl)) = S (Irq.ncpu s)) as En by (simpl; case_match; simpl; lia).
  rewrite IH; rewrite En.
  - simpl. destruct (Z.eqb_spec (Z.land fl 2) 0) as [E|E]; cbn [negb].
    + assert (Irq.ncpu s <> b) by (intros Hb; apply H0; [lia|done]). repeat case_decide; try done; lia.
    + assert (Irq.ncpu s = b) by (apply proj1 in H0; lia). simpl. repeat case_decide; try done; lia.
  - intros i id' fl' Hi. rewrite (Hl (S i) id' fl' Hi). split; lia.
Qed.

(** Before main: the variables are zero and interrupts are off. *)
Definition fresh (s : Irq.irq) : Prop :=
  Irq.lapic s = 0 /\ Irq.ismp s = false /\ Irq.ioapic s = 0 /\ Irq.ncpu s = 0%nat /\
  length (Irq.cpus s) = Irq.NCPU /\ Z.land (Irq.ieflags s) 512 = 0.

Lemma scan_keeps l s :
  let s' := foldl scan_entry s l in
  Irq.lapic s' = Irq.lapic s /\ Irq.ismp s' = Irq.ismp s /\ Irq.ioapic s' = Irq.ioapic s /\ Irq.ieflags s' = Irq.ieflags s.
Proof using Type.
  revert s. induction l as [|x l IH]; intros s; [done|]. cbn [foldl].
  destruct (IH (scan_entry s x)) as (-> & -> & -> & ->). destruct x as [id fl|id|t]; try done. simpl. by case_match.
Qed.

Lemma mpinit_ready m mm w s U :
  fresh s -> mp_tables m -> calm U w ->
  exists w' s', run (hw mm) w (Irq.mpinit m s) = Done tt w' s' /\ ready s' /\ calm U w'.
Proof using Hok.
  intros (Hl & Hm & Hio & Hn & Hc & Hf) Ht Hw. unfold Irq.mpinit, mp_tables in *. krun.
  destruct (Irq.mpconfig m) as [[mp conf]|].
  - destruct Ht as (H0 & Hla & l & Htab & Hlen & Hp & Hb). krun. rewrite Hlen.
    set (s1 := Irq.set_lapic _ _). pose proof (table_size_length l) as Hsz.
    replace (conf + (44 + table_size l)) with (conf + 44 + table_size l) by lia.
    assert (run (hw mm) w (Irq.mp_entries m (Z.to_nat (44 + table_size l) + 1) (conf + 44) (conf + 44 + table_size l) s1) =
      Done tt w (foldl scan_entry s1 l)) as ->.
    { apply run_hw_quiet. apply mp_entries_run; [done|lia]. }
    krun. set (s2 := foldl scan_entry s1 l).
    assert (ready s2) as Hs2.
    { destruct (scan_keeps l s1) as (E1 & E2 & E3 & E4). destruct (scan_procs l s1) as (E5 & _ & E6).
      assert (Irq.ncpu s1 = 0%nat) as En by done. rewrite En in E5, E6. rewrite Hp in E5, E6. simpl in E5, E6.
      destruct (ho_ids _ Hok) as (_ & Hi & _). assert (length (Irq.cpus s1) = Irq.NCPU) as Ec by done.
      fold s2 in E1, E2, E3, E4, E5, E6. split; try done.
      - by rewrite E1.
      - rewrite E2, bool_decide_true by done. done.
      - intros i id Hid. apply nth_lookup_Some. rewrite E6 by lia. pose proof (lookup_lt_Some _ _ _ Hid).
        rewrite decide_True by lia. by rewrite Nat.sub_0_r.
      - unfold s2. rewrite (scan_bcpu l s1 (Z.to_nat (boot hd))) by (intros i id fl Hi'; rewrite En; exact (Hb i id fl Hi')).
        destruct (ho_lapic _ Hok) as [(? & _)|(_ & _ & Hbo)]; [done|]. apply lookup_lt_Some in Hbo.
        rewrite Hp, En, decide_True by lia. done.
      - by rewrite E4.
      - left. by rewrite E3. }
    clearbody s2. destruct (negb (m (mp + 12) =? 0)); [|by exists w, s2].
    krun. rewrite run_hw_outb. krun. unfold inb. simpl. eexists _, s2. split; [done|]. by destruct Hw.
  - exists w. eexists. split; [done|]. split; [|done]. destruct (ho_lapic _ Hok) as [(_ & E & Eb)|(Hlt & _)].
    + split; rewrite ?E, ?Eb; simpl; auto; try congruence; try (by rewrite Ht). intros i id Hid. done.
    + lia.
Qed.

(** ** main *)

Context {D : Type} `{HP : DiskPorts D}.
Implicit Types (w : world) (s : machine (D := D)).

Definition mach_mem s : Z -> Z := Kalloc.ram (Pipe.pkmem (kpipes (mkern s))).

(** What main has set up so far: the kernel, the locks that are initialised, the
    interrupt table, devsw, and the processors that run. *)
Record stage : Type := mkstage {
  st_kern : kern (bstate * D); st_locks : list lockid; st_idt : list Seg.gatedesc; st_idtr : list Z;
  st_devsw : list devsw; st_ups : list up
}.
Definition at_stage (g : stage) w s : Prop :=
  mkern s = st_kern g /\ (forall l, l ∈ st_locks g -> mlocks s l = Spinlock.initlock (mlocks s l)) /\
  midt s = st_idt g /\ midtr s = st_idtr g /\ mdevsw s = st_devsw g /\ ready (mirq s) /\ calm (st_ups g) w.

Definition ht {A} (P : world -> machine -> Prop) (m : K machine A) (Q : A -> world -> machine -> Prop) : Prop :=
  forall w s, P w s -> exists a w' s', run (hw mach_mem) w (m s) = Done a w' s' /\ Q a w' s'.

Lemma ht_bind {A C} P (m : K machine A) (f : A -> K machine C) Q R :
  ht P m Q -> (forall a, ht (Q a) (f a) R) -> ht P (kbind m f) R.
Proof using Type.
  intros Hm Hf w s Hs. destruct (Hm w s Hs) as (a & w1 & s1 & E & Ha). rewrite run_kbind, E. by apply Hf.
Qed.

(** A step whose result does not matter. *)
Lemma ht_seq {A C} P (m : K machine A) (f : A -> K machine C) Q R :
  ht P m (fun _ => Q) -> (forall a, ht Q (f a) R) -> ht P (kbind m f) R.
Proof using Type. intros. by eapply ht_bind. Qed.

Lemma ht_kret {A} (a : A) P : ht P (kret a) (fun b w s => b = a /\ P w s).
Proof using Type. intros w s Hs. by exists a, w, s. Qed.

Lemma ht_irq_val {A} g (m : K Irq.irq A) Q :
  irq_ok m Q -> ht (at_stage g) (on_irq m) (fun a w s => at_stage g w s /\ Q a).
Proof using Type.
  intros Hm w s (Hk & Hl & Ht & Hr & Hd & Hi & Hw).
  destruct (Hm (fun t => mach_mem (with_irq t s)) (st_ups g) w (mirq s) Hi Hw) as (a & w1 & i1 & E & Hi1 & Hw1 & Ha).
  exists a, w1, (with_irq i1 s). unfold on_irq. rewrite run_hw_zoom by done. rewrite E. by split_and!.
Qed.

Lemma ht_irq {A} g (m : K Irq.irq A) Q : irq_ok m Q -> ht (at_stage g) (on_irq m) (fun _ => at_stage g).
Proof using Type.
  intros Hm w s Hs. destruct (ht_irq_val g m Q Hm w s Hs) as (a & w1 & s1 & E & H1 & _). eauto.
Qed.

(** Code that only locks and prints, in the kernel. *)
Definition set_kern k (g : stage) : stage :=
  mkstage k (st_locks g) (st_idt g) (st_idtr g) (st_devsw g) (st_ups g).

Lemma ht_kern {A} g (m : K (kern (bstate * D)) A) a k' :
  exec m (st_kern g) = Done a tt k' ->
  ht (at_stage g) (on_kern m) (fun b w s => b = a /\ at_stage (set_kern k' g) w s).
Proof using Type.
  intros E w s (Hk & Hl & Ht & Hr & Hd & Hi & Hw). exists a, w, (with_kern k' s).
  unfold on_kern. rewrite run_hw_zoom by done. rewrite Hk. rewrite (run_hw_quiet _ _ _ _ _ _ E). by split_and!.
Qed.

Lemma ht_kern_bind {A C} g (m : K (kern (bstate * D)) A) (f : A -> K machine C) a k' Q :
  exec m (st_kern g) = Done a tt k' -> ht (at_stage (set_kern k' g)) (f a) Q -> ht (at_stage g) (kbind (on_kern m) f) Q.
Proof using Type. intros E Hf. eapply ht_bind; [by apply ht_kern|]. intros b w s [-> Hs]. by apply Hf. Qed.

Lemma ht_kern_last {A} g (m : K (kern (bstate * D)) A) a k' :
  exec m (st_kern g) = Done a tt k' -> ht (at_stage g) (on_kern m) (fun _ => at_stage (set_kern k' g)).
Proof using Type. intros E w s Hs. destruct (ht_kern g m a k' E w s Hs) as (b & w1 & s1 & E1 & _ & H1). eauto. Qed.

Definition add_lock l (g : stage) : stage :=
  mkstage (st_kern g) (l :: st_locks g) (st_idt g) (st_idtr g) (st_devsw g) (st_ups g).

Lemma ht_initlock g l : ht (at_stage g) (initlock l) (fun _ => at_stage (add_lock l g)).
Proof using Type.
  intros w s (Hk & Hl & Ht & Hr & Hd & Hi & Hw). eexists _, w, _. split; [done|]. split_and!; try done.
  intros l' Hin. cbn [mlocks with_locks]. destruct (decide (l' = l)) as [->|Hne]; [done|].
  apply elem_of_cons in Hin as [?|Hin]; [done|]. by apply Hl.
Qed.

Lemma ht_cprintf g msg : ht (at_stage g) (cprintf msg) (fun _ => at_stage g).
Proof using Type. intros w s Hs. by exists tt, w, s. Qed.

Lemma calm_tick U w : calm U w -> calm U (tick w).
Proof using Type. done. Qed.

(** Ports, for code that keeps the stage: the serial port. *)
Lemma ht_inb g p : ht (at_stage g) (inb p) (fun _ => at_stage g).
Proof using Type. intros w s Hs. by eexists _, (tick w), s. Qed.
Lemma ht_outb g p v : ht (at_stage g) (outb p v) (fun _ => at_stage g).
Proof using Type. intros w s Hs. by eexists _, (tick w), s. Qed.

Lemma uart_wait_calm n mm U w (c : Console.console) :
  calm U w -> exists w', run (hw mm) w (Console.uart_wait n c) = Done tt w' c /\ calm U w'.
Proof using Type.
  revert w. induction n as [|n IH]; intros w Hw; [by exists w|]. cbn [Console.uart_wait]. krun. unfold inb. simpl.
  destruct (Z.land _ _ =? 0); [by apply IH|by exists (tick w)].
Qed.

Lemma uartputc_calm x mm U w (c : Console.console) :
  calm U w -> exists w', run (hw mm) w (Console.uartputc x c) = Done tt w' c /\ calm U w'.
Proof using Type.
  intros Hw. unfold Console.uartputc. krun. destruct (negb (Console.uart c)); [by exists w|].
  destruct (uart_wait_calm 128 mm U w c Hw) as (w1 & E & Hw1). krun. rewrite E. krun. rewrite run_hw_outb. by exists (tick w1).
Qed.

Lemma ht_uart_puts g l : ht (at_stage g) (on_cons (kforeach l Console.uartputc)) (fun _ => at_stage g).
Proof using Type.
  intros w s (Hk & Hl & Ht & Hr & Hd & Hi & Hw). unfold on_cons. rewrite run_hw_zoom by done.
  generalize (fun t => mach_mem (with_cons t s)). intros mm. generalize (mcons s). intros c.
  assert (exists w', run (hw mm) w (kforeach l Console.uartputc c) = Done tt w' c /\ calm (st_ups g) w') as (w' & -> & Hw').
  { revert w Hw. induction l as [|x l IH]; intros w Hw; [by exists w|]. cbn [kforeach]. krun.
    destruct (uartputc_calm x mm (st_ups g) w c Hw) as (w1 & -> & Hw1). krun. by apply IH. }
  by exists tt, w', (with_cons c s).
Qed.

Lemma ht_cons_modify g f : ht (at_stage g) (on_cons (modify f)) (fun _ => at_stage g).
Proof using Type. intros w s (Hk & Hl & Ht & Hr & Hd & Hi & Hw). by exists tt, w, (with_cons (f (mcons s)) s). Qed.

Ltac ht_step :=
  first [ apply ht_initlock | apply ht_cprintf | apply ht_inb | apply ht_outb | apply ht_cons_modify | apply ht_uart_puts
        | eapply ht_irq; first [apply ok_picenable|apply ok_ioapicenable|apply ok_cpu|apply ok_picinit|apply ok_ioapicinit
                               |apply ok_timerinit|apply ok_mpbcpu|apply ok_lapicinit] ].
Ltac ht_steps := repeat (eapply ht_seq; [solve [ht_step]|intros ?]).

Lemma ht_uartinit g : ht (at_stage g) uartinit (fun _ => at_stage g).
Proof using Hok.
  unfold uartinit, Console.uartinit. ht_steps.
  destruct (_ =? 255); [|ht_steps; ht_step]. intros w s Hs. by exists tt, w, s.
Qed.

Definition set_devs d (g : stage) : stage :=
  mkstage (st_kern g) (st_locks g) (st_idt g) (st_idtr g) d (st_ups g).

Lemma ht_devsw g f : ht (at_stage g) (modify (fun s => with_devsw (f (mdevsw s)) s)) (fun _ => at_stage (set_devs (f (st_devsw g)) g)).
Proof using Type.
  intros w s (Hk & Hl & Ht & Hr & Hd & Hi & Hw). eexists _, w, _. split; [done|]. split_and!; try done. simpl. by rewrite Hd.
Qed.

(** devsw after consoleinit. *)
Definition console_devsw (d : list devsw) : list devsw := alter (fun _ => mkdevsw (Some consoleread) (Some consolewrite)) CONSOLE d.

Lemma ht_consoleinit g :
  ht (at_stage g) consoleinit (fun _ => at_stage (set_devs (console_devsw (st_devsw g)) (add_lock Lk_input (add_lock Lk_cons g)))).
Proof using Hok.
  unfold consoleinit. ht_steps. eapply ht_seq; [apply (ht_devsw _ (alter _ CONSOLE))|intros _].
  eapply ht_seq; [apply (ht_devsw _ (alter _ CONSOLE))|intros _]. cbn [set_devs st_devsw add_lock].
  assert (forall d, alter (fun x => mkdevsw (Some consoleread) (dwrite x)) CONSOLE
    (alter (fun x => mkdevsw (dread x) (Some consolewrite)) CONSOLE d) = console_devsw d) as ->
    by (by intros [|x [|y d]]).
  ht_steps. ht_step.
Qed.

(** The buffer cache and its disk. *)
Definition put_cache (b : bstate * D) (k : kern (bstate * D)) : kern (bstate * D) := with_fs (with_blk b (kfs k)) k.

Lemma exec_ide {A} (m : K bstate A) k a c d c' d' :
  blk (kfs k) = (c, d) -> run (ports_intr maxpoll) d (m c) = Done a d' c' ->
  exec (on_fs (onblk (sync m))) k = Done a tt (put_cache (c', d') k).
Proof using Type.
  intros Hb E. unfold on_fs, put_cache. apply exec_zoom_done; [done..|]. unfold onblk. apply exec_zoom_done; [done..|].
  apply exec_sync. by rewrite Hb.
Qed.

Lemma ht_ide {A} g (m : K bstate A) a c d c' d' :
  blk (kfs (st_kern g)) = (c, d) -> run (ports_intr maxpoll) d (m c) = Done a d' c' ->
  ht (at_stage g) (on_ide m) (fun _ => at_stage (set_kern (put_cache (c', d') (st_kern g)) g)).
Proof using Type.
  intros Hb E. pose proof (ht_kern g _ _ _ (exec_ide m _ _ _ _ _ _ Hb E)) as Hk.
  intros w s Hs. destruct (Hk w s Hs) as (b & w1 & s1 & E1 & _ & H1). eauto.
Qed.

Lemma ht_binit g c d :
  blk (kfs (st_kern g)) = (c, d) ->
  ht (at_stage g) binit (fun _ => at_stage (set_kern (put_cache (Bio.binit c, d) (st_kern g)) (add_lock Lk_bcache g))).
Proof using Type. intros Hb. unfold binit. ht_steps. by eapply (ht_ide (add_lock Lk_bcache g)). Qed.

Lemma ht_ideinit `{!AtaDisk D} `{!SecondDisk D} g c d :
  blk (kfs (st_kern g)) = (c, d) -> idle d ->
  exists d', idle d' /\ (forall v n, dsk d' v n = dsk d v n) /\
  ht (at_stage g) ideinit
    (fun _ => at_stage (set_kern (put_cache (mkbstate (bufs c) (idequeue c) 1, d') (st_kern g)) (add_lock Lk_ide g))).
Proof using Hok.
  intros Hb Hi. destruct (ata_idle d Hi) as (r & d1 & Hs & Hi1 & Hd1).
  destruct (second_disk d1 Hi1) as (d2 & Hp & Hi2 & Hd2).
  exists (d_outb 0x1f6 0xe0 d2). split; [done|]. split; [intros v n; by rewrite Hd2, Hd1|].
  unfold ideinit. ht_steps. eapply ht_seq; [eapply ht_irq, irq_ok_get|intros n].
  ht_steps. eapply ht_seq; [eapply ht_ide; [exact Hb|by apply (idewait_settles _ _ _ r d1)]|intros _].
  eapply ht_seq; [eapply ht_ide; [done|done]|intros _].
  eapply ht_seq; [eapply ht_ide; [done|by apply probe_shows]|intros _].
  match goal with |- ht (at_stage ?g1) _ _ =>
    exact (ht_ide g1 (outb 0x1f6 (Z.lor 0xe0 (Z.shiftl 0 4))) tt _ _ _ _ eq_refl eq_refl) end.
Qed.

(** *** Starting a processor *)

Lemma run_lapicw mm i v w q :
  ready q -> lapic_at hd <> 0 -> 0 <= i < 256 ->
  run (hw mm) w (Irq.lapicw i v q) = Done tt (tick (tick (write_reg (mm q) (lapic_reg i) (u32 v) w))) q.
Proof using Hok.
  intros Hs H0 Hi. unfold Irq.lapicw, Irq.lapicr. krun. rewrite (lapic_addr q) by done. rewrite run_hw_mmw. krun.
  rewrite run_hw_mmr. by krun.
Qed.

(** The state of the interrupt command register and of the processors. *)
Definition icr (h : Z) (I : list Z) (U : list up) w : Prop := icrhi w = h /\ inits w = I /\ ups w = U.

Lemma write_icrhi mem v h I U w : icr h I U w -> icr v I U (write_reg mem (lapic_reg Irq.ICRHI) v w).
Proof using Type. intros (Hh & Hi & Hu). unfold write_reg. by rewrite Z.eqb_refl. Qed.

Lemma write_icrlo mem v w : write_reg mem (lapic_reg Irq.ICRLO) v w = command mem v w.
Proof using Type.
  unfold write_reg, lapic_reg. change (784 / 4) with 196. change (768 / 4) with 192.
  by rewrite Z.eqb_refl, (proj2 (Z.eqb_neq _ _)) by lia.
Qed.

Lemma command_init mem h I U w : icr h I U w -> icr h (Z.shiftr h 24 :: I) U (command mem 0xC500 w).
Proof using Type. intros (<- & <- & <-). done. Qed.
Lemma command_deassert mem w : command mem 0x8500 w = w.
Proof using Type. done. Qed.

Definition started (mem : Z -> Z) (id : Z) (t : nat) : up :=
  mkup id (get32 (mem_bytes mem (code - 4) 4) 0) (get32 (mem_bytes mem (code - 8) 4) 0) t.

Lemma command_start mem h U w :
  mem_bytes mem code (length (bootother im)) = bootother im ->
  icr h [Z.shiftr h 24] U w -> icr h [] (U ++ [started mem (Z.shiftr h 24) (clk w)]) (command mem 0x607 w).
Proof using Type.
  intros Hc (<- & Hi & <-). unfold command. change (Z.land 0x607 0x4700 =? 0x4500) with false.
  change (Z.land 0x607 0x700 =? 0x600) with true. change (4096 * Z.land 0x607 255) with code.
  rewrite Hi, !bool_decide_true by (done || by apply list_elem_of_singleton). cbn [andb].
  split; [done|]. split; [|done]. cbn [inits]. rewrite filter_cons_False, filter_nil; [done|]. by intros [].
Qed.

Lemma command_again mem h U w : icr h [] U w -> icr h [] U (command mem 0x607 w).
Proof using Type.
  intros (Hh & Hi & Hu). unfold command. change (Z.land 0x607 0x4700 =? 0x4500) with false.
  rewrite Hi, (bool_decide_false (_ ∈ [])), andb_false_r by apply not_elem_of_nil. done.
Qed.

Lemma icr_tick h I U w : icr h I U w -> icr h I U (tick w).
Proof using Type. done. Qed.

(** An address that is not a register of the local APIC. *)
Lemma write_low mem a v w : 0x400 <= a < 0x80000000 -> write_reg mem a v w = w.
Proof using Hok.
  intros Ha. unfold write_reg, lapic_reg. change (784 / 4) with 196. change (768 / 4) with 192.
  destruct (ho_lapic _ Hok) as [(-> & _)|(Hl & _)]; by rewrite !(proj2 (Z.eqb_neq _ _)) by lia.
Qed.

Lemma clk_command mem v w : clk (command mem v w) = clk w.
Proof using Type. unfold command. by repeat case_match. Qed.
Lemma clk_write mem a v w : clk (write_reg mem a v w) = clk w.
Proof using Type. unfold write_reg. repeat case_match; try done. apply clk_command. Qed.

Lemma startap_run M U w q id :
  ready q -> calm U w -> lapic_at hd <> 0 -> 0 <= id < 256 ->
  mem_bytes M code (length (bootother im)) = bootother im ->
  exists w' t, run (hw (fun _ => M)) w (Irq.lapicstartap id code q) = Done tt w' q /\
    calm (U ++ [started M id t]) w' /\ (t <= clk w')%nat.
Proof using Hok.
  intros Hs [Hi Hu] H0 Hid Hc. set (h := Z.shiftl id 24).
  assert (u32 h = h /\ Z.shiftr h 24 = id) as [Eh Es].
  { unfold h. rewrite Z.shiftr_shiftl_l, Z.shiftl_0_r by lia. split; [|done]. rewrite Z.shiftl_mul_pow2 by lia.
    apply u32_small. change (2 ^ 24) with 16777216. lia. }
  unfold Irq.lapicstartap, Irq.startup_ipi. krun. rewrite !run_hw_outb. krun. rewrite run_hw_outb. krun.
  rewrite run_hw_mmw. krun. rewrite run_hw_mmw. krun. rewrite !write_low by (vm_compute; split; congruence).
  repeat (rewrite run_lapicw by (done || lia); krun). fold h. rewrite Eh, !write_icrlo.
  change (u32 (Z.lor 1536 (Z.shiftr code 12))) with 0x607. change (u32 (Z.lor 1280 32768)) with 0x8500.
  change (u32 (Z.lor 1280 (Z.lor 32768 16384))) with 0xC500. rewrite command_deassert.
  eexists _, _. split; [reflexivity|]. match goal with |- calm ?u ?w1 /\ _ => assert (icr h [] u w1) as Hw1 end.
  { do 2 apply icr_tick. apply command_again. do 2 apply icr_tick. eapply write_icrhi. do 2 apply icr_tick.
    rewrite <- Es at 1. apply command_start; [done|]. do 2 apply icr_tick. eapply write_icrhi. do 4 apply icr_tick.
    apply command_init. do 2 apply icr_tick. eapply write_icrhi. do 4 apply icr_tick. by split. }
  split; [by destruct Hw1 as (_ & ? & ?)|]. 
  repeat first [rewrite clk_command|rewrite clk_write|progress cbn [clk tick]]. lia.
Qed.

Lemma read_booted i id w :
  ids hd !! i = Some id -> let a := cpus_at im + size_cpu * Z.of_nat i + off_booted in
  read_reg a w = if existsb (fun u => (up_id u =? id) && (up_at u + delay hd id <=? clk w)%nat) (ups w) then 1 else 0.
Proof using Hok.
  intros Hi a. unfold read_reg, lapic_reg. change (32 / 4) with 8. destruct (ho_ids _ Hok) as (_ & Hn & _).
  pose proof (ho_cpus _ Hok) as Hc. pose proof (lookup_lt_Some _ _ _ Hi) as Hlt.
  destruct (ho_lapic _ Hok) as [(_ & E & _)|(Hl & _)]; [by rewrite E in Hi|].
  unfold Irq.NCPU in *. rewrite (proj2 (Z.eqb_neq _ _)) by (unfold a, size_cpu, off_booted; lia).
  unfold booted_of. replace (a - cpus_at im - off_booted) with (Z.of_nat i * size_cpu) by (unfold a; lia).
  rewrite (proj2 (Z.leb_le _ _)), Z.mod_mul, Z.div_mul, Nat2Z.id by (unfold size_cpu; lia). cbn [andb Z.eqb]. by rewrite Hi.
Qed.

Lemma wait_booted_run n i id U w s u :
  ids hd !! i = Some id -> calm U w -> u ∈ U -> up_id u = id -> (0 < n)%nat -> (up_at u + delay hd id < clk w + n)%nat ->
  exists w', run (hw mach_mem) w (wait_booted im n i s) = Done tt w' s /\ calm U w'.
Proof using Hok.
  intros Hi Hw Hu Hid. revert w Hw. induction n as [|n IH]; intros w Hw Hn0 Hn; [lia|].
  cbn [wait_booted]. krun. rewrite run_hw_mmr. krun. rewrite (read_booted i id) by done.
  destruct (existsb _ _) eqn:E; cbn [Z.eqb]; [by exists (tick w)|].
  assert (clk w < up_at u + delay hd id)%nat.
  { destruct (decide (up_at u + delay hd id <= clk w)%nat) as [Hle|]; [|lia]. exfalso. apply eq_true_false_abs in E; [done|].
    apply existsb_exists. exists u. split; [apply list_elem_of_In; by destruct Hw as [_ ->]|].
    rewrite Hid, Z.eqb_refl. by apply Nat.leb_le. }
  apply IH; [done|lia|cbn [clk tick]; lia].
Qed.

Lemma get32_written a v m : 0 <= v < 4294967296 -> get32 (mem_bytes (mem_write a (le_enc 4 v) m) a 4) 0 = v.
Proof using Type.
  intros Hv. replace (mem_bytes (mem_write a (le_enc 4 v) m) a 4) with (le_enc 4 v)
    by (by rewrite <- (mem_bytes_write a (le_enc 4 v) m) at 1).
  unfold get32. change (slice (le_enc 4 v) 0 4) with (le_enc 4 v). rewrite le_dec_enc. by apply Z.mod_small.
Qed.

(** What a processor that was started was given. *)
Definition up_cfg (u : up) : Z * Z * Z := (up_id u, up_esp u, up_eip u).
Definition set_ups U (g : stage) : stage :=
  mkstage (st_kern g) (st_locks g) (st_idt g) (st_idtr g) (st_devsw g) U.

Lemma ht_startap g i id :
  let M := Kalloc.ram (Pipe.pkmem (kpipes (st_kern g))) in
  ids hd !! i = Some id -> mem_bytes M code (length (bootother im)) = bootother im ->
  ht (at_stage g) (on_irq (Irq.lapicstartap id code) ;; wait_booted im fuel i)
    (fun _ w s => exists t, at_stage (set_ups (st_ups g ++ [started M id t]) g) w s).
Proof using Hok.
  intros M Hi Hc w s (Hk & Hl & Ht & Hr & Hd & Hre & Hw).
  assert (lapic_at hd <> 0) as H0.
  { destruct (ho_lapic _ Hok) as [(_ & E & _)|(Hl' & _)]; [by rewrite E in Hi|]. lia. }
  assert (0 <= id < 256) as Hid.
  { destruct (ho_ids _ Hok) as (_ & _ & Hf). by eapply (Forall_lookup_1 (fun id => 0 <= id < 256)). }
  destruct (startap_run M (st_ups g) w (mirq s) id Hre Hw H0 Hid Hc) as (w1 & t & E1 & Hw1 & Hle).
  assert (run (hw mach_mem) w (on_irq (Irq.lapicstartap id code) s) = Done tt w1 (with_irq (mirq s) s)) as E1'.
  { unfold on_irq. rewrite run_hw_zoom by done. change (fun q => mach_mem (with_irq q s)) with (fun _ : Irq.irq => mach_mem s).
    unfold mach_mem. rewrite Hk. fold M. by rewrite E1. }
  krun. rewrite E1'. krun. pose proof (ho_delay _ Hok id) as Hdl.
  destruct (wait_booted_run fuel i id _ w1 (with_irq (mirq s) s) (started M id t) Hi Hw1) as (w2 & E2 & Hw2);
    [by apply elem_of_app; right; apply list_elem_of_singleton|done|lia|cbn [up_at started]; lia|].
  exists tt, w2, (with_irq (mirq s) s). split; [done|]. exists t. by split_and!.
Qed.

(** One processor: a page from the top of the free memory is its stack. *)
Lemma ht_start_cpu i id g a len :
  let km := Pipe.pkmem (kpipes (st_kern g)) in
  ids hd !! i = Some id -> Kalloc.kmem_ok km [(a, len)] -> 4096 < len ->
  mem_bytes (Kalloc.ram km) code (length (bootother im)) = bootother im ->
  exists km', Kalloc.kmem_ok km' [(a, len - 4096)] /\
    (forall x, ~ (code - 8 <= x < code) -> Kalloc.ram km' x = Kalloc.ram km x) /\
    ht (at_stage g) (start_cpu im fuel i) (fun _ w s => exists u, up_cfg u = (id, a + len, mpmain_at im) /\
      at_stage (set_ups (st_ups g ++ [u]) (set_kern (with_kmem km' (st_kern g)) g)) w s).
Proof using Hok.
  intros km Hi Hk Hl Hc. destruct (kalloc_top _ _ _ Hk Hl) as (km1 & E1 & Hk1 & Hr1).
  assert (a + len <= 2147483648) as Hb by apply Hk. assert (0 < a) as Ha by apply Hk.
  set (km2 := with_ram (mem_write (code - 4) (le_enc 4 (a + len))) km1).
  set (km3 := with_ram (mem_write (code - 8) (le_enc 4 (mpmain_at im))) km2). exists km3.
  assert (Kalloc.ram km3 = mem_write (code - 8) (le_enc 4 (mpmain_at im)) (mem_write (code - 4) (le_enc 4 (a + len)) (Kalloc.ram km1)))
    as Hkm3 by done.
  assert (forall x, ~ (code - 8 <= x < code) -> Kalloc.ram km3 x = Kalloc.ram km x) as Hram.
  { intros x Hx. rewrite Hkm3. rewrite !mem_write_out, Hr1 by (rewrite ?length_le_enc; lia). done. }
  split; [by do 2 apply ProcessSpec.kmem_ok_with_ram|]. split; [done|].
  unfold start_cpu.
  eapply ht_kern_bind; [rewrite ProcessSpec.exec_kern_kmem; change Proc.KSTACKSIZE with 4096; fold km; rewrite E1; reflexivity|].
  eapply ht_kern_bind; [apply ProcessSpec.exec_mupd|]. change Proc.KSTACKSIZE with 4096.
  replace (a + len - 4096 + 4096) with (a + len) by lia. rewrite u32_small by lia.
  eapply ht_kern_bind; [apply ProcessSpec.exec_mupd|].
  change (ht (at_stage (set_kern (with_kmem km3 (st_kern g)) g)) (apicid <- on_irq (gets (fun q => nth i (Irq.cpus q) 0)) ;;
    on_irq (Irq.lapicstartap apicid code) ;; wait_booted im fuel i) (fun _ w s => exists u, up_cfg u = (id, a + len, mpmain_at im) /\
      at_stage (set_ups (st_ups g ++ [u]) (set_kern (with_kmem km3 (st_kern g)) g)) w s)).
  eapply ht_bind; [apply ht_irq_val, (irq_ok_gets _ (fun x => x = id)); intros q Hq; by apply (re_cpus _ Hq)|].
  intros x w s [Hst ->]. destruct (ht_startap (set_kern (with_kmem km3 (st_kern g)) g) i id Hi) with (w := w) (s := s)
    as (u & w1 & s1 & E2 & t & Ht); [|done|].
  - cbv zeta. change (Kalloc.ram (Pipe.pkmem _)) with (Kalloc.ram km3). erewrite mem_bytes_ext; [exact Hc|]. intros x Hx. apply Hram. lia.
  - exists u, w1, s1. split; [done|]. eexists. split; [|exact Ht]. unfold up_cfg, started. cbn [up_id up_esp up_eip].
    change (Kalloc.ram (Pipe.pkmem _)) with (Kalloc.ram km3). rewrite Hkm3. f_equal; [f_equal|].
    + rewrite mem_bytes_write_out by (rewrite length_le_enc; lia). apply get32_written. lia.
    + apply get32_written. apply (ho_mpmain _ Hok).
Qed.

(** The entry of cpus at the index that cpu() gives is the boot processor's. *)
Lemma boot_entry i id : ids hd !! i = Some id -> (Z.of_nat i =? boot hd) = bool_decide (id = boot hd).
Proof using Hok.
  intros Hi. pose proof (ho_boot _ Hok) as Hb. destruct (ho_ids _ Hok) as (Hnd & _).
  destruct (ho_lapic _ Hok) as [(_ & E & _)|(_ & _ & Hbo)]; [by rewrite E in Hi|].
  destruct (Z.eqb_spec (Z.of_nat i) (boot hd)) as [Ei|Ei]; symmetry; [apply bool_decide_true|apply bool_decide_false].
  - rewrite <- Ei, Nat2Z.id in Hbo. congruence.
  - intros ->. pose proof (NoDup_lookup _ _ _ _ Hnd Hi Hbo). lia.
Qed.

(** The processors to start, and what they are given. *)
Definition others : list Z -> list Z := filter (.≠ boot hd).
Definition stacks (top : Z) (l : list Z) : list (Z * Z * Z) :=
  imap (fun j id => (id, top - 4096 * Z.of_nat j, mpmain_at im)) l.

Lemma stacks_cons top id l : stacks top (id :: l) = (id, top, mpmain_at im) :: stacks (top - 4096) l.
Proof using Type.
  unfold stacks. rewrite imap_cons. f_equal; [do 2 f_equal; lia|]. apply imap_ext. intros j x _. simpl. do 2 f_equal. lia.
Qed.

Lemma ht_start_cpus n i g a len w s :
  let km := Pipe.pkmem (kpipes (st_kern g)) in
  at_stage g w s -> (i + n = length (ids hd))%nat -> Kalloc.kmem_ok km [(a, len)] -> 4096 * Z.of_nat n < len ->
  mem_bytes (Kalloc.ram km) code (length (bootother im)) = bootother im ->
  exists w' s' km' news, run (hw mach_mem) w (start_cpus im fuel n i s) = Done tt w' s' /\
    at_stage (set_ups (st_ups g ++ news) (set_kern (with_kmem km' (st_kern g)) g)) w' s' /\
    up_cfg <$> news = stacks (a + len) (others (drop i (ids hd))) /\
    Kalloc.kmem_ok km' [(a, len - 4096 * Z.of_nat (length news))] /\
    (forall x, ~ (code - 8 <= x < code) -> Kalloc.ram km' x = Kalloc.ram km x).
Proof using Hok.
  revert i g len w s. induction n as [|n IH]; intros i g len w s km Hst Hn Hk Hl Hc.
  { exists w, s, km, []. rewrite drop_ge, app_nil_r by lia. split_and!; try done; [|by rewrite Z.sub_0_r].
    assert (with_kmem km (st_kern g) = st_kern g) as -> by (unfold km; by destruct (st_kern g) as [? ? [] ? ? ?]). by destruct g. }
  cbn [start_cpus]. destruct (lookup_lt_is_Some_2 (ids hd) i ltac:(lia)) as [id Hid]. rewrite (drop_S _ _ _ Hid).
  krun. destruct (ht_irq_val g _ _ ok_cpu w s Hst) as (b & w1 & s1 & E1 & Hs1 & ->). rewrite E1. krun.
  rewrite (boot_entry _ _ Hid). unfold others. destruct (decide (id = boot hd)) as [Eb|Eb].
  - rewrite bool_decide_true by done. krun. rewrite filter_cons_False by (intros ?; done). apply IH; try done; lia.
  - rewrite bool_decide_false by done. rewrite filter_cons_True by done.
    destruct (ht_start_cpu i id g a len Hid Hk ltac:(lia) Hc) as (km1 & Hk1 & Hram1 & Hht).
    destruct (Hht w1 s1 Hs1) as (x & w2 & s2 & E2 & u & Hu & Hs2). destruct x. rewrite E2. krun.
    destruct (IH (S i) _ (len - 4096) w2 s2 Hs2) as (w3 & s3 & km3 & news & E3 & Hs3 & Hn3 & Hk3 & Hram3); try done; try lia.
    + cbn. erewrite mem_bytes_ext; [exact Hc|]. intros x Hx. apply Hram1. lia.
    + exists w3, s3, km3, (u :: news). split; [done|]. split_and!.
      * by rewrite cons_middle, app_assoc.
      * rewrite stacks_cons, fmap_cons, Hu, Hn3. f_equal. f_equal. lia.
      * cbn [length]. by replace (len - 4096 * Z.of_nat (S (length news))) with (len - 4096 - 4096 * Z.of_nat (length news)) by lia.
      * intros x Hx. rewrite Hram3 by done. by apply Hram1.
Qed.

(** *** From start to end *)

Lemma ht_ksegment g :
  ht (at_stage g) ksegment
    (fun _ => at_stage (set_kern (with_cpu (Seg.ksegment (kcpu (st_kern g))) (st_kern g)) g)).
Proof using Hok.
  unfold ksegment. ht_steps. apply ht_kern_last with (a := tt). unfold on_cpu. by rewrite exec_zoom.
Qed.

Lemma ht_tvinit g :
  ht (at_stage g) (tvinit im) (fun _ => at_stage (add_lock Lk_ticks
    (mkstage (st_kern g) (st_locks g) (Seg.tvinit (vectors im)) (st_idtr g) (st_devsw g) (st_ups g)))).
Proof using Type.
  unfold tvinit. eapply ht_seq; [|intros _; apply ht_initlock].
  intros w s (Hk & Hl & Ht & Hr & Hd & Hi & Hw). by exists tt, w, (with_idt (Seg.tvinit (vectors im)) s).
Qed.

Lemma ht_idtinit g :
  ht (at_stage g) (idtinit im) (fun _ => at_stage
    (mkstage (st_kern g) (st_locks g) (st_idt g) (Seg.idtinit (idt_at im)) (st_devsw g) (st_ups g))).
Proof using Type.
  intros w s (Hk & Hl & Ht & Hr & Hd & Hi & Hw). by exists tt, w, (with_idtr (Seg.idtinit (idt_at im)) s).
Qed.

Lemma ht_set_booted g :
  0x100000 <= Seg.caddr (kcpu (st_kern g)) < 0x50000000 -> ht (at_stage g) set_booted (fun _ => at_stage g).
Proof using Hok.
  intros Hc w s Hst. unfold set_booted. krun. rewrite run_hw_mmw. pose proof Hst as (Hk & _). rewrite Hk.
  rewrite write_low by (unfold off_booted; lia). by exists tt, (tick w), s.
Qed.

(** The kernel when main hands over to scheduler on the boot processor. *)
Definition segmented (k : kern (bstate * D)) : kern (bstate * D) := with_cpu (Seg.ksegment (kcpu k)) k.

Lemma ht_mpmain g :
  0x100000 <= Seg.caddr (kcpu (st_kern g)) < 0x50000000 ->
  ht (at_stage g) (mpmain im fuel) (fun _ => at_stage
    (mkstage (segmented (st_kern g)) (st_locks g) (st_idt g) (Seg.idtinit (idt_at im)) (st_devsw g) (st_ups g))).
Proof using Hok.
  intros Hc. unfold mpmain. eapply ht_bind; [apply ht_irq_val, ok_cpu|intros id w s [Hst ->]].
  revert w s Hst. apply (ht_bind _ _ _ _ _ (ht_irq_val g _ _ ok_mpbcpu)). intros b w s [Hst ->].
  rewrite Z.eqb_refl. cbn [negb]. revert w s Hst.
  eapply ht_seq; [intros w s Hst; by exists tt, w, s|intros _]. eapply ht_seq; [apply ht_ksegment|intros _].
  ht_steps. eapply ht_seq; [apply ht_idtinit|intros _]. eapply ht_seq; [by apply ht_set_booted|intros _].
  ht_steps. ht_step.
Qed.

Lemma ht_bootothers g a len w s :
  at_stage g w s -> Kalloc.kmem_ok (Pipe.pkmem (kpipes (st_kern g))) [(a, len)] ->
  4096 * Z.of_nat (length (ids hd)) < len ->
  exists w' s' km' news, run (hw mach_mem) w (bootothers im fuel s) = Done tt w' s' /\
    at_stage (set_ups (st_ups g ++ news) (set_kern (with_kmem km' (st_kern g)) g)) w' s' /\
    up_cfg <$> news = stacks (a + len) (others (ids hd)) /\
    Kalloc.kmem_ok km' [(a, len - 4096 * Z.of_nat (length news))] /\
    (forall x, code + Z.of_nat (length (bootother im)) <= x ->
       Kalloc.ram km' x = Kalloc.ram (Pipe.pkmem (kpipes (st_kern g))) x).
Proof using Hok.
  intros Hst Hk Hl. unfold bootothers. krun.
  destruct (ht_kern_last g _ _ _ (ProcessSpec.exec_mupd (mem_write code (bootother im)) (st_kern g)) w s Hst)
    as (x & w1 & s1 & E1 & Hs1). rewrite E1. krun.
  destruct (ht_irq_val _ _ _ (irq_ok_gets Irq.ncpu (fun n => n = length (ids hd)) re_ncpu) w1 s1 Hs1) as (n & w2 & s2 & E2 & Hs2 & ->).
  rewrite E2. krun.
  destruct (ht_start_cpus (length (ids hd)) 0 _ a len w2 s2 Hs2 eq_refl) as (w3 & s3 & km3 & news & E3 & Hs3 & Hn3 & Hk3 & Hr3);
    [by apply ProcessSpec.kmem_ok_with_ram|done|by apply mem_bytes_write|].
  exists w3, s3, km3, news. split_and!; try done. intros y Hy. rewrite Hr3 by lia. cbn. apply mem_write_out. by right.
Qed.

(** The kernel image: above one megabyte, with room for the code it copies. *)
Record image_ok : Prop := {
  io_end : 0x100000 <= kend im <= 0x70000000;
  io_initcode : (length (initcode im) <= 4096)%nat;
  io_bootother : code + Z.of_nat (length (bootother im)) <= 0x100000
}.

(** The data of the kernel before main, with the disk [d]. *)
Record zeroed (d : D) s : Prop := {
  ze_tab : ktab (mkern s) = Proc.mkptable (replicate Proc.NPROC Proc.proc0) 1 None;
  ze_files : kfiles (mkern s) = replicate NFILE file0;
  ze_icache : icache (kfs (mkern s)) = replicate NINODE inode0;
  ze_cache : blk (kfs (mkern s)) = (mkbstate (replicate 11 buf0) None 0, d);
  ze_free : Kalloc.freelist (Pipe.pkmem (kpipes (mkern s))) = 0;
  ze_cpu : Seg.caddr (kcpu (mkern s)) = cpus_at im + size_cpu * boot hd;
  ze_devsw : length (mdevsw s) = NDEV;
  ze_irq : fresh (mirq s)
}.

Definition all_locks : list lockid :=
  [Lk_ide; Lk_icache; Lk_ftable; Lk_bcache; Lk_ticks; Lk_ptable; Lk_kmem; Lk_input; Lk_cons].

(** The kernel at the call of scheduler. *)
Record running (d : D) w s : Prop := {
  (** the disk is behind the buffer cache, and no buffer is held; *)
  ru_blocks : brep (blk (kfs (mkern s))) (dsk d) [];
  (** the process table has the first process and satisfies its invariant; *)
  ru_procs : forall n, Sys.sys_inv (Sys.mksys (ktab (mkern s)) (replicate n None));
  ru_files : FileRefs.files_of (mkern s);
  (** from the top of the free megabyte were taken: the kernel stack and the
      memory of the first process, which has initcode, and a stack for each of
      the other processors, all of which run mpmain on theirs; *)
  ru_memory : exists start p, kend im < start <= kend im + 4096 /\ let top := start + 1048576 - 8192 in
    Proc.procs (ktab (mkern s)) !! 0%nat = Some p /\ first_proc top p /\
    mem_bytes (mach_mem s) top (length (initcode im)) = initcode im /\
    up_cfg <$> ups w = stacks top (others (ids hd)) /\
    Kalloc.kmem_ok (Pipe.pkmem (kpipes (mkern s))) [(start, 1048576 - 8192 - 4096 * Z.of_nat (length (others (ids hd))))];
  (** the locks are initialised, and the console and the traps set up. *)
  ru_locks : forall l, l ∈ all_locks -> Spinlock.locked (mlocks s l) = 0;
  ru_console : mdevsw s !! CONSOLE = Some (mkdevsw (Some consoleread) (Some consolewrite));
  ru_traps : midt s = Seg.tvinit (vectors im) /\ midtr s = Seg.idtinit (idt_at im)
}.

Lemma cache_ready `{!AtaDisk D} d d' :
  idle d' -> (forall v n, dsk d' v n = dsk d v n) ->
  brep (mkbstate (bufs (Bio.binit (mkbstate (replicate 11 buf0) None 0)))
    (idequeue (Bio.binit (mkbstate (replicate 11 buf0) None 0))) 1, d') (dsk d) [].
Proof using Type.
  intros Hi Hd. assert (mkbstate (bufs (Bio.binit (mkbstate (replicate 11 buf0) None 0)))
    (idequeue (Bio.binit (mkbstate (replicate 11 buf0) None 0))) 1 = Bio.cache0) as -> by (vm_compute; reflexivity).
  exists [9; 8; 7; 6; 5; 4; 3; 2; 1; 0]%nat. cbn [fst snd].
  split; [apply Bio.cache0_ok|]. split; [exact Hi|]. split; [vm_compute; reflexivity|].
  split; [vm_compute; discriminate|]. split; [intros; by rewrite Hd|]. split; [constructor|]. split; [by intros b v n ?%not_elem_of_nil|].
  intros b Hb. do 10 (destruct b as [|b]; [split; [vm_compute; reflexivity|intros _; left; vm_compute; reflexivity]|]).
  unfold NBUF in Hb. lia.
Qed.

Lemma no_refs p n q f :
  Proc.ofile p = replicate Proc.NOFILE None -> FileRefs.refs (Proc.mkptable (p :: replicate 63 Proc.proc0) n q) f = 0%nat.
Proof using Type.
  intros Hp. unfold FileRefs.refs. cbn [Proc.procs sum_list_with]. rewrite Hp. generalize 63%nat. intros m.
  assert (FileRefs.fd_count f (replicate Proc.NOFILE None) = 0%nat) as E by done. rewrite E.
  induction m as [|m IH]; [done|]. exact IH.
Qed.

Lemma files_ready p n q :
  Proc.ofile p = replicate Proc.NOFILE None ->
  FileRefs.files_ok (replicate NFILE file0) (Proc.mkptable (p :: replicate 63 Proc.proc0) n q).
Proof using Type.
  intros Hp. assert (forall x, Proc.ofile x = replicate Proc.NOFILE None -> FileRefs.slot_ok x) as Hslot.
  { intros x Hx. split; [by rewrite Hx|]. split; [|done]. intros fd f Hf. rewrite Hx in Hf. by apply lookup_replicate in Hf as [? _]. }
  split; try done.
  - constructor; [by apply Hslot|]. apply Forall_replicate. by apply Hslot.
  - intros f x Hx. rewrite no_refs by done. apply lookup_replicate in Hx as [-> _]. done.
  - intros f x Hx. rewrite decide_False by apply not_elem_of_nil. apply lookup_replicate in Hx as [-> _]. cbn. lia.
Qed.

Lemma ht_kinit g :
  image_ok -> Kalloc.freelist (Pipe.pkmem (kpipes (st_kern g))) = 0 ->
  exists km start, kend im < start <= kend im + 4096 /\ Kalloc.kmem_ok km [(start, 1048576)] /\
    ht (at_stage g) (kinit im) (fun _ => at_stage (set_kern (with_kmem km (st_kern g)) (add_lock Lk_kmem g))).
Proof using Type.
  intros Him H0. pose proof (io_end Him) as He. destruct (Kalloc.kinit_spec _ (kend im) H0) as (km & start & E & Hs & _ & Hk & _); [lia..|].
  exists km, start. split; [done|]. split; [done|]. unfold kinit. ht_steps.
  apply (ht_kern_last (add_lock Lk_kmem g) _ tt). rewrite ProcessSpec.exec_kern_kmem. cbn [st_kern add_lock]. by rewrite E.
Qed.

(** The initialisers before userinit. *)
Lemma ht_mpinit w s :
  fresh (mirq s) -> mp_tables (mach_mem s) -> calm [] w ->
  exists w' s', run (hw mach_mem) w ((m <- on_kern mem ;; on_irq (Irq.mpinit m)) s) = Done tt w' s' /\
    at_stage (mkstage (mkern s) [] (midt s) (midtr s) (mdevsw s) []) w' s'.
Proof using Hok.
  intros Hf Hm Hw. krun. assert (run (hw mach_mem) w (on_kern mem s) = Done (mach_mem s) w s) as -> by (by destruct s).
  krun. unfold on_irq. rewrite run_hw_zoom by done.
  destruct (mpinit_ready (mach_mem s) (fun t => mach_mem (with_irq t s)) w (mirq s) [] Hf Hm Hw) as (w1 & q & -> & Hq & Hw1).
  exists w1, (with_irq q s). split; [done|]. split_and!; try done. by intros l ?%not_elem_of_nil.
Qed.

(** The end of main: the other processors, and this one. *)
Lemma ht_last g a len w s :
  at_stage g w s -> st_ups g = [] -> Kalloc.kmem_ok (Pipe.pkmem (kpipes (st_kern g))) [(a, len)] ->
  4096 * Z.of_nat (length (ids hd)) < len -> 0x100000 <= Seg.caddr (kcpu (st_kern g)) < 0x50000000 ->
  exists w' s' km', run (hw mach_mem) w ((bootothers im fuel ;; mpmain im fuel) s) = Done tt w' s' /\
    at_stage (mkstage (segmented (with_kmem km' (st_kern g))) (st_locks g) (st_idt g) (Seg.idtinit (idt_at im)) (st_devsw g) (ups w')) w' s' /\
    up_cfg <$> ups w' = stacks (a + len) (others (ids hd)) /\
    Kalloc.kmem_ok km' [(a, len - 4096 * Z.of_nat (length (others (ids hd))))] /\
    (forall x, code + Z.of_nat (length (bootother im)) <= x ->
       Kalloc.ram km' x = Kalloc.ram (Pipe.pkmem (kpipes (st_kern g))) x).
Proof using Hok.
  intros Hst Hu Hk Hl Hc. destruct (ht_bootothers g a len w s Hst Hk Hl) as (w1 & s1 & km & news & E1 & Hs1 & Hn & Hk1 & Hr).
  destruct (ht_mpmain (set_ups (st_ups g ++ news) (set_kern (with_kmem km (st_kern g)) g)) Hc w1 s1 Hs1) as (x & w2 & s2 & E2 & Hs2). exists w2, s2, km. krun. rewrite E1. krun.
  assert (ups w2 = news) as Eu by (destruct Hs2 as (_ & _ & _ & _ & _ & _ & _ & Eu); cbn in Eu; by rewrite Hu in Eu).
  assert (length news = length (others (ids hd))) as El.
  { rewrite <- (length_fmap up_cfg), Hn. unfold stacks. by rewrite length_imap. }
  rewrite El in Hk1. rewrite Eu. destruct x. cbn [st_ups set_ups] in Hs2. rewrite Hu in Hs2. done.
Qed.

(** The invariants hold at the end of main. *)
Lemma running_end `{!AtaDisk D} d d' s0 start p m w s :
  image_ok -> kend im < start <= kend im + 4096 -> first_proc (start + 1048576 - 8192) p ->
  idle d' -> (forall v n, dsk d' v n = dsk d v n) ->
  let c := Bio.binit (mkbstate (replicate 11 buf0) None 0) in
  blk (kfs (mkern s)) = (mkbstate (bufs c) (idequeue c) 1, d') ->
  ktab (mkern s) = Proc.mkptable (p :: replicate 63 Proc.proc0) 2 (Some 0%nat) ->
  kfiles (mkern s) = replicate NFILE file0 ->
  up_cfg <$> ups w = stacks (start + (1048576 - 8192)) (others (ids hd)) ->
  Kalloc.kmem_ok (Pipe.pkmem (kpipes (mkern s))) [(start, 1048576 - 8192 - 4096 * Z.of_nat (length (others (ids hd))))] ->
  (forall l, l ∈ all_locks -> mlocks s l = Spinlock.initlock (mlocks s l)) ->
  length (mdevsw s0) = NDEV -> mdevsw s = console_devsw (mdevsw s0) ->
  midt s = Seg.tvinit (vectors im) -> midtr s = Seg.idtinit (idt_at im) ->
  (forall x, 0x100000 <= x -> mach_mem s x = mem_write (start + 1048576 - 8192) (initcode im) m x) ->
  running d w s.
Proof using Type.
  intros Him Hst Hp Hd' Hdsk c Hblk Htab Hfiles Hups Hk Hlocks Hlen Hdev Hidt Hidtr Hmem. split; try done.
  - rewrite Hblk. by apply cache_ready.
  - intros n. rewrite Htab. by apply Sys.first_proc_inv; apply Hp.
  - unfold FileRefs.files_of. rewrite Hfiles, Htab. apply files_ready, Hp.
  - exists start, p. split; [done|]. cbv zeta. rewrite Htab.
    replace (start + (1048576 - 8192)) with (start + 1048576 - 8192) in Hups by lia. split_and!; try done.
    rewrite <- (mem_bytes_write (start + 1048576 - 8192) (initcode im) m) at 2.
    apply mem_bytes_ext. intros x Hx. apply Hmem. pose proof (io_end Him). lia.
  - intros l Hl. by rewrite (Hlocks l Hl).
  - rewrite Hdev. unfold console_devsw. rewrite list_lookup_alter_eq.
    destruct (lookup_lt_is_Some_2 (mdevsw s0) CONSOLE) as [x ->]; [rewrite Hlen; unfold CONSOLE, NDEV; lia|done].
Qed.

(** C11. The kernel is set up: with the MP tables of the machine in memory and the
    kernel's data zeroed, main reaches the call of scheduler on every hardware of
    this kind, and all the invariants hold there. *)
Theorem main_ready `{!AtaDisk D} `{!SecondDisk D} d w s :
  image_ok -> zeroed d s -> mp_tables (mach_mem s) -> calm [] w -> idle d ->
  exists w' s', run (hw mach_mem) w (main im fuel s) = Done tt w' s' /\ running d w' s'.
Proof using Hok.
  intros Him Hz Hm Hw Hd. destruct (ht_mpinit w s (ze_irq _ _ Hz) Hm Hw) as (w1 & s1 & E1 & Hs1). rewrite run_kbind in E1.
  unfold main. rewrite run_kbind. destruct (run _ _ (on_kern mem s)) as [m w0 s0| | |]; try done. cbn [rbind] in *.
  rewrite run_kbind, E1. cbn [rbind]. clear E1 w0 s0.
  match goal with |- exists w' s', run _ _ (?r _) = _ /\ _ => assert (ht (at_stage (mkstage (mkern s) [] (midt s) (midtr s) (mdevsw s) []))
    r (fun _ => running d)) as Hr; [clear w1 s1 Hs1|destruct (Hr _ _ Hs1) as ([] & w2 & s2 & E2 & H2); by exists w2, s2] end.
  ht_steps. eapply ht_seq; [apply ht_ksegment|intros _]. ht_steps. eapply ht_seq; [apply ht_consoleinit|intros _].
  eapply ht_seq; [apply ht_uartinit|intros _]. ht_steps.
  match goal with |- ht (at_stage ?g) _ _ => destruct (ht_kinit g Him (ze_free _ _ Hz)) as (km & start & Hst & Hk & Hht) end.
  eapply ht_seq; [exact Hht|intros _; clear Hht]. eapply ht_seq; [apply ht_initlock|intros _]. eapply ht_seq; [apply ht_tvinit|intros _].
  eapply ht_seq; [apply ht_binit, (ze_cache _ _ Hz)|intros _]. do 2 (eapply ht_seq; [apply ht_initlock|intros _]).
  match goal with |- ht (at_stage ?g) _ _ => destruct (ht_ideinit g _ d eq_refl Hd) as (d' & Hd' & Hdsk & Hht) end.
  eapply ht_seq; [exact Hht|intros _; clear Hht]. eapply ht_seq; [eapply ht_irq, irq_ok_get|intros mp].
  match goal with |- ht (at_stage ?g) _ _ => eapply (ht_seq _ _ _ (at_stage g)) end; [|intros _].
  { destruct (negb mp); [ht_step|]. intros w1 s1 H1. by exists tt, w1, s1. }
  match goal with |- ht (at_stage ?g) _ _ =>
    destruct (exec_userinit fuel (initcode im) (st_kern g) start 1048576 Hk ltac:(lia) (ze_tab _ _ Hz) (ze_icache _ _ Hz))
      as (k' & p & km' & E & Hp & Hkm & Hram & Ek) end.
  eapply ht_kern_bind; [exact E|]. subst k'. intros w1 s1 H1.
  match type of H1 with at_stage ?g _ _ => destruct (ht_last g start (1048576 - 8192) w1 s1 H1 eq_refl Hkm)
    as (w2 & s2 & km2 & E2 & H2 & Hups & Hk2 & Hr2) end.
  { destruct (ho_ids _ Hok) as (_ & Hn & _). unfold Irq.NCPU in Hn. lia. }
  { cbn. rewrite (ze_cpu _ _ Hz). pose proof (ho_cpus _ Hok). pose proof (ho_boot _ Hok). unfold size_cpu. lia. }
  exists tt, w2, s2. split; [exact E2|]. destruct H2 as (Hkern & Hlocks & Hidt & Hidtr & Hdev & _).
  apply (running_end d d' s start p (Kalloc.ram km)); rewrite ?Hkern; try done; [exact (ze_files _ _ Hz)|exact (ze_devsw _ _ Hz)|].
  intros x Hx. cbn [Kalloc.ram]. unfold mach_mem. rewrite Hkern. cbn. pose proof (io_bootother Him). rewrite Hr2 by lia.
  exact (f_equal (fun m => m x) Hram).
Qed.
End Hw.

(** ** A machine with two processors and two disks *)

Section Example.
Import RamDisk.

#[local] Instance ramdisk_second : SecondDisk ramdisk.
Proof.
  split. intros d Hd. exists (d_outb 0x1f6 0xf0 d). split; [done|].
  destruct (rd_outb_proj 0x1f6 0xf0 d) as (_ & _ & _ & _ & E1).
  destruct (rd_outb_proj 0x1f6 0xe0 (d_outb 0x1f6 0xf0 d)) as (_ & _ & _ & _ & E2).
  cbn [idle dsk d_outb ramdisk_ports] in *. split; intros v n; rewrite E2, E1; [apply Hd|done].
Qed.

(** The MP floating pointer structure and a table with processors 0 and 1. *)
Definition mp_ex : bytes :=
  chars "_MP_" ++ [0x10; 0; 15; 0; 1; 4; 129; 0; 0; 0; 0; 0] ++
  chars "PCMP" ++ [92; 0; 4; 137] ++ replicate 28 0 ++ [0; 0; 0xE0; 0xFE; 0; 0; 0; 0] ++
  [0; 0; 0; 3] ++ replicate 16 0 ++ [0; 1; 0; 1] ++ replicate 16 0 ++ [2; 2; 0; 0; 0; 0; 0; 0].
Definition ram_ex : Z -> Z := mem_write 0xF0000 mp_ex (fun _ => 0).

Definition image_ex : image := mkimage 0x110000 0x108000 0x100200 0x109000 (fun i => 0x101000 + Z.of_nat i) [0x90; 0x90] [0xFA; 0xFC].
Definition hw_ex : hardware := mkhw 0xFEE00000 [0; 1] 0 (fun _ _ => 0) (fun _ _ => 0) (fun _ => 3%nat).
Definition disk_ex : ramdisk := mkrd (fun _ n => replicate 512 (u8 n)) 0 0 0 0.
Definition machine_ex : machine (D := ramdisk) :=
  mkmachine
    (mkkern (mkfs (mkbstate (replicate 11 buf0) None 0, disk_ex) (replicate NINODE inode0)) (replicate NFILE file0)
       (Pipe.mkpstate (Kalloc.mkkmem 0 ∅ ram_ex) ∅) (Proc.mkptable (replicate Proc.NPROC Proc.proc0) 1 None)
       (Seg.mkscpu 0x108000 (Spinlock.mkcpu 0 0 0 0) 0 0 (replicate 7 Seg.SEG_NULL) [] 0 0 None) 0)
    IrqSpec.irq0 (Console.mkconsole false false false (replicate 2000 0) (Console.mkinput (replicate 128 0) 0 0 0) 0)
    (fun _ => Spinlock.mkspinlock 0 0 []) [] [] (replicate NDEV (mkdevsw None None)).

Lemma main_ready_witness :
  exists w' s', run (hw image_ex hw_ex mach_mem) (mkworld 0 0 [] []) (main image_ex 10 machine_ex) = Done tt w' s' /\
    running image_ex hw_ex disk_ex w' s'.
Proof.
  assert (hw_ok image_ex hw_ex 10) as Hok.
  { split; cbn; try lia; try done.
    - right. split; [lia|]. split; [lia|done].
    - split; [|split; [unfold Irq.NCPU; lia|repeat constructor; lia]]. apply (bool_decide_unpack _). by vm_compute.
    - intros t. exists 0%nat. split; [lia|done]. }
  apply (main_ready image_ex hw_ex 10 Hok disk_ex).
  - split; [cbn; lia|cbn; lia|vm_compute; discriminate].
  - split; try reflexivity. by split_and!.
  - unfold mp_tables.
    assert (Irq.mpconfig (mach_mem machine_ex) = Some (0xF0000, 0xF0010)) as -> by (vm_compute; reflexivity).
    split; [done|]. split; [vm_compute; reflexivity|].
    exists [IrqSpec.MPProc 0 3; IrqSpec.MPProc 1 1; IrqSpec.MPIoapic 2]. split; [by vm_compute|]. split; [by vm_compute|].
    split; [done|]. intros [|[|i]] id fl [= <- <-]; by vm_compute.
  - done.
  - intros v n. apply length_replicate.
Defined.
End Example.
End StartSpec.
