(* ===== verification/Usertests.v ===== *)
(** * Usertests: usertests.c

    The tests of the system calls as programs of [User].  The global buffer buf
    is passed from test to test, the heap of umalloc.c is that of [Umalloc].
    A test that finds a mistake prints a message and exits, or prints it and
    returns.  [spin] is a loop that makes no call. *)
From S2P Require Import Prelude FsLayout User Shell Umalloc.
From stdpp Require Import options.

Module Usertests.
Import User.
Import Shell(O_RDONLY, O_WRONLY, O_RDWR, O_CREATE).
Import FsLayout(MAXFILE).

Definition newline : string := String (Ascii.ascii_of_nat 10) "".
Definition say (s : string) : prog unit := printf 1 (s ++ newline) [].
Definition fail_if (b : bool) (s : string) : prog unit := if b then say s ;; exit else Ret tt.
Definition spin {A} : prog A := Fuel.

(** for(i = ...; i < ...; i++) body, [n] times. *)
Fixpoint pfor (n : nat) (i : Z) (body : Z -> prog unit) : prog unit :=
  match n with
  | O => Ret tt
  | S n' => body i ;; pfor n' (i + 1) body
  end.

(** A loop over a state, until the body breaks with a result. *)
Fixpoint ploop {S R} (fuel : nat) (s : S) (body : S -> prog (S + R)) : prog R :=
  match fuel with
  | O => Fuel
  | S fuel' =>
      r <- body s ;;
      match r with inl s' => ploop fuel' s' body | inr v => Ret v end
  end.

(** A char as the int it is converted to. *)
Definition schar (c : Z) : Z := if c <? 128 then c else c - 256.

Definition opentest : prog unit :=
  say "open test" ;;
  fd <- open (chars "echo") 0 ;;
  fail_if (fd <? 0) "open echo failed!" ;;
  close fd ;;
  fd <- open (chars "doesnotexist") 0 ;;
  fail_if (0 <=? fd) "open doesnotexist succeeded!" ;;
  say "open test ok".

Definition writetest (buf : bytes) : prog bytes :=
  say "small file test" ;;
  fd <- open (chars "small") (Z.lor O_CREATE O_RDWR) ;;
  (if 0 <=? fd then say "creat small succeeded; ok" else say "error: creat small failed!" ;; exit) ;;
  pfor 100 0 (fun i =>
    n <- write fd (replicate 10 97) ;;
    (if negb (n =? 10) then printf 1 ("error: write aa %d new file failed" ++ newline) [ANum i] ;; exit else Ret tt) ;;
    n <- write fd (replicate 10 98) ;;
    (if negb (n =? 10) then printf 1 ("error: write bb %d new file failed" ++ newline) [ANum i] ;; exit else Ret tt)) ;;
  say "writes ok" ;;
  close fd ;;
  fd <- open (chars "small") O_RDONLY ;;
  (if 0 <=? fd then say "open small succeeded ok" else say "error: open small failed!" ;; exit) ;;
  let* (i, d) <- read fd 2000 ;;
  let buf := splice buf 0 d in
  (if i =? 2000 then say "read succeeded ok" else say "read failed" ;; exit) ;;
  close fd ;;
  r <- unlink (chars "small") ;;
  fail_if (r <? 0) "unlink small failed" ;;
  say "small file test ok" ;;
  Ret buf.

Definition writetest1 (fuel : nat) (buf : bytes) : prog bytes :=
  say "big files test" ;;
  fd <- open (chars "big") (Z.lor O_CREATE O_RDWR) ;;
  fail_if (fd <? 0) "error: creat big failed!" ;;
  pfor (Z.to_nat MAXFILE) 0 (fun i =>
    n <- write fd (take 512 (put32 buf 0 i)) ;;
    (if negb (n =? 512) then printf 1 ("error: write big file failed" ++ newline) [ANum i] ;; exit else Ret tt)) ;;
  let buf := put32 buf 0 (MAXFILE - 1) in
  close fd ;;
  fd <- open (chars "big") O_RDONLY ;;
  fail_if (fd <? 0) "error: open big failed!" ;;
  buf <- ploop fuel (0, buf) (fun '(n, buf) =>
    let* (i, d) <- read fd 512 ;;
    let buf := splice buf 0 d in
    if i =? 0 then
      if n =? MAXFILE - 1 then printf 1 "read only %d blocks from big" [ANum n] ;; exit else Ret (inr buf)
    else if negb (i =? 512) then printf 1 ("read failed %d" ++ newline) [ANum i] ;; exit
    else if negb (i32 (get32 buf 0) =? n) then
      printf 1 ("read content of block %d is %d" ++ newline) [ANum n; ANum (i32 (get32 buf 0))] ;; exit
    else Ret (inl (n + 1, buf))) ;;
  close fd ;;
  r <- unlink (chars "big") ;;
  fail_if (r <? 0) "unlink big failed" ;;
  say "big files ok" ;;
  Ret buf.

Definition createtest : prog unit :=
  say "many creates, followed by unlink test" ;;
  pfor 52 0 (fun i => fd <- open [97; 48 + i] (Z.lor O_CREATE O_RDWR) ;; close fd ;; Ret tt) ;;
  pfor 52 0 (fun i => unlink [97; 48 + i] ;; Ret tt) ;;
  say "many creates, followed by unlink; ok".

Definition dirtest : prog unit :=
  say "mkdir test" ;;
  r <- mkdir (chars "dir0") ;;
  fail_if (r <? 0) "mkdir failed" ;;
  r <- chdir (chars "dir0") ;;
  fail_if (r <? 0) "chdir dir0 failed" ;;
  r <- chdir (chars "..") ;;
  fail_if (r <? 0) "chdir .. failed" ;;
  r <- unlink (chars "dir0") ;;
  fail_if (r <? 0) "unlink dir0 failed" ;;
  say "mkdir test".

Definition exectest : prog unit :=
  say "exec test" ;;
  r <- exec (chars "echo") [chars "echo"; chars "ALL"; chars "TESTS"; chars "PASSED"] ;;
  fail_if (r <? 0) "exec echo failed".

(** The test of pipe1: (buf[i] & 0xff) != (seq++ & 0xff) for no byte. *)
Fixpoint in_seq (seq : Z) (l : bytes) : bool :=
  match l with
  | [] => true
  | c :: r => (c =? u8 seq) && in_seq (seq + 1) r
  end.

Definition pipe1 (fuel : nat) (buf : bytes) : prog bytes :=
  let* (r, (p0, p1)) <- pipe ;;
  fail_if (negb (r =? 0)) "pipe() failed" ;;
  pid <- fork ;;
  if pid =? 0 then
    close p0 ;;
    pfor 5 0 (fun n =>
      w <- write p1 (u8 <$> seqZ (n * 1033) 1033) ;;
      fail_if (negb (w =? 1033)) "pipe1 oops 1") ;;
    exit
  else if 0 <? pid then
    close p1 ;;
    let* (total, buf) <- ploop fuel (0, 0, 1, buf) (fun '(seq, total, cc, buf) =>
      let* (n, d) <- read p0 cc ;;
      let buf := splice buf 0 d in
      if n <=? 0 then Ret (inr (Some total, buf))
      else if negb (in_seq seq (take (Z.to_nat n) buf)) then say "pipe1 oops 2" ;; Ret (inr (None, buf))
      else Ret (inl (seq + n, total + n, (if 2048 <? cc * 2 then 2048 else cc * 2), buf))) ;;
    match total with
    | None => Ret buf
    | Some total =>
        (if negb (total =? 5 * 1033) then printf 1 ("pipe1 oops 3 total %d" ++ newline) [ANum total] else Ret tt) ;;
        close p0 ;;
        wait ;;
        say "pipe1 ok" ;;
        Ret buf
    end
  else say "fork() failed" ;; exit.

Definition preempt (buf : bytes) : prog bytes :=
  printf 1 "preempt: " [] ;;
  pid1 <- fork ;;
  if pid1 =? 0 then spin else
  pid2 <- fork ;;
  if pid2 =? 0 then spin else
  let* (_, (p0, p1)) <- pipe ;;
  pid3 <- fork ;;
  if pid3 =? 0 then
    close p0 ;;
    w <- write p1 (chars "x") ;;
    (if negb (w =? 1) then printf 1 "preempt write error" [] else Ret tt) ;;
    close p1 ;;
    spin
  else
    close p1 ;;
    let* (n, d) <- read p0 2048 ;;
    let buf := splice buf 0 d in
    if negb (n =? 1) then printf 1 "preempt read error" [] ;; Ret buf
    else
      close p0 ;;
      printf 1 "kill... " [] ;;
      kill pid1 ;; kill pid2 ;; kill pid3 ;;
      printf 1 "wait... " [] ;;
      wait ;; wait ;; wait ;;
      say "preempt ok" ;;
      Ret buf.

Definition exitwait : prog unit :=
  ok <- ploop 101 0 (fun i =>
    if i <? 100 then
      pid <- fork ;;
      if pid <? 0 then say "fork failed" ;; Ret (inr false)
      else if negb (pid =? 0) then
        w <- wait ;;
        if negb (w =? pid) then say "wait wrong pid" ;; Ret (inr false) else Ret (inl (i + 1))
      else exit
    else Ret (inr true)) ;;
  if (ok : bool) then say "exitwait ok" else Ret tt.

(** [base] is the static header of umalloc.c, [h] the heap. *)
Definition mem (base : Z) (fuel : nat) (h : Umalloc.umem) : prog unit :=
  pid <- fork ;;
  if pid =? 0 then
    let* (m1, h) <- ploop fuel (0, h) (fun '(m1, h) =>
      let* (m2, h) <- Umalloc.malloc base fuel 10001 h ;;
      if negb (m2 =? 0) then Ret (inl (m2, Umalloc.set_ptr m2 m1 h)) else Ret (inr (m1, h))) ;;
    h <- ploop fuel (m1, h) (fun '(m1, h) =>
      if negb (m1 =? 0) then
        let m2 := Umalloc.ptr (Umalloc.heap h m1) in
        match Umalloc.free fuel m1 h with Some h => Ret (inl (m2, h)) | None => Fuel end
      else Ret (inr h)) ;;
    let* (m1, h) <- Umalloc.malloc base fuel (1024 * 20) h ;;
    fail_if (m1 =? 0) "couldn't allocate mem?!!" ;;
    match Umalloc.free fuel m1 h with
    | Some _ => say "mem ok" ;; exit
    | None => Fuel
    end
  else wait ;; Ret tt.

(** The bytes of the buffer of sharedfd that are [c]. *)
Definition count (c : Z) (l : bytes) : Z := Z.of_nat (length (filter (.= c) l)).

Definition sharedfd (fuel : nat) : prog unit :=
  unlink (chars "sharedfd") ;;
  fd <- open (chars "sharedfd") (Z.lor O_CREATE O_RDWR) ;;
  if fd <? 0 then printf 1 "fstests: cannot open sharedfd for writing" []
  else
    pid <- fork ;;
    let buf := replicate 10 (if pid =? 0 then 99 else 112) in
    ploop 1001 0 (fun i =>
      if i <? 1000 then
        n <- write fd buf ;;
        if negb (n =? 10) then say "fstests: write sharedfd failed" ;; Ret (inr tt) else Ret (inl (i + 1))
      else Ret (inr tt)) ;;
    (if pid =? 0 then exit else wait ;; Ret tt) ;;
    close fd ;;
    fd <- open (chars "sharedfd") 0 ;;
    if fd <? 0 then say "fstests: cannot open sharedfd for reading"
    else
      let* (nc, np) <- ploop fuel (0, 0, buf) (fun '(nc, np, buf) =>
        let* (n, d) <- read fd 10 ;;
        let buf := splice buf 0 d in
        if 0 <? n then Ret (inl (nc + count 99 buf, np + count 112 buf, buf)) else Ret (inr (nc, np))) ;;
      close fd ;;
      unlink (chars "sharedfd") ;;
      if (nc =? 10000) && (np =? 10000) then say "sharedfd ok"
      else printf 1 ("sharedfd oops %d %d" ++ newline) [ANum nc; ANum np].

Definition twofiles (fuel : nat) (buf : bytes) : prog bytes :=
  say "twofiles test" ;;
  unlink (chars "f1") ;;
  unlink (chars "f2") ;;
  pid <- fork ;;
  if pid <? 0 then say "fork failed" ;; Ret buf
  else
    let fname := if negb (pid =? 0) then chars "f1" else chars "f2" in
    fd <- open fname (Z.lor O_CREATE O_RDWR) ;;
    fail_if (fd <? 0) "create failed" ;;
    let buf := splice buf 0 (replicate 512 (if negb (pid =? 0) then 112 else 99)) in
    pfor 12 0 (fun _ =>
      n <- write fd (take 500 buf) ;;
      if negb (n =? 500) then printf 1 ("write failed %d" ++ newline) [ANum n] ;; exit else Ret tt) ;;
    close fd ;;
    (if negb (pid =? 0) then wait ;; Ret tt else exit) ;;
    buf <- ploop 3 (0, buf) (fun '(i, buf) =>
      if i <? 2 then
        fd <- open (if negb (i =? 0) then chars "f1" else chars "f2") 0 ;;
        let* (total, buf) <- ploop fuel (0, buf) (fun '(total, buf) =>
          let* (n, d) <- read fd 2048 ;;
          let buf := splice buf 0 d in
          if 0 <? n then
            if negb (forallb (fun c => c =? (if negb (i =? 0) then 112 else 99)) (take (Z.to_nat n) buf))
            then say "wrong char" ;; exit
            else Ret (inl (total + n, buf))
          else Ret (inr (total, buf))) ;;
        close fd ;;
        (if negb (total =? 12 * 500) then printf 1 ("wrong length %d" ++ newline) [ANum total] ;; exit else Ret tt) ;;
        Ret (inl (i + 1, buf))
      else Ret (inr buf)) ;;
    unlink (chars "f1") ;;
    unlink (chars "f2") ;;
    say "twofiles ok" ;;
    Ret buf.

(** The check of createdelete on the file [name], the [i]-th. *)
Definition createdelete_check (i : Z) (name : bytes) : prog unit :=
  fd <- open name 0 ;;
  (if ((i =? 0) || (10 <=? i)) && (fd <? 0) then
     printf 1 ("oops createdelete %s didn't exist" ++ newline) [AStr (Some name)] ;; exit
   else if (1 <=? i) && (i <? 10) && (0 <=? fd) then
     printf 1 ("oops createdelete %s did exist" ++ newline) [AStr (Some name)] ;; exit
   else Ret tt) ;;
  if 0 <=? fd then close fd ;; Ret tt else Ret tt.

Definition createdelete : prog unit :=
  say "createdelete test" ;;
  pid <- fork ;;
  fail_if (pid <? 0) "fork failed" ;;
  let c := if negb (pid =? 0) then 112 else 99 in
  pfor 20 0 (fun i =>
    fd <- open [c; 48 + i] (Z.lor O_CREATE O_RDWR) ;;
    fail_if (fd <? 0) "create failed" ;;
    close fd ;;
    if (0 <? i) && (i mod 2 =? 0) then
      r <- unlink [c; 48 + i / 2] ;;
      fail_if (r <? 0) "unlink failed"
    else Ret tt) ;;
  (if pid =? 0 then exit else wait ;; Ret tt) ;;
  pfor 20 0 (fun i => createdelete_check i [112; 48 + i] ;; createdelete_check i [99; 48 + i]) ;;
  pfor 20 0 (fun i => unlink [112; 48 + i] ;; unlink [99; 48 + i] ;; Ret tt) ;;
  say "createdelete ok".

Definition unlinkread (buf : bytes) : prog bytes :=
  say "unlinkread test" ;;
  fd <- open (chars "unlinkread") (Z.lor O_CREATE O_RDWR) ;;
  fail_if (fd <? 0) "create unlinkread failed" ;;
  write fd (chars "hello") ;;
  close fd ;;
  fd <- open (chars "unlinkread") O_RDWR ;;
  fail_if (fd <? 0) "open unlinkread failed" ;;
  r <- unlink (chars "unlinkread") ;;
  fail_if (negb (r =? 0)) "unlink unlinkread failed" ;;
  fd1 <- open (chars "unlinkread") (Z.lor O_CREATE O_RDWR) ;;
  write fd1 (chars "yyy") ;;
  close fd1 ;;
  let* (n, d) <- read fd 2048 ;;
  let buf := splice buf 0 d in
  (if negb (n =? 5) then printf 1 "unlinkread read failed" [] ;; exit else Ret tt) ;;
  fail_if (negb (deref buf =? 104)) "unlinkread wrong data" ;;
  n <- write fd (take 10 buf) ;;
  fail_if (negb (n =? 10)) "unlinkread write failed" ;;
  close fd ;;
  unlink (chars "unlinkread") ;;
  say "unlinkread ok" ;;
  Ret buf.

Definition linktest (buf : bytes) : prog bytes :=
  say "linktest" ;;
  unlink (chars "lf1") ;;
  unlink (chars "lf2") ;;
  fd <- open (chars "lf1") (Z.lor O_CREATE O_RDWR) ;;
  fail_if (fd <? 0) "create lf1 failed" ;;
  n <- write fd (chars "hello") ;;
  fail_if (negb (n =? 5)) "write lf1 failed" ;;
  close fd ;;
  r <- link (chars "lf1") (chars "lf2") ;;
  fail_if (r <? 0) "link lf1 lf2 failed" ;;
  unlink (chars "lf1") ;;
  r <- open (chars "lf1") 0 ;;
  fail_if (0 <=? r) "unlinked lf1 but it is still there!" ;;
  fd <- open (chars "lf2") 0 ;;
  fail_if (fd <? 0) "open lf2 failed" ;;
  let* (n, d) <- read fd 2048 ;;
  let buf := splice buf 0 d in
  fail_if (negb (n =? 5)) "read lf2 failed" ;;
  close fd ;;
  r <- link (chars "lf2") (chars "lf2") ;;
  fail_if (0 <=? r) "link lf2 lf2 succeeded! oops" ;;
  unlink (chars "lf2") ;;
  r <- link (chars "lf2") (chars "lf1") ;;
  fail_if (0 <=? r) "link non-existant succeeded! oops" ;;
  r <- link (chars ".") (chars "lf1") ;;
  fail_if (0 <=? r) "link . lf1 succeeded! oops" ;;
  say "linktest ok" ;;
  Ret buf.

(** The loop of concreate over the directory: the names C0 to Co that it has,
    each once, in [fa], and their number.  [de] is the entry read last. *)
Definition concreate_scan (fuel : nat) (fd : Z) (de : bytes) : prog Z :=
  ploop fuel (replicate 40 0, 0, de) (fun '(fa, n, de) =>
    let* (r, d) <- read fd 16 ;;
    let de := splice de 0 d in
    if 0 <? r then
      if get16 de 0 =? 0 then Ret (inl (fa, n, de))
      else if (byte_at de 2 =? 67) && (byte_at de 4 =? 0) then
        let i := schar (byte_at de 3) - 48 in
        if (i <? 0) || (40 <=? i) then
          printf 1 ("concreate weird file %s" ++ newline) [AStr (Some (drop 2 de))] ;; exit
        else if negb (byte_at fa (Z.to_nat i) =? 0) then
          printf 1 ("concreate duplicate file %s" ++ newline) [AStr (Some (drop 2 de))] ;; exit
        else Ret (inl (<[Z.to_nat i := 1]> fa, n + 1, de))
      else Ret (inl (fa, n, de))
    else Ret (inr n)).

(** [de] is what the local variable de holds. *)
Definition concreate (fuel : nat) (de : bytes) : prog unit :=
  say "concreate test" ;;
  pfor 40 0 (fun i =>
    let file := [67; 48 + i] in
    unlink file ;;
    pid <- fork ;;
    (if negb (pid =? 0) && (i mod 3 =? 1) then link (chars "C0") file ;; Ret tt
     else if (pid =? 0) && (i mod 5 =? 1) then link (chars "C0") file ;; Ret tt
     else
       fd <- open file (Z.lor O_CREATE O_RDWR) ;;
       (if fd <? 0 then printf 1 ("concreate create %s failed" ++ newline) [AStr (Some file)] ;; exit else Ret tt) ;;
       close fd ;; Ret tt) ;;
    if pid =? 0 then exit else wait ;; Ret tt) ;;
  fd <- open (chars ".") 0 ;;
  n <- concreate_scan fuel fd de ;;
  close fd ;;
  fail_if (negb (n =? 40)) "concreate not enough files in directory listing" ;;
  pfor 40 0 (fun i =>
    let file := [67; 48 + i] in
    pid <- fork ;;
    fail_if (pid <? 0) "fork failed" ;;
    (if ((i mod 3 =? 0) && (pid =? 0)) || ((i mod 3 =? 1) && negb (pid =? 0)) then
       fd <- open file 0 ;; close fd ;; Ret tt
     else unlink file ;; Ret tt) ;;
    if pid =? 0 then exit else wait ;; Ret tt) ;;
  say "concreate ok".

Definition bigdir : prog unit :=
  say "bigdir test" ;;
  unlink (chars "bd") ;;
  fd <- open (chars "bd") O_CREATE ;;
  fail_if (fd <? 0) "bigdir create failed" ;;
  close fd ;;
  pfor 500 0 (fun i =>
    r <- link (chars "bd") [120; 48 + i / 64; 48 + i mod 64] ;;
    fail_if (negb (r =? 0)) "bigdir link failed") ;;
  unlink (chars "bd") ;;
  pfor 500 0 (fun i =>
    r <- unlink [120; 48 + i / 64; 48 + i mod 64] ;;
    if negb (r =? 0) then printf 1 "bigdir unlink failed" [] ;; exit else Ret tt) ;;
  say "bigdir ok".

Definition subdir (buf : bytes) : prog bytes :=
  say "subdir test" ;;
  unlink (chars "ff") ;;
  r <- mkdir (chars "dd") ;;
  fail_if (negb (r =? 0)) "subdir mkdir dd failed" ;;
  fd <- open (chars "dd/ff") (Z.lor O_CREATE O_RDWR) ;;
  fail_if (fd <? 0) "create dd/ff failed" ;;
  write fd (chars "ff") ;;
  close fd ;;
  r <- unlink (chars "dd") ;;
  fail_if (0 <=? r) "unlink dd (non-empty dir) succeeded!" ;;
  r <- mkdir (chars "/dd/dd") ;;
  fail_if (negb (r =? 0)) "subdir mkdir dd/dd failed" ;;
  fd <- open (chars "dd/dd/ff") (Z.lor O_CREATE O_RDWR) ;;
  fail_if (fd <? 0) "create dd/dd/ff failed" ;;
  write fd (chars "FF") ;;
  close fd ;;
  fd <- open (chars "dd/dd/../ff") 0 ;;
  fail_if (fd <? 0) "open dd/dd/../ff failed" ;;
  let* (cc, d) <- read fd 2048 ;;
  let buf := splice buf 0 d in
  fail_if (negb (cc =? 2) || negb (deref buf =? 102)) "dd/dd/../ff wrong content" ;;
  close fd ;;
  r <- link (chars "dd/dd/ff") (chars "dd/dd/ffff") ;;
  fail_if (negb (r =? 0)) "link dd/dd/ff dd/dd/ffff failed" ;;
  r <- unlink (chars "dd/dd/ff") ;;
  fail_if (negb (r =? 0)) "unlink dd/dd/ff failed" ;;
  r <- open (chars "dd/dd/ff") O_RDONLY ;;
  fail_if (0 <=? r) "open (unlinked) dd/dd/ff succeeded" ;;
  r <- chdir (chars "dd") ;;
  fail_if (negb (r =? 0)) "chdir dd failed" ;;
  r <- chdir (chars "dd/../../dd") ;;
  fail_if (negb (r =? 0)) "chdir dd/../../dd failed" ;;
  r <- chdir (chars "dd/../../../dd") ;;
  fail_if (negb (r =? 0)) "chdir dd/../../dd failed" ;;
  r <- chdir (chars "./..") ;;
  fail_if (negb (r =? 0)) "chdir ./.. failed" ;;
  fd <- open (chars "dd/dd/ffff") 0 ;;
  fail_if (fd <? 0) "open dd/dd/ffff failed" ;;
  let* (n, d) <- read fd 2048 ;;
  let buf := splice buf 0 d in
  fail_if (negb (n =? 2)) "read dd/dd/ffff wrong len" ;;
  close fd ;;
  r <- open (chars "dd/dd/ff") O_RDONLY ;;
  fail_if (0 <=? r) "open (unlinked) dd/dd/ff succeeded!" ;;
  r <- open (chars "dd/ff/ff") (Z.lor O_CREATE O_RDWR) ;;
  fail_if (0 <=? r) "create dd/ff/ff succeeded!" ;;
  r <- open (chars "dd/xx/ff") (Z.lor O_CREATE O_RDWR) ;;
  fail_if (0 <=? r) "create dd/xx/ff succeeded!" ;;
  r <- open (chars "dd") O_CREATE ;;
  fail_if (0 <=? r) "create dd succeeded!" ;;
  r <- open (chars "dd") O_RDWR ;;
  fail_if (0 <=? r) "open dd rdwr succeeded!" ;;
  r <- open (chars "dd") O_WRONLY ;;
  fail_if (0 <=? r) "open dd wronly succeeded!" ;;
  r <- link (chars "dd/ff/ff") (chars "dd/dd/xx") ;;
  fail_if (r =? 0) "link dd/ff/ff dd/dd/xx succeeded!" ;;
  r <- link (chars "dd/xx/ff") (chars "dd/dd/xx") ;;
  fail_if (r =? 0) "link dd/xx/ff dd/dd/xx succeeded!" ;;
  r <- link (chars "dd/ff") (chars "dd/dd/ffff") ;;
  fail_if (r =? 0) "link dd/ff dd/dd/ffff succeeded!" ;;
  r <- mkdir (chars "dd/ff/ff") ;;
  fail_if (r =? 0) "mkdir dd/ff/ff succeeded!" ;;
  r <- mkdir (chars "dd/xx/ff") ;;
  fail_if (r =? 0) "mkdir dd/xx/ff succeeded!" ;;
  r <- mkdir (chars "dd/dd/ffff") ;;
  fail_if (r =? 0) "mkdir dd/dd/ffff succeeded!" ;;
  r <- unlink (chars "dd/xx/ff") ;;
  fail_if (r =? 0) "unlink dd/xx/ff succeeded!" ;;
  r <- unlink (chars "dd/ff/ff") ;;
  fail_if (r =? 0) "unlink dd/ff/ff succeeded!" ;;
  r <- chdir (chars "dd/ff") ;;
  fail_if (r =? 0) "chdir dd/ff succeeded!" ;;
  r <- chdir (chars "dd/xx") ;;
  fail_if (r =? 0) "chdir dd/xx succeeded!" ;;
  r <- unlink (chars "dd/dd/ffff") ;;
  fail_if (negb (r =? 0)) "unlink dd/dd/ff failed" ;;
  r <- unlink (chars "dd/ff") ;;
  fail_if (negb (r =? 0)) "unlink dd/ff failed" ;;
  r <- unlink (chars "dd") ;;
  fail_if (r =? 0) "unlink non-empty dd succeeded!" ;;
  r <- unlink (chars "dd/dd") ;;
  fail_if (r <? 0) "unlink dd/dd failed" ;;
  r <- unlink (chars "dd") ;;
  fail_if (r <? 0) "unlink dd failed" ;;
  say "subdir ok" ;;
  Ret buf.

Definition bigfile (fuel : nat) (buf : bytes) : prog bytes :=
  say "bigfile test" ;;
  unlink (chars "bigfile") ;;
  fd <- open (chars "bigfile") (Z.lor O_CREATE O_RDWR) ;;
  (if fd <? 0 then printf 1 "cannot create bigfile" [] ;; exit else Ret tt) ;;
  pfor 20 0 (fun i =>
    n <- write fd (replicate 600 i) ;;
    fail_if (negb (n =? 600)) "write bigfile failed") ;;
  let buf := splice buf 0 (replicate 600 19) in
  close fd ;;
  fd <- open (chars "bigfile") 0 ;;
  fail_if (fd <? 0) "cannot open bigfile" ;;
  let* (total, buf) <- ploop fuel (0, 0, buf) (fun '(i, total, buf) =>
    let* (cc, d) <- read fd 300 ;;
    let buf := splice buf 0 d in
    fail_if (cc <? 0) "read bigfile failed" ;;
    if cc =? 0 then Ret (inr (total, buf))
    else
      fail_if (negb (cc =? 300)) "short read bigfile" ;;
      fail_if (negb (schar (byte_at buf 0) =? i / 2) || negb (schar (byte_at buf 299) =? i / 2)) "read bigfile wrong data" ;;
      Ret (inl (i + 1, total + cc, buf))) ;;
  close fd ;;
  fail_if (negb (total =? 20 * 600)) "read bigfile wrong total" ;;
  unlink (chars "bigfile") ;;
  say "bigfile test ok" ;;
  Ret buf.

Definition fourteen : prog unit :=
  say "fourteen test" ;;
  r <- mkdir (chars "12345678901234") ;;
  fail_if (negb (r =? 0)) "mkdir 12345678901234 failed" ;;
  r <- mkdir (chars "12345678901234/123456789012345") ;;
  fail_if (negb (r =? 0)) "mkdir 12345678901234/123456789012345 failed" ;;
  fd <- open (chars "123456789012345/123456789012345/123456789012345") O_CREATE ;;
  fail_if (fd <? 0) "create 123456789012345/123456789012345/123456789012345 failed" ;;
  close fd ;;
  fd <- open (chars "12345678901234/12345678901234/12345678901234") 0 ;;
  fail_if (fd <? 0) "open 12345678901234/12345678901234/12345678901234 failed" ;;
  close fd ;;
  r <- mkdir (chars "12345678901234/12345678901234") ;;
  fail_if (r =? 0) "mkdir 12345678901234/12345678901234 succeeded!" ;;
  r <- mkdir (chars "123456789012345/12345678901234") ;;
  fail_if (r =? 0) "mkdir 12345678901234/123456789012345 succeeded!" ;;
  say "fourteen ok".

Definition rmdot : prog unit :=
  say "rmdot test" ;;
  r <- mkdir (chars "dots") ;;
  fail_if (negb (r =? 0)) "mkdir dots failed" ;;
  r <- chdir (chars "dots") ;;
  fail_if (negb (r =? 0)) "chdir dots failed" ;;
  r <- unlink (chars ".") ;;
  fail_if (r =? 0) "rm . worked!" ;;
  r <- unlink (chars "..") ;;
  fail_if (r =? 0) "rm .. worked!" ;;
  r <- chdir (chars "/") ;;
  fail_if (negb (r =? 0)) "chdir / failed" ;;
  r <- unlink (chars "dots/.") ;;
  fail_if (r =? 0) "unlink dots/. worked!" ;;
  r <- unlink (chars "dots/..") ;;
  fail_if (r =? 0) "unlink dots/.. worked!" ;;
  r <- unlink (chars "dots") ;;
  fail_if (negb (r =? 0)) "unlink dots failed!" ;;
  say "rmdot ok".

Definition dirfile : prog unit :=
  say "dir vs file" ;;
  fd <- open (chars "dirfile") O_CREATE ;;
  fail_if (fd <? 0) "create dirfile failed" ;;
  close fd ;;
  r <- chdir (chars "dirfile") ;;
  fail_if (r =? 0) "chdir dirfile succeeded!" ;;
  r <- open (chars "dirfile/xx") 0 ;;
  fail_if (0 <=? r) "create dirfile/xx succeeded!" ;;
  r <- open (chars "dirfile/xx") O_CREATE ;;
  fail_if (0 <=? r) "create dirfile/xx succeeded!" ;;
  r <- mkdir (chars "dirfile/xx") ;;
  fail_if (r =? 0) "mkdir dirfile/xx succeeded!" ;;
  r <- unlink (chars "dirfile/xx") ;;
  fail_if (r =? 0) "unlink dirfile/xx succeeded!" ;;
  r <- link (chars "README") (chars "dirfile/xx") ;;
  fail_if (r =? 0) "link to dirfile/xx succeeded!" ;;
  r <- unlink (chars "dirfile") ;;
  fail_if (negb (r =? 0)) "unlink dirfile failed!" ;;
  r <- open (chars ".") O_RDWR ;;
  fail_if (0 <=? r) "open . for writing succeeded!" ;;
  fd <- open (chars ".") 0 ;;
  n <- write fd (chars "x") ;;
  fail_if (0 <? n) "write . succeeded!" ;;
  close fd ;;
  say "dir vs file OK".

Definition iref : prog unit :=
  say "empty file name" ;;
  pfor 51 0 (fun _ =>
    r <- mkdir (chars "irefd") ;;
    fail_if (negb (r =? 0)) "mkdir irefd failed" ;;
    r <- chdir (chars "irefd") ;;
    fail_if (negb (r =? 0)) "chdir irefd failed" ;;
    mkdir [] ;;
    link (chars "README") [] ;;
    fd <- open [] O_CREATE ;;
    (if 0 <=? fd then close fd ;; Ret tt else Ret tt) ;;
    fd <- open (chars "xx") O_CREATE ;;
    (if 0 <=? fd then close fd ;; Ret tt else Ret tt) ;;
    unlink (chars "xx") ;;
    Ret tt) ;;
  chdir (chars "/") ;;
  say "empty file name OK".

Definition forktest : prog unit :=
  say "fork test" ;;
  n <- ploop 1001 0 (fun n =>
    if n <? 1000 then
      pid <- fork ;;
      if pid <? 0 then Ret (inr n) else if pid =? 0 then exit else Ret (inl (n + 1))
    else Ret (inr n)) ;;
  fail_if (n =? 1000) "fork claimed to work 1000 times!" ;;
  pfor (Z.to_nat n) 0 (fun _ => w <- wait ;; fail_if (w <? 0) "wait stopped early") ;;
  w <- wait ;;
  fail_if (negb (w =? -1)) "wait got too many" ;;
  say "fork test OK".

(** [buf] and [h] are the data of the program when it starts, [de] the stack
    of concreate. *)
Definition main (base : Z) (fuel : nat) (buf : bytes) (h : Umalloc.umem) (de : bytes) : prog unit :=
  say "usertests starting" ;;
  r <- open (chars "usertests.ran") 0 ;;
  fail_if (0 <=? r) "already ran user tests -- rebuild fs.img" ;;
  fd <- open (chars "usertests.ran") O_CREATE ;;
  close fd ;;
  opentest ;;
  buf <- writetest buf ;;
  buf <- writetest1 fuel buf ;;
  createtest ;;
  mem base fuel h ;;
  buf <- pipe1 fuel buf ;;
  buf <- preempt buf ;;
  exitwait ;;
  rmdot ;;
  fourteen ;;
  buf <- bigfile fuel buf ;;
  buf <- subdir buf ;;
  concreate fuel de ;;
  buf <- linktest buf ;;
  buf <- unlinkread buf ;;
  createdelete ;;
  buf <- twofiles fuel buf ;;
  sharedfd fuel ;;
  dirfile ;;
  iref ;;
  forktest ;;
  bigdir ;;
  exectest ;;
  exit.
End Usertests.
