(* ===== verification/System.v ===== *)
(** * System: user programs as processes of the kernel

    Programs of [User] run as processes of the kernel of [Trap].  A system call
    puts its arguments on the stack and into the buffers of the process, traps
    with the number of the call in %eax, and takes the answer from %eax and from
    memory.  The kernel is the whole of it down to the ports of the disk: trap,
    syscall, the checks of arguments, fork, exit, wait, sysfile.c, file.c, pipe.c,
    fs.c, bio.c and ide.c.  A process that sleeps in the kernel stays there until
    it is woken, the timer interrupts a process after each of its system calls,
    and the next process that can run is chosen in turn.  Writes to descriptor
    1 are collected, as the terminal shows them.  The disk is the one that mkfs
    makes. *)
From S2P Require Import Prelude Kmonad Kalloc Pipe Proc Segment Block Ide Bio FsLayout Fs FsLogic FsImage File Syscall Process Exec Sysfile Console Irq Trap User Coreutils Umalloc Usertests Mkfs MkfsSpec StartSpec.
From stdpp Require Import options.

Module System.
Import FsLayout Fs File Syscall Process Trap FsImage.
Import User(req, rep, prog, Exit, Fuel, Undef, Call, RRead, RWrite, RClose, ROpen, RMknod, RUnlink, RFstat, RLink, RMkdir, RChdir, RDup, RFork, RWait, RPipe, RKill, RExec, RSbrk, RSleep, pbind).

(** ** A process in the kernel *)

Definition upd_tab (f : Proc.ptable -> Proc.ptable) (s : mach disk) : mach disk :=
  let k := mkern s in
  mkmach (mkkern (kfs k) (kfiles k) (kpipes k) (f (ktab k)) (kcpu k) (kticks k)) (mcons s) (mirq s).
Definition proc_of (cp : nat) (s : mach disk) : Proc.proc := Proc.proc_at (ktab (mkern s)) cp.

Inductive kres : Type :=
| KDone (s : mach disk)
| KBlock (s : mach disk) (resume : mach disk -> outcome (mach disk) unit)
| KStop (why : string).

(** Process [cp] runs in the kernel until it returns or gives up the processor.
    Sleeping and waking change the process table as sleep and wakeup of proc.c
    do. *)
Fixpoint kernel_run (cp : nat) (o : outcome (mach disk) unit) : kres :=
  match o with
  | Kmonad.Ret _ s => KDone s
  | Panic m => KStop m
  | Diverge => KStop "diverges"
  | Vis e s k =>
      match e as e0 return (ans e0 -> mach disk -> kres) -> (ans e0 -> mach disk -> outcome (mach disk) unit) -> kres with
      | EAcquire _ | ERelease _ | ECprintf _ | EOutb _ _ | EOuts _ _ _ | EMmw _ _ => fun run _ => run tt s
      | EKilled => fun run _ => run (negb (Proc.killed (proc_of cp s) =? 0)) s
      | EWakeup c => fun run _ => run tt (upd_tab (Proc.wakeup1 c) s)
      | ESleep c _ => fun _ k =>
          KBlock (upd_tab (Proc.upd cp (fun p => Proc.set_state Proc.SLEEPING (Proc.set_chan (Some c) p))) s)
            (fun s' => k tt (upd_tab (Proc.upd cp (Proc.set_chan None)) s'))
      | ESwtch None => fun _ k => KBlock s (k tt)
      | ESwtch (Some _) | EInb _ | EIns _ _ _ => fun _ _ => KStop "device"
      | EMmr _ => fun run _ => run 0 s
      end (fun a s' => kernel_run cp (k a s')) k
  end.

(** ** System calls *)

(** A process has one page: the stack, two strings and a buffer. *)
Definition esp : Z := 0x100.
Definition str1 : Z := 0x200.
Definition str2 : Z := 0x400.
Definition ubuf : Z := 0x600.

(** The memory at [base] with the words of the stack and the data of a call.  A
    program of [User] holds its data itself, so only what the call refers to has
    to be in memory while the kernel runs. *)
Definition user_mem (base : Z) (ws : list Z) (ds : list (Z * bytes)) : Z -> Z :=
  mem_write (base + esp + 4) (concat (le_enc 4 <$> ws))
    (foldr (fun d m => mem_write (base + fst d) (snd d) m) (fun _ => 0) ds).

(** The number of a call, the words on the stack and the data they point to. *)
Definition marshal (r : req) : Z * list Z * list (Z * bytes) :=
  match r with
  | RFork => (1, [], [])
  | RWait => (3, [], [])
  | RPipe => (4, [ubuf], [])
  | RWrite fd d => (5, [fd; ubuf; Z.of_nat (length d)], [(ubuf, d)])
  | RRead fd n => (6, [fd; ubuf; n], [])
  | RClose fd => (7, [fd], [])
  | RKill pid => (8, [pid], [])
  | RExec p _ => (9, [str1; ubuf], [(str1, p ++ [0])])
  | ROpen p m => (10, [str1; m], [(str1, p ++ [0])])
  | RMknod p a b => (11, [str1; a; b], [(str1, p ++ [0])])
  | RUnlink p => (12, [str1], [(str1, p ++ [0])])
  | RFstat fd => (13, [fd; ubuf], [])
  | RLink p q => (14, [str1; str2], [(str1, p ++ [0]); (str2, q ++ [0])])
  | RMkdir p => (15, [str1], [(str1, p ++ [0])])
  | RChdir p => (16, [str1], [(str1, p ++ [0])])
  | RDup fd => (17, [fd], [])
  | RSbrk n => (19, [n], [])
  | RSleep n => (20, [n], [])
  end.

Definition trap_frame (no num : Z) : Proc.trapframe :=
  Proc.mktf 0 0 0 0 0 0 0 num 0 0 0 0 no 0 0 35 512 esp 0.

(** The kernel from the trap to the return to user mode. *)
Definition kernel (no num : Z) : K (mach disk) unit :=
  trap 3000 (fun _ => None) (fun _ => None) [] (kret tt) (fun _ => []) (trap_frame no num).

Definition start_call (cp : nat) (r : req) (s : mach disk) : outcome (mach disk) unit :=
  let '(num, ws, ds) := marshal r in
  let k := mkern s in
  kernel T_SYSCALL num
    (mkmach (with_kmem (with_ram (fun _ => user_mem (Proc.pmem (proc_of cp s)) ws ds) (Pipe.pkmem (kpipes k))) k) (mcons s) (mirq s)).

Definition eax (cp : nat) (s : mach disk) : Z := i32 (Proc.tf_eax (Proc.tf (proc_of cp s))).

(** The answer to process [cp]; a program that exec replaces is not one of [prog]. *)
Definition answer {A} (r : req) (cp : nat) (s : mach disk) : (rep r -> prog A) -> prog A :=
  let v := eax cp s in
  let get i n := mem_bytes (Kalloc.ram (Pipe.pkmem (kpipes (mkern s)))) (Proc.pmem (proc_of cp s) + ubuf + i) n in
  match r with
  | RRead _ _ => fun k => k (v, get 0 (Z.to_nat v))
  | RPipe => fun k => k (v, (i32 (le_dec (get 0 4%nat)), i32 (le_dec (get 4 4%nat))))
  | RFstat _ => fun k => k (v, User.mkustat (i16 (le_dec (get 0 2%nat))) (i32 (le_dec (get 4 4%nat))) (le_dec (get 8 4%nat)) (i16 (le_dec (get 12 2%nat))) (le_dec (get 16 4%nat)))
  | RExec _ _ => fun k => if v =? -1 then k v else Undef
  | RFork | RWait | RWrite _ _ | RClose _ | RKill _ | ROpen _ _ | RMknod _ _ _ | RUnlink _ | RLink _ _ | RMkdir _ | RChdir _ | RDup _ | RSbrk _ | RSleep _ => fun k => k v
  end.

(** ** Processes in turn *)

(** What a process does next: a program in user mode, the same with a timer
    interrupt due, or the rest of its way through the kernel. *)
Inductive thread : Type :=
| TUser (p : prog unit)
| TTick (p : prog unit)
| TKern (resume : mach disk -> outcome (mach disk) unit) (fork : bool) (fin : nat -> mach disk -> thread).

Record world : Type := mkworld { smach : mach disk; threads : list thread; screen : bytes }.

Definition set_thread (i : nat) (t : thread) (w : world) : world :=
  mkworld (smach w) (<[i := t]> (threads w)) (screen w).
Definition set_mach (s : mach disk) (w : world) : world := mkworld s (threads w) (screen w).

(** The child of a fork that returned to [cp] goes on as the same program. *)
Definition start_child (cp : nat) (fin : nat -> mach disk -> thread) (w : world) : world :=
  let s := smach w in
  let pid := eax cp s in
  if 0 <? pid then
    match Proc.find_from (fun p => Proc.pid p =? pid) 0 (Proc.procs (ktab (mkern s))) with
    | Some i => set_thread i (fin i s) w
    | None => w
    end
  else w.

Definition settle (cp : nat) (fork : bool) (fin : nat -> mach disk -> thread) (r : kres) (w : world) : world + string :=
  match r with
  | KDone s =>
      let w := set_thread cp (fin cp s) (set_mach s w) in
      inl (if fork then start_child cp fin w else w)
  | KBlock s resume => inl (set_thread cp (TKern resume fork fin) (set_mach s w))
  | KStop why => inr why
  end.

(** One step of the running process: to the end of a system call or a timer
    interrupt, or until it gives up the processor. *)
Definition step (cp : nat) (w : world) : world + string :=
  let s := smach w in
  let interrupt p := settle cp false (fun _ _ => TUser p) (kernel_run cp (kernel (T_IRQ0 + Irq.IRQ_TIMER) 0 s)) w in
  match threads w !! cp with
  | None => inr "no such process"
  | Some (TKern resume fork fin) => settle cp fork fin (kernel_run cp (resume s)) w
  | Some (TTick p) => interrupt p
  | Some (TUser p) =>
      match p with
      | User.Ret _ | Exit => settle cp false (fun _ _ => TUser Undef) (kernel_run cp (kernel T_SYSCALL 2 s)) w
      | Fuel => interrupt p
      | Undef => inr "undefined"
      | Call r k =>
          match r as r0 return (rep r0 -> prog unit) -> world + string with
          | RWrite 1 d => fun k =>
              inl (mkworld s (<[cp := TUser (k (Z.of_nat (length d)))]> (threads w)) (screen w ++ d))
          | r0 => fun k =>
              settle cp (match r0 with RFork => true | _ => false end)
                (fun i s' => TTick (answer r0 i s' k)) (kernel_run cp (start_call cp r0 s)) w
          end k
      end
  end.

(** The next process that can run, after [cp] in the table. *)
Definition next_proc (cp : nat) (s : mach disk) : option nat :=
  let l := Proc.procs (ktab (mkern s)) in
  match Proc.find_from (Proc.in_state Proc.RUNNABLE) (S cp) (drop (S cp) l) with
  | Some i => Some i
  | None => Proc.find_from (Proc.in_state Proc.RUNNABLE) 0 l
  end.

Definition dispatch (i : nat) (w : world) : world :=
  let s := upd_tab (Proc.upd i (Proc.set_state Proc.RUNNING)) (smach w) in
  let k := mkern s in
  set_mach (mkmach (mkkern (kfs k) (kfiles k) (kpipes k) (ktab k) (Seg.set_cur (Some i) (kcpu k)) (kticks k)) (mcons s) (mirq s)) w.

(** Until the first process has returned; the screen then. *)
Fixpoint go (fuel : nat) (cp : nat) (w : world) : bytes + string :=
  match fuel with
  | O => inr "fuel"
  | S fuel' =>
      if Proc.in_state Proc.RUNNING (proc_of cp (smach w)) then
        match threads w !! 0%nat with
        | Some (TUser (User.Ret _)) => inl (screen w)
        | _ => match step cp w with inl w' => go fuel' cp w' | inr why => inr why end
        end
      else
        match next_proc cp (smach w) with
        | Some i => go fuel' i (dispatch i w)
        | None => inr "no process can run"
        end
  end.

(** ** A machine *)

(** The disk that mkfs makes of README and echo. *)
Definition system_disk : contents :=
  match exec (Mkfs.main (replicate 500 0) [(chars "README", [chars "xv6"]); (chars "_echo", [])]) Mkfs.mk0 with
  | Done _ _ s => MkfsSpec.disk s
  | _ => fun _ _ => []
  end.

(** The memory after kinit, without the pages of the first process. *)
Definition system_mem : Kalloc.kmem :=
  match exec (Kalloc.kinit 0x110000) (Kalloc.mkkmem 0 ∅ (fun _ => 0)) with
  | Done _ _ k => k
  | _ => Kalloc.mkkmem 0 ∅ (fun _ => 0)
  end.

(** The kernel with one process, in the root directory, with no open files. *)
Definition system_kern : kern disk :=
  mkkern (mkfs (Bio.cache0, mkrd system_disk 0 0 0 0) (StartSpec.root_inode :: replicate 49 inode0))
    (replicate NFILE file0) (Pipe.mkpstate system_mem ∅)
    (Proc.mkptable
       (Proc.set_files (replicate Proc.NOFILE None) (Some 0%nat)
          (Proc.set_state Proc.RUNNING (Proc.set_pid 1 (Proc.set_mem 0x20000 4096 Proc.proc0))) :: replicate 63 Proc.proc0)
       2 (Some 0%nat))
    (Seg.set_cur (Some 0%nat) Seg.cpu0) 0.

(** The first process opens the terminal as init does, starts the program and
    waits for it. *)
Definition init {A} (p : prog A) : prog unit :=
  pbind (User.mknod (chars "console") 1 1) (fun _ =>
  pbind (User.open (chars "console") Coreutils.O_RDWR) (fun _ =>
  pbind (User.dup 0) (fun _ => pbind (User.dup 0) (fun _ =>
  pbind User.fork (fun pid =>
  if pid =? 0 then pbind p (fun _ => Exit) else pbind User.wait (fun _ => User.Ret tt)))))).

Definition system (p : prog unit) : world :=
  mkworld (mkmach system_kern
    (Console.mkconsole true false false [] (Console.mkinput [] 0 0 0) 0) IrqSpec.irq0)
    (TUser p :: replicate 63 (TUser Undef)) [].

(** The screen after a program. *)
Definition shows {A} (p : prog A) : bytes + string := go 80000 0 (system (init p)).

(** ** usertests.c on the machine *)

Definition passes {A} (p : prog A) (out : list string) : bool :=
  match shows p with
  | inl l => bool_decide (l = concat ((fun s => chars s ++ [10]) <$> out))
  | inr _ => false
  end.

(** The memory that the tests start with: [buf], [de] and the heap of umalloc.c. *)
Definition buf0 : bytes := replicate 2048 0.
Definition de0 : bytes := replicate 16 0.
Definition heap0 : Umalloc.umem := Umalloc.mkumem (fun _ => Umalloc.mkhdr 0 0) 0.

#[local] Transparent gmap.gmap_empty.
Ltac run_test := lazy; reflexivity.
Ltac vm_run_test := vm_compute; reflexivity.

Lemma opentest_passes : passes Usertests.opentest ["open test"; "open test ok"] = true.
Proof. vm_run_test. Qed.
Lemma writetest_passes : passes (Usertests.writetest buf0) ["small file test"; "creat small succeeded; ok"; "writes ok"; "open small succeeded ok"; "read succeeded ok"; "small file test ok"] = true.
Proof. vm_run_test. Qed.
Lemma writetest1_passes : passes (Usertests.writetest1 200 buf0) ["big files test"; "big files ok"] = true.
Proof. vm_run_test. Qed.
Lemma createtest_passes : passes Usertests.createtest ["many creates, followed by unlink test"; "many creates, followed by unlink; ok"] = true.
Proof. vm_run_test. Qed.
Lemma mem_passes : passes (Usertests.mem 2000 200 heap0) ["mem ok"] = true.
Proof. run_test. Qed.
Lemma pipe1_passes : passes (Usertests.pipe1 100 buf0) ["pipe1 ok"] = true.
Proof. vm_run_test. Qed.
Lemma preempt_passes : passes (Usertests.preempt buf0) ["preempt: kill... wait... preempt ok"] = true.
Proof. run_test. Qed.
Lemma exitwait_passes : passes Usertests.exitwait ["exitwait ok"] = true.
Proof. run_test. Qed.
Lemma rmdot_passes : passes Usertests.rmdot ["rmdot test"; "rmdot ok"] = true.
Proof. vm_run_test. Qed.
Lemma fourteen_passes : passes Usertests.fourteen ["fourteen test"; "fourteen ok"] = true.
Proof. vm_run_test. Qed.
Lemma bigfile_passes : passes (Usertests.bigfile 100 buf0) ["bigfile test"; "bigfile test ok"] = true.
Proof. vm_run_test. Qed.
Lemma subdir_passes : passes (Usertests.subdir buf0) ["subdir test"; "subdir ok"] = true.
Proof. vm_run_test. Qed.
Lemma concreate_passes : passes (Usertests.concreate 100 de0) ["concreate test"; "concreate ok"] = true.
Proof. run_test. Qed.
Lemma linktest_passes : passes (Usertests.linktest buf0) ["linktest"; "linktest ok"] = true.
Proof. vm_run_test. Qed.
Lemma unlinkread_passes : passes (Usertests.unlinkread buf0) ["unlinkread test"; "unlinkread ok"] = true.
Proof. vm_run_test. Qed.
Lemma createdelete_passes : passes Usertests.createdelete ["createdelete test"; "createdelete ok"] = true.
Proof. vm_run_test. Qed.
Lemma sharedfd_passes : passes (Usertests.sharedfd 3000) ["sharedfd ok"] = true.
Proof. vm_run_test. Qed.
Lemma dirfile_passes : passes Usertests.dirfile ["dir vs file"; "dir vs file OK"] = true.
Proof. vm_run_test. Qed.
Lemma iref_passes : passes Usertests.iref ["empty file name"; "empty file name OK"] = true.
Proof. vm_run_test. Qed.
Lemma forktest_passes : passes Usertests.forktest ["fork test"; "fork test OK"] = true.
Proof. run_test. Qed.

End System.
